(* ===== verification/_CoqProject ===== *)
-Q . S2P
Prelude.v
Words.v
Consts.v
Sel4.v
Sel4Laws.v
RefKernel.v
Externs.v
Reference.v
Messages.v
Uspace.v
ObjAllocator.v
KTask.v
FrameMem.v
UserMem.v
Exec.v
ElfLoad.v
ImageMap.v
ImageTables.v
ImageLoad.v
KThread.v
NetClient.v
Syscalls.v
KInv.v
Clone.v
Threads.v
Fork.v
CloneVm.v
Child.v
Typing.v
Dispatch.v
NetDev.v
Smoltcp.v
RefSmoltcp.v
ListenTable.v
TcpSocket.v
NetTest.v
NetInit.v
NetBench.v
NetIpc.v
TaskHelper.v
RootTask.v
ThreadTest.v
Runtime.v
NetMain.v
Irq.v
Dma.v
Shim.v
UserStep.v
Hello.v
Program.v
Boot.v
MemSpec.v
