(* ===== verification/Prelude.v ===== *)
(** * Verification of a multi-server system on seL4

    The repository is a small operating system in Rust on top of the seL4
    microkernel.  Its parts are separate protection domains that talk over
    seL4 endpoints:

    - the _root task_ ([crates/root-task], [crates/task-helper]) boots the
      system and answers a small protocol of its own;
    - the _kernel thread_ ([crates/kernel-thread]) runs Linux programs: it keeps
      a [Sel4Task] per process, receives its page faults and system calls on an
      endpoint, and answers them;
    - the _net thread_ ([crates/net-thread]) owns the network card and serves
      TCP sockets over IPC, on top of the third-party stack [smoltcp];
    - the _block thread_ ([crates/blk-thread]) owns the disk;
    - the _shim_ and the _test thread_ are user programs;
    - [crates/common] and [crates/crate-consts] hold what they share: the
      message formats, the object allocator, the mapping of ELF images and the
      constants.

    ** How the code is modelled

    Definitions are translated from the Rust sources and keep its names
    ([Type_method] for a method whose name is not unique).  A computation is a
    function of type [M S A] from a state to an [outcome]: it returns a value
    and a new state, or panics, or deadlocks on a spin lock its own thread
    holds, or -- in the model of a [while] or [loop] only -- runs out of fuel.
    Rust's [Result] is [result]; [?] is written [x <-? m; ..].  Machine words are
    [Z] with the wrap-around written out ([Words]); where a debug build checks
    an addition and a release build wraps, the model takes the build as an
    argument ([add_chk]).  [BTreeMap]s are [gmap]s, iterated in key order
    ([KTask.btree_iter]); vectors are lists with panicking indexing ([index],
    [index_set]).

    [wp m Q s] says that [m] returns from [s] with [Q]: it implies
    termination and the absence of panics.  [preserves I m] is the partial
    version used for invariants.

    Code outside the repository is a parameter: a class of operations, and a
    second class of laws that state its documented behaviour.

    - [Sel4], [Sel4Laws]: the kernel's invocations over an abstract state that
      is observed through its capability slots, translations and frames; the
      own address space is read and written byte by byte through [load8] and
      [store8], so that the code's copies through a temporarily mapped page
      really go through the mapping.  [RefKernel] is an executable kernel that
      satisfies the laws.  Three more classes state what single components rely
      on besides: [TableLaws] (translation tables, for the image mapper),
      [ThreadLaws] (TCBs, CNodes and the ASID pool, for [sys_clone]) and
      [FrameAddress] (physical addresses, for the DMA service).  [TlsCrate] and
      [TlsLaws] in [ThreadTest] are the TLS and heap crates; [stores_through] in
      [Hello] says what the processor does with a store of a user program.
    - [Externs]: the crates [bitflags], [memory_addr], [axerrno], [syscalls];
      [Reference] has their instances.
    - [Smoltcp]: sockets, socket sets, interfaces and packet parsing;
      [RefSmoltcp] is an instance.  [NetDriver] in [NetDev] is the driver of the
      network card, [IfaceConfig] in [NetInit] the configuration of an
      interface.
    - [IrqOps] in [Boot]: receiving a capability, interrupt handlers and waiting;
      [IrqView] and [IrqLaws] say what they do to the slots, and that the root
      task answers a registration.
    - [KEnv] in [Syscalls] and [NEnv] in [NetIpc]: addresses the linker chooses,
      the bytes of embedded ELF files, the layout of Rust structures, and the
      other side of an endpoint.

    The instances are used by the [.._witness] lemmas, which apply a theorem to
    a concrete state and thereby show that its hypotheses can be met.

    ** The files

    - [Prelude], [Words], [Consts]: the monad and its rules, words, bytes and
      alignment, and the constants of [crate-consts] and [common].
    - [Messages] ([common/src/lib.rs]): labels, encoders and decoders of the
      protocols, as instances of one class of protocols.
    - [Uspace] ([common/src/uspace.rs]): address-space layout, socket addresses,
      clone arguments.
    - [ObjAllocator] ([common/src/obj_allocator.rs]): slots and retyping.
    - [ImageMap], [ImageTables], [ImageLoad] ([common/src/utils.rs]): footprint
      and mapping of an ELF image, its translation tables, its bytes.
    - [KTask], [Exec], [ElfLoad] ([kernel-thread/src/task.rs]): the task record,
      mapping and unmapping, free areas; the initial stack and the ELF loader.
    - [FrameMem], [UserMem] ([kernel-thread/src/utils.rs], [syscall/fs]): frames
      seen as byte arrays; copies from and to a task's memory, [sys_write].
    - [KThread], [NetClient], [Syscalls]
      ([kernel-thread/src/child_test.rs], [syscall/]): the kernel thread's
      state, its socket client, every system call, the dispatcher and the
      service loop.
    - [KInv], [Clone], [Threads], [Fork], [CloneVm], [Child], [Typing], [Dispatch],
      [MemSpec]: the kernel thread's invariant, the theorems about its system
      calls and about the start of its child, the types of its values, and the
      specification of its memory service.
    - [NetDev], [NetInit], [NetBench] ([net-thread/src/smoltcp_impl]): the card
      and the loopback device with their tokens as instances of the trait
      [Device], the start of the stack, the benchmarks.
    - [ListenTable], [TcpSocket], [NetIpc], [NetTest] ([net-thread/src]):
      passive connections, the socket state machine, the IPC server, and the test
      client and server ([smoltcp_impl/test.rs]).
    - [TaskHelper] ([task-helper/src/lib.rs]): the task builder of the root task.
    - [RootTask] ([root-task/src]): untyped memory, server threads, the root
      task's service loop.
    - [ThreadTest] ([kernel-thread/src/thread.rs], [root-task/src/thread.rs]): the
      start of a second thread in the own address space.
    - [Runtime] ([runtime.rs] of the three servers, [kernel-thread/src/logging.rs]):
      where a thread finds its IPC buffer, the panics its entry code catches, and
      the line format of the loggers.
    - [NetMain] ([net-thread/src/main.rs]): the net thread from its entry point.
    - [Irq] ([kernel-thread/src/irq_test.rs], [blk-thread/src/main.rs], the root
      task's loop): the threads as programs of kernel calls, run concurrently.
    - [Dma] ([blk-thread/src/virtio.rs], [net-thread/src/virtio_impl.rs]): the
      drivers' DMA allocators over the root task's service.
    - [Shim] ([shim/src/main.rs], [test-thread/src/main.rs]): the system-call
      path of the user programs over the kernel thread's service; [UserStep] says
      what one call leaves alone, [Hello] runs them from the start of the child to
      the text on the console, [Program] the test program up to its fork.
    - [Boot] ([kernel-thread/src/main.rs], [irq_test.rs]): the kernel thread from
      its entry point to its child and the service loop.

    ** What the theorems show

    - _Refinement_: the kernel thread's service loop, from received messages to
      replies, implements the abstract memory service of [MemSpec], in which a
      task is a partial function from addresses to bytes.
    - _Processes_: [sys_clone] creates a running copy of its parent and leaves
      all others alone, and with [CLONE_VM] a thread in the parent's memory; [clone_vspace] gives the child an equal but separate
      memory; [map_stack] builds the stack the program expects; [load_elf] fills
      memory as the program headers say; [test_child] starts the embedded program
      in an address space that holds exactly its segments, stack and IPC buffer.
    - _Threads_: [test_threads] starts its second thread on its own stack, TLS area
      and IPC buffer, and the thread gets the closure that was boxed for it; every
      program looks for its IPC buffer where its loader has mapped it.
    - _Types_: whatever messages arrive, every value the kernel thread keeps or
      sends stays within its machine type.
    - _Image loading_: after the root task has mapped a program image into a new
      address space, the program finds there exactly the bytes its ELF file
      describes, and every page of the footprint has its tables.
    - _Composition_: from the entry point of the kernel thread, the allocator, the
      interrupt registration, the start of the child and the child's own run fit
      together, up to the child's greeting on the console; the test program greets,
      forks, and has a running copy with equal memory; the net thread reaches its
      client, and its entry code reports the panic that follows; a user program's
      [write] travels through its shim, the endpoint and the service loop to the
      console; a driver's DMA allocation
      returns, through the root task, pages with the physical addresses of
      their frames; the task helper's [map_page] is equivalent to the kernel
      thread's.
    - _Protocols_: every request survives encoding and decoding, no message is
      accepted by two protocols; IPv4 socket addresses survive the C layout;
      the word in a system call's reply determines its result.
    - _Allocation and mapping_: allocations are consecutive fresh slots;
      [map_page] reaches its goal whatever tables are missing, and changes
      nothing else; [find_free_area] is disjoint from what is mapped; the
      footprint of an image is the least aligned range; the root task picks the
      largest untyped regions.
    - _Memory of a process_: [read_item], [read_item_list] and
      [write_item_list] are specified by the bytes the user sees, over any
      number of pages; [sys_mmap], [sys_unmap], [sys_brk] and page faults
      change exactly the pages they should and keep the invariant [kt_ok] of
      all tasks.
    - _Concurrency_: [Irq] has a transition system of threads, synchronous
      endpoints, reply capabilities, notifications and interrupts.  Its reachable
      states are explored by evaluation, and a lemma turns a closed set of states
      into an invariant by induction on steps: interrupt registration never
      panics, never loses a wake-up and cannot deadlock.
    - _Devices_: the tokens of the network card answer every packet, give every
      buffer back and never borrow the [RefCell] twice; the loopback device is a
      queue; [init] establishes the server's invariant; the benchmark ends.
    - _Sockets_: [accept] serves the oldest completed connection; the methods of
      a socket follow the documented state machine; by induction over the
      requests handled, the server never uses a dead socket handle; the test
      server comes up and gives every socket it accepts back.
    - _Where the code fails_: theorems that state exactly when it does: the
      endless [sys_write], the over-long [write_item], the first and the
      unaligned [sys_brk], the lost segment rights, the misaligned stack, empty
      socket transfers and misread replies of the socket client, the panics on
      ports outside the listen table, sticking [bind]s, [connect]s that never
      complete, the deadlock of [Accept] and the address it would lose, the
      lost result of [clone] in the shim, DMA past the mapped area.

    ** Fuel

    [process_item_list] is given [len / 4096 + 3] iterations, more than the
    pages a buffer of [len] bytes can touch, and the theorems about it show
    that it always returns; [load_segment] likewise has one iteration per page,
    and [map_ipc_buffer_loop] one per level of the address space, which is more
    than the tables that can be missing.  The test server's loop takes the number
    of its rounds.
    [sys_write] and [block_on] take their fuel from outside because they need
    not terminate, as do the benchmarks: [sys_write_prints] says how much is enough,
    [sys_write_unmapped_diverges] that none is.  [get_ephemeral_port] runs the
    code's own bounded number of tries.

    ** Not modelled

    The declarations of stacks, heaps and loggers instantiate library types, the
    [clone_thread] of the task helper, the constructors of UDP and DNS sockets and
    the user programs' [sys_null] are used by nothing, and commented-out code is
    left out.  Where the kernel thread, the net thread and the root task have the
    same lines ([thread.rs], [runtime.rs], the loggers), and the two user programs
    likewise, they are modelled once.  [sys_exec] is modelled without a theorem of its own:
    the code leaves pages mapped that its records have forgotten, and what mapping
    over them does is not part of the kernel's laws used here.  For the same reason
    the theorem about [CLONE_VM] says what the new thread has and not that the
    invariant [kt_ok] goes on: two tasks then share an address space that the
    invariant gives to one.  The theorems about allocation ask for as many empty
    slots as are to be allocated; the slot the interrupt test receives a capability
    in is the last one of the kernel thread's range, and [Boot] asks that the
    allocations end before it.  In [Irq] the calls on
    memory, capabilities and devices that do not take part in the registration
    are left out of the threads' programs, and a driver's set-up is any number of
    DMA requests.  Console output is a list of
    characters; debug messages are omitted.  Each protection domain is
    modelled as one sequential thread, as it is in the code; outside [Irq] the
    other side of an endpoint is a parameter. *)

From stdpp Require Export prelude fin_maps gmap list sorting.
From Stdlib Require Export ZArith Lia.

#[global] Open Scope Z_scope.

(** ** Outcomes

    A Rust computation of this system either returns, panics (which stops the
    thread), waits for a spin lock that the same thread already holds, or --
    only in the fuelled model of a [while] or [loop] -- runs out of fuel.  A
    loop that runs out of every fuel does not terminate. *)

Inductive panic :=
  | PUnwrap     (* [unwrap]/[expect] on [None] or [Err] *)
  | PAssert     (* [assert!]/[assert_eq!]/[assert_ne!] *)
  | PIndex      (* slice index out of range *)
  | POverflow   (* checked arithmetic of a debug build *)
  | PExplicit   (* [panic!]/[unreachable!] *)
  | PTodo       (* [todo!]/[unimplemented!] *)
  | PFault      (* access to an unmapped address of the own address space *)
  | PBorrow.    (* a [RefCell] that is already borrowed *)

Inductive outcome (A : Type) :=
  | Ret (a : A)
  | Panic (p : panic)
  | Deadlock
  | NoFuel.
Arguments Ret {A} a.
Arguments Panic {A} p.
Arguments Deadlock {A}.
Arguments NoFuel {A}.

(** Rust's [Result]. *)
Inductive result (A E : Type) :=
  | Ok (a : A)
  | Err (e : E).
Arguments Ok {A E} a.
Arguments Err {A E} e.

(** ** The state monad over outcomes *)

Definition M (S A : Type) : Type := S -> outcome (A * S).

Section monad.
Context {S : Type}.

#[global] Instance M_ret : MRet (M S) := fun A a s => Ret (a, s).
#[global] Instance M_bind : MBind (M S) := fun A B f m s =>
  match m s with
  | Ret (a, s') => f a s'
  | Panic p => Panic p
  | Deadlock => Deadlock
  | NoFuel => NoFuel
  end.

Definition gets {A} (f : S -> A) : M S A := fun s => Ret (f s, s).
Definition modify (f : S -> S) : M S unit := fun s => Ret (tt, f s).
Definition panic_with {A} (p : panic) : M S A := fun _ => Panic p.
Definition out_of_fuel {A} : M S A := fun _ => NoFuel.

(** [Option::unwrap], [Result::unwrap], [assert!]. *)
Definition unwrap {A} (o : option A) : M S A :=
  match o with Some a => mret a | None => panic_with PUnwrap end.
Definition unwrap_r {A E} (r : result A E) : M S A :=
  match r with Ok a => mret a | Err _ => panic_with PUnwrap end.
Definition assert (b : bool) : M S unit :=
  if b then mret tt else panic_with PAssert.

(** A pure outcome as a computation. *)
Definition lift {A} (o : outcome A) : M S A := fun s =>
  match o with
  | Ret a => Ret (a, s)
  | Panic p => Panic p
  | Deadlock => Deadlock
  | NoFuel => NoFuel
  end.
End monad.

(** A computation on a part of the state, run on the whole state. *)
Definition zoom {S T A} (get : S -> T) (put : T -> S -> S) (m : M T A) : M S A :=
  fun s => match m (get s) with
           | Ret (a, t) => Ret (a, put t s)
           | Panic p => Panic p
           | Deadlock => Deadlock
           | NoFuel => NoFuel
           end.

#[global] Instance outcome_ret : MRet outcome := fun A a => Ret a.
#[global] Instance outcome_bind : MBind outcome := fun A B f m =>
  match m with
  | Ret a => f a
  | Panic p => Panic p
  | Deadlock => Deadlock
  | NoFuel => NoFuel
  end.

(** Slice indexing [l[i]]. *)
Definition index {A} (l : list A) (i : Z) : outcome A :=
  if decide (0 <= i) then
    match l !! Z.to_nat i with Some a => Ret a | None => Panic PIndex end
  else Panic PIndex.

(** Slice assignment [l[i] = a]. *)
Definition index_set {A} (l : list A) (i : Z) (a : A) : outcome (list A) :=
  if decide (0 <= i < Z.of_nat (length l)) then Ret (<[Z.to_nat i := a]> l)
  else Panic PIndex.

(** Rust's [?] on a computation that returns a [Result]. *)
Definition bind_r {S A B E} (m : M S (result A E)) (f : A -> M S (result B E)) :
    M S (result B E) :=
  mbind (fun r => match r with Ok a => f a | Err e => mret (Err e) end) m.

Notation "x <-? m ; k" := (bind_r m (fun x => k))
  (at level 20, m at level 100, k at level 200, only parsing) : stdpp_scope.

(** Iteration of a computation over a list ([for x in l { ... }]). *)
Fixpoint for_each {S A} (f : A -> M S unit) (l : list A) : M S unit :=
  match l with
  | [] => mret tt
  | x :: l => f x ;; for_each f l
  end.

(** ** Total-correctness specifications

    [wp m Q s]: [m] started in [s] returns, with a result and a final state
    that satisfy [Q].  In particular it does not panic, deadlock or run out of
    fuel. *)

Definition wp {S A} (m : M S A) (Q : A -> S -> Prop) (s : S) : Prop :=
  exists a s', m s = Ret (a, s') /\ Q a s'.

(** [preserves I m]: whenever [m] returns, it leads from a state satisfying
    [I] to one satisfying [I]. *)
Definition preserves {S A} (I : S -> Prop) (m : M S A) : Prop :=
  forall s a s', I s -> m s = Ret (a, s') -> I s'.

Section wp_rules.
Context {S : Type}.
Implicit Types s : S.

Lemma bind_Ret {A B} (m : M S A) (f : A -> M S B) s a s1 :
  m s = Ret (a, s1) -> mbind f m s = f a s1.
Proof. intros H. unfold mbind, M_bind. by rewrite H. Qed.

Lemma bind_Panic {A B} (m : M S A) (f : A -> M S B) s p :
  m s = Panic p -> mbind f m s = Panic p.
Proof. intros H. unfold mbind, M_bind. by rewrite H. Qed.

Lemma bind_inv {A B} (m : M S A) (f : A -> M S B) s b s2 :
  mbind f m s = Ret (b, s2) ->
  exists a s1, m s = Ret (a, s1) /\ f a s1 = Ret (b, s2).
Proof.
  unfold mbind, M_bind. destruct (m s) as [[a s1]| | |] eqn:E; naive_solver.
Qed.

Lemma wp_ret {A} (a : A) (Q : A -> S -> Prop) s : Q a s -> wp (mret a) Q s.
Proof. intros H. by exists a, s. Qed.

Lemma wp_bind {A B} (m : M S A) (f : A -> M S B) Q s :
  wp m (fun a s' => wp (f a) Q s') s -> wp (mbind f m) Q s.
Proof.
  intros (a & s1 & H1 & b & s2 & H2 & HQ).
  exists b, s2. split; [|done]. by rewrite (bind_Ret _ _ _ _ _ H1).
Qed.

Lemma wp_mono {A} (m : M S A) (P Q : A -> S -> Prop) s :
  wp m P s -> (forall a s', P a s' -> Q a s') -> wp m Q s.
Proof. intros (a & s1 & H1 & HP) HPQ. exists a, s1. auto. Qed.

Lemma wp_gets {A} (f : S -> A) (Q : A -> S -> Prop) s :
  Q (f s) s -> wp (gets f) Q s.
Proof. intros H. by exists (f s), s. Qed.

Lemma wp_modify (f : S -> S) (Q : unit -> S -> Prop) s :
  Q tt (f s) -> wp (modify f) Q s.
Proof. intros H. by exists tt, (f s). Qed.

Lemma wp_unwrap {A} (a : A) (Q : A -> S -> Prop) s :
  Q a s -> wp (unwrap (Some a)) Q s.
Proof. apply wp_ret. Qed.

Lemma wp_unwrap_r {A E} (a : A) (Q : A -> S -> Prop) s :
  Q a s -> wp (unwrap_r (@Ok A E a)) Q s.
Proof. apply wp_ret. Qed.

Lemma unwrap_inv {A} (o : option A) s x s' :
  unwrap o s = Ret (x, s') -> o = Some x /\ s' = s.
Proof. destruct o; [|done]. by intros [= -> ->]. Qed.

Lemma wp_assert (b : bool) (Q : unit -> S -> Prop) s :
  b = true -> Q tt s -> wp (assert b) Q s.
Proof. intros -> H. by apply wp_ret. Qed.

Lemma wp_lift {A} (o : outcome A) (a : A) (Q : A -> S -> Prop) s :
  o = Ret a -> Q a s -> wp (lift o) Q s.
Proof. intros -> H. by exists a, s. Qed.

(** A [for] loop with an invariant indexed by the elements already done. *)
Lemma wp_for_each {A} (f : A -> M S unit) (I : list A -> S -> Prop) l s :
  I [] s ->
  (forall done x s, (exists rest, l = done ++ x :: rest) -> I done s ->
     wp (f x) (fun _ s' => I (done ++ [x]) s') s) ->
  wp (for_each f l) (fun _ s' => I l s') s.
Proof.
  intros HI Hstep.
  assert (forall rest dn s, l = dn ++ rest -> I dn s ->
            wp (for_each f rest) (fun _ s' => I l s') s) as Hgen.
  { induction rest as [|x rest IH]; intros dn s0 Heq HI0; simpl.
    - apply wp_ret. by rewrite Heq, app_nil_r.
    - apply wp_bind. eapply wp_mono; [apply Hstep; [eauto|done]|].
      intros ? s1 H1. apply (IH (dn ++ [x])); [|done].
      by rewrite Heq, <- app_assoc. }
  by apply (Hgen l []).
Qed.

Lemma preserves_ret {A} (I : S -> Prop) (a : A) : preserves I (mret a).
Proof. intros s a' s' HI [= <- <-]. done. Qed.

Lemma preserves_bind {A B} (I : S -> Prop) (m : M S A) (f : A -> M S B) :
  preserves I m -> (forall a, preserves I (f a)) -> preserves I (mbind f m).
Proof.
  intros Hm Hf s b s' HI (a & s1 & H1 & H2)%bind_inv.
  eapply Hf; [|done]. by eapply Hm.
Qed.

(** A total statement and an invariant together. *)
Lemma wp_preserves {A} (I : S -> Prop) (m : M S A) (Q : A -> S -> Prop) s :
  preserves I m -> I s -> wp m Q s -> wp m (fun x s' => Q x s' /\ I s') s.
Proof. intros HP HI (x & s' & E & HQ). exists x, s'. split; [done|]. split; [done|]. by eapply HP. Qed.

(** Computations are deterministic. *)
Lemma wp_both {A} (m : M S A) (P Q : A -> S -> Prop) s :
  wp m P s -> wp m Q s -> wp m (fun x s' => P x s' /\ Q x s') s.
Proof. intros (x & s' & E & HP) (y & s2 & E' & HQ). exists x, s'. split; [done|]. split; [done|]. congruence. Qed.

Lemma preserves_panic {A} (I : S -> Prop) p : preserves I (@panic_with S A p).
Proof. by intros s a s' _ ?. Qed.

Lemma preserves_gets {A} (I : S -> Prop) (f : S -> A) : preserves I (gets f).
Proof. intros s a' s' HI [= <- <-]. done. Qed.

Lemma preserves_for_each {A} (I : S -> Prop) (f : A -> M S unit) l :
  (forall x, preserves I (f x)) -> preserves I (for_each f l).
Proof.
  intros Hf. induction l as [|x l IH]; simpl; [apply preserves_ret|].
  apply preserves_bind; [apply Hf|intros _; apply IH].
Qed.
End wp_rules.

Lemma wp_zoom {S T A} (get : S -> T) (put : T -> S -> S) (m : M T A)
    (Q : A -> S -> Prop) s :
  wp m (fun a t => Q a (put t s)) (get s) -> wp (zoom get put m) Q s.
Proof.
  intros (a & t & H & HQ). exists a, (put t s). split; [|done].
  unfold zoom. by rewrite H.
Qed.

(** A loop [f] that follows, through [R], a loop [g] that returns. *)
Lemma for_each_sim {S T A B} (f : A -> M S unit) (g : B -> M T unit) (h : A -> B)
    (R : T -> S) (I : T -> Prop) l t t' :
  (forall x t t', x ∈ l -> I t -> g (h x) t = Ret (tt, t') -> f x (R t) = Ret (tt, R t') /\ I t') ->
  I t -> for_each g (map h l) t = Ret (tt, t') -> for_each f l (R t) = Ret (tt, R t') /\ I t'.
Proof.
  intros Hsim. revert t Hsim. induction l as [|x l IH]; intros t Hsim HI E; simpl in *.
  - by injection E as <-.
  - apply bind_inv in E as ([] & t1 & E1 & E2).
    destruct (Hsim x t t1) as [F1 HI1]; [left|done..|].
    rewrite (bind_Ret _ _ _ _ _ F1). apply IH; [|done..].
    intros y t2 t3 Hy. apply Hsim. by right.
Qed.

Lemma index_Ret {A} (l : list A) (i : nat) (a : A) :
  l !! i = Some a -> index l (Z.of_nat i) = Ret a.
Proof.
  intros H. unfold index. rewrite decide_True by lia.
  by rewrite Nat2Z.id, H.
Qed.

Lemma index_oob {A} (l : list A) (i : Z) :
  Z.of_nat (length l) <= i -> index l i = Panic PIndex.
Proof.
  intros H. unfold index. rewrite decide_True by lia.
  rewrite lookup_ge_None_2; [done|lia].
Qed.

(** Replacing one element of a list, seen through [mbind]. *)
Lemma bind_insert_Permutation {A B} (f : A -> list B) (l : list A) (p : nat) old new :
  l !! p = Some old ->
  exists r, l ≫= f ≡ₚ f old ++ r /\ <[p := new]> l ≫= f ≡ₚ f new ++ r.
Proof.
  intros Hp. exists ((take p l ++ drop (S p) l) ≫= f).
  pose proof (take_drop_middle l p old Hp) as Hl. split.
  - rewrite <- Hl at 1. rewrite !bind_app, bind_cons. solve_Permutation.
  - rewrite (insert_take_drop _ _ _ (lookup_lt_Some _ _ _ Hp)), !bind_app, bind_cons.
    solve_Permutation.
Qed.

(** The value a computation returns, without the final state. *)
Definition run_value {S A} (m : M S A) (s : S) : option A :=
  match m s with Ret (a, _) => Some a | _ => None end.

Lemma run_value_Ret {S A} (m : M S A) (s : S) (a : A) :
  run_value m s = Some a -> exists s', m s = Ret (a, s').
Proof.
  unfold run_value. destruct (m s) as [[b s']| | |]; try done. intros [= ->]. eauto.
Qed.

Create HintDb monad.
#[export] Hint Resolve preserves_ret preserves_bind preserves_panic
  preserves_gets preserves_for_each : monad.

(** Symbolic execution of a [wp] goal, one monadic step at a time. *)
Ltac wp_step :=
  match goal with
  | |- wp (mbind _ _) _ _ => apply wp_bind
  | |- wp (mret _) _ _ => apply wp_ret
  | |- wp (gets _) _ _ => apply wp_gets
  | |- wp (modify _) _ _ => apply wp_modify
  | |- wp (unwrap (Some _)) _ _ => apply wp_unwrap
  | |- wp (unwrap_r (Ok _)) _ _ => apply wp_unwrap_r
  | |- wp (zoom _ _ _) _ _ => apply wp_zoom
  end; cbn beta.

(** One step of a returning computation in a hypothesis. *)
Tactic Notation "ibind" hyp(H) "as" simple_intropattern(x) ident(s) ident(E) :=
  apply bind_inv in H as (x & s & E & H).

(** Decomposition of a returning computation in a hypothesis. *)
Ltac inv_bind :=
  repeat match goal with
  | H : mbind _ _ _ = Ret _ |- _ =>
      let a := fresh "a" in let s := fresh "s" in let E := fresh "E" in
      apply bind_inv in H as (a & s & E & H)
  end.
