(* ===== verification/Words.v ===== *)
(** * Machine words

    The integers of the program at their Rust width: [usize]/[u64] as [Z] with
    the wrap-around of a release build or the overflow check of a debug build
    written out, the signed reinterpretations [as i32]/[as i64], byte
    encodings, and the alignment arithmetic that every component shares. *)

From S2P Require Import Prelude.

Declare Scope word_scope.
Delimit Scope word_scope with word.

(** ** Linear arithmetic with division *)

Ltac dlia := Z.div_mod_to_equations; lia.

(** ** Unsigned words *)

Definition W64 : Z := 2 ^ 64.
Definition wrap64 (z : Z) : Z := z mod 2 ^ 64.
Definition wrap16 (z : Z) : Z := z mod 2 ^ 16.
Definition wrap8 (z : Z) : Z := z mod 2 ^ 8.

Definition is_u64 (z : Z) : Prop := 0 <= z < 2 ^ 64.
Definition is_u16 (z : Z) : Prop := 0 <= z < 2 ^ 16.
Definition is_u8 (z : Z) : Prop := 0 <= z < 2 ^ 8.

Notation "a +w b" := (wrap64 (a + b)) (at level 50, left associativity) : word_scope.
Notation "a -w b" := (wrap64 (a - b)) (at level 50, left associativity) : word_scope.
Notation "a *w b" := (wrap64 (a * b)) (at level 40, left associativity) : word_scope.

(** [usize] arithmetic of a build with ([chk = true]) or without overflow
    checks.  [root-task] is built without [--release] and has them, the other
    crates wrap. *)
Definition add_chk (chk : bool) (a b : Z) : outcome Z :=
  if chk && (2 ^ 64 <=? a + b) then Panic POverflow else Ret (wrap64 (a + b)).
Definition sub_chk (chk : bool) (a b : Z) : outcome Z :=
  if chk && (a <? b) then Panic POverflow else Ret (wrap64 (a - b)).
Definition mul_chk (chk : bool) (a b : Z) : outcome Z :=
  if chk && (2 ^ 64 <=? a * b) then Panic POverflow else Ret (wrap64 (a * b)).

(** ** Signed reinterpretation *)

Definition as_i32 (z : Z) : Z :=
  let m := z mod 2 ^ 32 in if m <? 2 ^ 31 then m else m - 2 ^ 32.
Definition as_i64 (z : Z) : Z :=
  let m := z mod 2 ^ 64 in if m <? 2 ^ 63 then m else m - 2 ^ 64.

Lemma wrap64_small z : is_u64 z -> wrap64 z = z.
Proof. unfold is_u64, wrap64. intros. by apply Z.mod_small. Qed.

Lemma wrap64_range z : is_u64 (wrap64 z).
Proof. unfold is_u64, wrap64. apply Z.mod_pos_bound. lia. Qed.

Lemma wrap64_wrap64 z : wrap64 (wrap64 z) = wrap64 z.
Proof. apply wrap64_small, wrap64_range. Qed.

Lemma wrap16_small z : is_u16 z -> wrap16 z = z.
Proof. unfold is_u16, wrap16. intros. by apply Z.mod_small. Qed.

Lemma add_chk_small chk a b :
  is_u64 (a + b) -> add_chk chk a b = Ret (a + b).
Proof.
  unfold add_chk. intros H. rewrite wrap64_small by done.
  destruct (Z.leb_spec (2 ^ 64) (a + b)); [unfold is_u64 in H; lia|].
  by rewrite andb_false_r.
Qed.

Lemma mul_chk_small chk a b :
  is_u64 (a * b) -> mul_chk chk a b = Ret (a * b).
Proof.
  unfold mul_chk. intros H. rewrite wrap64_small by done. unfold is_u64 in H.
  destruct (Z.leb_spec (2 ^ 64) (a * b)); [lia|]. by rewrite andb_false_r.
Qed.

Lemma sub_chk_small chk a b :
  0 <= b <= a -> is_u64 a -> sub_chk chk a b = Ret (a - b).
Proof.
  unfold sub_chk, is_u64. intros Hb Ha.
  rewrite wrap64_small by (unfold is_u64; lia).
  destruct (Z.ltb_spec a b); [lia|]. by rewrite andb_false_r.
Qed.

Lemma as_i32_small z : 0 <= z < 2 ^ 31 -> as_i32 z = z.
Proof.
  intros H. unfold as_i32. rewrite Z.mod_small by lia.
  destruct (Z.ltb_spec z (2 ^ 31)); lia.
Qed.

Lemma as_i64_small z : 0 <= z < 2 ^ 63 -> as_i64 z = z.
Proof.
  intros H. unfold as_i64. rewrite Z.mod_small by lia.
  destruct (Z.ltb_spec z (2 ^ 63)); lia.
Qed.

(** ** Byte encodings *)

(** Big-endian bytes of an [n]-byte word ([to_be_bytes]). *)
Fixpoint to_be_bytes (n : nat) (z : Z) : list Z :=
  match n with
  | O => []
  | S n => (z / 2 ^ (8 * Z.of_nat n)) mod 2 ^ 8 :: to_be_bytes n z
  end.

(** The word of a big-endian byte string ([from_be_bytes], [to_bits]). *)
Definition from_be_bytes (l : list Z) : Z :=
  foldl (fun acc b => acc * 2 ^ 8 + b) 0 l.

(** Little-endian bytes of an [n]-byte word, the order in which AArch64 stores
    a word, and back. *)
Fixpoint to_le_bytes (n : nat) (z : Z) : list Z :=
  match n with
  | O => []
  | S n => z mod 2 ^ 8 :: to_le_bytes n (z / 2 ^ 8)
  end.
Fixpoint from_le_bytes (l : list Z) : Z :=
  match l with
  | [] => 0
  | b :: l => b + 2 ^ 8 * from_le_bytes l
  end.

Lemma length_to_be_bytes n z : length (to_be_bytes n z) = n.
Proof. induction n; simpl; congruence. Qed.

Lemma length_to_le_bytes n z : length (to_le_bytes n z) = n.
Proof. revert z. induction n; intros; simpl; [done|]. by rewrite IHn. Qed.

Lemma from_to_le_bytes n z :
  0 <= z < 2 ^ (8 * Z.of_nat n) -> from_le_bytes (to_le_bytes n z) = z.
Proof.
  revert z. induction n as [|n IH]; intros z Hz; cbn [from_le_bytes to_le_bytes].
  - simpl in Hz. lia.
  - rewrite IH.
    + pose proof (Z.div_mod z (2 ^ 8)). lia.
    + replace (8 * Z.of_nat (S n)) with (8 + 8 * Z.of_nat n) in Hz by lia.
      rewrite Z.pow_add_r in Hz by lia.
      split; [apply Z.div_pos; lia|]. apply Z.div_lt_upper_bound; lia.
Qed.

Lemma to_le_bytes_byte n z : Forall is_u8 (to_le_bytes n z).
Proof.
  revert z. induction n as [|n IH]; intros z; simpl; [constructor|].
  constructor; [|apply IH]. unfold is_u8. apply Z.mod_pos_bound. lia.
Qed.

(** ** Alignment *)

(** The greatest multiple of [n] that is at most [a], and the least one that
    is at least [a]. *)
Definition down (n a : Z) : Z := a - a mod n.
Definition up (n a : Z) : Z := if a mod n =? 0 then a else a + (n - a mod n).

Lemma down_mod n a : 0 < n -> down n a mod n = 0.
Proof.
  intros Hn. unfold down. rewrite Zminus_mod, Z.mod_mod, Z.sub_diag by lia.
  by apply Z.mod_0_l; lia.
Qed.

Lemma down_bounds n a : 0 < n -> down n a <= a < down n a + n.
Proof. intros Hn. unfold down. pose proof (Z.mod_pos_bound a n). lia. Qed.

Lemma up_mod n a : 0 < n -> up n a mod n = 0.
Proof.
  intros Hn. unfold up. destruct (Z.eqb_spec (a mod n) 0); [done|].
  replace (a + (n - a mod n)) with (n * (a / n + 1)).
  - rewrite Z.mul_comm. apply Z.mod_mul. lia.
  - pose proof (Z.div_mod a n). lia.
Qed.

Lemma up_bounds n a : 0 < n -> a <= up n a < a + n.
Proof.
  intros Hn. unfold up. pose proof (Z.mod_pos_bound a n).
  destruct (Z.eqb_spec (a mod n) 0); lia.
Qed.

Lemma down_aligned n a : a mod n = 0 -> down n a = a.
Proof. unfold down. lia. Qed.

Lemma up_aligned n a : a mod n = 0 -> up n a = a.
Proof. unfold up. intros ->. by rewrite Z.eqb_refl. Qed.

(** Two multiples of [n] that differ are at least [n] apart. *)
Lemma aligned_gap n a b :
  0 < n -> a mod n = 0 -> b mod n = 0 -> a < b -> a + n <= b.
Proof.
  intros Hn Ha Hb Hlt.
  apply Z.mod_divide in Ha as [x ->]; [|lia].
  apply Z.mod_divide in Hb as [y ->]; [|lia].
  assert (x < y) by (apply (Z.mul_lt_mono_pos_r n); lia). nia.
Qed.

Lemma aligned_add n a b : 0 < n -> a mod n = 0 -> b mod n = 0 -> (a + b) mod n = 0.
Proof. intros Hn Ha Hb. by rewrite Z.add_mod, Ha, Hb, Z.mod_0_l by lia. Qed.

Lemma up_le_aligned n a b : 0 < n -> b mod n = 0 -> a <= b -> up n a <= b.
Proof.
  intros Hn Hb Hle. pose proof (up_bounds n a Hn).
  destruct (Z.le_gt_cases (up n a) b); [done|].
  pose proof (aligned_gap n b (up n a) Hn Hb (up_mod n a Hn)). lia.
Qed.

Lemma down_ge_aligned n a b : 0 < n -> b mod n = 0 -> b <= a -> b <= down n a.
Proof.
  intros Hn Hb Hle. pose proof (down_bounds n a Hn).
  destruct (Z.le_gt_cases b (down n a)); [done|].
  pose proof (aligned_gap n (down n a) b Hn (down_mod n a Hn) Hb). lia.
Qed.

Lemma down_eq_iff n x va :
  0 < n -> va mod n = 0 -> down n x = va <-> va <= x < va + n.
Proof.
  intros Hn Hva. pose proof (down_bounds n x Hn). pose proof (down_mod n x Hn) as Hx.
  split; [intros <-; lia|]. intros ?.
  destruct (Z.lt_trichotomy (down n x) va) as [Hlt|[->|Hgt]]; [|done|].
  - pose proof (aligned_gap n _ _ Hn Hx Hva Hlt). lia.
  - pose proof (aligned_gap n _ _ Hn Hva Hx Hgt). lia.
Qed.

(** Clearing the low [b] bits rounds down to a multiple of [2 ^ b]. *)
Lemma land_lnot_ones a b :
  0 <= b -> Z.land a (Z.lnot (Z.ones b)) = down (2 ^ b) a.
Proof.
  intros Hb. rewrite <- Z.ldiff_land, Z.ldiff_ones_r by done.
  rewrite Z.shiftl_mul_pow2, Z.shiftr_div_pow2 by done.
  unfold down. pose proof (Z.div_mod a (2 ^ b)).
  pose proof (Z.pow_pos_nonneg 2 b). lia.
Qed.

(** ** Stepped ranges *)

(** [(a..b).step_by(n)], also the pages of [a..b] for aligned bounds. *)
Definition step_range (n a b : Z) : list Z :=
  (fun i => a + i * n) <$> seqZ 0 (up n (Z.max 0 (b - a)) / n).

Lemma elem_of_step_range n a b x :
  0 < n -> x ∈ step_range n a b <-> a <= x < b /\ (x - a) mod n = 0.
Proof.
  intros Hn. unfold step_range. rewrite list_elem_of_fmap.
  setoid_rewrite elem_of_seqZ.
  assert (Hup : forall i, i < up n (Z.max 0 (b - a)) / n <-> i * n < Z.max 0 (b - a)).
  { intros i. set (m := Z.max 0 (b - a)).
    pose proof (up_bounds n m Hn) as Hb. pose proof (up_mod n m Hn) as Hm.
    pose proof (Z.div_mod (up n m) n) as Hd. rewrite Hm in Hd.
    set (q := up n m / n) in *. split; intros; nia. }
  split.
  - intros (i & -> & Hi1 & Hi2). rewrite Z.add_0_l in Hi2. apply Hup in Hi2.
    replace (a + i * n - a) with (i * n) by lia. rewrite Z.mod_mul by lia.
    split; [nia|done].
  - intros ([Hx1 Hx2] & Hmod). apply Z.mod_divide in Hmod as [i Hi]; [|lia].
    exists i. split; [lia|]. split; [nia|]. rewrite Z.add_0_l. apply Hup. lia.
Qed.

Lemma NoDup_step_range n a b : 0 < n -> NoDup (step_range n a b).
Proof.
  intros Hn. unfold step_range. apply NoDup_fmap_2; [|apply NoDup_seqZ].
  intros i j Hij. nia.
Qed.
