(* ===== verification/Consts.v ===== *)
(** * Constants

    [crates/crate-consts/src/lib.rs] and the configuration constants of
    [crates/common/src/lib.rs] and [crates/common/src/uspace.rs]. *)

From S2P Require Import Prelude.

(** ** crate-consts *)

Definition DEFAULT_THREAD_NOTIFICATION : Z := 17.
Definition DEFAULT_THREAD_FAULT_EP : Z := 18.
Definition DEFAULT_THREAD_IRQ_EP : Z := 20.
Definition DEFAULT_CUSTOM_SLOT : Z := 26.
Definition DEFAULT_EMPTY_SLOT_INDEX : Z := 32.
Definition KERNEL_THREAD_SLOT_NUMS : Z := Z.shiftl 1 10.
Definition DEFAULT_THREAD_RECV_SLOT : Z := KERNEL_THREAD_SLOT_NUMS - 1.
Definition INIT_EP : Z := DEFAULT_THREAD_FAULT_EP.
Definition DEFAULT_CNODE_BITS : Z := 12.
Definition DEFAULT_CNODE_SLOT_NUMS : Z := Z.shiftl 1 DEFAULT_CNODE_BITS.
Definition CNODE_RADIX_BITS : Z := 12.
Definition PAGE_SIZE_BITS : Z := 12.
Definition PAGE_SIZE : Z := Z.shiftl 1 PAGE_SIZE_BITS.
Definition STACK_ALIGN_SIZE : Z := 16.
(** [sel4::FrameObjectType::GRANULE.bytes()]: the AArch64 small page, 4 KiB. *)
Definition GRANULE_SIZE : Z := 4096.
Definition SERIAL_DEVICE_IRQ : Z := 33.
Definition VIRTIO_NET_IRQ : Z := 0x2f + 0x20.
Definition DMA_ADDR_START : Z := 0x100003000.

(** ** common *)

Definition VIRTIO_MMIO_ADDR : Z := 0xa003e00.
Definition VIRTIO_MMIO_VIRT_ADDR : Z := 0x120000000.
Definition VIRTIO_BLK_OFFSET : Z := 0x3e00.
Definition VIRTIO_NET_OFFSET : Z := 0x3c00.
Definition VIRTIO_MMIO_BLK_VIRT_ADDR : Z := VIRTIO_MMIO_VIRT_ADDR + VIRTIO_BLK_OFFSET.
Definition VIRTIO_MMIO_NET_VIRT_ADDR : Z := VIRTIO_MMIO_VIRT_ADDR + VIRTIO_NET_OFFSET.

(** ** User space *)

Definition USPACE_HEAP_BASE : Z := 0x100000000.
Definition USPACE_HEAP_SIZE : Z := 0x100000.
Definition USPACE_STACK_TOP : Z := 0x200000000.
Definition USPACE_STACK_SIZE : Z := 0x10000.
Definition STDIN_FD : Z := 0.
Definition STDOUT_FD : Z := 1.
Definition STDERR_FD : Z := 2.
Definition USPACE_BASE : Z := 0x1000.

(** ** Rust and seL4 word sizes *)

(** [sel4::WORD_SIZE] is in bits, [core::mem::size_of::<usize>()] in bytes. *)
Definition SEL4_WORD_BITS : Z := 64.
Definition USIZE_BYTES : Z := 8.

Lemma PAGE_SIZE_eq : PAGE_SIZE = 4096.
Proof. reflexivity. Qed.
