(* ===== verification/Sel4.v ===== *)
(** * The seL4 interface

    The [sel4] crate and the kernel behind it are not part of this
    repository, so they are parameters: [Sel4] lists the invocations the
    program makes, over an abstract kernel state; [Sel4Laws] states, through
    observations of that state, the behaviour the seL4 reference manual
    documents and the program relies on.  [MessageInfoApi] is the message tag
    of an IPC. *)

From S2P Require Import Prelude Words Consts.

Abbreviation CPtr := Z (only parsing).

(** The error codes of an invocation. *)
Inductive Error :=
  | InvalidArgument | InvalidCapability | IllegalOperation | RangeError
  | AlignmentError | FailedLookup | TruncatedMessage | DeleteFirst
  | RevokeFirst | NotEnoughMemory.

#[global] Instance Error_eq_dec : EqDecision Error.
Proof. solve_decision. Defined.

(** The kernel objects the program creates. *)
Inductive ObjectBlueprint :=
  | BpEndpoint | BpNotification | BpTcb | BpVSpace | BpPT | BpGranule
  | BpLargePage
  | BpCNode (size_bits : Z).

#[global] Instance ObjectBlueprint_eq_dec : EqDecision ObjectBlueprint.
Proof. solve_decision. Defined.

(** A slot named relative to a CNode. *)
Record AbsoluteCPtr := MkAbs {
  ac_root : CPtr;
  ac_path : Z;
  ac_depth : Z;
}.

(** [cnode.relative(cap)], [cnode.relative_bits_with_depth(bits, depth)] and
    [cnode.relative_self()]. *)
Definition relative (cnode cap : CPtr) : AbsoluteCPtr := MkAbs cnode cap SEL4_WORD_BITS.
Definition relative_bits_with_depth (cnode bits depth : Z) : AbsoluteCPtr :=
  MkAbs cnode bits depth.
Definition relative_self (cnode : CPtr) : AbsoluteCPtr := MkAbs cnode 0 0.

(** The registers the program reads and writes in a [UserContext]. *)
Record UserContext := MkCtx {
  ctx_pc : Z;
  ctx_sp : Z;
  ctx_gpr : gmap Z Z;
  ctx_tpidr_el0 : Z;
}.

(** ** Invocations *)

Class Sel4 := {
  kstate : Type;
  (** the slots of the initial thread's CSpace *)
  SLOT_NULL : CPtr; SLOT_TCB : CPtr; SLOT_CNODE : CPtr; SLOT_VSPACE : CPtr;
  SLOT_IRQ_CONTROL : CPtr; SLOT_ASID_CONTROL : CPtr; SLOT_ASID_POOL : CPtr;
  (** number of translation levels of an address space *)
  NUM_LEVELS : Z;
  (** [vspace_levels::span_bits] and the blueprint of
      [TranslationTableObjectType::from_level] *)
  span_bits : Z -> Z;
  table_blueprint : Z -> option ObjectBlueprint;
  (** capability rights and their builder *)
  CapRights : Type;
  rights_all : CapRights;
  rights_read : bool -> CapRights -> CapRights;
  rights_write : bool -> CapRights -> CapRights;
  rights_grant : bool -> CapRights -> CapRights;
  (** [CNodeCapData::new(guard, guard_size)], [skip(bits)], [skip_high_bits(bits)] *)
  cnode_cap_data : Z -> Z -> Z;
  cnode_skip : Z -> Z;
  cnode_skip_high_bits : Z -> Z;
  untyped_retype : CPtr -> ObjectBlueprint -> AbsoluteCPtr -> Z -> Z ->
    kstate -> result unit Error * kstate;
  cnode_copy : AbsoluteCPtr -> AbsoluteCPtr -> CapRights ->
    kstate -> result unit Error * kstate;
  cnode_mint : AbsoluteCPtr -> AbsoluteCPtr -> CapRights -> Z ->
    kstate -> result unit Error * kstate;
  cnode_mutate : AbsoluteCPtr -> AbsoluteCPtr -> Z ->
    kstate -> result unit Error * kstate;
  cnode_delete : AbsoluteCPtr -> kstate -> result unit Error * kstate;
  cnode_revoke : AbsoluteCPtr -> kstate -> result unit Error * kstate;
  frame_map : CPtr -> CPtr -> Z -> CapRights -> kstate -> result unit Error * kstate;
  frame_unmap : CPtr -> kstate -> result unit Error * kstate;
  frame_get_address : CPtr -> kstate -> result Z Error * kstate;
  pt_map : CPtr -> CPtr -> Z -> kstate -> result unit Error * kstate;
  (** [generic_intermediate_translation_table_map]: level, table, vspace, address *)
  table_map : Z -> CPtr -> CPtr -> Z -> kstate -> result unit Error * kstate;
  asid_pool_assign : CPtr -> CPtr -> kstate -> result unit Error * kstate;
  (** tcb, fault endpoint, cnode, cnode data, vspace, ipc buffer address and frame *)
  tcb_configure : CPtr -> CPtr -> CPtr -> Z -> CPtr -> Z -> CPtr ->
    kstate -> result unit Error * kstate;
  tcb_set_sched_params : CPtr -> CPtr -> Z -> Z -> kstate -> result unit Error * kstate;
  tcb_set_space : CPtr -> CPtr -> CPtr -> Z -> CPtr -> kstate -> result unit Error * kstate;
  tcb_read_all_registers : CPtr -> bool -> kstate -> result UserContext Error * kstate;
  tcb_write_all_registers : CPtr -> bool -> UserContext ->
    kstate -> result unit Error * kstate;
  tcb_resume : CPtr -> kstate -> result unit Error * kstate;
  tcb_suspend : CPtr -> kstate -> result unit Error * kstate;
  irq_control_get : Z -> AbsoluteCPtr -> kstate -> result unit Error * kstate;
  (** a byte of the caller's own address space; [None] faults *)
  load8 : Z -> kstate -> option Z;
  store8 : Z -> Z -> kstate -> option kstate;
}.

(** An invocation as a computation on the kernel state. *)
Definition kcall `{Sel4} {A} (op : kstate -> result A Error * kstate) :
    M kstate (result A Error) :=
  fun k => let '(r, k') := op k in Ret (r, k').

(** [op().unwrap()]. *)
Definition kcall_unwrap `{Sel4} {A} (op : kstate -> result A Error * kstate) :
    M kstate A :=
  r ← kcall op; unwrap_r r.

(** A volatile byte access of the running thread. *)
Definition load `{Sel4} (a : Z) : M kstate Z :=
  fun k => match load8 a k with Some b => Ret (b, k) | None => Panic PFault end.
Definition store `{Sel4} (a b : Z) : M kstate unit :=
  fun k => match store8 a b k with Some k' => Ret (tt, k') | None => Panic PFault end.

(** [copy_nonoverlapping] from a byte slice to an address, and back. *)
Fixpoint store_bytes `{Sel4} (a : Z) (bs : list Z) : M kstate unit :=
  match bs with
  | [] => mret tt
  | b :: bs => store a b ;; store_bytes (a + 1) bs
  end.
Fixpoint load_bytes `{Sel4} (a : Z) (n : nat) : M kstate (list Z) :=
  match n with
  | O => mret []
  | S n => b ← load a; bs ← load_bytes (a + 1) n; mret (b :: bs)
  end.

Lemma kcall_unwrap_Ret `{Sel4} {A} (op : kstate -> result A Error * kstate) a k k' :
  op k = (Ok a, k') -> kcall_unwrap op k = Ret (a, k').
Proof.
  intros E. unfold kcall_unwrap, mbind, M_bind, kcall. by rewrite E.
Qed.

Lemma kcall_unwrap_inv `{Sel4} {A} (op : kstate -> result A Error * kstate) a k k' :
  kcall_unwrap op k = Ret (a, k') -> op k = (Ok a, k').
Proof.
  unfold kcall_unwrap, mbind, M_bind, kcall.
  destruct (op k) as [[x|e] k1]; simpl; [intros [= -> ->]; done|done].
Qed.

Lemma wp_kcall `{Sel4} {A} (op : kstate -> result A Error * kstate) Q k :
  (let '(r, k') := op k in Q r k') -> wp (kcall op) Q k.
Proof.
  unfold kcall. destruct (op k) as [r k'] eqn:E. intros HQ. exists r, k'. by rewrite E.
Qed.

Lemma wp_kcall_unwrap `{Sel4} {A} (op : kstate -> result A Error * kstate) a k k'
    (Q : A -> kstate -> Prop) :
  op k = (Ok a, k') -> Q a k' -> wp (kcall_unwrap op) Q k.
Proof. intros E HQ. exists a, k'. split; [by apply kcall_unwrap_Ret|done]. Qed.

(** ** Message tags *)

Class MessageInfoApi := {
  MessageInfo : Type;
  (** label, capsUnwrapped, extraCaps, length *)
  mi_new : Z -> Z -> Z -> Z -> MessageInfo;
  mi_label : MessageInfo -> Z;
  mi_extra_caps : MessageInfo -> Z;
  mi_length : MessageInfo -> Z;
}.

(** The widths of the fields of [seL4_MessageInfo_t] on a 64-bit platform. *)
Definition mi_fits (label caps extra len : Z) : Prop :=
  0 <= label < 2 ^ 52 /\ 0 <= caps < 2 ^ 3 /\ 0 <= extra < 2 ^ 2 /\ 0 <= len < 2 ^ 7.

Class MessageInfoLaws `{MessageInfoApi} : Prop := {
  mi_label_new l c e n : mi_fits l c e n -> mi_label (mi_new l c e n) = l;
  mi_extra_caps_new l c e n : mi_fits l c e n -> mi_extra_caps (mi_new l c e n) = e;
  mi_length_new l c e n : mi_fits l c e n -> mi_length (mi_new l c e n) = n;
}.

(** ** The IPC buffer *)

(** [seL4_MsgMaxLength] and [seL4_MsgMaxExtraCaps]. *)
Definition MSG_MAX_LENGTH : nat := 120.
Definition MSG_MAX_EXTRA_CAPS : nat := 3.

Record IpcBuffer := MkIpc {
  msg_regs : list Z;
  caps_or_badges : list Z;
}.

Definition ipc_wf (b : IpcBuffer) : Prop :=
  length (msg_regs b) = MSG_MAX_LENGTH /\
  length (caps_or_badges b) = MSG_MAX_EXTRA_CAPS.

Definition set_msg_regs (l : list Z) (b : IpcBuffer) : IpcBuffer :=
  MkIpc l (caps_or_badges b).
Definition set_caps (l : list Z) (b : IpcBuffer) : IpcBuffer :=
  MkIpc (msg_regs b) l.

(** [buffer.msg_regs_mut()[i] = v] and [buffer.caps_or_badges_mut()[i] = v]. *)
Definition write_reg (i v : Z) : M IpcBuffer unit :=
  zoom msg_regs set_msg_regs (fun l => match index_set l i v with
                                       | Ret l' => Ret (tt, l')
                                       | Panic p => Panic p
                                       | Deadlock => Deadlock
                                       | NoFuel => NoFuel
                                       end).
Definition write_cap (i v : Z) : M IpcBuffer unit :=
  zoom caps_or_badges set_caps (fun l => match index_set l i v with
                                         | Ret l' => Ret (tt, l')
                                         | Panic p => Panic p
                                         | Deadlock => Deadlock
                                         | NoFuel => NoFuel
                                         end).

(** The kernel copies the message registers of the message to the receiver. *)
Definition transfer `{MessageInfoApi} (mi : MessageInfo) (src : list Z) (dst : IpcBuffer) : IpcBuffer :=
  let n := Z.to_nat (mi_length mi) in set_msg_regs (take n src ++ drop n (msg_regs dst)) dst.

Definition blank_ipc : IpcBuffer :=
  MkIpc (replicate MSG_MAX_LENGTH 0) (replicate MSG_MAX_EXTRA_CAPS 0).

Lemma blank_ipc_wf : ipc_wf blank_ipc.
Proof. split; reflexivity. Qed.

Lemma write_reg_Ret (i : nat) v b :
  ipc_wf b -> (i < MSG_MAX_LENGTH)%nat ->
  write_reg (Z.of_nat i) v b = Ret (tt, set_msg_regs (<[i := v]> (msg_regs b)) b) /\
  ipc_wf (set_msg_regs (<[i := v]> (msg_regs b)) b).
Proof.
  intros [Hr Hc] Hi. unfold write_reg, zoom, index_set.
  rewrite decide_True by lia. rewrite Nat2Z.id.
  split; [done|]. split; simpl; [by rewrite length_insert|done].
Qed.
