(* ===== verification/Sel4Laws.v ===== *)
(** * Documented behaviour of the seL4 invocations

    What the program relies on, stated through observations of the kernel
    state: which object a capability designates, where a frame capability is
    mapped, the page translations of each address space, how many levels of
    translation tables an address still lacks, the bytes of each frame, and how
    many more objects an untyped region can hold. *)

From S2P Require Import Prelude Words Consts Sel4.

Class Sel4View `{Sel4} := {
  Frame : Type;
  VS : Type;
  Frame_eq_dec :: EqDecision Frame;
  VS_eq_dec :: EqDecision VS;
  (** the address space of the running thread *)
  own_vs : VS;
  (** what the capability in a slot of the running thread's CSpace designates *)
  cap_frame : kstate -> CPtr -> option Frame;
  cap_vs : kstate -> CPtr -> option VS;
  (** a translation table that is not mapped yet *)
  cap_pt : kstate -> CPtr -> bool;
  slot_empty : kstate -> CPtr -> bool;
  (** the address space and page a frame capability is mapped at *)
  cap_mapping : kstate -> CPtr -> option (VS * Z);
  translate : kstate -> VS -> Z -> option Frame;
  missing : kstate -> VS -> Z -> nat;
  fbyte : kstate -> Frame -> Z -> Z;
  (** retypes of the untyped capability that are sure to find memory *)
  retype_room : kstate -> CPtr -> nat;
  (** the second-level CNode with this index exists *)
  cnode_ready : kstate -> Z -> bool;
}.

(** [kdiff C T B k k']: [k'] differs from [k] at most in the slots [C], the
    translations [T] and the bytes [B]; translation tables only get added. *)
Record kdiff `{Sel4View} (C : CPtr -> Prop) (T : VS -> Z -> Prop)
    (B : Frame -> Z -> Prop) (k k' : kstate) : Prop := {
  kd_frame c : ~ C c -> cap_frame k' c = cap_frame k c;
  kd_vs c : ~ C c -> cap_vs k' c = cap_vs k c;
  kd_pt c : ~ C c -> cap_pt k' c = cap_pt k c;
  kd_empty c : ~ C c -> slot_empty k' c = slot_empty k c;
  kd_mapping c : ~ C c -> cap_mapping k' c = cap_mapping k c;
  kd_trans vs va : ~ T vs va -> translate k' vs va = translate k vs va;
  kd_bytes f o : ~ B f o -> fbyte k' f o = fbyte k f o;
  kd_missing vs va : (missing k' vs va <= missing k vs va)%nat;
}.

(** The untyped memory and the CNodes are as before. *)
Definition same_alloc `{Sel4View} (k k' : kstate) : Prop :=
  (forall u, retype_room k' u = retype_room k u) /\
  (forall c, cnode_ready k' c = cnode_ready k c).

(** The translation tables are as before. *)
Definition same_tables `{Sel4View} (k k' : kstate) : Prop :=
  forall vs va, missing k' vs va = missing k vs va.

Definition nowhere1 {A} : A -> Prop := fun _ => False.
Definition nowhere {A B} : A -> B -> Prop := fun _ _ => False.
Definition only {A} (x : A) : A -> Prop := fun y => y = x.
Definition only2 {A B} (x : A) (y : B) : A -> B -> Prop := fun a b => a = x /\ b = y.

Definition page_aligned (va : Z) : Prop := va mod 4096 = 0.

(** The kernel state [k'] has a new object of the given kind in slot [p]. *)
Definition retyped `{Sel4View} (bp : ObjectBlueprint) (p : CPtr) (k k' : kstate) : Prop :=
  match bp with
  | BpGranule => exists f,
      cap_frame k' p = Some f /\ cap_mapping k' p = None /\
      (forall c', cap_frame k c' <> Some f) /\
      (forall vs va, translate k vs va <> Some f) /\
      (forall o, fbyte k' f o = 0) /\
      kdiff (only p) nowhere (fun g _ => g = f) k k'
  | BpPT => cap_pt k' p = true /\ same_tables k k' /\ kdiff (only p) nowhere nowhere k k'
  | BpVSpace => exists vs,
      cap_vs k' p = Some vs /\ vs <> own_vs /\
      (forall c', cap_vs k c' <> Some vs) /\
      (forall va, translate k' vs va = None) /\
      kdiff (only p) nowhere nowhere k k'
  | _ => kdiff (only p) nowhere nowhere k k'
  end.

Class Sel4Laws `{V : Sel4View} : Prop := {
  levels_range k vs va : Z.of_nat (missing k vs va) < NUM_LEVELS;

  (** A slot holds at most one capability, of one kind. *)
  frame_not_vs k c f : cap_frame k c = Some f -> cap_vs k c = None;
  frame_not_empty k c f : cap_frame k c = Some f -> slot_empty k c = false;
  vs_not_empty k c vs : cap_vs k c = Some vs -> slot_empty k c = false;

  (** Retyping into an empty slot of an existing CNode of the two-level CSpace
      succeeds while there is memory; the object is new. *)
  retype_ok k u bp c s n :
    0 <= s < 4096 -> cnode_ready k c = true -> slot_empty k (c * 4096 + s) = true ->
    retype_room k u = S n ->
    exists k', untyped_retype u bp (relative_bits_with_depth SLOT_CNODE c 52) s 1 k = (Ok tt, k') /\
      retype_room k' u = n /\ (forall d, cnode_ready k' d = cnode_ready k d) /\
      slot_empty k' (c * 4096 + s) = false /\
      retyped bp (c * 4096 + s) k k';

  (** A new second-level CNode has empty slots. *)
  retype_cnode_ok k u bits c n :
    retype_room k u = S n -> cnode_ready k c = false ->
    exists k', untyped_retype u (BpCNode bits) (relative_self SLOT_CNODE) c 1 k = (Ok tt, k') /\
      retype_room k' u = n /\ cnode_ready k' c = true /\
      (forall d, d <> c -> cnode_ready k' d = cnode_ready k d) /\
      same_tables k k' /\ kdiff nowhere1 nowhere nowhere k k';

  (** A frame is mapped when the tables exist, else the lookup fails. *)
  frame_map_ok k f v va r fr vs :
    cap_frame k f = Some fr -> cap_vs k v = Some vs -> cap_mapping k f = None ->
    page_aligned va -> 0 <= va < 2 ^ 48 -> missing k vs va = 0%nat ->
    translate k vs va = None ->
    exists k', frame_map f v va r k = (Ok tt, k') /\
      translate k' vs va = Some fr /\ cap_mapping k' f = Some (vs, va) /\
      cap_frame k' f = Some fr /\ slot_empty k' f = slot_empty k f /\
      same_alloc k k' /\
      kdiff (only f) (only2 vs va) nowhere k k';
  frame_map_failed_lookup k f v va r fr vs :
    cap_frame k f = Some fr -> cap_vs k v = Some vs -> cap_mapping k f = None ->
    page_aligned va -> 0 <= va < 2 ^ 48 -> missing k vs va <> 0%nat ->
    frame_map f v va r k = (Err FailedLookup, k);

  (** A table is mapped at the first level the address lacks. *)
  pt_map_ok k p v va vs n :
    cap_pt k p = true -> cap_vs k v = Some vs -> page_aligned va -> 0 <= va < 2 ^ 48 ->
    missing k vs va = S n ->
    exists k', pt_map p v va k = (Ok tt, k') /\ missing k' vs va = n /\
      same_alloc k k' /\
      cap_frame k' p = cap_frame k p /\ slot_empty k' p = slot_empty k p /\
      cap_vs k' p = cap_vs k p /\ cap_mapping k' p = cap_mapping k p /\
      kdiff (only p) nowhere nowhere k k';

  (** Unmapping clears the translation the capability installed. *)
  frame_unmap_ok k f fr vs va :
    cap_frame k f = Some fr -> cap_mapping k f = Some (vs, va) ->
    exists k', frame_unmap f k = (Ok tt, k') /\
      translate k' vs va = None /\ cap_mapping k' f = None /\
      cap_frame k' f = Some fr /\ slot_empty k' f = slot_empty k f /\
      same_alloc k k' /\
      kdiff (only f) (only2 vs va) nowhere k k';

  (** A copied frame capability designates the same frame and is not mapped. *)
  frame_copy_ok k d s r fr :
    slot_empty k d = true -> cap_frame k s = Some fr ->
    exists k', cnode_copy (relative SLOT_CNODE d) (relative SLOT_CNODE s) r k = (Ok tt, k') /\
      cap_frame k' d = Some fr /\ cap_mapping k' d = None /\ slot_empty k' d = false /\
      same_alloc k k' /\
      kdiff (only d) nowhere nowhere k k';

  (** Deleting an unmapped copy of a frame capability empties the slot. *)
  frame_delete_ok k d c' fr :
    cap_frame k d = Some fr -> cap_mapping k d = None -> c' <> d ->
    cap_frame k c' = Some fr ->
    exists k', cnode_delete (relative SLOT_CNODE d) k = (Ok tt, k') /\
      slot_empty k' d = true /\ cap_frame k' d = None /\ cap_mapping k' d = None /\
      same_alloc k k' /\
      kdiff (only d) nowhere nowhere k k';

  (** Loads and stores of the running thread go through its translations. *)
  load8_ok k a fr :
    translate k own_vs (down 4096 a) = Some fr ->
    load8 a k = Some (fbyte k fr (a mod 4096));
  store8_ok k a b fr :
    translate k own_vs (down 4096 a) = Some fr ->
    exists k', store8 a b k = Some k' /\ fbyte k' fr (a mod 4096) = b /\
      same_alloc k k' /\
      kdiff nowhere1 nowhere (only2 fr (a mod 4096)) k k';
}.

Section kdiff.
Context `{V : Sel4View}.

Lemma kdiff_refl C T B k : kdiff C T B k k.
Proof. by split. Qed.

Lemma kdiff_weaken (C C' : CPtr -> Prop) (T T' : VS -> Z -> Prop)
    (B B' : Frame -> Z -> Prop) k k' :
  (forall c, C c -> C' c) -> (forall vs va, T vs va -> T' vs va) ->
  (forall f o, B f o -> B' f o) ->
  kdiff C T B k k' -> kdiff C' T' B' k k'.
Proof. intros HC HT HB D. destruct D. split; naive_solver. Qed.

Lemma kdiff_trans C T B k1 k2 k3 :
  kdiff C T B k1 k2 -> kdiff C T B k2 k3 -> kdiff C T B k1 k3.
Proof.
  intros D E. split; intros.
  1,2,3,4,5: first [rewrite (kd_frame _ _ _ _ _ E), (kd_frame _ _ _ _ _ D)
                   |rewrite (kd_vs _ _ _ _ _ E), (kd_vs _ _ _ _ _ D)
                   |rewrite (kd_pt _ _ _ _ _ E), (kd_pt _ _ _ _ _ D)
                   |rewrite (kd_empty _ _ _ _ _ E), (kd_empty _ _ _ _ _ D)
                   |rewrite (kd_mapping _ _ _ _ _ E), (kd_mapping _ _ _ _ _ D)]; done.
  - rewrite (kd_trans _ _ _ _ _ E), (kd_trans _ _ _ _ _ D); done.
  - rewrite (kd_bytes _ _ _ _ _ E), (kd_bytes _ _ _ _ _ D); done.
  - pose proof (kd_missing _ _ _ _ _ E vs va). pose proof (kd_missing _ _ _ _ _ D vs va). lia.
Qed.
End kdiff.

Section retyped.
Context `{V : Sel4View}.

(** The frame a retype creates, if any. *)
Definition new_bytes (k : kstate) : Frame -> Z -> Prop :=
  fun f _ => forall c, cap_frame k c <> Some f.

Lemma retyped_kdiff bp p k k' :
  retyped bp p k k' -> kdiff (only p) nowhere (new_bytes k) k k'.
Proof.
  assert (forall B : Frame -> Z -> Prop, (forall f o, B f o -> new_bytes k f o) ->
            kdiff (only p) nowhere B k k' -> kdiff (only p) nowhere (new_bytes k) k k') as HW.
  { intros B HB. apply kdiff_weaken; auto. }
  assert (kdiff (only p) nowhere nowhere k k' ->
          kdiff (only p) nowhere (new_bytes k) k k') as HN.
  { apply HW. by intros ? ? []. }
  destruct bp; simpl; auto.
  - intros (vs & _ & _ & _ & _ & D). auto.
  - intros (_ & _ & D). auto.
  - intros (f & _ & _ & Hf & _ & _ & D). eapply HW; [|exact D]. intros g o ->. exact Hf.
Qed.

(** A retype after the creation of a CNode. *)
Lemma retyped_after_cnode bp p k k1 k' :
  kdiff nowhere1 nowhere nowhere k k1 -> same_tables k k1 ->
  retyped bp p k1 k' -> retyped bp p k k'.
Proof.
  intros D HS.
  assert (forall B : Frame -> Z -> Prop, kdiff (only p) nowhere B k1 k' ->
            kdiff (only p) nowhere B k k') as HD.
  { intros B. apply kdiff_trans. eapply kdiff_weaken, D; by intros. }
  destruct bp; simpl; intros HR; auto.
  - destruct HR as (vs & H1 & H2 & H3 & H4 & H5). exists vs. split_and!; auto.
    intros c'. by rewrite <- (kd_vs _ _ _ _ _ D) by by intros [].
  - destruct HR as (H1 & H2 & H3). split_and!; auto.
    intros vs va. by rewrite H2, HS.
  - destruct HR as (f & H1 & H2 & H3 & H4 & H5 & H6). exists f. split_and!; auto.
    + intros c'. by rewrite <- (kd_frame _ _ _ _ _ D) by by intros [].
    + intros vs va. by rewrite <- (kd_trans _ _ _ _ _ D) by by intros [].
Qed.
End retyped.
