(* ===== verification/RefKernel.v ===== *)
(** * A reference kernel

    An executable kernel state with capabilities, frames, four-level
    translation tables and address spaces that satisfies [Sel4Laws].  It is
    used only by the witnesses. *)

From S2P Require Import Prelude Words Consts Sel4 Sel4Laws.

(** A capability: a frame with the place it is mapped at, an address space, a
    translation table, or another object. *)
Inductive rcap :=
  | RFrame (f : Z) (m : option (Z * Z))
  | RVs (v : Z)
  | RPt (mapped : bool)
  | ROther.

#[global] Instance rcap_eq_dec : EqDecision rcap.
Proof. solve_decision. Defined.

Record rk := MkRk {
  rk_caps : gmap Z rcap;
  rk_bytes : gmap Z (gmap Z Z);
  rk_trans : gmap (Z * Z) Z;
  (** mapped tables: address space, region bits, region index *)
  rk_tables : gset (Z * Z * Z);
  rk_room : nat;
  rk_cnodes : gset Z;
  (** registers and run state behind TCB capabilities *)
  rk_tcbs : gmap Z (UserContext * bool);
}.

Definition set_rcaps (c : gmap Z rcap) (k : rk) : rk :=
  MkRk c (rk_bytes k) (rk_trans k) (rk_tables k) (rk_room k) (rk_cnodes k) (rk_tcbs k).
Definition set_rtrans (t : gmap (Z * Z) Z) (k : rk) : rk :=
  MkRk (rk_caps k) (rk_bytes k) t (rk_tables k) (rk_room k) (rk_cnodes k) (rk_tcbs k).
Definition set_rbytes (b : gmap Z (gmap Z Z)) (k : rk) : rk :=
  MkRk (rk_caps k) b (rk_trans k) (rk_tables k) (rk_room k) (rk_cnodes k) (rk_tcbs k).
Definition set_rtables (t : gset (Z * Z * Z)) (k : rk) : rk :=
  MkRk (rk_caps k) (rk_bytes k) (rk_trans k) t (rk_room k) (rk_cnodes k) (rk_tcbs k).
Definition set_rroom (n : nat) (k : rk) : rk :=
  MkRk (rk_caps k) (rk_bytes k) (rk_trans k) (rk_tables k) n (rk_cnodes k) (rk_tcbs k).
Definition set_rcnodes (c : gset Z) (k : rk) : rk :=
  MkRk (rk_caps k) (rk_bytes k) (rk_trans k) (rk_tables k) (rk_room k) c (rk_tcbs k).
Definition set_rtcbs (t : gmap Z (UserContext * bool)) (k : rk) : rk :=
  MkRk (rk_caps k) (rk_bytes k) (rk_trans k) (rk_tables k) (rk_room k) (rk_cnodes k) t.

(** The regions of an address at the three table levels. *)
Definition r_regions (vs va : Z) : list (Z * Z * Z) :=
  [(vs, 39, va / 2 ^ 39); (vs, 30, va / 2 ^ 30); (vs, 21, va / 2 ^ 21)].

Definition r_absent (k : rk) (vs va : Z) : list (Z * Z * Z) :=
  filter (fun r => r ∉ rk_tables k) (r_regions vs va).

Definition r_missing (k : rk) (vs va : Z) : nat := length (r_absent k vs va).

(** Identifiers in use: [frames] and [address spaces]. *)
Definition r_frames (k : rk) : list Z :=
  (map_to_list (rk_caps k) ≫= fun '(_, c) => match c with RFrame f _ => [f] | _ => [] end) ++
  (map_to_list (rk_trans k)).*2.
Definition r_spaces (k : rk) : list Z :=
  0 :: (map_to_list (rk_caps k) ≫= fun '(_, c) => match c with RVs v => [v] | _ => [] end) ++
  (map_to_list (rk_trans k)).*1.*1.

Definition r_fresh (l : list Z) : Z := 1 + foldr Z.max 0 l.

Definition r_byte (k : rk) (f o : Z) : Z :=
  default 0 (rk_bytes k !! f ≫= fun m => m !! o).

Definition r_err (e : Error) (k : rk) : result unit Error * rk := (Err e, k).

Definition r_retype (u : Z) (bp : ObjectBlueprint) (dst : AbsoluteCPtr) (s n : Z)
    (k : rk) : result unit Error * rk :=
  match rk_room k with
  | O => r_err NotEnoughMemory k
  | S room =>
      if ac_depth dst =? 0 then
        match bp with
        | BpCNode _ => (Ok tt, set_rroom room (set_rcnodes ({[s]} ∪ rk_cnodes k) k))
        | _ => (Ok tt, set_rroom room (set_rcaps (<[s := ROther]> (rk_caps k)) k))
        end
      else
        let p := ac_path dst * 4096 + s in
        if bool_decide (ac_path dst ∈ rk_cnodes k) then
          match rk_caps k !! p with
          | Some _ => r_err DeleteFirst k
          | None =>
              let put c k := set_rroom room (set_rcaps (<[p := c]> (rk_caps k)) k) in
              match bp with
              | BpGranule =>
                  let f := r_fresh (r_frames k) in
                  (Ok tt, put (RFrame f None) (set_rbytes (delete f (rk_bytes k)) k))
              | BpVSpace => (Ok tt, put (RVs (r_fresh (r_spaces k))) k)
              | BpPT => (Ok tt, put (RPt false) k)
              | BpTcb => (Ok tt, put ROther (set_rtcbs (<[p := (MkCtx 0 0 ∅ 0, false)]> (rk_tcbs k)) k))
              | _ => (Ok tt, put ROther k)
              end
          end
        else r_err FailedLookup k
  end.

Definition r_frame_map (f v va : Z) (k : rk) : result unit Error * rk :=
  match rk_caps k !! f, rk_caps k !! v with
  | Some (RFrame fr None), Some (RVs vs) =>
      if negb (va mod 4096 =? 0) then r_err AlignmentError k
      else if negb (Nat.eqb (r_missing k vs va) 0) then r_err FailedLookup k
      else match rk_trans k !! (vs, va) with
           | Some _ => r_err DeleteFirst k
           | None => (Ok tt, set_rtrans (<[(vs, va) := fr]> (rk_trans k))
                        (set_rcaps (<[f := RFrame fr (Some (vs, va))]> (rk_caps k)) k))
           end
  | _, _ => r_err InvalidCapability k
  end.

Definition r_frame_unmap (f : Z) (k : rk) : result unit Error * rk :=
  match rk_caps k !! f with
  | Some (RFrame fr (Some (vs, va))) =>
      (Ok tt, set_rtrans (delete (vs, va) (rk_trans k))
                (set_rcaps (<[f := RFrame fr None]> (rk_caps k)) k))
  | Some (RFrame fr None) => (Ok tt, k)
  | _ => r_err InvalidCapability k
  end.

Definition r_pt_map (p v va : Z) (k : rk) : result unit Error * rk :=
  match rk_caps k !! p, rk_caps k !! v with
  | Some (RPt false), Some (RVs vs) =>
      match r_absent k vs va with
      | [] => r_err DeleteFirst k
      | r :: _ => (Ok tt, set_rtables ({[r]} ∪ rk_tables k)
                            (set_rcaps (<[p := RPt true]> (rk_caps k)) k))
      end
  | _, _ => r_err InvalidCapability k
  end.

Definition r_copy (dst src : AbsoluteCPtr) (k : rk) : result unit Error * rk :=
  if negb (ac_root dst =? 2) then (Ok tt, k)
  else match rk_caps k !! ac_path dst, rk_caps k !! ac_path src with
       | None, Some c =>
           let c' := match c with RFrame f _ => RFrame f None | _ => c end in
           (Ok tt, set_rcaps (<[ac_path dst := c']> (rk_caps k)) k)
       | Some _, _ => r_err DeleteFirst k
       | None, None => r_err FailedLookup k
       end.

Definition r_delete (c : AbsoluteCPtr) (k : rk) : result unit Error * rk :=
  if negb (ac_root c =? 2) then (Ok tt, k)
  else match rk_caps k !! ac_path c with
       | Some (RFrame _ (Some (vs, va))) =>
           (Ok tt, set_rtrans (delete (vs, va) (rk_trans k))
                     (set_rcaps (delete (ac_path c) (rk_caps k)) k))
       | _ => (Ok tt, set_rcaps (delete (ac_path c) (rk_caps k)) k)
       end.

Definition r_tcb (k : rk) (t : Z) : option (UserContext * bool) :=
  match rk_caps k !! t with Some ROther => rk_tcbs k !! t | _ => None end.

Definition r_set_tcb (t : Z) (f : UserContext * bool -> UserContext * bool) (k : rk) :
    result unit Error * rk :=
  (Ok tt, match rk_tcbs k !! t with
          | Some x => set_rtcbs (<[t := f x]> (rk_tcbs k)) k
          | None => k
          end).

Definition r_ok {A} (a : A) (k : rk) : result A Error * rk := (Ok a, k).

Definition ref_sel4 : Sel4 := {|
  kstate := rk;
  SLOT_NULL := 0; SLOT_TCB := 1; SLOT_CNODE := 2; SLOT_VSPACE := 3;
  SLOT_IRQ_CONTROL := 4; SLOT_ASID_CONTROL := 5; SLOT_ASID_POOL := 6;
  NUM_LEVELS := 4;
  span_bits l := 12 + 9 * (4 - l);
  table_blueprint l := if (0 <? l) && (l <? 4) then Some BpPT else None;
  CapRights := bool * bool * bool;
  rights_all := (true, true, true);
  rights_read b r := (b, r.1.2, r.2);
  rights_write b r := (r.1.1, b, r.2);
  rights_grant b r := (r.1.1, r.1.2, b);
  cnode_cap_data g s := g * 64 + s;
  cnode_skip b := b;
  cnode_skip_high_bits b := 64 - b;
  untyped_retype := r_retype;
  cnode_copy d s _ := r_copy d s;
  cnode_mint d s _ _ := r_copy d s;
  cnode_mutate d s _ := r_copy d s;
  cnode_delete := r_delete;
  cnode_revoke _ := r_ok tt;
  frame_map f v va _ := r_frame_map f v va;
  frame_unmap := r_frame_unmap;
  frame_get_address f k :=
    match rk_caps k !! f with
    | Some (RFrame fr _) => (Ok (0x40000000 + fr mod 2 ^ 20 * 4096), k)
    | _ => (Err InvalidCapability, k)
    end;
  pt_map := r_pt_map;
  table_map _ p v va := r_pt_map p v va;
  asid_pool_assign _ _ := r_ok tt;
  tcb_configure _ _ _ _ _ _ _ := r_ok tt;
  tcb_set_sched_params _ _ _ _ := r_ok tt;
  tcb_set_space _ _ _ _ _ := r_ok tt;
  tcb_read_all_registers t _ k := (Ok (default (MkCtx 0 0 ∅ 0) (fst <$> r_tcb k t)), k);
  tcb_write_all_registers t resume ctx := r_set_tcb t (fun x => (ctx, x.2 || resume));
  tcb_resume t := r_set_tcb t (fun x => (x.1, true));
  tcb_suspend _ := r_ok tt;
  irq_control_get _ _ := r_ok tt;
  load8 a k :=
    match rk_trans k !! (0, down 4096 a) with
    | Some f => Some (r_byte k f (a mod 4096))
    | None => None
    end;
  store8 a b k :=
    match rk_trans k !! (0, down 4096 a) with
    | Some f =>
        Some (set_rbytes
                (<[f := <[a mod 4096 := b]> (default ∅ (rk_bytes k !! f))]> (rk_bytes k)) k)
    | None => None
    end;
|}.

Definition ref_view : @Sel4View ref_sel4 := {|
  Frame := Z : Type;
  VS := Z : Type;
  Frame_eq_dec := Z.eq_dec;
  VS_eq_dec := Z.eq_dec;
  own_vs := 0;
  cap_frame (k : @kstate ref_sel4) c :=
    match rk_caps k !! c with Some (RFrame f _) => Some f | _ => None end;
  cap_vs (k : @kstate ref_sel4) c :=
    match rk_caps k !! c with Some (RVs v) => Some v | _ => None end;
  cap_pt (k : @kstate ref_sel4) c :=
    match rk_caps k !! c with Some (RPt false) => true | _ => false end;
  slot_empty (k : @kstate ref_sel4) c :=
    match rk_caps k !! c with Some _ => false | None => true end;
  cap_mapping (k : @kstate ref_sel4) c :=
    match rk_caps k !! c with Some (RFrame _ m) => m | _ => None end;
  translate (k : @kstate ref_sel4) vs va := rk_trans k !! (vs, va);
  missing (k : @kstate ref_sel4) := r_missing k;
  fbyte (k : @kstate ref_sel4) := r_byte k;
  retype_room (k : @kstate ref_sel4) _ := rk_room k;
  cnode_ready (k : @kstate ref_sel4) c := bool_decide (c ∈ rk_cnodes k);
|}.

(** ** The laws *)

#[local] Arguments r_missing : simpl never.
#[local] Arguments r_absent : simpl never.
#[local] Arguments r_fresh : simpl never.

Lemma r_fresh_not_in l : r_fresh l ∉ l.
Proof.
  assert (forall x, x ∈ l -> x <= foldr Z.max 0 l) as Hle.
  { induction l as [|y l IH]; intros x Hx; [by apply not_elem_of_nil in Hx|].
    apply elem_of_cons in Hx as [->|Hx]; simpl; [lia|]. specialize (IH x Hx). lia. }
  intros Hin. specialize (Hle _ Hin). unfold r_fresh in *. lia.
Qed.

Lemma r_frames_cap k c f m : rk_caps k !! c = Some (RFrame f m) -> f ∈ r_frames k.
Proof.
  intros H. apply elem_of_app. left. apply list_elem_of_bind.
  exists (c, RFrame f m). split; [set_solver|by apply elem_of_map_to_list].
Qed.

Lemma r_frames_trans k p f : rk_trans k !! p = Some f -> f ∈ r_frames k.
Proof.
  intros H. apply elem_of_app. right. apply list_elem_of_fmap.
  exists (p, f). split; [done|by apply elem_of_map_to_list].
Qed.

Lemma r_spaces_cap k c v : rk_caps k !! c = Some (RVs v) -> v ∈ r_spaces k.
Proof.
  intros H. apply elem_of_cons. right. apply elem_of_app. left. apply list_elem_of_bind.
  exists (c, RVs v). split; [set_solver|by apply elem_of_map_to_list].
Qed.

Lemma r_spaces_trans k vs va f : rk_trans k !! (vs, va) = Some f -> vs ∈ r_spaces k.
Proof.
  intros H. apply elem_of_cons. right. apply elem_of_app. right.
  apply list_elem_of_fmap. exists (vs, va). split; [done|].
  apply list_elem_of_fmap. exists ((vs, va), f). split; [done|by apply elem_of_map_to_list].
Qed.

Lemma r_missing_le k k' vs va :
  rk_tables k ⊆ rk_tables k' -> (r_missing k' vs va <= r_missing k vs va)%nat.
Proof.
  intros Hsub. unfold r_missing, r_absent.
  induction (r_regions vs va) as [|r l IH]; [done|].
  rewrite !filter_cons. repeat case_decide; simpl; try lia; set_solver.
Qed.

Lemma r_filter_not_in (T : gset (Z * Z * Z)) r (L : list (Z * Z * Z)) :
  r ∉ L -> filter (fun x => x ∉ {[r]} ∪ T) L = filter (fun x => x ∉ T) L.
Proof.
  induction L as [|x L IH]; intros Hr; [done|].
  apply not_elem_of_cons in Hr as [Hne Hr]. rewrite !filter_cons, IH by done.
  repeat case_decide; try done; set_solver.
Qed.

Lemma r_filter_first (T : gset (Z * Z * Z)) r (l L : list (Z * Z * Z)) :
  NoDup L -> filter (fun x => x ∉ T) L = r :: l ->
  filter (fun x => x ∉ {[r]} ∪ T) L = l.
Proof.
  induction L as [|x L IH]; intros Hnd HL; [done|].
  apply NoDup_cons in Hnd as [Hx Hnd]. rewrite filter_cons in HL.
  rewrite filter_cons. case_decide as Hx1.
  - injection HL as -> <-. rewrite decide_False by set_solver.
    by apply r_filter_not_in.
  - rewrite decide_False by set_solver. by apply IH.
Qed.

Lemma r_absent_cons k vs va r l :
  r_absent k vs va = r :: l ->
  r_absent (set_rtables ({[r]} ∪ rk_tables k) k) vs va = l.
Proof.
  unfold r_absent. simpl. apply r_filter_first.
  unfold r_regions. repeat (apply NoDup_cons; split; [|]); try apply NoDup_nil_2;
    rewrite ?elem_of_cons, ?elem_of_nil; intuition congruence.
Qed.

Lemma r_missing_lt k vs va : (r_missing k vs va < 4)%nat.
Proof.
  unfold r_missing, r_absent. pose proof (length_filter (fun r => r ∉ rk_tables k) (r_regions vs va)).
  unfold r_regions in *. simpl in *. lia.
Qed.

(** A reference kernel that differs from another only in one slot. *)
Ltac r_kdiff :=
  split; cbn; intros;
  repeat match goal with
  | H : ~ only ?x ?y |- _ => assert (y <> x) by (intros ?; apply H; done); clear H
  end;
  rewrite ?lookup_insert_ne, ?lookup_delete_ne by congruence;
  try done.

Lemma ref_laws : @Sel4Laws ref_sel4 ref_view.
Proof.
  split.
  - intros k vs va. pose proof (r_missing_lt k vs va).
    change (Z.of_nat (r_missing k vs va) < 4). lia.
  - intros k c f. cbn. by destruct (rk_caps k !! c) as [[]|].
  - intros k c f. cbn. by destruct (rk_caps k !! c) as [[]|].
  - intros k c f. cbn. by destruct (rk_caps k !! c) as [[]|].
  - intros k u bp c s n Hs Hc He Hroom. cbn in *.
    apply bool_decide_eq_true in Hc. unfold r_retype. rewrite Hroom. cbn.
    rewrite bool_decide_true by done.
    destruct (rk_caps k !! (c * 4096 + s)) eqn:Ec; [done|].
    destruct bp; eexists; (split; [reflexivity|]); cbn; rewrite ?lookup_insert_eq;
      (split; [done|]); (split; [done|]); (split; [done|]); try solve [r_kdiff].
    + exists (r_fresh (r_spaces k)). split_and!; [done| | | |].
      * intros E. apply (r_fresh_not_in (r_spaces k)). cbn in E. rewrite E. left.
      * intros c' Hc'. destruct (rk_caps k !! c') as [[]|] eqn:E; try done.
        injection Hc' as ->. apply r_spaces_cap in E. by apply r_fresh_not_in in E.
      * intros va. apply eq_None_not_Some. intros [f E].
        apply r_spaces_trans in E. by apply r_fresh_not_in in E.
      * r_kdiff.
    + split; [done|]. split; [done|]. r_kdiff.
    + exists (r_fresh (r_frames k)). split_and!; [done|done| | | |].
      * intros c' Hc'. destruct (rk_caps k !! c') as [[]|] eqn:E; try done.
        injection Hc' as ->. apply r_frames_cap in E. by apply r_fresh_not_in in E.
      * intros vs va E. apply r_frames_trans in E. by apply r_fresh_not_in in E.
      * intros o. unfold r_byte. cbn. by rewrite lookup_delete_eq.
      * r_kdiff. unfold r_byte. cbn. by rewrite lookup_delete_ne by congruence.
  - intros k u bits c n Hroom Hc. cbn in *. unfold r_retype. rewrite Hroom. cbn.
    eexists. split; [reflexivity|]. cbn.
    split_and!; [done|apply bool_decide_eq_true; set_solver| |done|r_kdiff].
    intros d Hd. apply bool_decide_ext. set_solver.
  - intros k f v va r fr vs Hf Hv Hm Ha Hva Hmiss Ht. cbn in *. unfold r_frame_map.
    destruct (rk_caps k !! f) as [[g m| | |]|] eqn:Ef; try done. injection Hf as ->. subst m.
    destruct (rk_caps k !! v) as [[|w| |]|] eqn:Ev; try done. injection Hv as ->.
    unfold page_aligned in Ha. rewrite Ha, Hmiss, Ht. cbn.
    eexists. split; [reflexivity|]. cbn. rewrite !lookup_insert_eq, ?Ef. split_and!; try done.
    r_kdiff. rewrite lookup_insert_ne; [done|]. intros [= -> ->]. by apply H.
  - intros k f v va r fr vs Hf Hv Hm Ha Hva Hmiss. cbn in *. unfold r_frame_map.
    destruct (rk_caps k !! f) as [[g m| | |]|] eqn:Ef; try done. injection Hf as ->. subst m.
    destruct (rk_caps k !! v) as [[|w| |]|] eqn:Ev; try done. injection Hv as ->.
    unfold page_aligned in Ha. rewrite Ha. cbn.
    by apply Nat.eqb_neq in Hmiss as ->.
  - intros k p v va vs n Hp Hv Ha Hva Hmiss. cbn in *. unfold r_pt_map.
    destruct (rk_caps k !! p) as [[| |[]|]|] eqn:Ep; try done.
    destruct (rk_caps k !! v) as [[|w| |]|] eqn:Ev; try done. injection Hv as ->.
    unfold r_missing in Hmiss. destruct (r_absent k vs va) as [|r l] eqn:El; [done|].
    eexists. split; [reflexivity|]. cbn. rewrite !lookup_insert_eq, ?Ep.
    split_and!; try done.
    + unfold r_missing. apply r_absent_cons in El. unfold r_absent in *. cbn in *.
      rewrite El. simpl in Hmiss. lia.
    + r_kdiff. apply r_missing_le. cbn. set_solver.
  - intros k f fr vs va Hf Hm. cbn in *. unfold r_frame_unmap.
    destruct (rk_caps k !! f) as [[g m| | |]|] eqn:Ef; try done. injection Hf as ->. subst m.
    eexists. split; [reflexivity|]. cbn. rewrite lookup_insert_eq, lookup_delete_eq, ?Ef.
    split_and!; try done.
    r_kdiff. rewrite lookup_delete_ne; [done|]. intros [= -> ->]. by apply H.
  - intros k d s r fr He Hs. cbn in *. unfold r_copy. cbn.
    destruct (rk_caps k !! d) eqn:Ed; [done|].
    destruct (rk_caps k !! s) as [[g m| | |]|] eqn:Es; try done. injection Hs as ->.
    eexists. split; [reflexivity|]. cbn. rewrite lookup_insert_eq.
    split_and!; try done. r_kdiff.
  - intros k d c' fr Hd Hm Hne Hc'. cbn in *. unfold r_delete. cbn.
    destruct (rk_caps k !! d) as [[g m| | |]|] eqn:Ed; try done. injection Hd as ->. subst m.
    eexists. split; [reflexivity|]. cbn. rewrite lookup_delete_eq.
    split_and!; try done. r_kdiff.
  - intros k a fr Ht. cbn in *. by rewrite Ht.
  - intros k a b fr Ht. cbn in *. rewrite Ht.
    eexists. split; [reflexivity|]. cbn. split_and!; [|done|].
    + unfold r_byte. cbn. rewrite lookup_insert_eq. cbn. by rewrite lookup_insert_eq.
    + r_kdiff. unfold r_byte. cbn.
      destruct (decide (f = fr)) as [->|Hne].
      * rewrite lookup_insert_eq. cbn. rewrite lookup_insert_ne.
        -- by destruct (rk_bytes k !! fr).
        -- intros E. apply H. by split.
      * by rewrite lookup_insert_ne.
Qed.
