(* ===== verification/Externs.v ===== *)
(** * Interfaces of the other external crates

    The crates [bitflags], [memory_addr], [axerrno] and [syscalls] are not part
    of the repository.  Each is a class of the operations the program calls,
    with a law class stating their documented behaviour. *)

From S2P Require Import Prelude Words.

(** ** bitflags *)

Class Bitflags := {
  (** [from_bits], given the union of the declared flags *)
  bf_from_bits : Z -> Z -> option Z;
  bf_contains : Z -> Z -> bool;
}.

Class BitflagsLaws `{Bitflags} : Prop := {
  (** unknown bits are rejected, known bits are kept *)
  bf_from_bits_ok all bits :
    bf_from_bits all bits = if Z.land bits (Z.lnot all) =? 0 then Some bits else None;
  bf_contains_ok a b : bf_contains a b = (Z.land a b =? b);
}.

(** ** memory_addr *)

Definition PAGE_SIZE_4K : Z := 0x1000.

Class MemoryAddr := {
  align_offset_4k : Z -> Z;
  align_down_4k : Z -> Z;
  align_up_4k : Z -> Z;
  (** [VirtAddr + usize] and [VirtAddr - VirtAddr] *)
  va_add : Z -> Z -> outcome Z;
  va_sub : Z -> Z -> outcome Z;
  (** [PageIter4K::new(start, end)] and the addresses it yields *)
  page_iter_4k : Z -> Z -> option (list Z);
}.

Class MemoryAddrLaws `{MemoryAddr} : Prop := {
  align_offset_4k_ok a : 0 <= a -> align_offset_4k a = a mod PAGE_SIZE_4K;
  align_down_4k_ok a : 0 <= a -> align_down_4k a = down PAGE_SIZE_4K a;
  align_up_4k_ok a : 0 <= a -> up PAGE_SIZE_4K a < 2 ^ 64 ->
    align_up_4k a = up PAGE_SIZE_4K a;
  va_add_ok a n : 0 <= a -> 0 <= n -> a + n < 2 ^ 64 -> va_add a n = Ret (a + n);
  va_sub_ok a b : 0 <= b <= a -> a < 2 ^ 64 -> va_sub a b = Ret (a - b);
  page_iter_4k_ok a b : a mod PAGE_SIZE_4K = 0 -> b mod PAGE_SIZE_4K = 0 ->
    page_iter_4k a b = Some (step_range PAGE_SIZE_4K a b);
}.

(** ** axerrno *)

Class AxErrno := {
  AxError : Type;
  AddrInUse : AxError; AlreadyExists : AxError; BadState : AxError;
  ConnectionRefused : AxError; ConnectionReset : AxError; InvalidInput : AxError;
  NotConnected : AxError; WouldBlock : AxError;
  AxError_eqb : AxError -> AxError -> bool;
  (** [AxError::code] and [TryFrom<i32>] *)
  ax_code : AxError -> Z;
  ax_try_from : Z -> option AxError;
}.

Class AxErrnoLaws `{AxErrno} : Prop := {
  AxError_eqb_eq a b : AxError_eqb a b = true <-> a = b;
  (** error codes are small positive numbers, and decode to their error *)
  ax_code_range e : 0 < ax_code e < 2 ^ 31;
  ax_try_from_code e : ax_try_from (ax_code e) = Some e;
  (** the named errors are different *)
  ax_named_distinct :
    NoDup [AddrInUse; AlreadyExists; BadState; ConnectionRefused; ConnectionReset;
           InvalidInput; NotConnected; WouldBlock];
}.

(** ** syscalls *)

(** The system calls the dispatcher names; every other number is [sys_other]. *)
Inductive Sysno :=
  | sys_no_write | sys_no_brk | sys_no_mmap | sys_no_munmap | sys_no_exit
  | sys_no_exit_group | sys_no_getpid | sys_no_execve | sys_no_clone
  | sys_no_gettid | sys_no_sched_yield | sys_no_getppid
  | sys_no_set_tid_address | sys_no_getuid | sys_no_geteuid | sys_no_socket
  | sys_no_accept | sys_no_bind | sys_no_connect | sys_no_listen
  | sys_no_sendto | sys_no_recvfrom | sys_no_shutdown
  | sys_other (id : Z).

Inductive Errno := EINVAL | ENOMEM | EFAULT | ENOSYS.

#[global] Instance Errno_eq_dec : EqDecision Errno.
Proof. solve_decision. Defined.

Class SyscallsCrate := {
  (** [Sysno::new] and [Sysno::id] *)
  Sysno_new : Z -> option Sysno;
  Sysno_id : Sysno -> Z;
  (** [Errno::into_raw] *)
  Errno_into_raw : Errno -> Z;
}.

Class SyscallsLaws `{SyscallsCrate} : Prop := {
  Sysno_new_id n : (forall id, n <> sys_other id) -> Sysno_new (Sysno_id n) = Some n;
  Errno_range e : 0 < Errno_into_raw e < 4096;
  Errno_inj e e' : Errno_into_raw e = Errno_into_raw e' -> e = e';
}.
