(* ===== verification/Reference.v ===== *)
(** * Reference instances of the external interfaces

    Concrete functions for the parameters of the model, used only by the
    witnesses: they show that the documented behaviour assumed by the law
    classes can hold, and let the definitions be evaluated. *)

From S2P Require Import Prelude Words Consts Sel4 Externs.

(** ** Message tags packed into a word as [seL4_MessageInfo_t] does

    | label (52) | capsUnwrapped (3) | extraCaps (2) | length (7) | *)

Definition packed_message_info : MessageInfoApi := {|
  MessageInfo := Z;
  mi_new l c e n := l * 2 ^ 12 + c * 2 ^ 9 + e * 2 ^ 7 + n;
  mi_label w := w / 2 ^ 12;
  mi_extra_caps w := (w / 2 ^ 7) mod 2 ^ 2;
  mi_length w := w mod 2 ^ 7;
|}.

Lemma packed_message_info_laws : @MessageInfoLaws packed_message_info.
Proof.
  split; intros l c e n (Hl & Hc & He & Hn);
    cbn [mi_new mi_label mi_extra_caps mi_length packed_message_info].
  - symmetry. apply (Z.div_unique_pos _ _ _ (c * 2 ^ 9 + e * 2 ^ 7 + n)); lia.
  - replace ((l * 2 ^ 12 + c * 2 ^ 9 + e * 2 ^ 7 + n) / 2 ^ 7)
      with (l * 2 ^ 5 + c * 2 ^ 2 + e).
    + symmetry. apply (Z.mod_unique_pos _ _ (l * 2 ^ 3 + c)); lia.
    + apply (Z.div_unique_pos _ _ _ n); lia.
  - symmetry. apply (Z.mod_unique_pos _ _ (l * 2 ^ 5 + c * 2 ^ 2 + e)); lia.
Qed.

(** ** bitflags *)

Definition ref_bitflags : Bitflags := {|
  bf_from_bits all bits := if Z.land bits (Z.lnot all) =? 0 then Some bits else None;
  bf_contains a b := Z.land a b =? b;
|}.

Lemma ref_bitflags_laws : @BitflagsLaws ref_bitflags.
Proof. by split. Qed.

(** ** memory_addr *)

Definition ref_memory_addr : MemoryAddr := {|
  align_offset_4k a := a mod PAGE_SIZE_4K;
  align_down_4k a := down PAGE_SIZE_4K a;
  align_up_4k a := wrap64 (up PAGE_SIZE_4K a);
  va_add a n := Ret (wrap64 (a + n));
  va_sub a b := Ret (wrap64 (a - b));
  page_iter_4k a b :=
    if (a mod PAGE_SIZE_4K =? 0) && (b mod PAGE_SIZE_4K =? 0)
    then Some (step_range PAGE_SIZE_4K a b) else None;
|}.

Lemma ref_memory_addr_laws : @MemoryAddrLaws ref_memory_addr.
Proof.
  split; cbn; intros.
  - done.
  - done.
  - apply wrap64_small. unfold is_u64.
    pose proof (up_bounds PAGE_SIZE_4K a ltac:(unfold PAGE_SIZE_4K; lia)). lia.
  - f_equal. apply wrap64_small. unfold is_u64. lia.
  - f_equal. apply wrap64_small. unfold is_u64. lia.
  - by rewrite H, H0.
Qed.

(** ** axerrno, with the variants the program names *)

Inductive ref_ax_error :=
  | RAddrInUse | RAlreadyExists | RBadState | RConnectionRefused
  | RConnectionReset | RInvalidInput | RNotConnected | RWouldBlock.

#[global] Instance ref_ax_error_eq_dec : EqDecision ref_ax_error.
Proof. solve_decision. Defined.

Definition ref_ax_errors : list ref_ax_error :=
  [RAddrInUse; RAlreadyExists; RBadState; RConnectionRefused;
   RConnectionReset; RInvalidInput; RNotConnected; RWouldBlock].

Definition ref_ax_code (e : ref_ax_error) : Z :=
  match e with
  | RAddrInUse => 1 | RAlreadyExists => 2 | RBadState => 3
  | RConnectionRefused => 4 | RConnectionReset => 5 | RInvalidInput => 6
  | RNotConnected => 7 | RWouldBlock => 8
  end.

Definition ref_axerrno : AxErrno := {|
  AxError := ref_ax_error;
  AddrInUse := RAddrInUse; AlreadyExists := RAlreadyExists; BadState := RBadState;
  ConnectionRefused := RConnectionRefused; ConnectionReset := RConnectionReset;
  InvalidInput := RInvalidInput; NotConnected := RNotConnected;
  WouldBlock := RWouldBlock;
  AxError_eqb a b := bool_decide (a = b);
  ax_code := ref_ax_code;
  ax_try_from z := if decide (0 < z) then ref_ax_errors !! Z.to_nat (z - 1) else None;
|}.

Lemma ref_axerrno_laws : @AxErrnoLaws ref_axerrno.
Proof.
  split; cbn.
  - intros a b. apply bool_decide_eq_true.
  - intros []; cbn; lia.
  - by intros [].
  - by apply (bool_decide_unpack _).
Qed.

(** ** syscalls, with the AArch64 Linux numbers *)

Definition ref_sysno_id (n : Sysno) : Z :=
  match n with
  | sys_no_write => 64 | sys_no_brk => 214 | sys_no_mmap => 222
  | sys_no_munmap => 215 | sys_no_exit => 93 | sys_no_exit_group => 94
  | sys_no_getpid => 172 | sys_no_execve => 221 | sys_no_clone => 220
  | sys_no_gettid => 178 | sys_no_sched_yield => 124 | sys_no_getppid => 173
  | sys_no_set_tid_address => 96 | sys_no_getuid => 174 | sys_no_geteuid => 175
  | sys_no_socket => 198 | sys_no_accept => 202 | sys_no_bind => 200
  | sys_no_connect => 203 | sys_no_listen => 201 | sys_no_sendto => 206
  | sys_no_recvfrom => 207 | sys_no_shutdown => 210
  | sys_other id => id
  end.

Definition ref_sysnos : list Sysno :=
  [sys_no_write; sys_no_brk; sys_no_mmap; sys_no_munmap; sys_no_exit;
   sys_no_exit_group; sys_no_getpid; sys_no_execve; sys_no_clone; sys_no_gettid;
   sys_no_sched_yield; sys_no_getppid; sys_no_set_tid_address; sys_no_getuid;
   sys_no_geteuid; sys_no_socket; sys_no_accept; sys_no_bind; sys_no_connect;
   sys_no_listen; sys_no_sendto; sys_no_recvfrom; sys_no_shutdown].

Definition ref_syscalls : SyscallsCrate := {|
  Sysno_new z :=
    if decide (0 <= z < 448) then
      match List.find (fun n => ref_sysno_id n =? z) ref_sysnos with
      | Some n => Some n
      | None => Some (sys_other z)
      end
    else None;
  Sysno_id := ref_sysno_id;
  Errno_into_raw e :=
    match e with EINVAL => 22 | ENOMEM => 12 | EFAULT => 14 | ENOSYS => 38 end;
|}.

Lemma ref_syscalls_laws : @SyscallsLaws ref_syscalls.
Proof.
  split.
  - intros [] Hn; try reflexivity. by destruct (Hn id).
  - intros []; cbn; lia.
  - intros [] []; cbn; congruence.
Qed.
