(* ===== verification/Messages.v ===== *)
(** * IPC messages ([crates/common/src/lib.rs])

    The four message protocols of the system -- kernel-thread calls
    ([CustomMessageLabel]), root-task requests ([RootMessageLabel]), block
    requests ([BlkMessageLabel]) and network requests ([NetRequsetabel]) -- with
    their encoders into the IPC buffer and decoders out of it. *)

From S2P Require Import Prelude Words Consts Sel4 Reference.

(** ** TestMessageLabel (the instance of [impl_message_label!]) *)

Inductive TestMessageLabel :=
  | TML_MessageLabel
  | TML_Test1
  | TML_Test2 (a b : Z).

(** Every listed label runs into [todo!()]. *)
Definition TestMessageLabel_try_from (chk : bool) (raw_label : Z) :
    outcome (option TestMessageLabel) :=
  label ← sub_chk chk raw_label 100;
  if label =? 0 then Panic PTodo
  else if label =? 1 then Panic PTodo
  else if label =? 2 then Panic PTodo
  else mret None.

(** ** CustomMessageLabel *)

Inductive CustomMessageLabel :=
  | CML_TestCustomMessage
  | CML_SysCall
  | CML_Exit.

#[global] Instance CustomMessageLabel_eq_dec : EqDecision CustomMessageLabel.
Proof. solve_decision. Defined.

Definition CML_LABEL_START : Z := 0x100.

(** [*self as u64]: the discriminants of the [repr(usize)] enum. *)
Definition CustomMessageLabel_discriminant (l : CustomMessageLabel) : Z :=
  match l with
  | CML_TestCustomMessage => 0
  | CML_SysCall => 1
  | CML_Exit => 2
  end.

Definition CustomMessageLabel_to_label (l : CustomMessageLabel) : Z :=
  CustomMessageLabel_discriminant l + CML_LABEL_START.

Definition CustomMessageLabel_of_index (label : Z) : option CustomMessageLabel :=
  if label =? 0 then Some CML_TestCustomMessage
  else if label =? 1 then Some CML_SysCall
  else if label =? 2 then Some CML_Exit
  else None.

Definition CustomMessageLabel_try_from `{MessageInfoApi} (message : MessageInfo) :
    option CustomMessageLabel :=
  if CML_LABEL_START <=? mi_label message
  then CustomMessageLabel_of_index (mi_label message - CML_LABEL_START)
  else None.

(** ** RootMessageLabel *)

Inductive RootMessageLabel :=
  | RML_RegisterIRQ (irq_handler irq_num : Z)
  | RML_TranslateAddr (addr : Z)
  | RML_RegisterIRQWithCap (irq_num : Z).

#[global] Instance RootMessageLabel_eq_dec : EqDecision RootMessageLabel.
Proof. solve_decision. Defined.

Definition RML_LABEL_START : Z := 0x200.

Definition RootMessageLabel_try_from `{MessageInfoApi} (message : MessageInfo)
    (regs : list Z) : outcome (option RootMessageLabel) :=
  if RML_LABEL_START <=? mi_label message then
    let label := mi_label message - RML_LABEL_START in
    if label =? 0 then
      r0 ← index regs 0; r1 ← index regs 1;
      mret (Some (RML_RegisterIRQ r0 (wrap64 r1)))
    else if label =? 1 then
      r0 ← index regs 0; mret (Some (RML_TranslateAddr (wrap64 r0)))
    else if label =? 2 then
      r0 ← index regs 0; mret (Some (RML_RegisterIRQWithCap (wrap64 r0)))
    else mret None
  else mret None.

Definition RootMessageLabel_to_label (l : RootMessageLabel) : Z :=
  RML_LABEL_START +
  match l with
  | RML_RegisterIRQ _ _ => 0
  | RML_TranslateAddr _ => 1
  | RML_RegisterIRQWithCap _ => 2
  end.

Definition RootMessageLabel_build `{MessageInfoApi} (l : RootMessageLabel) :
    M IpcBuffer MessageInfo :=
  msg_size ←
    match l with
    | RML_RegisterIRQ irq_handler irq_num =>
        write_reg 0 irq_handler ;; write_reg 1 irq_num ;; mret 2
    | RML_TranslateAddr addr => write_reg 0 (wrap64 addr) ;; mret 1
    | RML_RegisterIRQWithCap irq_num => write_reg 0 irq_num ;; mret 1
    end;
  mret (mi_new (RootMessageLabel_to_label l) 0 0 msg_size).

(** ** BlkMessageLabel *)

Inductive BlkMessageLabel :=
  | BML_Ping
  | BML_ReadBlock (idx num : Z)
  | BML_WriteBlock (idx num : Z)
  | BML_NumBlock.

#[global] Instance BlkMessageLabel_eq_dec : EqDecision BlkMessageLabel.
Proof. solve_decision. Defined.

Definition BML_LABEL_START : Z := 0x300.

Definition BlkMessageLabel_try_from `{MessageInfoApi} (message : MessageInfo)
    (regs : list Z) : outcome (option BlkMessageLabel) :=
  if BML_LABEL_START <=? mi_label message then
    let label := mi_label message - BML_LABEL_START in
    if label =? 0 then mret (Some BML_Ping)
    else if label =? 1 then
      r0 ← index regs 0; r1 ← index regs 1; mret (Some (BML_ReadBlock r0 r1))
    else if label =? 2 then
      r0 ← index regs 0; r1 ← index regs 1; mret (Some (BML_WriteBlock r0 r1))
    else if label =? 3 then mret (Some BML_NumBlock)
    else mret None
  else mret None.

Definition BlkMessageLabel_to_label (l : BlkMessageLabel) : Z :=
  BML_LABEL_START +
  match l with
  | BML_Ping => 0
  | BML_ReadBlock _ _ => 1
  | BML_WriteBlock _ _ => 2
  | BML_NumBlock => 3
  end.

Definition BlkMessageLabel_build `{MessageInfoApi} (l : BlkMessageLabel) :
    M IpcBuffer MessageInfo :=
  msg_size ←
    match l with
    | BML_Ping => mret 0
    | BML_ReadBlock idx num => write_reg 0 idx ;; write_reg 1 num ;; mret 2
    | BML_WriteBlock idx num => write_reg 0 idx ;; write_reg 1 num ;; mret 2
    | BML_NumBlock => mret 0
    end;
  mret (mi_new (BlkMessageLabel_to_label l) 0 0 msg_size).

(** ** NetRequsetabel *)

Inductive NetRequsetabel :=
  | NRL_New
  | NRL_IsNonBlocking (id : Z)
  | NRL_SetNonBlocking (id non_blocking : Z)
  | NRL_Bind (id local_addr : Z)
  | NRL_Send (id buf buf_len : Z)
  | NRL_Recv (id buf buf_len : Z)
  | NRL_RecvTimeout (id buf buf_len deadline_tick : Z)
  | NRL_Connect (id remote_addr : Z)
  | NRL_Listen (id : Z)
  | NRL_Accept (id : Z)
  | NRL_Shutdown (id : Z)
  | NRL_Close (id : Z).

#[global] Instance NetRequsetabel_eq_dec : EqDecision NetRequsetabel.
Proof. solve_decision. Defined.

Definition NRL_LABEL_START : Z := 0x400.

Definition NetRequsetabel_try_from `{MessageInfoApi} (message : MessageInfo)
    (regs : list Z) : outcome (option NetRequsetabel) :=
  if NRL_LABEL_START <=? mi_label message then
    let label := mi_label message - NRL_LABEL_START in
    if label =? 0 then mret (Some NRL_New)
    else if label =? 1 then r0 ← index regs 0; mret (Some (NRL_IsNonBlocking r0))
    else if label =? 2 then
      r0 ← index regs 0; r1 ← index regs 1; mret (Some (NRL_SetNonBlocking r0 r1))
    else if label =? 3 then
      r0 ← index regs 0; r1 ← index regs 1; mret (Some (NRL_Bind r0 r1))
    else if label =? 4 then
      r0 ← index regs 0; r1 ← index regs 1; r2 ← index regs 2;
      mret (Some (NRL_Send r0 r1 r2))
    else if label =? 5 then
      r0 ← index regs 0; r1 ← index regs 1; r2 ← index regs 2;
      mret (Some (NRL_Recv r0 r1 r2))
    else if label =? 6 then
      r0 ← index regs 0; r1 ← index regs 1; r2 ← index regs 2; r3 ← index regs 3;
      mret (Some (NRL_RecvTimeout r0 r1 r2 r3))
    else if label =? 7 then
      r0 ← index regs 0; r1 ← index regs 1; mret (Some (NRL_Connect r0 r1))
    else if label =? 8 then r0 ← index regs 0; mret (Some (NRL_Listen r0))
    else if label =? 9 then r0 ← index regs 0; mret (Some (NRL_Accept r0))
    else if label =? 10 then r0 ← index regs 0; mret (Some (NRL_Shutdown r0))
    else if label =? 11 then r0 ← index regs 0; mret (Some (NRL_Close r0))
    else mret None
  else mret None.

Definition NetRequsetabel_to_label (l : NetRequsetabel) : Z :=
  NRL_LABEL_START +
  match l with
  | NRL_New => 0
  | NRL_IsNonBlocking _ => 1
  | NRL_SetNonBlocking _ _ => 2
  | NRL_Bind _ _ => 3
  | NRL_Send _ _ _ => 4
  | NRL_Recv _ _ _ => 5
  | NRL_RecvTimeout _ _ _ _ => 6
  | NRL_Connect _ _ => 7
  | NRL_Listen _ => 8
  | NRL_Accept _ => 9
  | NRL_Shutdown _ => 10
  | NRL_Close _ => 11
  end.

(** The pair is [(extra_caps, msg_size)]. *)
Definition NetRequsetabel_build `{MessageInfoApi} (l : NetRequsetabel) :
    M IpcBuffer MessageInfo :=
  sizes ←
    match l with
    | NRL_New => mret (0, 0)
    | NRL_IsNonBlocking id => write_reg 0 id ;; mret (0, 1)
    | NRL_SetNonBlocking id nb => write_reg 0 id ;; write_reg 1 nb ;; mret (0, 2)
    | NRL_Bind id a => write_reg 0 id ;; write_reg 1 a ;; mret (1, 2)
    | NRL_Send id buf len =>
        write_reg 0 id ;; write_reg 1 buf ;; write_reg 2 len ;; mret (1, 3)
    | NRL_Recv id buf len =>
        write_reg 0 id ;; write_reg 1 buf ;; write_reg 2 len ;; mret (1, 3)
    | NRL_RecvTimeout id buf len tick =>
        write_reg 0 id ;; write_reg 1 buf ;; write_reg 2 len ;; write_reg 3 tick ;;
        mret (1, 4)
    | NRL_Connect id a => write_reg 0 id ;; write_reg 1 a ;; mret (1, 2)
    | NRL_Listen id => write_reg 0 id ;; mret (0, 1)
    | NRL_Accept id => write_reg 0 id ;; mret (0, 1)
    | NRL_Shutdown id => write_reg 0 id ;; mret (0, 1)
    | NRL_Close id => write_reg 0 id ;; mret (0, 1)
    end;
  mret (mi_new (NetRequsetabel_to_label l) 0 sizes.1 sizes.2).

(** ** What a protocol promises its users

    The interface the senders and receivers of the other components rely on:
    labels in a range of their own, decoding that inverts encoding, and an
    encoder that leaves the rest of the IPC buffer alone. *)

Class Protocol `{MessageInfoApi} (L : Type) := {
  p_base : Z;
  p_count : Z;
  p_wf : L -> Prop;
  p_to_label : L -> Z;
  p_build : L -> M IpcBuffer MessageInfo;
  p_try_from : MessageInfo -> list Z -> outcome (option L);
}.

(** What [build] leaves behind: a message that decodes to [l], the registers
    past the message and the capability registers as they were. *)
Definition built `{MessageInfoApi} {L} `{Protocol L} (l : L) (b : IpcBuffer)
    (mi : MessageInfo) (b' : IpcBuffer) : Prop :=
  mi_label mi = p_to_label l /\
  p_try_from mi (msg_regs b') = Ret (Some l) /\
  ipc_wf b' /\
  caps_or_badges b' = caps_or_badges b /\
  (forall i, (Z.to_nat (mi_length mi) <= i)%nat -> msg_regs b' !! i = msg_regs b !! i).

Class ProtocolRange `{MessageInfoApi} (L : Type) `{Protocol L} : Prop := {
  p_label_range (l : L) : p_base <= p_to_label l < p_base + p_count;
  p_rejects mi regs :
    ~ (p_base <= mi_label mi < p_base + p_count) -> p_try_from mi regs = Ret None;
}.

Class ProtocolRoundtrip `{MessageInfoApi} (L : Type) `{Protocol L} : Prop :=
  p_build_ok (l : L) b : p_wf l -> ipc_wf b -> wp (p_build l) (built l b) b.

Definition accepted `{MessageInfoApi} (L : Type) `{Protocol L} mi regs : Prop :=
  exists l : L, p_try_from mi regs = Ret (Some l).
Definition rejected `{MessageInfoApi} (L : Type) `{Protocol L} mi regs : Prop :=
  p_try_from (L := L) mi regs = Ret None.

Lemma accepted_range `{MessageInfoApi} (L : Type) `{ProtocolRange L} mi regs :
  accepted L mi regs -> p_base <= mi_label mi < p_base + p_count.
Proof.
  intros [l Hl].
  destruct (decide (p_base <= mi_label mi < p_base + p_count)) as [?|Hn]; [done|].
  rewrite p_rejects in Hl by done. discriminate.
Qed.

(** *** Helper lemmas on the registers *)

Lemma wp_write_reg i v (Q : unit -> IpcBuffer -> Prop) b :
  ipc_wf b -> 0 <= i < 120 ->
  (let b' := set_msg_regs (<[Z.to_nat i := v]> (msg_regs b)) b in
   ipc_wf b' -> Q tt b') ->
  wp (write_reg i v) Q b.
Proof.
  intros Hb Hi HQ.
  destruct (write_reg_Ret (Z.to_nat i) v b Hb) as [E Hwf];
    [unfold MSG_MAX_LENGTH; lia|].
  rewrite Z2Nat.id in E by lia. eexists _, _. split; [exact E|]. by apply HQ.
Qed.

Lemma index_lookup {A} (l : list A) (i : Z) a :
  0 <= i -> l !! Z.to_nat i = Some a -> index l i = Ret a.
Proof.
  intros Hi Hl. rewrite <- (Z2Nat.id i) by done. by apply index_Ret.
Qed.

Lemma regs_insert_eq (l : list Z) (i : nat) v :
  length l = MSG_MAX_LENGTH -> (i < 120)%nat -> <[i := v]> l !! i = Some v.
Proof. intros Hl Hi. apply list_lookup_insert_eq. rewrite Hl. done. Qed.

Lemma built_intro `{MessageInfoApi} `{!MessageInfoLaws} {L} `{!Protocol L}
    (l : L) b lbl ec n b' :
  lbl = p_to_label l ->
  mi_fits (p_to_label l) 0 ec n ->
  (forall mi, mi_label mi = p_to_label l -> p_try_from mi (msg_regs b') = Ret (Some l)) ->
  ipc_wf b' ->
  caps_or_badges b' = caps_or_badges b ->
  (forall i, (Z.to_nat n <= i)%nat -> msg_regs b' !! i = msg_regs b !! i) ->
  built l b (mi_new lbl 0 ec n) b'.
Proof.
  intros -> Hf Hd Hwf Hc Hr. unfold built.
  rewrite mi_label_new, mi_length_new by done. split_and!; auto using mi_label_new.
Qed.

(** Decides the closed conditions of a decoder. *)
Ltac decide_label :=
  repeat match goal with
  | |- context [if ?b then _ else _] =>
      let v := eval vm_compute in b in
      lazymatch v with
      | true => change b with true
      | false => change b with false
      end; cbn iota
  end.

(** Reads back freshly written registers. *)
Ltac reg_lookup :=
  repeat first
    [ rewrite list_lookup_insert_ne by lia
    | rewrite regs_insert_eq by (rewrite ?length_insert; first [assumption|lia]) ].
Ltac reg_reads :=
  repeat (erewrite index_lookup;
          [cbn [mbind outcome_bind]|lia|cbn; reg_lookup; reflexivity]).

Section protocols.
Context `{MI : MessageInfoApi} {ML : MessageInfoLaws}.

#[export] Instance Root_protocol : Protocol RootMessageLabel := {
  p_base := RML_LABEL_START;
  p_count := 3;
  p_wf l := match l with
            | RML_RegisterIRQ a b => is_u64 a /\ is_u64 b
            | RML_TranslateAddr a => is_u64 a
            | RML_RegisterIRQWithCap a => is_u64 a
            end;
  p_to_label := RootMessageLabel_to_label;
  p_build := RootMessageLabel_build;
  p_try_from := RootMessageLabel_try_from;
}.

#[export] Instance Blk_protocol : Protocol BlkMessageLabel := {
  p_base := BML_LABEL_START;
  p_count := 4;
  p_wf _ := True;
  p_to_label := BlkMessageLabel_to_label;
  p_build := BlkMessageLabel_build;
  p_try_from := BlkMessageLabel_try_from;
}.

#[export] Instance Net_protocol : Protocol NetRequsetabel := {
  p_base := NRL_LABEL_START;
  p_count := 12;
  p_wf _ := True;
  p_to_label := NetRequsetabel_to_label;
  p_build := NetRequsetabel_build;
  p_try_from := NetRequsetabel_try_from;
}.

(** The kernel thread's callers build their messages by hand:
    [MessageInfo::new(label.to_label(), 0, 0, n)]. *)
#[export] Instance Custom_protocol : Protocol CustomMessageLabel := {
  p_base := CML_LABEL_START;
  p_count := 3;
  p_wf _ := True;
  p_to_label := CustomMessageLabel_to_label;
  p_build l := mret (mi_new (CustomMessageLabel_to_label l) 0 0 0);
  p_try_from mi _ := Ret (CustomMessageLabel_try_from mi);
}.

(** Runs an encoder and checks its message with the decoder [dec]. *)
Ltac solve_build dec :=
  repeat first
    [ apply wp_bind
    | apply wp_ret
    | apply wp_write_reg; [assumption|lia|cbv zeta; intros ?] ];
  cbn [fst snd];
  match goal with
  | |- built ?l _ _ _ => apply (built_intro l)
  end;
  [ reflexivity
  | unfold mi_fits; split_and!; vm_compute; done
  | intros mi Hmi; cbn [p_try_from p_to_label Root_protocol Blk_protocol Net_protocol Custom_protocol] in *; unfold dec; rewrite Hmi;
    decide_label; cbn [msg_regs set_msg_regs];
    reg_reads; rewrite ?wrap64_wrap64, ?wrap64_small by (simpl in *; tauto); reflexivity
  | assumption
  | reflexivity
  | intros i Hi; cbn [msg_regs set_msg_regs] in *;
    repeat rewrite list_lookup_insert_ne by (simpl in *; lia); reflexivity ].

(** A decoder on a label outside its range. *)
Ltac solve_reject dec :=
  intros mi regs Hout; cbn [p_base p_count p_try_from Root_protocol Blk_protocol Net_protocol Custom_protocol] in *; unfold dec;
  unfold CustomMessageLabel_of_index;
  repeat (case_match; [|try reflexivity]); try lia; try reflexivity.

#[export] Instance Root_range : ProtocolRange RootMessageLabel.
Proof.
  split.
  - intros l. cbn. unfold RootMessageLabel_to_label. destruct l; cbn; lia.
  - solve_reject @RootMessageLabel_try_from.
Qed.

#[export] Instance Root_roundtrip : ProtocolRoundtrip RootMessageLabel.
Proof.
  intros l b Hl Hb. pose proof (proj1 Hb) as HL.
  destruct l; cbn [p_build p_wf Root_protocol] in *;
    unfold RootMessageLabel_build;
    solve_build @RootMessageLabel_try_from.
Qed.

#[export] Instance Blk_range : ProtocolRange BlkMessageLabel.
Proof.
  split.
  - intros l. cbn. unfold BlkMessageLabel_to_label. destruct l; cbn; lia.
  - solve_reject @BlkMessageLabel_try_from.
Qed.

#[export] Instance Blk_roundtrip : ProtocolRoundtrip BlkMessageLabel.
Proof.
  intros l b Hl Hb. pose proof (proj1 Hb) as HL.
  destruct l; cbn [p_build p_wf Blk_protocol] in *;
    unfold BlkMessageLabel_build;
    solve_build @BlkMessageLabel_try_from.
Qed.

#[export] Instance Net_range : ProtocolRange NetRequsetabel.
Proof.
  split.
  - intros l. cbn. unfold NetRequsetabel_to_label. destruct l; cbn; lia.
  - solve_reject @NetRequsetabel_try_from.
Qed.

#[export] Instance Net_roundtrip : ProtocolRoundtrip NetRequsetabel.
Proof.
  intros l b Hl Hb. pose proof (proj1 Hb) as HL.
  destruct l; cbn [p_build p_wf Net_protocol] in *;
    unfold NetRequsetabel_build;
    solve_build @NetRequsetabel_try_from.
Qed.

#[export] Instance Custom_range : ProtocolRange CustomMessageLabel.
Proof.
  split.
  - intros l. cbn. unfold CustomMessageLabel_to_label. destruct l; cbn; lia.
  - solve_reject @CustomMessageLabel_try_from.
Qed.

#[export] Instance Custom_roundtrip : ProtocolRoundtrip CustomMessageLabel.
Proof.
  intros l b Hl Hb. pose proof (proj1 Hb) as HL.
  destruct l; cbn [p_build p_wf Custom_protocol] in *;
    solve_build @CustomMessageLabel_try_from.
Qed.

End protocols.

(** ** Theorems *)

(** C22: encoding a root-task, block or network request with [build] returns a
    message tag and an IPC buffer from which the receiver's [try_from] decodes
    exactly that request; the tag carries the request's label, the message
    registers past the message length and the capability registers are
    untouched, and the buffer keeps its size. *)
Theorem request_roundtrip `{MI : MessageInfoApi} `{ML : !MessageInfoLaws}
    (r : RootMessageLabel) (q : BlkMessageLabel) (n : NetRequsetabel) (b : IpcBuffer)
    (Hr : p_wf r) (Hb : ipc_wf b) :
  wp (RootMessageLabel_build r) (built r b) b /\
  wp (BlkMessageLabel_build q) (built q b) b /\
  wp (NetRequsetabel_build n) (built n b) b.
Proof.
  split_and!;
    [exact (p_build_ok r b Hr Hb)|exact (p_build_ok q b I Hb)|exact (p_build_ok n b I Hb)].
Qed.

Lemma request_roundtrip_witness :
  wp (M_bind _ _ (fun mi b => Ret (RootMessageLabel_try_from (H := packed_message_info) mi (msg_regs b), b))
        (RootMessageLabel_build (H := packed_message_info) (RML_RegisterIRQ 27 33)))
     (fun d _ => d = Ret (Some (RML_RegisterIRQ 27 33))) blank_ipc.
Proof.
  apply wp_bind.
  eapply wp_mono.
  - apply (request_roundtrip (MI := packed_message_info) (ML := packed_message_info_laws)
             (RML_RegisterIRQ 27 33) BML_Ping NRL_New blank_ipc).
    + vm_compute. repeat split; discriminate.
    + apply blank_ipc_wf.
  - intros mi b (_ & Hd & _). exists (Ret (Some (RML_RegisterIRQ 27 33))), b.
    split; [|reflexivity]. cbn [p_try_from Root_protocol] in Hd. by rewrite Hd.
Defined.

(** The label ranges keep the protocols apart: a message that one of the
    four decoders accepts is rejected by the other three, and a fault message
    or any other message with a label below 0x100 is rejected by all of them. *)
Theorem protocols_disjoint `{MI : MessageInfoApi} (m : MessageInfo) (regs : list Z) :
  (accepted CustomMessageLabel m regs ->
     rejected RootMessageLabel m regs /\ rejected BlkMessageLabel m regs /\
     rejected NetRequsetabel m regs) /\
  (accepted RootMessageLabel m regs ->
     rejected CustomMessageLabel m regs /\ rejected BlkMessageLabel m regs /\
     rejected NetRequsetabel m regs) /\
  (accepted BlkMessageLabel m regs ->
     rejected CustomMessageLabel m regs /\ rejected RootMessageLabel m regs /\
     rejected NetRequsetabel m regs) /\
  (accepted NetRequsetabel m regs ->
     rejected CustomMessageLabel m regs /\ rejected RootMessageLabel m regs /\
     rejected BlkMessageLabel m regs) /\
  (mi_label m < 0x100 ->
     rejected CustomMessageLabel m regs /\ rejected RootMessageLabel m regs /\
     rejected BlkMessageLabel m regs /\ rejected NetRequsetabel m regs).
Proof.
  split_and!; intros Ha; try pose proof (accepted_range _ _ _ Ha); split_and!;
    apply p_rejects; cbn in *;
    unfold CML_LABEL_START, RML_LABEL_START, BML_LABEL_START, NRL_LABEL_START in *; lia.
Qed.
