(* ===== verification/Uspace.v ===== *)
(** * User-space data ([crates/common/src/uspace.rs])

    Socket addresses in the C layout and their conversions, the flags of
    [sys_clone], and the argument block of [clone]. *)

From S2P Require Import Prelude Words Consts Sel4 Externs Reference.

(** ** [core::net] addresses

    An address is its octets, most significant first. *)

Inductive IpAddr :=
  | V4 (octets : list Z)
  | V6 (octets : list Z).

#[global] Instance IpAddr_eq_dec : EqDecision IpAddr.
Proof. solve_decision. Defined.

Record SocketAddr := MkSocketAddr {
  sock_ip : IpAddr;
  sock_port : Z;
}.

#[global] Instance SocketAddr_eq_dec : EqDecision SocketAddr.
Proof. solve_decision. Defined.

Definition IpAddr_wf (ip : IpAddr) : Prop :=
  match ip with
  | V4 o => length o = 4%nat /\ Forall is_u8 o
  | V6 o => length o = 16%nat /\ Forall is_u8 o
  end.

Definition SocketAddr_wf (a : SocketAddr) : Prop :=
  IpAddr_wf (sock_ip a) /\ is_u16 (sock_port a).

(** ** LibcSocketAddr *)

Record LibcSocketAddr := MkLibcSocketAddr {
  sa_family : Z;
  sa_data : list Z;
}.

Definition LibcSocketAddr_default : LibcSocketAddr :=
  MkLibcSocketAddr 0 (replicate 14 0).

(** [for i in 0..n { data[i + 2] = ip[i]; }] *)
Fixpoint copy_octets (n : nat) (ip data : list Z) : outcome (list Z) :=
  match n with
  | O => mret data
  | S n =>
      data ← copy_octets n ip data;
      o ← index ip (Z.of_nat n);
      index_set data (Z.of_nat n + 2) o
  end.

(** [impl From<SocketAddr> for LibcSocketAddr] *)
Definition LibcSocketAddr_from (value : SocketAddr) : outcome LibcSocketAddr :=
  let data0 := sa_data LibcSocketAddr_default in
  data ← match sock_ip value with
         | V4 ip => copy_octets 4 ip data0
         | V6 ip => copy_octets 12 ip data0
         end;
  data ← index_set data 0 (wrap8 (Z.shiftr (sock_port value) 8));
  data ← index_set data 1 (wrap8 (Z.land (sock_port value) 0xff));
  mret (MkLibcSocketAddr 2 data).

(** [impl Into<SocketAddr> for LibcSocketAddr] *)
Definition LibcSocketAddr_into (self : LibcSocketAddr) : outcome SocketAddr :=
  let data := sa_data self in
  d0 ← index data 0; d1 ← index data 1;
  d2 ← index data 2; d3 ← index data 3; d4 ← index data 4; d5 ← index data 5;
  mret (MkSocketAddr (V4 [d2; d3; d4; d5]) (from_be_bytes [d0; d1])).

(** ** CloneFlags *)

Definition CLONE_NEWTIME : Z := Z.shiftl 1 7.
Definition CLONE_VM : Z := Z.shiftl 1 8.
Definition CLONE_FS : Z := Z.shiftl 1 9.
Definition CLONE_FILES : Z := Z.shiftl 1 10.
Definition CLONE_SIGHAND : Z := Z.shiftl 1 11.
Definition CLONE_PIDFD : Z := Z.shiftl 1 12.
Definition CLONE_PTRACE : Z := Z.shiftl 1 13.
Definition CLONE_VFORK : Z := Z.shiftl 1 14.
Definition CLONE_PARENT : Z := Z.shiftl 1 15.
Definition CLONE_THREAD : Z := Z.shiftl 1 16.
Definition CLONE_NEWNS : Z := Z.shiftl 1 17.
Definition CLONE_SYSVSEM : Z := Z.shiftl 1 18.
Definition CLONE_SETTLS : Z := Z.shiftl 1 19.
Definition CLONE_PARENT_SETTID : Z := Z.shiftl 1 20.
Definition CLONE_CHILD_CLEARTID : Z := Z.shiftl 1 21.
Definition CLONE_DETACHED : Z := Z.shiftl 1 22.
Definition CLONE_UNTRACED : Z := Z.shiftl 1 23.
Definition CLONE_CHILD_SETTID : Z := Z.shiftl 1 24.
Definition CLONE_NEWPID : Z := Z.shiftl 1 29.

(** The union of the declared flags. *)
Definition CloneFlags_all : Z :=
  foldr Z.lor 0
    [CLONE_NEWTIME; CLONE_VM; CLONE_FS; CLONE_FILES; CLONE_SIGHAND; CLONE_PIDFD;
     CLONE_PTRACE; CLONE_VFORK; CLONE_PARENT; CLONE_THREAD; CLONE_NEWNS;
     CLONE_SYSVSEM; CLONE_SETTLS; CLONE_PARENT_SETTID; CLONE_CHILD_CLEARTID;
     CLONE_DETACHED; CLONE_UNTRACED; CLONE_CHILD_SETTID; CLONE_NEWPID].

(** ** CloneArgs *)

Record CloneArgs := MkCloneArgs {
  ca_stack : Z;
  ca_flags : Z;
  ca_parent_tid : Z;
  ca_child_tid : Z;
  ca_tls : Z;
  ca_init_fn : Z;
  ca_init_argv : Z;
}.

Definition CloneArgs_default : CloneArgs := MkCloneArgs 0 0 0 0 0 0 0.

(** ** Theorems *)

Lemma from_be_bytes_port p :
  is_u16 p -> from_be_bytes [wrap8 (Z.shiftr p 8); wrap8 (Z.land p 0xff)] = p.
Proof.
  unfold is_u16, from_be_bytes, wrap8. intros Hp.
  change 0xff with (Z.ones 8).
  rewrite Z.land_ones, Z.shiftr_div_pow2 by lia. cbn [foldl].
  rewrite Z.mod_mod by lia. dlia.
Qed.

Lemma port_bytes a b :
  is_u8 a -> is_u8 b ->
  wrap8 (Z.shiftr (from_be_bytes [a; b]) 8) = a /\
  wrap8 (Z.land (from_be_bytes [a; b]) 0xff) = b.
Proof.
  unfold is_u8, from_be_bytes, wrap8. intros Ha Hb. cbn [foldl].
  change 0xff with (Z.ones 8). rewrite Z.land_ones, Z.shiftr_div_pow2 by lia.
  rewrite Z.mod_mod by lia. dlia.
Qed.

(** An IPv4 socket address survives the trip through the C layout: writing
    it as a [LibcSocketAddr] and reading it back gives the same address and
    port, and the intermediate structure is an [AF_INET] one of 14 data
    bytes. *)
Theorem sockaddr_v4_roundtrip (a : SocketAddr) (o : list Z)
    (Hv4 : sock_ip a = V4 o) (Hwf : SocketAddr_wf a) :
  exists l, LibcSocketAddr_from a = Ret l /\ LibcSocketAddr_into l = Ret a /\
            sa_family l = 2 /\ length (sa_data l) = 14%nat /\
            Forall is_u8 (sa_data l).
Proof.
  destruct a as [ip p]. simpl in *. subst ip.
  destruct Hwf as [[Hlen Ho] Hp]. simpl in *. destruct o as [|a [|b [|c [|d [|]]]]]; try done.
  set (hi := wrap8 (Z.shiftr p 8)). set (lo := wrap8 (Z.land p 0xff)).
  exists (MkLibcSocketAddr 2 ([hi; lo; a; b; c; d] ++ replicate 8 0)).
  split; [reflexivity|]. split_and!; [|reflexivity|reflexivity|].
  - transitivity (Ret (MkSocketAddr (V4 [a; b; c; d]) (from_be_bytes [hi; lo])));
      [reflexivity|]. unfold hi, lo. by rewrite from_be_bytes_port.
  - rewrite !Forall_cons in Ho. destruct Ho as (? & ? & ? & ? & _).
    assert (is_u8 hi) by (apply Z.mod_pos_bound; lia).
    assert (is_u8 lo) by (apply Z.mod_pos_bound; lia).
    assert (is_u8 0) by (unfold is_u8; lia).
    cbn [sa_data app replicate]. rewrite !Forall_cons. auto 20.
Qed.

Lemma sockaddr_v4_roundtrip_witness :
  exists l, LibcSocketAddr_from (MkSocketAddr (V4 [10; 0; 2; 15]) 6379) = Ret l /\
            LibcSocketAddr_into l = Ret (MkSocketAddr (V4 [10; 0; 2; 15]) 6379) /\
            sa_family l = 2 /\ length (sa_data l) = 14%nat /\ Forall is_u8 (sa_data l).
Proof.
  apply (sockaddr_v4_roundtrip _ [10; 0; 2; 15]); [reflexivity|].
  unfold SocketAddr_wf, is_u16; simpl; unfold is_u8.
  repeat constructor; lia.
Defined.
