(* ===== verification/ObjAllocator.v ===== *)
(** * The object allocator ([crates/common/src/obj_allocator.rs])

    A bump allocator of capability slots that retypes one untyped region into
    kernel objects.  Its computations run on the allocator and the kernel
    state. *)

From S2P Require Import Prelude Words Consts Sel4 Sel4Laws RefKernel.

(** [empty_slots: Range<usize>] and [ut: Untyped]. *)
Record ObjectAllocator := MkAllocator {
  slots_start : Z;
  slots_end : Z;
  ut : CPtr;
}.

Definition ObjectAllocator_empty : ObjectAllocator := MkAllocator 0 0 0.

Definition ObjectAllocator_init (range_start range_end untyped : Z)
    (_ : ObjectAllocator) : ObjectAllocator :=
  MkAllocator range_start range_end untyped.

(** [Range::next] on [empty_slots]. *)
Definition next_slot (a : ObjectAllocator) : option (Z * ObjectAllocator) :=
  if slots_start a <? slots_end a
  then Some (slots_start a, MkAllocator (slots_start a + 1) (slots_end a) (ut a))
  else None.

Section allocator.
Context `{K : Sel4}.

Definition AK : Type := ObjectAllocator * kstate.

Definition in_kernel {A} (m : M kstate A) : M AK A :=
  zoom snd (fun k s => (s.1, k)) m.

(** [self.empty_slots.next().unwrap()] *)
Definition take_slot : M AK Z := fun s =>
  match next_slot s.1 with
  | Some (i, a) => Ret (i, (a, s.2))
  | None => Panic PUnwrap
  end.

(** A slot is named by its index: [Slot::from_index(i).cap()] has bits [i]. *)
Definition allocate_normal_cap : M AK CPtr := take_slot.

Definition allocate_variable_sized_origin (blueprint : ObjectBlueprint) : M AK CPtr :=
  slot_index ← take_slot;
  untyped ← gets (fun s => ut s.1);
  in_kernel (kcall_unwrap
    (untyped_retype untyped blueprint (relative_self SLOT_CNODE) slot_index 1)) ;;
  mret slot_index.

Definition allocate_slot : M AK (Z * Z * Z) :=
  raw_slot_index ← take_slot;
  let slot_index := Z.land raw_slot_index 0xfff in
  let cnode_index := Z.shiftr raw_slot_index 12 in
  untyped ← gets (fun s => ut s.1);
  (if slot_index =? 0 then
     in_kernel (kcall_unwrap
       (untyped_retype untyped (BpCNode 12) (relative_self SLOT_CNODE) cnode_index 1))
   else mret tt) ;;
  mret (slot_index, cnode_index, raw_slot_index).

Definition allocate_and_retype (blueprint : ObjectBlueprint) : M AK CPtr :=
  slot ← allocate_slot;
  let '(slot_index, cnode_index, raw_index) := slot in
  untyped ← gets (fun s => ut s.1);
  in_kernel (kcall_unwrap
    (untyped_retype untyped blueprint
       (relative_bits_with_depth SLOT_CNODE cnode_index 52) slot_index 1)) ;;
  mret raw_index.

(** [T::object_blueprint()] and [T::object_blueprint(size_bits)] are passed
    as the blueprint they stand for. *)
Definition allocate_and_retyped_fixed_sized (blueprint : ObjectBlueprint) : M AK CPtr :=
  allocate_and_retype blueprint.

Definition allocate_and_retyped_variable_sized (blueprint : Z -> ObjectBlueprint)
    (size_bits : Z) : M AK CPtr :=
  allocate_and_retype (blueprint size_bits).

(** ** Every allocation takes the next slot *)

(** [m] hands out exactly the first free slot of the allocator. *)
Definition bumps (m : M AK CPtr) : Prop :=
  forall a k c a' k', m (a, k) = Ret (c, (a', k')) ->
    slots_start a < slots_end a /\ c = slots_start a /\
    a' = MkAllocator (slots_start a + 1) (slots_end a) (ut a).

(** [m] stops the thread when no slot is left. *)
Definition needs_slot {A} (m : M AK A) : Prop :=
  forall a k, slots_end a <= slots_start a -> m (a, k) = Panic PUnwrap.

Lemma take_slot_inv a k c s' :
  take_slot (a, k) = Ret (c, s') ->
  slots_start a < slots_end a /\ c = slots_start a /\
  s' = (MkAllocator (slots_start a + 1) (slots_end a) (ut a), k).
Proof.
  unfold take_slot, next_slot. simpl.
  destruct (Z.ltb_spec (slots_start a) (slots_end a)); [|done].
  intros [= <- <-]. done.
Qed.

Lemma take_slot_needs : needs_slot take_slot.
Proof.
  intros a k H. unfold take_slot, next_slot. simpl.
  destruct (Z.ltb_spec (slots_start a) (slots_end a)); [lia|done].
Qed.

Lemma take_slot_bumps : bumps take_slot.
Proof. intros a k c a' k' (H1 & H2 & [= -> ->])%take_slot_inv. done. Qed.

Lemma needs_slot_bind {A B} (m : M AK A) (f : A -> M AK B) :
  needs_slot m -> needs_slot (mbind f m).
Proof. intros Hm a k H. unfold mbind, M_bind. by rewrite Hm. Qed.

Lemma in_kernel_inv {A} (m : M kstate A) a k x s' :
  in_kernel m (a, k) = Ret (x, s') -> exists k', s' = (a, k') /\ m k = Ret (x, k').
Proof.
  unfold in_kernel, zoom. simpl. destruct (m k) as [[y k']| | |]; [|done..].
  intros [= -> <-]. eauto.
Qed.

Lemma allocate_slot_inv a k si ci ri s' :
  allocate_slot (a, k) = Ret ((si, ci, ri), s') ->
  slots_start a < slots_end a /\ ri = slots_start a /\
  si = Z.land ri 0xfff /\ ci = Z.shiftr ri 12 /\
  s'.1 = MkAllocator (slots_start a + 1) (slots_end a) (ut a) /\
  (if si =? 0
   then untyped_retype (ut a) (BpCNode 12) (relative_self SLOT_CNODE) ci 1 k = (Ok tt, s'.2)
   else s'.2 = k).
Proof.
  unfold allocate_slot. intros H. ibind H as i s0 E.
  apply take_slot_inv in E as (Hlt & -> & ->).
  ibind H as u s1 E1. injection E1 as <- <-.
  ibind H as v s2 E2. injection H as <- <- <- <-.
  simpl in E2. destruct (_ =? 0) eqn:Hz.
  - apply in_kernel_inv in E2 as (k' & -> & E2). simpl in *.
    apply kcall_unwrap_inv in E2. destruct v. rewrite ?Hz. split_and!; done.
  - injection E2 as <- <-. rewrite ?Hz. split_and!; done.
Qed.

Lemma allocate_and_retype_inv bp a k c s' :
  allocate_and_retype bp (a, k) = Ret (c, s') ->
  exists k1, allocate_slot (a, k) =
      Ret ((Z.land c 0xfff, Z.shiftr c 12, c),
           (MkAllocator (slots_start a + 1) (slots_end a) (ut a), k1)) /\
    c = slots_start a /\ slots_start a < slots_end a /\
    untyped_retype (ut a) bp (relative_bits_with_depth SLOT_CNODE (Z.shiftr c 12) 52)
      (Z.land c 0xfff) 1 k1 = (Ok tt, s'.2) /\
    s'.1 = MkAllocator (slots_start a + 1) (slots_end a) (ut a).
Proof.
  unfold allocate_and_retype. intros H. ibind H as [[si ci] ri] s E.
  destruct s as [a1 k1].
  pose proof (allocate_slot_inv _ _ _ _ _ _ E) as (Hlt & -> & -> & -> & Ha1 & _).
  simpl in Ha1. subst a1.
  ibind H as u s1 E1. injection E1 as <- <-.
  ibind H as v s2 E2. injection H as <- <-.
  apply in_kernel_inv in E2 as (k' & -> & E2). apply kcall_unwrap_inv in E2.
  destruct v. simpl in *. eauto 10.
Qed.

Lemma allocate_and_retype_bumps bp : bumps (allocate_and_retype bp).
Proof.
  intros a k c a' k' (k1 & _ & -> & Hlt & _ & Ha)%allocate_and_retype_inv.
  simpl in Ha. subst a'. done.
Qed.

Lemma allocate_variable_sized_origin_bumps bp :
  bumps (allocate_variable_sized_origin bp).
Proof.
  intros a k c a' k' H. unfold allocate_variable_sized_origin in H.
  ibind H as i s0 E. apply take_slot_inv in E as (Hlt & -> & ->).
  ibind H as u s1 E1. injection E1 as <- <-.
  ibind H as v s2 E2. apply in_kernel_inv in E2 as (k2 & -> & _).
  injection H as <- <- <-. done.
Qed.
End allocator.

(** ** Allocation in a well-formed state *)

Definition bump (a : ObjectAllocator) : ObjectAllocator :=
  MkAllocator (slots_start a + 1) (slots_end a) (ut a).

(** [alloc_ok n (a, k)]: [n] more allocations are sure to succeed.  The next
    [n] slots of the range are empty, the CNode of the next slot exists unless the next
    slot is its first one, later CNodes do not exist yet, and the untyped region
    has room for an object and a CNode per allocation. *)
Record alloc_ok `{Sel4View} (n : nat) (s : ObjectAllocator * kstate) : Prop := {
  ao_range : 0 <= slots_start s.1 /\ slots_start s.1 + Z.of_nat n <= slots_end s.1;
  ao_empty c : slots_start s.1 <= c < slots_start s.1 + Z.of_nat n -> slot_empty s.2 c = true;
  ao_room : (2 * n <= retype_room s.2 (ut s.1))%nat;
  ao_cnode : slots_start s.1 mod 4096 <> 0 ->
    cnode_ready s.2 (slots_start s.1 / 4096) = true;
  ao_no_cnode c : slots_start s.1 <= c * 4096 -> cnode_ready s.2 c = false;
}.

Lemma split_slot r :
  0 <= r -> Z.land r 0xfff = r mod 4096 /\ Z.shiftr r 12 = r / 4096 /\
            r / 4096 * 4096 + r mod 4096 = r /\ 0 <= r mod 4096 < 4096.
Proof.
  intros Hr. change 0xfff with (Z.ones 12).
  rewrite Z.land_ones, Z.shiftr_div_pow2 by lia. change (2 ^ 12) with 4096. dlia.
Qed.

Section alloc_laws.
Context `{L : Sel4Laws}.

(** Kernel steps outside the next slots do not disturb the allocator. *)
Lemma alloc_ok_next n a k k' C T B :
  kdiff C T B k k' -> same_alloc k k' ->
  (forall c, C c -> ~ (slots_start a <= c < slots_start a + Z.of_nat n)) ->
  alloc_ok n (a, k) -> alloc_ok n (a, k').
Proof.
  intros D [HR HN] HC A. destruct A as [A1 A2 A3 A4 A5]. simpl in *. split; simpl.
  - done.
  - intros c Hc. rewrite (kd_empty _ _ _ _ _ D); [by apply A2|].
    intros Hin. by apply (HC c).
  - by rewrite HR.
  - intros Hm. rewrite HN. by apply A4.
  - intros c Hc. rewrite HN. by apply A5.
Qed.

Lemma alloc_ok_kdiff n a k k' C T B :
  kdiff C T B k k' -> same_alloc k k' ->
  (forall c, C c -> ~ (slots_start a <= c < slots_end a)) ->
  alloc_ok n (a, k) -> alloc_ok n (a, k').
Proof.
  intros D HS HC A. eapply alloc_ok_next; [exact D|done| |done]. intros c Hc Hr. apply (HC c Hc).
  pose proof (ao_range _ _ A) as [_ ?]. simpl in *. lia.
Qed.

Lemma alloc_ok_le n m s : (n <= m)%nat -> alloc_ok m s -> alloc_ok n s.
Proof.
  intros Hle [A1 A2 A3 A4 A5]. split; try done; [|intros c Hc; apply A2; lia|lia]. destruct A1. lia.
Qed.

Lemma take_slot_Ret n a k :
  alloc_ok (S n) (a, k) -> take_slot (a, k) = Ret (slots_start a, (bump a, k)).
Proof.
  intros A. pose proof (ao_range _ _ A) as [_ Hr]. simpl in Hr.
  unfold take_slot, next_slot. simpl.
  destruct (Z.ltb_spec (slots_start a) (slots_end a)); [done|lia].
Qed.

Lemma alloc_ok_bump n a k k' :
  alloc_ok (S n) (a, k) ->
  (forall c, slots_start a + 1 <= c < slots_end a -> slot_empty k' c = slot_empty k c) ->
  (2 * n <= retype_room k' (ut a))%nat ->
  cnode_ready k' (slots_start a / 4096) = true ->
  (forall c, slots_start a + 1 <= c * 4096 -> cnode_ready k' c = false) ->
  alloc_ok n (bump a, k').
Proof.
  intros [[A1 A1'] A2 A3 A4 A5] He Hr Hc Hnc. simpl in *.
  split; simpl; [lia| |lia| |done].
  - intros c Hc'. rewrite He by lia. apply A2. lia.
  - intros Hmod.
    replace ((slots_start a + 1) / 4096) with (slots_start a / 4096); [done|]. dlia.
Qed.

(** [allocate_slot] returns the parts of the next slot's index, and the CNode
    it belongs to exists afterwards. *)
Lemma wp_allocate_slot n a k (Q : Z * Z * Z -> AK -> Prop) :
  alloc_ok (S n) (a, k) ->
  (forall k1, kdiff nowhere1 nowhere nowhere k k1 -> same_tables k k1 ->
     cnode_ready k1 (slots_start a / 4096) = true ->
     (forall c, slots_start a + 1 <= c * 4096 -> cnode_ready k1 c = false) ->
     (2 * n + 1 <= retype_room k1 (ut a))%nat ->
     Q (slots_start a mod 4096, slots_start a / 4096, slots_start a) (bump a, k1)) ->
  wp allocate_slot Q (a, k).
Proof.
  intros A HQ. pose proof A as [[A1 _] _ A3 A4 A5]. simpl in *.
  destruct (split_slot (slots_start a) A1) as (E1 & E2 & E3 & E4).
  unfold allocate_slot. apply wp_bind. eexists _, _.
  split; [by apply (take_slot_Ret n)|]. apply wp_bind, wp_gets. simpl.
  rewrite E1, E2. apply wp_bind. destruct (Z.eqb_spec (slots_start a mod 4096) 0) as [Hz|Hz].
  - destruct (retype_room k (ut a)) as [|m] eqn:Hroom; [lia|].
    destruct (retype_cnode_ok k (ut a) 12 (slots_start a / 4096) m Hroom)
      as (k1 & Ek & Hm & Hc1 & Hc2 & HS & D); [apply A5; lia|].
    unfold in_kernel. apply wp_zoom. simpl.
    eapply wp_kcall_unwrap; [exact Ek|]. apply wp_ret. apply HQ; try done; [|lia].
    intros c Hc. rewrite Hc2 by lia. apply A5. lia.
  - apply wp_ret, wp_ret. apply HQ; [apply kdiff_refl|done|by apply A4| |lia].
    intros c Hc. apply A5. lia.
Qed.

(** [allocate_and_retype] puts a new object into the next slot. *)
Lemma wp_allocate n bp a k (Q : CPtr -> AK -> Prop) :
  alloc_ok (S n) (a, k) ->
  (forall k', alloc_ok n (bump a, k') -> retyped bp (slots_start a) k k' ->
     slot_empty k (slots_start a) = true -> slot_empty k' (slots_start a) = false ->
     Q (slots_start a) (bump a, k')) ->
  wp (allocate_and_retype bp) Q (a, k).
Proof.
  intros A HQ. pose proof A as [[A1 A1'] A2 A3 A4 A5]. simpl in *.
  destruct (split_slot (slots_start a) A1) as (_ & _ & E3 & E4).
  assert (slot_empty k (slots_start a) = true) as Hemp by (apply A2; lia).
  unfold allocate_and_retype. apply wp_bind. apply (wp_allocate_slot n _ _ _ A).
  intros k1 D1 HS Hc Hnc Hroom. apply wp_bind, wp_gets. simpl. apply wp_bind.
  destruct (retype_room k1 (ut a)) as [|m] eqn:Hm; [lia|].
  destruct (retype_ok k1 (ut a) bp (slots_start a / 4096) (slots_start a mod 4096) m)
    as (k' & Ek & Hroom' & Hcn & Hne & HR); try done.
  { rewrite E3, (kd_empty _ _ _ _ _ D1) by by intros []. done. }
  rewrite E3 in Hne, HR. unfold in_kernel. apply wp_zoom. simpl.
  eapply wp_kcall_unwrap; [exact Ek|]. apply wp_ret.
  pose proof (retyped_kdiff _ _ _ _ HR) as D2.
  apply HQ; [|by eapply retyped_after_cnode|done|done].
  apply (alloc_ok_bump n a k k' A); [|lia|by rewrite Hcn|intros c; rewrite Hcn; apply Hnc].
  intros c Hc'. rewrite (kd_empty _ _ _ _ _ D2), (kd_empty _ _ _ _ _ D1); [done| |].
  - by intros [].
  - unfold only. lia.
Qed.
End alloc_laws.

(** ** Sequences of allocations *)

(** The ways the program asks for a slot. *)
Inductive alloc_req :=
  | ReqNormal
  | ReqSlot
  | ReqRetype (bp : ObjectBlueprint).

Definition run_req `{Sel4} (r : alloc_req) : M AK CPtr :=
  match r with
  | ReqNormal => allocate_normal_cap
  | ReqSlot => s ← allocate_slot; mret s.2
  | ReqRetype bp => allocate_and_retype bp
  end.

Fixpoint run_reqs `{Sel4} (rs : list alloc_req) : M AK (list CPtr) :=
  match rs with
  | [] => mret []
  | r :: rs => c ← run_req r; cs ← run_reqs rs; mret (c :: cs)
  end.

Lemma run_req_bumps `{K : Sel4} r : bumps (run_req r).
Proof.
  destruct r; simpl.
  - apply take_slot_bumps.
  - intros a k c a' k' H. ibind H as [[si ci] ri] s E.
    destruct s as [a1 k1]. apply allocate_slot_inv in E as (Hlt & -> & _ & _ & Ha & _).
    injection H as <- <- <-. done.
  - apply allocate_and_retype_bumps.
Qed.

Lemma run_reqs_inv `{K : Sel4} rs a k cs a' k' :
  run_reqs rs (a, k) = Ret (cs, (a', k')) ->
  cs = seqZ (slots_start a) (Z.of_nat (length rs)) /\
  a' = MkAllocator (slots_start a + Z.of_nat (length rs)) (slots_end a) (ut a) /\
  (rs <> [] -> slots_start a + Z.of_nat (length rs) <= slots_end a).
Proof.
  revert a k cs. induction rs as [|r rs IH]; intros a k cs H; cbn [run_reqs length] in *.
  - injection H as <- <- <-. rewrite Z.add_0_r. by destruct a.
  - ibind H as c s E. destruct s as [a1 k1].
    apply run_req_bumps in E as (Hlt & -> & ->).
    ibind H as cs1 s1 E1. injection H as <- ->. apply IH in E1 as (-> & -> & Hle). simpl in *.
    split_and!.
    + rewrite (seqZ_cons (slots_start a)) by lia. f_equal. f_equal; lia.
    + f_equal. lia.
    + intros _. destruct rs; simpl in *; [lia|]. specialize (Hle ltac:(done)). lia.
Qed.

Lemma run_req_ok `{L : Sel4Laws} n r a k :
  r <> ReqNormal -> alloc_ok (S n) (a, k) ->
  exists c k', run_req r (a, k) = Ret (c, (bump a, k')) /\ alloc_ok n (bump a, k').
Proof.
  intros Hr Hok. destruct r as [| |bp]; [done| |]; simpl.
  - assert (wp (s ← allocate_slot; mret s.2)
              (fun c s' => exists k', s' = (bump a, k') /\ alloc_ok n (bump a, k')) (a, k))
      as (c & s' & E & k' & -> & Hk'); [|by exists c, k'].
    apply wp_bind, (wp_allocate_slot n); [done|]. intros k1 D HS Hc Hnc Hroom.
    apply wp_ret. exists k1. split; [done|].
    apply (alloc_ok_bump n a k k1 Hok); [|lia|done|done].
    intros c _. by rewrite (kd_empty _ _ _ _ _ D) by by intros [].
  - assert (wp (allocate_and_retype bp)
              (fun c s' => exists k', s' = (bump a, k') /\ alloc_ok n (bump a, k')) (a, k))
      as (c & s' & E & k' & -> & Hk'); [|by exists c, k'].
    apply (wp_allocate n); [done|]. eauto.
Qed.

Lemma run_req_needs `{K : Sel4} r : needs_slot (run_req r).
Proof.
  destruct r; simpl; [apply take_slot_needs| |].
  - apply needs_slot_bind, needs_slot_bind, take_slot_needs.
  - apply needs_slot_bind, needs_slot_bind, take_slot_needs.
Qed.

(** C34: as long as the allocator has [n] empty slots and the untyped region has
    memory for them, [n] calls of [allocate_slot] and [allocate_and_retype] in
    any order all succeed and return [n] consecutive, pairwise different
    capability slots starting at the first free one; the allocator then starts
    behind them. *)
Theorem allocations_consecutive `{L : Sel4Laws} (rs : list alloc_req)
    (a : ObjectAllocator) (k : kstate)
    (Hrs : ReqNormal ∉ rs) (Hok : alloc_ok (length rs) (a, k)) :
  wp (run_reqs rs)
     (fun cs s' => cs = seqZ (slots_start a) (Z.of_nat (length rs)) /\ NoDup cs /\
        s'.1 = MkAllocator (slots_start a + Z.of_nat (length rs)) (slots_end a) (ut a) /\
        forall c, c ∈ cs -> slot_empty k c = true)
     (a, k).
Proof.
  assert (exists cs s', run_reqs rs (a, k) = Ret (cs, s')) as (cs & [a' k'] & E).
  { revert a k Hok. induction rs as [|r rs IH]; intros a k Hok; [by eexists _, _|].
    apply not_elem_of_cons in Hrs as [Hr Hrs].
    destruct (run_req_ok (length rs) r a k) as (c & k1 & E & Hok1); [congruence|done|].
    destruct (IH Hrs _ _ Hok1) as (cs & s' & E').
    exists (c :: cs), s'. simpl. rewrite (bind_Ret _ _ _ _ _ E).
    by rewrite (bind_Ret _ _ _ _ _ E'). }
  exists cs, (a', k'). split; [done|].
  apply run_reqs_inv in E as (-> & -> & Hle). split_and!; [done|apply NoDup_seqZ|done|].
  intros c Hc%elem_of_seqZ. destruct (ao_range _ _ Hok). apply (ao_empty _ _ Hok). simpl in *. lia.
Qed.

(** A kernel with a CNode for the first 4096 slots and room for [n] objects. *)
Definition ref_boot (n : nat) : rk :=
  MkRk {[1 := ROther; 2 := ROther; 3 := RVs 0]} ∅ ∅ ∅ n {[0]} ∅.

Lemma ref_boot_alloc_ok n s e u :
  4 <= s < 4096 -> s mod 4096 <> 0 -> s + Z.of_nat n <= e ->
  @alloc_ok ref_sel4 ref_view n (MkAllocator s e u, ref_boot (2 * n)).
Proof.
  intros Hs Hm He. split; cbn.
  - lia.
  - intros c Hc. by rewrite !lookup_insert_ne, lookup_singleton_ne by lia.
  - lia.
  - intros _. rewrite Z.div_small by lia. done.
  - intros c Hc. apply bool_decide_eq_false. rewrite elem_of_singleton. lia.
Qed.

Lemma allocations_consecutive_witness :
  exists cs s', @run_reqs ref_sel4 [ReqRetype BpTcb; ReqSlot; ReqRetype BpGranule]
                  (MkAllocator 32 1024 26, ref_boot 6) = Ret (cs, s') /\
    cs = [32; 33; 34] /\ NoDup cs.
Proof.
  destruct (@allocations_consecutive ref_sel4 ref_view ref_laws
              [ReqRetype BpTcb; ReqSlot; ReqRetype BpGranule]
              (MkAllocator 32 1024 26) (ref_boot 6)) as (cs & s' & E & Hcs & Hnd & _).
  - rewrite !elem_of_cons, elem_of_nil. intuition discriminate.
  - apply (ref_boot_alloc_ok 3); [lia|vm_compute; discriminate|vm_compute; discriminate].
  - exists cs, s'. split; [exact E|]. split; [exact Hcs|exact Hnd].
Defined.

(** The slot range the kernel thread gives its allocator,
    [DEFAULT_EMPTY_SLOT_INDEX..KERNEL_THREAD_SLOT_NUMS], ends with the slot
    reserved for received capabilities: the last of its 992 allocations returns
    [DEFAULT_THREAD_RECV_SLOT]. *)
Theorem allocator_reaches_recv_slot `{K : Sel4} (rs : list alloc_req) (u : CPtr)
    (k : kstate) (cs : list CPtr) (s' : AK)
    (Hlen : length rs = 992%nat)
    (Hrun : run_reqs rs (ObjectAllocator_init DEFAULT_EMPTY_SLOT_INDEX
                           KERNEL_THREAD_SLOT_NUMS u ObjectAllocator_empty, k)
            = Ret (cs, s')) :
  cs !! 991%nat = Some DEFAULT_THREAD_RECV_SLOT /\
  forall r, run_req r s' = Panic PUnwrap.
Proof.
  destruct s' as [a' k']. apply run_reqs_inv in Hrun as (-> & -> & _). rewrite Hlen.
  split.
  - apply lookup_seqZ. vm_compute. split; reflexivity.
  - intros r. apply run_req_needs. vm_compute. discriminate.
Qed.

Lemma allocator_reaches_recv_slot_witness :
  exists cs s', @run_reqs ref_sel4 (replicate 992 ReqNormal)
      (ObjectAllocator_init DEFAULT_EMPTY_SLOT_INDEX KERNEL_THREAD_SLOT_NUMS 26
         ObjectAllocator_empty, ref_boot 0) = Ret (cs, s') /\
    cs !! 991%nat = Some 1023.
Proof.
  eexists _, _. split.
  - vm_compute. reflexivity.
  - eapply (@allocator_reaches_recv_slot ref_sel4 (replicate 992 ReqNormal) 26 (ref_boot 0)).
    + reflexivity.
    + vm_compute. reflexivity.
Defined.
