(* ===== verification/KTask.v ===== *)
(** * Tasks of the kernel thread ([crates/kernel-thread/src/task.rs])

    A [Sel4Task] with its page map, and the operations that map and unmap
    pages.  The computations run on the task together with the kernel thread's
    object allocator and the kernel state. *)

From S2P Require Import Prelude Words Consts Sel4 Sel4Laws RefKernel ObjAllocator.

Record Sel4Task := MkTask {
  t_pid : Z;
  t_id : Z;
  t_tcb : CPtr;
  t_cnode : CPtr;
  t_vspace : CPtr;
  t_mapped_pt : list CPtr;
  t_mapped_page : gmap Z CPtr;
  t_heap : Z;
  t_exit : option Z;
  t_clear_child_tid : option Z;
}.

Definition set_mapped_pt (l : list CPtr) (t : Sel4Task) : Sel4Task :=
  MkTask (t_pid t) (t_id t) (t_tcb t) (t_cnode t) (t_vspace t) l (t_mapped_page t)
    (t_heap t) (t_exit t) (t_clear_child_tid t).
Definition set_mapped_page (m : gmap Z CPtr) (t : Sel4Task) : Sel4Task :=
  MkTask (t_pid t) (t_id t) (t_tcb t) (t_cnode t) (t_vspace t) (t_mapped_pt t) m
    (t_heap t) (t_exit t) (t_clear_child_tid t).
Definition set_heap (h : Z) (t : Sel4Task) : Sel4Task :=
  MkTask (t_pid t) (t_id t) (t_tcb t) (t_cnode t) (t_vspace t) (t_mapped_pt t)
    (t_mapped_page t) h (t_exit t) (t_clear_child_tid t).
Definition set_exit (e : option Z) (t : Sel4Task) : Sel4Task :=
  MkTask (t_pid t) (t_id t) (t_tcb t) (t_cnode t) (t_vspace t) (t_mapped_pt t)
    (t_mapped_page t) (t_heap t) e (t_clear_child_tid t).
Definition set_clear_child_tid (c : option Z) (t : Sel4Task) : Sel4Task :=
  MkTask (t_pid t) (t_id t) (t_tcb t) (t_cnode t) (t_vspace t) (t_mapped_pt t)
    (t_mapped_page t) (t_heap t) (t_exit t) c.
Definition set_vspace (v : CPtr) (t : Sel4Task) : Sel4Task :=
  MkTask (t_pid t) (t_id t) (t_tcb t) (t_cnode t) v (t_mapped_pt t)
    (t_mapped_page t) (t_heap t) (t_exit t) (t_clear_child_tid t).

(** ** Ordered maps *)

(** The entries of a [BTreeMap] in ascending key order. *)
Definition btree_le {V} (x y : Z * V) : Prop := x.1 <= y.1.

#[global] Instance btree_le_dec {V} : RelDecision (@btree_le V).
Proof. intros x y. unfold btree_le. apply _. Defined.

Definition btree_iter {V} (m : gmap Z V) : list (Z * V) :=
  merge_sort btree_le (map_to_list m).

Lemma btree_iter_perm {V} (m : gmap Z V) : btree_iter m ≡ₚ map_to_list m.
Proof. apply merge_sort_Permutation. Qed.

Lemma elem_of_btree_iter {V} (m : gmap Z V) i x :
  (i, x) ∈ btree_iter m <-> m !! i = Some x.
Proof. rewrite btree_iter_perm. apply elem_of_map_to_list. Qed.

Lemma btree_iter_sorted {V} (m : gmap Z V) : StronglySorted btree_le (btree_iter m).
Proof.
  apply Sorted_StronglySorted.
  - intros x y z. unfold btree_le. lia.
  - apply Sorted_merge_sort. intros x y. unfold btree_le. lia.
Qed.

(** ** The fold of [find_free_area] over the mapped pages *)

Fixpoint find_free_area_loop (last_addr size : Z) (pages : list (Z * CPtr)) : option Z :=
  match pages with
  | [] => Some last_addr
  | (vaddr, _) :: rest =>
      if wrap64 (last_addr + size) <=? vaddr then Some last_addr
      else find_free_area_loop (wrap64 (vaddr + PAGE_SIZE)) size rest
  end.

Definition find_free_area (t : Sel4Task) (start size : Z) : option Z :=
  find_free_area_loop (Z.max USPACE_BASE start) size (btree_iter (t_mapped_page t)).

Section task.
Context `{K : Sel4}.

Definition TK : Type := Sel4Task * AK.

Definition t_kernel {A} (m : M kstate A) : M TK A :=
  zoom (fun s => s.2.2) (fun k s => (s.1, (s.2.1, k))) m.
Definition t_alloc {A} (m : M AK A) : M TK A :=
  zoom snd (fun ak s => (s.1, ak)) m.
Definition t_modify (f : Sel4Task -> Sel4Task) : M TK unit :=
  modify (fun s => (f s.1, s.2)).

(** [Sel4Task::new], given the value of [ID_COUNTER] before the call; the
    counter is incremented with every task. *)
Definition Sel4Task_new (id_counter : Z) : M AK (Sel4Task * Z) :=
  vspace ← allocate_and_retyped_fixed_sized BpVSpace;
  in_kernel (kcall_unwrap (asid_pool_assign SLOT_ASID_POOL vspace)) ;;
  tcb ← allocate_and_retyped_fixed_sized BpTcb;
  cnode ← allocate_and_retyped_variable_sized BpCNode CNODE_RADIX_BITS;
  mret (MkTask 0 id_counter tcb cnode vspace [] ∅ 0x200000000 None None,
        wrap64 (id_counter + 1)).

(** The missing translation table: the [FailedLookup] branch of [map_page]. *)
Definition map_table (vspace vaddr : Z) : M TK unit :=
  pt_cap ← t_alloc (allocate_and_retyped_fixed_sized BpPT);
  t_kernel (kcall_unwrap (pt_map pt_cap vspace vaddr)) ;;
  t_modify (fun t => set_mapped_pt (t_mapped_pt t ++ [pt_cap]) t).

(** The [for _ in 0..NUM_LEVELS] loop of [map_page]; falling out of the loop
    returns without mapping. *)
Fixpoint map_page_loop (n : nat) (vaddr page : Z) : M TK unit :=
  match n with
  | O => mret tt
  | S n =>
      vspace ← gets (fun s => t_vspace s.1);
      res ← t_kernel (kcall (frame_map page vspace vaddr rights_all));
      match res with
      | Ok _ =>
          t_modify (fun t => set_mapped_page (<[vaddr := page]> (t_mapped_page t)) t)
      | Err FailedLookup => map_table vspace vaddr ;; map_page_loop n vaddr page
      | Err _ => panic_with PUnwrap
      end
  end.

Definition map_page (vaddr page : Z) : M TK unit :=
  assert (vaddr mod PAGE_SIZE =? 0) ;;
  map_page_loop (Z.to_nat NUM_LEVELS) vaddr page.

Definition unmap_page (vaddr page : Z) : M TK unit :=
  assert (vaddr mod PAGE_SIZE =? 0) ;;
  res ← t_kernel (kcall (frame_unmap page));
  match res with
  | Ok _ => t_modify (fun t => set_mapped_page (delete vaddr (t_mapped_page t)) t)
  | Err _ => panic_with PUnwrap
  end.

(** A new page for one address: the body shared by the loops of [brk] and
    [sys_mmap]. *)
Definition alloc_and_map (vaddr : Z) : M TK unit :=
  page_cap ← t_alloc (allocate_and_retyped_fixed_sized BpGranule);
  map_page vaddr page_cap.

Definition Sel4Task_brk (value : Z) : M TK Z :=
  if value =? 0 then gets (fun s => t_heap s.1)
  else
    heap ← gets (fun s => t_heap s.1);
    for_each alloc_and_map (step_range PAGE_SIZE heap value) ;;
    mret value.

(** [impl Drop for Sel4Task]: revoke and delete every capability. *)
Definition revoke_and_delete (cap : CPtr) : M kstate unit :=
  kcall_unwrap (cnode_revoke (relative SLOT_CNODE cap)) ;;
  kcall_unwrap (cnode_delete (relative SLOT_CNODE cap)).

Definition Sel4Task_drop (t : Sel4Task) : M kstate unit :=
  revoke_and_delete (t_tcb t) ;;
  revoke_and_delete (t_cnode t) ;;
  revoke_and_delete (t_vspace t) ;;
  for_each revoke_and_delete (t_mapped_pt t) ;;
  for_each revoke_and_delete (btree_iter (t_mapped_page t)).*2.

End task.

(** ** Well-formed tasks *)

(** The slots the allocator has not handed out. *)
Definition alloc_range (a : ObjectAllocator) : CPtr -> Prop :=
  fun c => slots_start a <= c < slots_end a.

Definition bump_by (j : nat) (a : ObjectAllocator) : ObjectAllocator :=
  MkAllocator (slots_start a + Z.of_nat j) (slots_end a) (ut a).

(** Bytes of frames that no capability outside the allocator's range names. *)
Definition fresh_bytes `{Sel4View} (a : ObjectAllocator) (k : kstate) : Frame -> Z -> Prop :=
  fun f _ => forall c, ~ alloc_range a c -> cap_frame k c <> Some f.

(** [task_ok vs t a k]: the task's record of its address space [vs] is exact.
    Every page of [mapped_page] is translated to the frame of its capability,
    which is mapped there, and no other page is translated. *)
Record task_ok `{Sel4View} (vs : VS) (t : Sel4Task) (a : ObjectAllocator) (k : kstate) : Prop := {
  to_vs : cap_vs k (t_vspace t) = Some vs;
  to_vs_slot : ~ alloc_range a (t_vspace t);
  to_page va c : t_mapped_page t !! va = Some c ->
    page_aligned va /\ 0 <= va < 2 ^ 48 /\ ~ alloc_range a c /\
    cap_mapping k c = Some (vs, va) /\
    exists f, cap_frame k c = Some f /\ translate k vs va = Some f;
  to_unmapped va : t_mapped_page t !! va = None -> translate k vs va = None;
}.

(** A run of allocations and mappings for the pages [P] of [vs]. *)
Definition grows `{Sel4View} (vs : VS) (P : Z -> Prop) (a a' : ObjectAllocator)
    (k k' : kstate) : Prop :=
  (exists j, a' = bump_by j a) /\
  kdiff (alloc_range a) (fun v va => v = vs /\ P va) (fresh_bytes a k) k k'.

Section task_laws.
Context `{L : Sel4Laws}.

Lemma alloc_range_bump j a c : alloc_range (bump_by j a) c -> alloc_range a c.
Proof. unfold alloc_range, bump_by. simpl. lia. Qed.

Lemma bump_by_bump j a : bump_by j (bump a) = bump_by (S j) a.
Proof. unfold bump_by, bump. simpl. f_equal. lia. Qed.

Lemma bump_by_bump_by i j a : bump_by i (bump_by j a) = bump_by (j + i) a.
Proof. unfold bump_by. simpl. f_equal. lia. Qed.

Lemma bump_is a : bump a = bump_by 1 a.
Proof. done. Qed.

Lemma bump_by_0 a : bump_by 0 a = a.
Proof. destruct a. unfold bump_by. simpl. f_equal. lia. Qed.

Lemma fresh_bytes_step a j k k' T B f o :
  kdiff (alloc_range a) T B k k' -> fresh_bytes (bump_by j a) k' f o -> fresh_bytes a k f o.
Proof.
  intros D HF c Hc. rewrite <- (kd_frame _ _ _ _ _ D c Hc).
  apply HF. intros Hr. by apply Hc, (alloc_range_bump j).
Qed.

(** A slot in use that the allocator will not reach. *)
Definition slot_used (a : ObjectAllocator) (k : kstate) (c : CPtr) : Prop :=
  slot_empty k c = false /\ ~ alloc_range a c.

Lemma grows_refl vs P a k : grows vs P a a k k.
Proof. split; [exists 0%nat; by rewrite bump_by_0|apply kdiff_refl]. Qed.

Lemma grows_trans vs P a1 a2 a3 k1 k2 k3 :
  grows vs P a1 a2 k1 k2 -> grows vs P a2 a3 k2 k3 -> grows vs P a1 a3 k1 k3.
Proof.
  intros [[i ->] D1] [[j ->] D2]. split; [eexists; apply bump_by_bump_by|].
  eapply kdiff_trans; [exact D1|]. eapply kdiff_weaken, D2.
  - intros c. apply alloc_range_bump.
  - done.
  - intros f o. by eapply fresh_bytes_step.
Qed.

Lemma grows_weaken vs (P P' : Z -> Prop) a a' k k' :
  (forall va, P va -> P' va) -> grows vs P a a' k k' -> grows vs P' a a' k k'.
Proof.
  intros HP [HB D]. split; [done|]. eapply kdiff_weaken, D; naive_solver.
Qed.

(** A step that maps pages of one address space keeps the tasks of all others
    intact. *)
Lemma task_ok_other vs vs' P t a a' k k' :
  vs' <> vs -> grows vs P a a' k k' -> task_ok vs' t a k -> task_ok vs' t a' k'.
Proof.
  intros Hne [[j ->] D] [H1 H2 H3 H4]. split.
  - by rewrite (kd_vs _ _ _ _ _ D).
  - by intros ?%alloc_range_bump.
  - intros va c Hc. destruct (H3 va c Hc) as (Ha & Hb & Hr & Hm & f & Hf & Ht).
    rewrite (kd_mapping _ _ _ _ _ D), (kd_frame _ _ _ _ _ D), (kd_trans _ _ _ _ _ D)
      by naive_solver.
    refine (conj Ha (conj Hb (conj _ (conj Hm _)))); [by intros ?%alloc_range_bump|eauto].
  - intros va Hva. rewrite (kd_trans _ _ _ _ _ D) by naive_solver. auto.
Qed.

(** A translated page is one of the record. *)
Lemma task_translated vs t a k va f :
  task_ok vs t a k -> translate k vs va = Some f ->
  exists c, t_mapped_page t !! va = Some c /\ ~ alloc_range a c /\ cap_frame k c = Some f.
Proof.
  intros Hok Ht. destruct (t_mapped_page t !! va) as [c|] eqn:Ec.
  - exists c. destruct (to_page _ _ _ _ Hok va c Ec) as (_ & _ & Hr & _ & g & Hg & Htg).
    split_and!; [done|done|congruence].
  - by rewrite (to_unmapped _ _ _ _ Hok va Ec) in Ht.
Qed.

(** Allocation of a kernel object for a task. *)
Lemma retyped_grows vs bp a k k' :
  slots_start a < slots_end a ->
  retyped bp (slots_start a) k k' -> grows vs nowhere1 a (bump a) k k'.
Proof.
  intros Hlt HR. split; [by exists 1%nat|].
  eapply kdiff_weaken, retyped_kdiff, HR.
  - intros c ->. unfold alloc_range. lia.
  - by intros ? ? [].
  - intros f o HF c _. apply HF.
Qed.

Lemma task_ok_grows_nowhere vs t a a' k k' :
  grows vs nowhere1 a a' k k' -> task_ok vs t a k -> task_ok vs t a' k'.
Proof.
  intros [[j ->] D] [H1 H2 H3 H4]. split.
  - by rewrite (kd_vs _ _ _ _ _ D).
  - by intros ?%alloc_range_bump.
  - intros va c Hc. destruct (H3 va c Hc) as (Ha & Hb & Hr & Hm & f & Hf & Ht).
    rewrite (kd_mapping _ _ _ _ _ D), (kd_frame _ _ _ _ _ D), (kd_trans _ _ _ _ _ D)
      by first [done|intros [_ []]].
    refine (conj Ha (conj Hb (conj _ (conj Hm _)))); [by intros ?%alloc_range_bump|eauto].
  - intros va Hva. rewrite (kd_trans _ _ _ _ _ D) by by intros [_ []]. auto.
Qed.

Lemma task_ok_set_mapped_pt vs t a k l :
  task_ok vs (set_mapped_pt l t) a k <-> task_ok vs t a k.
Proof. split; intros [H1 H2 H3 H4]; by split. Qed.

Lemma task_ok_set_heap vs t a k h :
  task_ok vs (set_heap h t) a k <-> task_ok vs t a k.
Proof. split; intros [H1 H2 H3 H4]; by split. Qed.

(** The record of a task follows a successful mapping. *)
Lemma task_ok_mapped vs t a k k' va page f :
  task_ok vs t a k -> page_aligned va -> 0 <= va < 2 ^ 48 ->
  cap_frame k page = Some f -> cap_mapping k page = None -> ~ alloc_range a page ->
  kdiff (only page) (only2 vs va) nowhere k k' ->
  translate k' vs va = Some f -> cap_mapping k' page = Some (vs, va) ->
  cap_frame k' page = Some f ->
  task_ok vs (set_mapped_page (<[va := page]> (t_mapped_page t)) t) a k'.
Proof.
  intros [H1 H2 H3 H4] Hal Hva Hf Hm Hp D Ht Hm' Hf'.
  assert (t_vspace t <> page) as Hne.
  { intros <-. apply frame_not_vs in Hf. congruence. }
  split; simpl.
  - by rewrite (kd_vs _ _ _ _ _ D).
  - done.
  - intros va' c. destruct (decide (va' = va)) as [->|Hva'].
    + rewrite lookup_insert_eq. intros [= <-]. eauto 10.
    + rewrite lookup_insert_ne by done. intros Hc.
      destruct (H3 va' c Hc) as (Ha & Hb & Hr & Hmc & g & Hg & Htg).
      assert (c <> page) by congruence.
      rewrite (kd_mapping _ _ _ _ _ D), (kd_frame _ _ _ _ _ D), (kd_trans _ _ _ _ _ D)
        by (unfold only, only2; naive_solver). eauto 10.
  - intros va' Hn. destruct (decide (va' = va)) as [->|Hva'].
    + by rewrite lookup_insert_eq in Hn.
    + rewrite lookup_insert_ne in Hn by done.
      rewrite (kd_trans _ _ _ _ _ D) by (unfold only2; naive_solver). auto.
Qed.

(** The state after [map_page]: tables were allocated and mapped, then the
    page. *)
Definition page_mapped (vs : VS) (va page : Z) (f : Frame) (m : nat)
    (t : Sel4Task) (a : ObjectAllocator) (k : kstate) (s' : TK) : Prop :=
  exists pts k1,
    s'.1 = set_mapped_page (<[va := page]> (t_mapped_page t)) (set_mapped_pt pts t) /\
    grows vs nowhere1 a s'.2.1 k k1 /\
    kdiff (only page) (only2 vs va) nowhere k1 s'.2.2 /\
    task_ok vs s'.1 s'.2.1 s'.2.2 /\ alloc_ok m s'.2 /\
    translate s'.2.2 vs va = Some f.

(** One table: allocated and mapped at the first missing level. *)
Lemma wp_map_table vs m t a k va n (Q : unit -> TK -> Prop) :
  task_ok vs t a k -> page_aligned va -> 0 <= va < 2 ^ 48 ->
  missing k vs va = S n -> alloc_ok (S m) (a, k) ->
  (forall pts k', grows vs nowhere1 a (bump a) k k' -> missing k' vs va = n ->
     alloc_ok m (bump a, k') -> Q tt (set_mapped_pt pts t, (bump a, k'))) ->
  wp (map_table (t_vspace t) va) Q (t, (a, k)).
Proof.
  intros Hok Hal Hva Hmiss HA HQ.
  pose proof (ao_range _ _ HA) as [_ Hr]. simpl in Hr.
  assert (slots_start a < slots_end a) as Hlt by lia.
  unfold map_table. wp_step. unfold t_alloc. wp_step. simpl.
  apply (wp_allocate m); [done|]. intros k1 HA1 HR _ _. simpl.
  pose proof (retyped_grows vs _ _ _ _ Hlt HR) as HG.
  destruct HR as (Hpt & HS & D1).
  destruct (pt_map_ok k1 (slots_start a) (t_vspace t) va vs n)
    as (k2 & E & Hm2 & HSA & _ & _ & _ & _ & D2); try done.
  { rewrite (kd_vs _ _ _ _ _ (proj2 HG)); [apply Hok|apply (to_vs_slot _ _ _ _ Hok)]. }
  { by rewrite HS. }
  wp_step. unfold t_kernel. wp_step. simpl.
  eapply wp_kcall_unwrap; [exact E|]. unfold t_modify. wp_step.
  apply HQ; [|done|].
  - destruct HG as [HB D]. split; [done|]. eapply kdiff_trans; [exact D|].
    eapply kdiff_weaken, D2; [|by intros ? ? []|by intros ? ? []].
    intros c ->. unfold alloc_range. lia.
  - eapply alloc_ok_kdiff; [exact D2|done| |done].
    intros c ->. simpl. lia.
Qed.

(** [map_page_loop] with at least one attempt more than missing tables. *)
Lemma wp_map_page_loop vs n m t a k va page f :
  task_ok vs t a k -> page_aligned va -> 0 <= va < 2 ^ 48 ->
  t_mapped_page t !! va = None ->
  cap_frame k page = Some f -> cap_mapping k page = None -> ~ alloc_range a page ->
  (missing k vs va < n)%nat -> alloc_ok (missing k vs va + m) (a, k) ->
  wp (map_page_loop n va page) (fun _ s' => page_mapped vs va page f m t a k s') (t, (a, k)).
Proof.
  intros Hok Hal Hva Hnew Hf Hm Hp Hn HA.
  remember (missing k vs va) as d eqn:Hd.
  revert n t a k Hd Hok Hnew Hf Hm Hp Hn HA.
  induction d as [|d IH]; intros [|n] t a k Hd Hok Hnew Hf Hm Hp Hn HA; try lia;
    cbn [map_page_loop]; wp_step; wp_step; wp_step; unfold t_kernel; wp_step; simpl;
    apply wp_kcall.
  - destruct (frame_map_ok k page (t_vspace t) va rights_all f vs)
      as (k' & -> & Ht & Hm' & Hf' & He & HSA & D); try done; [apply Hok|by apply Hok|].
    unfold t_modify. wp_step. exists (t_mapped_pt t), k. simpl.
    split_and!; [by destruct t|apply grows_refl|done| | |done].
    + eapply task_ok_mapped; try exact D; done.
    + eapply alloc_ok_kdiff; [exact D|done| |done]. by intros c ->.
  - rewrite (frame_map_failed_lookup k page (t_vspace t) va rights_all f vs);
      try done; [|apply Hok|lia].
    wp_step. apply (wp_map_table vs (d + m) _ _ _ _ d); try done.
    intros pts k' HG Hmiss HA'. simpl in *.
    pose proof HG as [_ D].
    eapply wp_mono.
    + apply IH; try done.
      * by apply task_ok_set_mapped_pt, (task_ok_grows_nowhere _ _ a _ k).
      * by rewrite (kd_frame _ _ _ _ _ D).
      * by rewrite (kd_mapping _ _ _ _ _ D).
      * by intros ?%(alloc_range_bump 1).
      * lia.
    + intros [] s' (pts' & k1 & E1 & HG1 & D1 & Hok' & HA1 & Ht').
      exists pts', k1. split_and!; try done; by eapply grows_trans.
Qed.

Lemma wp_map_page vs m t a k va page f :
  task_ok vs t a k -> page_aligned va -> 0 <= va < 2 ^ 48 ->
  t_mapped_page t !! va = None ->
  cap_frame k page = Some f -> cap_mapping k page = None -> ~ alloc_range a page ->
  alloc_ok (Z.to_nat NUM_LEVELS - 1 + m) (a, k) ->
  wp (map_page va page) (fun _ s' => page_mapped vs va page f m t a k s') (t, (a, k)).
Proof.
  intros Hok Hal Hva Hnew Hf Hm Hp HA. unfold map_page. wp_step.
  apply wp_assert; [by apply Z.eqb_eq|].
  pose proof (levels_range k vs va).
  apply wp_map_page_loop; try done; [lia|].
  eapply alloc_ok_le, HA. lia.
Qed.

(** The state after zeroed pages were added at those addresses of [l] that had
    none. *)
Record pages_added (vs : VS) (l : list Z) (t : Sel4Task) (a : ObjectAllocator)
    (k : kstate) (s' : TK) : Prop := {
  pa_task : exists m pts, s'.1 = set_mapped_page m (set_mapped_pt pts t);
  pa_grows : grows vs (fun va => va ∈ l /\ t_mapped_page t !! va = None) a s'.2.1 k s'.2.2;
  pa_ok : task_ok vs s'.1 s'.2.1 s'.2.2;
  pa_old va c : t_mapped_page t !! va = Some c -> t_mapped_page s'.1 !! va = Some c;
  pa_new va : t_mapped_page t !! va = None -> va ∈ l ->
    exists c f, t_mapped_page s'.1 !! va = Some c /\ alloc_range a c /\
      cap_frame s'.2.2 c = Some f /\ forall o, fbyte s'.2.2 f o = 0;
  pa_else va : t_mapped_page t !! va = None -> va ∉ l -> t_mapped_page s'.1 !! va = None;
}.

Lemma pages_added_nil vs t a k :
  task_ok vs t a k -> pages_added vs [] t a k (t, (a, k)).
Proof.
  intros Hok. split; simpl; try done.
  - exists (t_mapped_page t), (t_mapped_pt t). by destruct t.
  - apply grows_refl.
  - intros va _ Hin. by apply not_elem_of_nil in Hin.
Qed.

(** A later addition keeps the frame of a mapped page and its bytes. *)
Lemma pages_added_keeps vs l t a k s' va c f o :
  pages_added vs l t a k s' -> task_ok vs t a k -> t_mapped_page t !! va = Some c ->
  cap_frame k c = Some f ->
  cap_frame s'.2.2 c = Some f /\ fbyte s'.2.2 f o = fbyte k f o.
Proof.
  intros [_ [_ D] _ _ _ _] Hok Hc Hf.
  destruct (to_page _ _ _ _ Hok va c Hc) as (_ & _ & Hr & _).
  split; [by rewrite (kd_frame _ _ _ _ _ D)|].
  apply (kd_bytes _ _ _ _ _ D). intros HF. by apply (HF c).
Qed.

Lemma pages_added_app vs l1 l2 t a k s1 s2 :
  pages_added vs l1 t a k s1 -> pages_added vs l2 s1.1 s1.2.1 s1.2.2 s2 ->
  pages_added vs (l1 ++ l2) t a k s2.
Proof.
  intros P1 P2. pose proof (fun va c f o => pages_added_keeps vs l2 _ _ _ s2 va c f o P2
    (pa_ok _ _ _ _ _ _ P1)) as HK.
  destruct s1 as [t1 [a1 k1]], s2 as [t2 [a2 k2]]. simpl in *.
  destruct P1 as [(m1 & p1 & T1) G1 O1 Old1 New1 Else1].
  destruct P2 as [(m2 & p2 & T2) G2 O2 Old2 New2 Else2]. simpl in *.
  split; simpl; auto.
  - exists m2, p2. by rewrite T2, T1.
  - eapply grows_trans.
    + eapply grows_weaken, G1. set_solver.
    + eapply grows_weaken, G2. intros va [Hin Hn]. split; [set_solver|].
      destruct (t_mapped_page t !! va) eqn:E; [|done]. apply Old1 in E. congruence.
  - intros va Hn Hin. destruct (decide (va ∈ l1)) as [H1|H1].
    + destruct (New1 va Hn H1) as (c & f & Hc & Hr & Hf & Hz). exists c, f.
      split_and!; [by apply Old2|apply Hr..|eapply (HK va c f 0); done|].
      intros o. destruct (HK va c f o) as [_ ->]; done.
    + destruct (New2 va) as (c & f & Hc & Hr & Hf & Hz); [by apply Else1|set_solver|].
      exists c, f. split_and!; try done; destruct G1 as [[j ->] _];
        apply alloc_range_bump in Hr; apply Hr.
  - intros va Hn Hin. apply Else2; [apply Else1|]; set_solver.
Qed.

(** A frame is allocated, tables are added, and the frame is mapped. *)
Lemma grows_map_own vs va a k1 k2 k a' k' :
  alloc_range a (slots_start a) ->
  grows vs nowhere1 a (bump a) k k1 -> grows vs nowhere1 (bump a) a' k1 k2 ->
  kdiff (only (slots_start a)) (only2 vs va) nowhere k2 k' ->
  grows vs (only va) a a' k k'.
Proof.
  intros Hp HG1 HG2 D. destruct (grows_trans _ _ _ _ _ _ _ _ HG1 HG2) as [HB D1].
  split; [done|]. eapply kdiff_trans; eapply kdiff_weaken; [..|exact D1| | | |exact D];
    unfold only, only2, nowhere, nowhere1; naive_solver.
Qed.

(** One new page, and what follows. *)
Lemma wp_new_page {B} vs m t a k va (rest : CPtr -> M TK B) (Q : B -> TK -> Prop) :
  task_ok vs t a k -> page_aligned va -> 0 <= va < 2 ^ 48 ->
  t_mapped_page t !! va = None -> alloc_ok (Z.to_nat NUM_LEVELS + m) (a, k) ->
  (forall c s', pages_added vs [va] t a k s' -> alloc_ok m s'.2 ->
     t_mapped_page s'.1 !! va = Some c -> wp (rest c) Q s') ->
  wp (page_cap ← t_alloc (allocate_and_retyped_fixed_sized BpGranule);
      map_page va page_cap ;; rest page_cap) Q (t, (a, k)).
Proof.
  intros Hok Hal Hva Hnew HA HQ. pose proof (levels_range k vs va) as HL.
  replace (Z.to_nat NUM_LEVELS + m)%nat with (S (Z.to_nat NUM_LEVELS - 1 + m))%nat in HA by lia.
  pose proof (ao_range _ _ HA) as [_ Hr]. simpl in Hr.
  assert (slots_start a < slots_end a) as Hlt by lia.
  wp_step. unfold t_alloc. wp_step. simpl.
  apply (wp_allocate _ _ _ _ _ HA). intros k1 HA1 HR _ _. simpl.
  pose proof (retyped_grows vs _ _ _ _ Hlt HR) as HG.
  destruct HR as (f & Hf & Hm & _ & _ & Hz & _).
  set (p := slots_start a) in *.
  assert (~ alloc_range (bump a) p) as Hp by (unfold alloc_range; simpl; lia).
  assert (alloc_range a p) as Hp' by (unfold alloc_range; lia).
  wp_step. eapply wp_mono.
  - apply (wp_map_page vs m _ _ _ _ _ f); try done. by apply (task_ok_grows_nowhere _ _ a _ k).
  - intros [] [t' [a' k']] (pts & k2 & E & HG2 & D & Hok' & HA' & Ht). simpl in *. subst t'.
    assert (grows vs (only va) a a' k k') as HG'.
    { eapply (grows_map_own _ _ _ k1 k2); done. }
    destruct HG2 as [_ D2]. apply HQ; [|done|simpl; apply lookup_insert_eq].
    split; simpl; try done; [eauto| | | |].
    + eapply grows_weaken, HG'. intros x ->. split; [left|done].
    + intros x c Hx. rewrite lookup_insert_ne by congruence. done.
    + intros x _ ->%list_elem_of_singleton. exists p, f. rewrite lookup_insert_eq.
      destruct (to_page _ _ _ _ Hok' va p) as (_ & _ & _ & _ & g & Hg & Htg);
        [apply lookup_insert_eq|]. replace g with f in * by congruence.
      split_and!; try done; [apply Hp'..|]. intros o. rewrite (kd_bytes _ _ _ _ _ D) by by intros [].
      rewrite (kd_bytes _ _ _ _ _ D2); [done|]. intros HF. by apply (HF p).
    + intros x Hx Hin. rewrite lookup_insert_ne; [done|set_solver].
Qed.

Lemma wp_alloc_and_map vs m t a k va :
  task_ok vs t a k -> page_aligned va -> 0 <= va < 2 ^ 48 ->
  t_mapped_page t !! va = None -> alloc_ok (Z.to_nat NUM_LEVELS + m) (a, k) ->
  wp (alloc_and_map va) (fun _ s' => pages_added vs [va] t a k s' /\ alloc_ok m s'.2)
     (t, (a, k)).
Proof.
  intros Hok Hal Hva Hnew HA.
  destruct (wp_new_page vs m t a k va (fun _ => mret tt)
    (fun _ s' => pages_added vs [va] t a k s' /\ alloc_ok m s'.2)) as ([] & s' & E & HQ); try done.
  { intros c s' HP HA' _. by apply wp_ret. }
  exists tt, s'. split; [|done]. unfold alloc_and_map. ibind E as c s1 E1. ibind E as [] s2 E2.
  injection E as <-. by rewrite (bind_Ret _ _ _ _ _ E1).
Qed.
End task_laws.

(** ** Free areas *)

(** Every page lies outside [r .. r + size). *)
Definition area_free (r size : Z) (pages : list (Z * CPtr)) : Prop :=
  forall va c, (va, c) ∈ pages -> va + PAGE_SIZE <= r \/ r + size <= va.

Lemma find_free_area_loop_spec size pages : forall last before,
  StronglySorted btree_le pages -> 0 <= size -> 0 <= last -> last + size < 2 ^ 64 ->
  (forall va c, (va, c) ∈ pages -> 0 <= va /\ va + PAGE_SIZE + size < 2 ^ 64 /\ before <= va) ->
  exists r, find_free_area_loop last size pages = Some r /\ area_free r size pages /\
    0 <= r /\
    (r = last \/ (before + PAGE_SIZE <= r /\ exists va c, (va, c) ∈ pages /\ r = va + PAGE_SIZE)).
Proof.
  rewrite PAGE_SIZE_eq.
  induction pages as [|[va c] pages IH]; intros last before Hs Hsz Hl Hls Hp; simpl.
  - exists last. split_and!; try done; [|by left]. by intros ? ? ?%not_elem_of_nil.
  - apply StronglySorted_inv in Hs as [Hs Hall]. rewrite Forall_forall in Hall.
    destruct (Hp va c) as (Hva & Hvs & Hb); [left|].
    rewrite wrap64_small by (unfold is_u64; lia).
    destruct (Z.leb_spec (last + size) va) as [Hle|Hgt].
    + exists last. split_and!; [done| |done|by left].
      intros va' c' [[= -> ->]|Hin]%elem_of_cons; [by right|right].
      specialize (Hall _ Hin). unfold btree_le in Hall. simpl in Hall. lia.
    + rewrite PAGE_SIZE_eq, wrap64_small by (unfold is_u64; lia).
      destruct (IH (va + 4096) va) as (r & -> & HF & Hr & Hlast); try done; try lia.
      { intros va' c' Hin. specialize (Hall _ Hin). unfold btree_le in Hall. simpl in Hall.
        destruct (Hp va' c') as (? & ? & ?); [by right|]. lia. }
      exists r. split_and!; try done.
      * intros va' c' [[= -> ->]|Hin]%elem_of_cons; [left; rewrite PAGE_SIZE_eq; lia|by eapply HF].
      * right. split; [lia|]. destruct Hlast as [->|(_ & va' & c' & Hin & ->)].
        -- exists va, c. split; [left|done].
        -- exists va', c'. split; [by right|done].
Qed.

Lemma find_free_area_spec (t : Sel4Task) (start size : Z) :
  0 <= start -> 0 <= size -> Z.max USPACE_BASE start + size < 2 ^ 64 ->
  (forall va c, t_mapped_page t !! va = Some c -> 0 <= va /\ va + PAGE_SIZE + size < 2 ^ 64) ->
  exists r, find_free_area t start size = Some r /\ USPACE_BASE <= r /\
    (forall va c, t_mapped_page t !! va = Some c -> va + PAGE_SIZE <= r \/ r + size <= va) /\
    (r = Z.max USPACE_BASE start \/
     exists va c, t_mapped_page t !! va = Some c /\ r = va + PAGE_SIZE).
Proof.
  intros Hstart Hsize Hbase Hpages. unfold find_free_area.
  destruct (find_free_area_loop_spec size (btree_iter (t_mapped_page t))
              (Z.max USPACE_BASE start) 0) as (r & E & HF & Hr & Hlast).
  - apply btree_iter_sorted.
  - done.
  - lia.
  - done.
  - intros va c Hin%elem_of_btree_iter. destruct (Hpages va c Hin). lia.
  - exists r. split_and!; [done| | |].
    + destruct Hlast as [->|[Hlast _]]; [lia|]. unfold USPACE_BASE.
      rewrite PAGE_SIZE_eq in Hlast. lia.
    + intros va c Hc. by apply (HF va c), elem_of_btree_iter.
    + destruct Hlast as [->|(_ & va & c & Hin%elem_of_btree_iter & ->)]; eauto.
Qed.

(** C35: [find_free_area] always finds an area, at or above [USPACE_BASE], that
    no mapped page overlaps, as long as the addresses involved stay within 64
    bits. *)
Theorem find_free_area_disjoint (t : Sel4Task) (start size : Z)
    (Hstart : 0 <= start) (Hsize : 0 <= size) (Hbase : Z.max USPACE_BASE start + size < 2 ^ 64)
    (Hpages : forall va c, t_mapped_page t !! va = Some c ->
       0 <= va /\ va + PAGE_SIZE + size < 2 ^ 64) :
  exists r, find_free_area t start size = Some r /\ USPACE_BASE <= r /\
    forall va c, t_mapped_page t !! va = Some c -> va + PAGE_SIZE <= r \/ r + size <= va.
Proof.
  destruct (find_free_area_spec t start size) as (r & E & Hb & HF & _); eauto.
Qed.

Definition sample_task (pages : gmap Z CPtr) : Sel4Task :=
  MkTask 0 1 10 11 12 [] pages 0x200000000 None None.

Lemma find_free_area_disjoint_witness :
  find_free_area (sample_task {[0x1000 := 40; 0x4000 := 41]}) 0 0x2000 = Some 0x2000 /\
  exists r, find_free_area (sample_task {[0x1000 := 40; 0x4000 := 41]}) 0 0x2000 = Some r /\
    USPACE_BASE <= r /\
    forall va c, t_mapped_page (sample_task {[0x1000 := 40; 0x4000 := 41]}) !! va = Some c ->
      va + PAGE_SIZE <= r \/ r + 0x2000 <= va.
Proof.
  split; [vm_compute; reflexivity|].
  apply (find_free_area_disjoint (sample_task {[0x1000 := 40; 0x4000 := 41]}) 0 0x2000);
    [lia|lia|vm_compute; reflexivity|].
  intros va c. simpl. intros [[<- <-]|[_ [<- <-]%lookup_singleton_Some]]%lookup_insert_Some;
    vm_compute; intuition discriminate.
Defined.

(** The area is not searched upwards from [start]: as soon as the lowest
    mapped page ends the scan's first candidate, the answer no longer depends on
    [start] and is the end of some mapped page, also when that is below
    [start]. *)
Theorem find_free_area_forgets_start (t : Sel4Task) (start start' size va : Z) (c : CPtr)
    (rest : list (Z * CPtr))
    (Hfirst : btree_iter (t_mapped_page t) = (va, c) :: rest)
    (Hblocked : va < wrap64 (Z.max USPACE_BASE start + size))
    (Hblocked' : va < wrap64 (Z.max USPACE_BASE start' + size)) :
  find_free_area t start size = find_free_area t start' size.
Proof.
  unfold find_free_area. rewrite Hfirst. simpl.
  destruct (Z.leb_spec (wrap64 (Z.max USPACE_BASE start + size)) va); [lia|].
  destruct (Z.leb_spec (wrap64 (Z.max USPACE_BASE start' + size)) va); [lia|]. done.
Qed.

(** The request for an area from [0x40000000] upwards is answered with
    [0x11000]. *)
Lemma find_free_area_forgets_start_witness :
  find_free_area (sample_task {[0x10000 := 40]}) 0x40000000 0x1000 =
    find_free_area (sample_task {[0x10000 := 40]}) 0x20000 0x1000 /\
  find_free_area (sample_task {[0x10000 := 40]}) 0x40000000 0x1000 = Some 0x11000.
Proof.
  split; [|vm_compute; reflexivity].
  apply (find_free_area_forgets_start _ _ _ _ 0x10000 40 []); vm_compute; reflexivity.
Defined.

(** ** Mapping and unmapping one page *)

(** What [map_page] and [unmap_page] leave alone: every other page of every
    address space. *)
Definition only_page_changed `{Sel4View} (vs : VS) (va : Z) (k k' : kstate) : Prop :=
  forall vs' va', ~ (vs' = vs /\ va' = va) -> translate k' vs' va' = translate k vs' va'.

(** C26: [map_page] on a page-aligned, unmapped address of a well-formed task
    always terminates with the frame mapped there, however many translation
    tables were missing: the [NUM_LEVELS] attempts are enough.  The page map
    gains exactly that page, the task stays well formed, and no other page of
    any address space changes. *)
Theorem map_page_maps `{L : Sel4Laws} (vs : VS) (t : Sel4Task) (a : ObjectAllocator)
    (k : kstate) (va page : Z) (f : Frame)
    (Hok : task_ok vs t a k) (Halign : page_aligned va) (Hva : 0 <= va < 2 ^ 48)
    (Hnew : t_mapped_page t !! va = None)
    (Hframe : cap_frame k page = Some f) (Hunmapped : cap_mapping k page = None)
    (Hslot : ~ alloc_range a page)
    (Halloc : alloc_ok (Z.to_nat NUM_LEVELS - 1) (a, k)) :
  wp (map_page va page)
     (fun _ s' => t_mapped_page s'.1 = <[va := page]> (t_mapped_page t) /\
        translate s'.2.2 vs va = Some f /\ task_ok vs s'.1 s'.2.1 s'.2.2 /\
        only_page_changed vs va k s'.2.2)
     (t, (a, k)).
Proof.
  eapply wp_mono; [apply (wp_map_page vs 0 _ _ _ _ _ f); try done; by rewrite Nat.add_0_r|].
  intros [] s' (pts & k1 & E & [_ D1] & D2 & Hok' & _ & Ht).
  split_and!; [by rewrite E|done|done|]. intros vs' va' Hne.
  rewrite (kd_trans _ _ _ _ _ D2) by done. apply (kd_trans _ _ _ _ _ D1). by intros [_ []].
Qed.

(** The record of a task follows the removal of a page. *)
Lemma task_ok_unmapped `{L : Sel4Laws} vs t a k k' va page :
  task_ok vs t a k -> t_mapped_page t !! va = Some page ->
  translate k' vs va = None -> kdiff (only page) (only2 vs va) nowhere k k' ->
  task_ok vs (set_mapped_page (delete va (t_mapped_page t)) t) a k'.
Proof.
  intros [H1 H2 H3 H4] Hpage Ht' D.
  destruct (H3 va page Hpage) as (_ & _ & _ & Hm & f & Hf & Ht).
  assert (forall vs' va', ~ (vs' = vs /\ va' = va) ->
    translate k' vs' va' = translate k vs' va') as HP
    by (intros vs' va' Hne; by apply (kd_trans _ _ _ _ _ D)).
  split; simpl; [|done| |].
  - rewrite (kd_vs _ _ _ _ _ D); [done|]. intros E. apply frame_not_vs in Hf.
    unfold only in E. congruence.
  - intros va' c [Hne Hc]%lookup_delete_Some.
    destruct (H3 va' c Hc) as (Ha & Hb & Hrc & Hmc & g & Hg & Htg).
    assert (c <> page) by congruence.
    rewrite (kd_mapping _ _ _ _ _ D), (kd_frame _ _ _ _ _ D), HP by naive_solver. eauto 10.
  - intros va' Hn. destruct (decide (va' = va)) as [->|Hne]; [done|].
    rewrite lookup_delete_ne in Hn by done. rewrite HP by naive_solver. auto.
Qed.

Lemma wp_unmap_page `{L : Sel4Laws} vs t a k va page :
  task_ok vs t a k -> t_mapped_page t !! va = Some page ->
  wp (unmap_page va page)
     (fun _ s' => s'.1 = set_mapped_page (delete va (t_mapped_page t)) t /\ s'.2.1 = a /\
        translate s'.2.2 vs va = None /\ task_ok vs s'.1 a s'.2.2 /\
        cap_mapping s'.2.2 page = None /\ same_alloc k s'.2.2 /\
        cap_frame s'.2.2 page = cap_frame k page /\
        kdiff (only page) (only2 vs va) nowhere k s'.2.2)
     (t, (a, k)).
Proof.
  intros Hok Hpage.
  destruct (to_page _ _ _ _ Hok va page Hpage) as (Hal & Hva & Hr & Hm & f & Hf & Ht).
  unfold unmap_page. wp_step. apply wp_assert; [by apply Z.eqb_eq|].
  wp_step. unfold t_kernel. wp_step. simpl. apply wp_kcall.
  destruct (frame_unmap_ok k page f vs va Hf Hm) as (k' & -> & Ht' & Hm' & Hf' & He & HSA & D).
  unfold t_modify. wp_step. simpl.
  split_and!; try done; [|congruence]. by eapply task_ok_unmapped.
Qed.

(** [unmap_page] removes the page from the task's record and from its address
    space and from nowhere else. *)
Theorem unmap_page_unmaps `{L : Sel4Laws} (vs : VS) (t : Sel4Task) (a : ObjectAllocator)
    (k : kstate) (va page : Z)
    (Hok : task_ok vs t a k) (Hpage : t_mapped_page t !! va = Some page) :
  wp (unmap_page va page)
     (fun _ s' => t_mapped_page s'.1 = delete va (t_mapped_page t) /\
        translate s'.2.2 vs va = None /\ task_ok vs s'.1 s'.2.1 s'.2.2 /\
        cap_mapping s'.2.2 page = None /\ only_page_changed vs va k s'.2.2)
     (t, (a, k)).
Proof.
  eapply wp_mono; [by apply (wp_unmap_page vs)|].
  intros [] [t' [a' k']] (E & -> & Ht & Hok' & Hm & _ & _ & D). simpl in *. subst t'.
  split_and!; try done. intros vs' va' Hne. by apply (kd_trans _ _ _ _ _ D).
Qed.

(** A kernel with address spaces in slots 12 and 13, the frame
    capabilities 40 (free) and 41 (mapped at [0x5000]), and the thread's own
    page seat reachable. *)
Definition ref_user (n : nat) : rk :=
  MkRk {[1 := ROther; 2 := ROther; 3 := RVs 0; 10 := ROther; 11 := ROther; 12 := RVs 5; 13 := RVs 6;
         40 := RFrame 7 None; 41 := RFrame 8 (Some (5, 0x5000))]}
       {[8 := {[0 := 104; 1 := 105]}]} {[(5, 0x5000) := 8]}
       {[(5, 39, 0); (5, 30, 0); (5, 21, 0); (0, 39, 0); (0, 30, 0); (0, 21, 0)]} n {[0]}
       {[10 := (MkCtx 0x200100 0x1fffff000 {[0 := 7]} 0, false)]}.

Definition ref_user_task : Sel4Task := sample_task {[0x5000 := 41]}.

Lemma ref_user_task_ok n s e u :
  50 <= s -> @task_ok ref_sel4 ref_view 5 ref_user_task (MkAllocator s e u) (ref_user n).
Proof.
  intros Hs. split; cbn.
  - reflexivity.
  - unfold alloc_range. simpl. lia.
  - intros va c [<- <-]%lookup_singleton_Some. unfold page_aligned, alloc_range. simpl.
    split_and!; try done; try lia. by exists 8.
  - intros va Hn%lookup_singleton_None. apply lookup_singleton_None. congruence.
Qed.

Lemma ref_user_alloc_ok n s e u :
  50 <= s < 4096 -> s + Z.of_nat n <= e ->
  @alloc_ok ref_sel4 ref_view n (MkAllocator s e u, ref_user (2 * n)).
Proof.
  intros Hs He. split; cbn.
  - lia.
  - intros c Hc. by rewrite !lookup_insert_ne, lookup_singleton_ne by lia.
  - lia.
  - intros _. rewrite Z.div_small by lia. done.
  - intros c Hc. apply bool_decide_eq_false. rewrite elem_of_singleton. lia.
Qed.

(** Mapping a page one gigabyte away needs two new tables. *)
Lemma map_page_maps_witness :
  exists s', @map_page ref_sel4 0x40000000 40
      (ref_user_task, (MkAllocator 50 1024 26, ref_user 6)) = Ret (tt, s') /\
    t_mapped_page s'.1 !! 0x40000000 = Some 40 /\
    rk_trans s'.2.2 !! (5, 0x40000000) = Some 7 /\
    length (t_mapped_pt s'.1) = 2%nat.
Proof.
  destruct (@map_page_maps ref_sel4 ref_view ref_laws 5 ref_user_task
              (MkAllocator 50 1024 26) (ref_user 6) 0x40000000 40 7)
    as ([] & s' & E & Hp & Ht & _); try reflexivity.
  - by apply ref_user_task_ok.
  - lia.
  - unfold alloc_range. simpl. lia.
  - apply (ref_user_alloc_ok 3); vm_compute; intuition discriminate.
  - exists s'. split; [exact E|]. split; [by rewrite Hp|]. split; [exact Ht|].
    vm_compute in E. injection E as <-. reflexivity.
Defined.

Lemma unmap_page_unmaps_witness :
  exists s', @unmap_page ref_sel4 0x5000 41
      (ref_user_task, (MkAllocator 50 1024 26, ref_user 0)) = Ret (tt, s') /\
    t_mapped_page s'.1 = ∅ /\ rk_trans s'.2.2 !! (5, 0x5000) = None.
Proof.
  destruct (@unmap_page_unmaps ref_sel4 ref_view ref_laws 5 ref_user_task
              (MkAllocator 50 1024 26) (ref_user 0) 0x5000 41)
    as ([] & s' & E & Hp & Ht & _).
  - by apply ref_user_task_ok.
  - reflexivity.
  - exists s'. split; [exact E|]. split; [by rewrite Hp|exact Ht].
Defined.
