(* ===== verification/FrameMem.v ===== *)
(** * Frames and the page seat

    The kernel thread reaches the pages of its tasks through one page of its
    own address space, the page seat ([page_seat_vaddr] in
    [crates/kernel-thread/src/main.rs]): it maps a frame there, reads or writes
    it, and unmaps it again.  This file has the lemmas on the bytes of a frame
    and on that window. *)

From S2P Require Import Prelude Words Consts Sel4 Sel4Laws ObjAllocator KTask.

Section frame_mem.
Context `{L : Sel4Laws}.

(** The [n] bytes of a frame from offset [o]. *)
Definition frame_bytes (k : kstate) (f : Frame) (o : Z) (n : nat) : list Z :=
  fbyte k f <$> seqZ o (Z.of_nat n).

Lemma frame_bytes_S k f o n :
  frame_bytes k f o (S n) = fbyte k f o :: frame_bytes k f (o + 1) n.
Proof.
  unfold frame_bytes. rewrite (seqZ_cons o) by lia. simpl. f_equal.
  f_equal. f_equal; lia.
Qed.

Lemma frame_bytes_app k f o n m :
  frame_bytes k f o (n + m) = frame_bytes k f o n ++ frame_bytes k f (o + Z.of_nat n) m.
Proof.
  revert o. induction n as [|n IH]; intros o; simpl.
  - by rewrite Z.add_0_r.
  - rewrite !frame_bytes_S, IH. simpl. do 2 f_equal. f_equal. lia.
Qed.

Lemma length_frame_bytes k f o n : length (frame_bytes k f o n) = n.
Proof. unfold frame_bytes. rewrite length_fmap, length_seqZ. lia. Qed.

Lemma frame_bytes_ext k k' f o n :
  (forall i, o <= i < o + Z.of_nat n -> fbyte k' f i = fbyte k f i) ->
  frame_bytes k' f o n = frame_bytes k f o n.
Proof.
  intros Hext. unfold frame_bytes. apply list_fmap_ext. intros i x Hx.
  apply lookup_seqZ in Hx. apply Hext. lia.
Qed.

(** Reading a byte range of a mapped page. *)
Lemma wp_load_bytes k f va o n (Q : list Z -> kstate -> Prop) :
  page_aligned va -> translate k own_vs va = Some f ->
  0 <= o -> o + Z.of_nat n <= 4096 ->
  Q (frame_bytes k f o n) k -> wp (load_bytes (va + o) n) Q k.
Proof.
  intros Hal Ht. revert o Q. induction n as [|n IH]; intros o Q Ho Hn HQ; simpl.
  - apply wp_ret. exact HQ.
  - assert (down 4096 (va + o) = va /\ (va + o) mod 4096 = o) as [Hd Hm].
    { unfold page_aligned, down in *. dlia. }
    apply wp_bind. unfold load. exists (fbyte k f o), k.
    rewrite (load8_ok k (va + o) f), Hm by by rewrite Hd. split; [done|].
    apply wp_bind. replace (va + o + 1) with (va + (o + 1)) by lia.
    apply IH; [lia|lia|]. apply wp_ret. by rewrite <- frame_bytes_S.
Qed.

(** Writing a byte range of a mapped page. *)
Lemma wp_store_bytes k f va o bs (Q : unit -> kstate -> Prop) :
  page_aligned va -> translate k own_vs va = Some f ->
  0 <= o -> o + Z.of_nat (length bs) <= 4096 ->
  (forall k', frame_bytes k' f o (length bs) = bs -> same_alloc k k' ->
     kdiff nowhere1 nowhere (fun g i => g = f /\ o <= i < o + Z.of_nat (length bs)) k k' ->
     Q tt k') ->
  wp (store_bytes (va + o) bs) Q k.
Proof.
  intros Hal. revert k o Q. induction bs as [|b bs IH]; intros k o Q Ht Ho Hn HQ;
    cbn [store_bytes length] in *.
  - apply wp_ret. apply HQ; [done|done|apply kdiff_refl].
  - assert (down 4096 (va + o) = va /\ (va + o) mod 4096 = o) as [Hd Hm].
    { unfold page_aligned, down in *. dlia. }
    destruct (store8_ok k (va + o) b f) as (k1 & E & Hb & HS1 & D1); [by rewrite Hd|].
    rewrite Hm in Hb, D1. apply wp_bind. unfold store. exists tt, k1. rewrite E.
    split; [done|]. replace (va + o + 1) with (va + (o + 1)) by lia.
    apply IH; [by rewrite (kd_trans _ _ _ _ _ D1) by by intros []|lia|lia|].
    intros k' Hbs HS D. apply HQ.
    + rewrite frame_bytes_S, Hbs. f_equal. rewrite (kd_bytes _ _ _ _ _ D); [done|]. intros [_ ?]. lia.
    + destruct HS as [HS HS'], HS1 as [HS1 HS1'].
      split; intros; [by rewrite HS, HS1|by rewrite HS', HS1'].
    + eapply kdiff_trans; eapply kdiff_weaken; [..|exact D1| | | |exact D]; try done.
      * unfold only2. intros g i [-> ->]. split; [done|lia].
      * intros g i [-> Hi]. split; [done|lia].
Qed.

(** ** The page seat *)

(** The seat is a free, reachable page of the thread's own address space. *)
Record seat_free (seat : Z) (k : kstate) : Prop := {
  so_vs : cap_vs k SLOT_VSPACE = Some own_vs;
  so_align : page_aligned seat;
  so_range : 0 <= seat < 2 ^ 48;
  so_tables : missing k own_vs seat = 0%nat;
  so_free : translate k own_vs seat = None;
}.

(** In addition, slot 0 is free for the copy of the capability that is mapped
    there. *)
Record seat_ok (seat : Z) (a : ObjectAllocator) (k : kstate) : Prop := {
  so_seat : seat_free seat k;
  so_vs_slot : ~ alloc_range a SLOT_VSPACE;
  so_zero : slot_empty k 0 = true;
  so_zero_slot : ~ alloc_range a 0;
}.

Lemma seat_free_kdiff C T B seat k k' :
  seat_free seat k -> kdiff C T B k k' -> ~ C SLOT_VSPACE ->
  translate k' own_vs seat = None -> seat_free seat k'.
Proof.
  intros [S1 S2 S3 S4 S5] D HC Ht. split; try done.
  - by rewrite (kd_vs _ _ _ _ _ D).
  - pose proof (kd_missing _ _ _ _ _ D own_vs seat). lia.
Qed.

(** A difference at one page that was undone. *)
Lemma kdiff_restore C (T : VS -> Z -> Prop) B vs va k k' :
  kdiff C (fun v a => T v a \/ (v = vs /\ a = va)) B k k' ->
  translate k' vs va = translate k vs va -> kdiff C T B k k'.
Proof.
  intros D E. destruct D as [D1 D2 D3 D4 D5 D6 D7 D8]. split; try done.
  intros v x HT. destruct (decide (v = vs)) as [->|]; [|by apply D6; intros [|[]]].
  destruct (decide (x = va)) as [->|]; [done|]. by apply D6; intros [|[]].
Qed.

Lemma same_alloc_trans k1 k2 k3 : same_alloc k1 k2 -> same_alloc k2 k3 -> same_alloc k1 k3.
Proof.
  intros [H1 H2] [H3 H4]. split; intros; [by rewrite H3, H1|by rewrite H4, H2].
Qed.

(** The frame of capability [page] in the seat, and back: between the two steps
    only bytes of the frame may change. *)
Lemma wp_seat_map seat k page f (Q : unit -> kstate -> Prop) :
  seat_free seat k -> cap_frame k page = Some f -> cap_mapping k page = None ->
  (forall k', translate k' own_vs seat = Some f -> cap_frame k' page = Some f ->
     cap_mapping k' page = Some (own_vs, seat) -> slot_empty k' page = slot_empty k page ->
     same_alloc k k' -> kdiff (only page) (only2 own_vs seat) nowhere k k' -> Q tt k') ->
  wp (kcall_unwrap (frame_map page SLOT_VSPACE seat rights_all)) Q k.
Proof.
  intros [? ? ? ? ?] Hf Hm HQ.
  destruct (frame_map_ok k page SLOT_VSPACE seat rights_all f own_vs)
    as (k' & E & Ht & Hm' & Hf' & He & HS & D); try done.
  eapply wp_kcall_unwrap; [exact E|]. by apply HQ.
Qed.

Lemma wp_seat_unmap seat k page f (Q : unit -> kstate -> Prop) :
  cap_frame k page = Some f -> cap_mapping k page = Some (own_vs, seat) ->
  (forall k', translate k' own_vs seat = None -> cap_frame k' page = Some f ->
     cap_mapping k' page = None -> slot_empty k' page = slot_empty k page ->
     same_alloc k k' -> kdiff (only page) (only2 own_vs seat) nowhere k k' -> Q tt k') ->
  wp (kcall_unwrap (frame_unmap page)) Q k.
Proof.
  intros Hf Hm HQ.
  destruct (frame_unmap_ok k page f own_vs seat Hf Hm)
    as (k' & E & Ht & Hm' & Hf' & He & HS & D).
  eapply wp_kcall_unwrap; [exact E|]. by apply HQ.
Qed.
End frame_mem.
