(* ===== verification/UserMem.v ===== *)
(** * Access to user memory ([crates/kernel-thread/src/utils.rs], [syscall/fs/io.rs])

    The kernel thread walks a user range page by page: it copies the page's
    capability into slot 0, maps it at the page seat, hands the window to a
    callback, unmaps and deletes the copy.  The callback keeps a state of its
    own ([C] below: a buffer or the console). *)

From S2P Require Import Prelude Words Consts Sel4 Sel4Laws RefKernel Externs Reference ObjAllocator KTask FrameMem.

(** Align [a] with [b] bits. *)
Definition align_bits (a b : Z) : Z := Z.land a (Z.lnot (Z.shiftl 1 b - 1)).

Lemma align_bits_12 a : align_bits a 12 = down 4096 a.
Proof.
  unfold align_bits. change (Z.shiftl 1 12 - 1) with (Z.ones 12).
  by rewrite land_lnot_ones by lia.
Qed.

Section user_mem.
Context `{K : Sel4} `{MA : MemoryAddr}.
(** [page_seat_vaddr()] *)
Context (seat : Z).

Section process.
Context {C : Type}.

Definition u_kernel {A} (m : M kstate A) : M (C * kstate) A :=
  zoom snd (fun k s => (s.1, k)) m.

(** The page of capability [cap] in the window while [body] runs. *)
Definition with_seat_copy {A} (cap : CPtr) (body : M (C * kstate) A) : M (C * kstate) A :=
  u_kernel (kcall_unwrap
    (cnode_copy (relative SLOT_CNODE 0) (relative SLOT_CNODE cap) rights_all)) ;;
  u_kernel (kcall_unwrap (frame_map 0 SLOT_VSPACE seat rights_all)) ;;
  a ← body;
  u_kernel (kcall_unwrap (frame_unmap 0)) ;;
  u_kernel (kcall_unwrap (cnode_delete (relative SLOT_CNODE 0))) ;;
  mret a.

(** The [while len > 0] loop of [process_item_list]. *)
Fixpoint process_loop (fuel : nat) (task : Sel4Task) (f : Z -> Z -> Z -> M (C * kstate) unit)
    (addr buf_addr len : Z) : M (C * kstate) (result Z Errno) :=
  match fuel with
  | O => out_of_fuel
  | S fuel =>
      if len >? 0 then
        match t_mapped_page task !! align_bits buf_addr 12 with
        | Some cap =>
            let copy_len := Z.min (PAGE_SIZE_4K - align_offset_4k buf_addr) len in
            buf_addr' ← with_seat_copy cap
              (offset ← lift (va_sub buf_addr addr);
               f (wrap64 (seat + align_offset_4k buf_addr)) offset copy_len ;;
               lift (va_add buf_addr copy_len));
            process_loop fuel task f addr buf_addr' (len - copy_len)
        | None => mret (Err EFAULT)
        end
      else
        done ← lift (va_sub buf_addr addr);
        mret (Ok done)
  end.

(** One iteration per page of the range, and one to leave the loop. *)
Definition process_fuel (len : Z) : nat := Z.to_nat (len / PAGE_SIZE_4K + 3).

(** [size] is [size_of::<T>()]. *)
Definition process_item_list (size : Z) (task : Sel4Task) (addr : Z) (number : option Z)
    (f : Z -> Z -> Z -> M (C * kstate) unit) : M (C * kstate) (result Z Errno) :=
  if bool_decide (number = None) && (size + align_offset_4k addr >? PAGE_SIZE_4K)
  then mret (Err EINVAL)
  else
    let len := wrap64 (size * default 1 number) in
    process_loop (process_fuel len) task f addr addr len.
End process.

(** [read_item]: the item starts as zeroes and is read through the window. *)
Definition read_item_cb (size src _offset _copy_len : Z) : M (list Z * kstate) unit :=
  item ← u_kernel (load_bytes src (Z.to_nat size));
  modify (fun s => (item, s.2)).

Definition read_item (size : Z) (task : Sel4Task) (addr : Z) :
    M kstate (result (list Z) Errno) := fun k =>
  match process_item_list size task addr None (read_item_cb size)
          (replicate (Z.to_nat size) 0, k)
  with
  | Ret (Ok _, (item, k)) => Ret (Ok item, k)
  | Ret (Err e, (_, k)) => Ret (Err e, k)
  | Panic p => Panic p
  | Deadlock => Deadlock
  | NoFuel => NoFuel
  end.

(** The kernel thread's own memory behind a pointer, by offset. *)
Definition host_bytes (mem : Z -> Z) (o n : Z) : list Z := mem <$> seqZ o n.

(** A computation without a callback state. *)
Definition no_state {A} (m : M (unit * kstate) A) : M kstate A :=
  fun k => match m (tt, k) with
           | Ret (a, (_, k)) => Ret (a, k)
           | Panic p => Panic p
           | Deadlock => Deadlock
           | NoFuel => NoFuel
           end.

(** [write_item]: [copy_nonoverlapping] counts items, so [copy_len] items of
    [size] bytes are copied from the memory [mem] that starts with the item. *)
Definition write_item (size : Z) (task : Sel4Task) (addr : Z) (mem : Z -> Z) :
    M kstate (result Z Errno) :=
  no_state (process_item_list size task addr None
    (fun dst _ copy_len => u_kernel (store_bytes dst (host_bytes mem 0 (copy_len * size))))).

(** Bytes written into a buffer of the kernel thread. *)
Fixpoint buf_write (o : Z) (bs : list Z) (buf : gmap Z Z) : gmap Z Z :=
  match bs with
  | [] => buf
  | b :: bs => buf_write (o + 1) bs (<[o := b]> buf)
  end.

(** [read_item_list]: offsets and lengths, which are in bytes, index items. *)
Definition read_item_list (size : Z) (task : Sel4Task) (addr : Z) (num : option Z) :
    M (gmap Z Z * kstate) (result Z Errno) :=
  process_item_list size task addr num
    (fun src offset copy_len =>
       bs ← u_kernel (load_bytes src (Z.to_nat (copy_len * size)));
       modify (fun s => (buf_write (offset * size) bs s.1, s.2))).

Definition write_item_list (size : Z) (task : Sel4Task) (addr : Z) (num : option Z)
    (mem : Z -> Z) : M kstate (result Z Errno) :=
  no_state (process_item_list 1 task addr num
    (fun dst offset copy_len =>
       u_kernel (store_bytes dst (host_bytes mem (offset * size) (copy_len * size))))).

(** [sys_write] for the task found under the caller's badge; the console is the
    list of characters put so far.  An address whose page is not mapped leaves
    the loop's variables as they are. *)
Fixpoint sys_write_loop (fuel : nat) (task : Sel4Task) (buf_addr count payload_length : Z) :
    M (list Z * kstate) Z :=
  match fuel with
  | O => out_of_fuel
  | S fuel =>
      if count >? 0 then
        match t_mapped_page task !! align_bits buf_addr 12 with
        | Some cap =>
            let copy_len := Z.min (PAGE_SIZE_4K - align_offset_4k buf_addr) count in
            buf_addr' ← with_seat_copy cap
              (bs ← u_kernel (load_bytes (seat + align_offset_4k buf_addr) (Z.to_nat copy_len));
               modify (fun s => (s.1 ++ bs, s.2)) ;;
               lift (va_add buf_addr copy_len));
            sys_write_loop fuel task buf_addr' (count - copy_len)
              (wrap64 (payload_length + copy_len))
        | None => sys_write_loop fuel task buf_addr count payload_length
        end
      else mret payload_length
  end.

Definition task_write (fuel : nat) (task : Sel4Task) (fd buf count : Z) :
    M (list Z * kstate) (result Z Errno) :=
  if negb (fd =? STDOUT_FD) && negb (fd =? STDERR_FD) then mret (Err ENOSYS)
  else n ← sys_write_loop fuel task buf count 0; mret (Ok n).
End user_mem.

(** ** The window *)

Section window.
Context `{L : Sel4Laws} (seat : Z).

(** The task and the seat are in order, and the task has an address space of
    its own. *)
Record umem_ok (vs : VS) (t : Sel4Task) (a : ObjectAllocator) (k : kstate) : Prop := {
  um_task : task_ok vs t a k;
  um_seat : seat_ok seat a k;
  um_vs : vs <> own_vs;
}.

(** The net effect of using the window: bytes [B] of frames. *)
Definition window (B : Frame -> Z -> Prop) (k k' : kstate) : Prop :=
  kdiff (only 0) nowhere B k k' /\ same_alloc k k' /\ slot_empty k' 0 = true.

Lemma window_trans B k1 k2 k3 : window B k1 k2 -> window B k2 k3 -> window B k1 k3.
Proof.
  intros (D1 & S1 & E1) (D2 & S2 & E2).
  split; [by eapply kdiff_trans|]. split; [by eapply same_alloc_trans|done].
Qed.

Lemma window_weaken (B B' : Frame -> Z -> Prop) k k' :
  (forall f o, B f o -> B' f o) -> window B k k' -> window B' k k'.
Proof. intros HB (D & S & E). split; [|done]. by eapply kdiff_weaken, D. Qed.

Lemma umem_window vs t a k k' B :
  umem_ok vs t a k -> window B k k' -> umem_ok vs t a k'.
Proof.
  intros [[H1 H2 H3 H4] [S1 S2 S3 S4] Hvs] (D & HS & HE).
  assert (forall v x, translate k' v x = translate k v x) as HT
    by (intros v x; apply (kd_trans _ _ _ _ _ D); by intros []).
  assert (forall c v, cap_vs k c = Some v -> c <> 0) as H0.
  { intros c v Hc ->. apply vs_not_empty in Hc. congruence. }
  split; [split|split|done]; try done.
  - rewrite (kd_vs _ _ _ _ _ D); [done|]. by eapply H0.
  - intros va c Hc. destruct (H3 va c Hc) as (Ha & Hb & Hr & Hm & f & Hf & Ht).
    assert (c <> 0) by (intros ->; apply frame_not_empty in Hf; congruence).
    rewrite (kd_mapping _ _ _ _ _ D), (kd_frame _ _ _ _ _ D), HT by done. eauto 10.
  - intros va Hva. rewrite HT. auto.
  - eapply (seat_free_kdiff _ _ _ _ _ _ S1 D); [by eapply H0, S1|]. rewrite HT. apply S1.
Qed.

Lemma wp_u_kernel {C A} (m : M kstate A) (c : C) k (Q : A -> C * kstate -> Prop) :
  wp m (fun x k' => Q x (c, k')) k -> wp (u_kernel m) Q (c, k).
Proof. intros Hw. unfold u_kernel. by apply wp_zoom. Qed.

(** The page is visible at the seat while the body runs; afterwards the copy is
    gone and only what the body wrote has changed. *)
Lemma wp_with_seat_copy {C A} (B : Frame -> Z -> Prop) cap (body : M (C * kstate) A) a k f c
    (Q : A -> C * kstate -> Prop) :
  seat_ok seat a k -> cap_frame k cap = Some f ->
  (forall k1, translate k1 own_vs seat = Some f ->
     (forall g o, fbyte k1 g o = fbyte k g o) ->
     (forall vs va, ~ (vs = own_vs /\ va = seat) -> translate k1 vs va = translate k vs va) ->
     wp body (fun x s2 => kdiff nowhere1 nowhere B k1 s2.2 /\ same_alloc k1 s2.2 /\
       forall k3, (forall g o, fbyte k3 g o = fbyte s2.2 g o) -> window B k k3 ->
         Q x (s2.1, k3)) (c, k1)) ->
  wp (with_seat_copy seat cap body) Q (c, k).
Proof.
  intros [S1 S2 S3 S4] Hf Hbody.
  assert (cap <> 0) as Hcap by (intros ->; apply frame_not_empty in Hf; congruence).
  assert (SLOT_VSPACE <> 0) as Hv0.
  { intros E. pose proof (vs_not_empty _ _ _ (so_vs _ _ S1)). congruence. }
  destruct (frame_copy_ok k 0 cap rights_all f) as (k1 & E1 & F1 & M1 & Em1 & A1 & D1);
    try done.
  unfold with_seat_copy. wp_step. apply wp_u_kernel.
  eapply wp_kcall_unwrap; [exact E1|]. wp_step. apply wp_u_kernel.
  apply (wp_seat_map seat k1 0 f); try done.
  { eapply (seat_free_kdiff _ _ _ _ _ _ S1 D1); [done|].
    rewrite (kd_trans _ _ _ _ _ D1) by by intros []. apply S1. }
  intros k2 T2 F2 M2 Em2 A2 D2. wp_step.
  eapply wp_mono; [apply (Hbody k2)|].
  { done. }
  { intros g o. rewrite (kd_bytes _ _ _ _ _ D2), (kd_bytes _ _ _ _ _ D1); by try intros []. }
  { intros vs va Hne. rewrite (kd_trans _ _ _ _ _ D2) by done.
    apply (kd_trans _ _ _ _ _ D1). by intros []. }
  intros x [c3 k3] (D3 & A3 & HQ). simpl in *. wp_step. apply wp_u_kernel.
  apply (wp_seat_unmap seat k3 0 f).
  { by rewrite (kd_frame _ _ _ _ _ D3) by by intros []. }
  { by rewrite (kd_mapping _ _ _ _ _ D3) by by intros []. }
  intros k4 T4 F4 M4 Em4 A4 D4. wp_step. apply wp_u_kernel.
  assert (kdiff (only 0) (fun v x => nowhere v x \/ (v = own_vs /\ x = seat)) B k k4) as D.
  { apply (kdiff_trans _ _ _ _ k1); [|apply (kdiff_trans _ _ _ _ k2);
      [|apply (kdiff_trans _ _ _ _ k3)]]; eapply kdiff_weaken; try eassumption;
      unfold only, only2, nowhere, nowhere1; naive_solver. }
  destruct (frame_delete_ok k4 0 cap f) as (k5 & E5 & Em5 & F5 & M5 & A5 & D5); try done.
  { by rewrite (kd_frame _ _ _ _ _ D). }
  eapply wp_kcall_unwrap; [exact E5|]. wp_step. apply HQ.
  { intros g o. rewrite (kd_bytes _ _ _ _ _ D5), (kd_bytes _ _ _ _ _ D4); by try intros []. }
  split; [|split; [|done]].
  - apply (kdiff_restore _ _ _ own_vs seat).
    + eapply kdiff_trans; [exact D|]. eapply kdiff_weaken, D5; try done; by intros ? ? [].
    + rewrite (kd_trans _ _ _ _ _ D5), T4 by by intros []. symmetry. apply S1.
  - eapply same_alloc_trans; [exact A1|]. eapply same_alloc_trans; [exact A2|].
    eapply same_alloc_trans; [exact A3|]. by eapply same_alloc_trans.
Qed.
End window.

(** ** Walking a user range *)

Section walk.
Context `{L : Sel4Laws} `{ML : MemoryAddrLaws} (seat : Z).

(** The byte of user memory at an address. *)
Definition user_byte (k : kstate) (vs : VS) (x : Z) : option Z :=
  f ← translate k vs (down 4096 x); Some (fbyte k f (x mod 4096)).

(** The callback [f] handles the [n] bytes at distance [d] of the range at
    [addr], which lie in one page, given the invariant [I]. *)
Definition handles_chunk {C} (B : Frame -> Z -> Prop) (vs : VS) (addr : Z)
    (f : Z -> Z -> Z -> M (C * kstate) unit) (I : Z -> C -> kstate -> Prop) (len : Z) : Prop :=
  forall d n c k k1 g,
    0 <= d -> 0 < n -> d + n <= len -> n = Z.min (4096 - (addr + d) mod 4096) (len - d) ->
    translate k vs (down 4096 (addr + d)) = Some g -> I d c k ->
    translate k1 own_vs seat = Some g -> (forall h o, fbyte k1 h o = fbyte k h o) ->
    wp (f (seat + (addr + d) mod 4096) d n)
       (fun _ s2 => kdiff nowhere1 nowhere B k1 s2.2 /\ same_alloc k1 s2.2 /\
          forall k3, (forall h o, fbyte k3 h o = fbyte s2.2 h o) -> window B k k3 ->
            I (d + n) s2.1 k3)
       (c, k1).

(** How a walk over [len] bytes ends: all of them handled, or stopped at the
    first page that is not mapped. *)
Definition walk_post {C} (B : Frame -> Z -> Prop) (t : Sel4Task) (addr len : Z)
    (I : Z -> C -> kstate -> Prop) (k : kstate) (r : result Z Errno) (s' : C * kstate) : Prop :=
  window B k s'.2 /\
  match r with
  | Ok n => n = len /\ I len s'.1 s'.2
  | Err e => e = EFAULT /\ exists d, 0 <= d < len /\ I d s'.1 s'.2 /\
      t_mapped_page t !! down 4096 (addr + d) = None
  end.

(** The arithmetic of one chunk. *)
Lemma chunk_bounds x rem n :
  0 < rem -> n = Z.min (4096 - x mod 4096) rem ->
  0 < n <= rem /\ x mod 4096 + n <= 4096 /\
  forall fuel, x mod 4096 + rem <= 4096 * (Z.of_nat (S fuel) - 1) ->
    (1 <= fuel)%nat /\
    (0 < rem - n -> (x + n) mod 4096 + (rem - n) <= 4096 * (Z.of_nat fuel - 1)).
Proof.
  intros Hrem ->. pose proof (Z.mod_pos_bound x 4096).
  split; [lia|]. split; [lia|]. intros fuel Hf. split; [lia|]. intros Hr.
  replace (Z.min (4096 - x mod 4096) rem) with (4096 - x mod 4096) in * by lia.
  replace ((x + (4096 - x mod 4096)) mod 4096) with 0; [lia|dlia].
Qed.

Lemma wp_process_loop {C} B vs t a addr f (I : Z -> C -> kstate -> Prop) len :
  handles_chunk B vs addr f I len -> 0 <= addr -> addr + len < 2 ^ 64 ->
  forall fuel d c k, umem_ok seat vs t a k -> 0 <= d <= len -> I d c k ->
    slot_empty k 0 = true -> (1 <= fuel)%nat ->
    (0 < len - d -> (addr + d) mod 4096 + (len - d) <= 4096 * (Z.of_nat fuel - 1)) ->
    wp (process_loop seat fuel t f addr (addr + d) (len - d))
       (walk_post B t addr len I k) (c, k).
Proof.
  intros Hf Haddr Hend. induction fuel as [|fuel IH]; [lia|].
  intros d c k Hum Hd HI Hz _ Hfuel. cbn [process_loop].
  destruct (Z.gtb_spec (len - d) 0) as [Hgt|Hle].
  - rewrite align_bits_12.
    destruct (t_mapped_page t !! down 4096 (addr + d)) as [cap|] eqn:Hcap.
    + rewrite !align_offset_4k_ok by lia. unfold PAGE_SIZE_4K. change 0x1000 with 4096.
      destruct (to_page _ _ _ _ (um_task _ _ _ _ _ Hum) _ _ Hcap)
        as (_ & _ & _ & _ & g & Hg & Htr).
      set (n := Z.min (4096 - (addr + d) mod 4096) (len - d)).
      destruct (chunk_bounds (addr + d) (len - d) n) as (Hn & Hpage & Hnext); [lia|done|].
      destruct (Hnext fuel) as [Hfuel1 Hfuel2]; [by apply Hfuel; lia|].
      pose proof (um_seat _ _ _ _ _ Hum) as Hseat.
      pose proof (so_range _ _ (so_seat _ _ _ Hseat)) as Hsr.
      pose proof (Z.mod_pos_bound (addr + d) 4096 ltac:(lia)) as Hmod.
      wp_step. apply (wp_with_seat_copy seat B _ _ a k g); [done|done|].
      intros k1 Ht1 Hb1 _. wp_step. eapply wp_lift; [apply va_sub_ok; lia|].
      replace (addr + d - addr) with d by lia.
      rewrite wrap64_small by (unfold is_u64; lia).
      wp_step. eapply wp_mono; [apply (Hf d n c k k1 g); try done; lia|].
      intros [] [c2 k2] (D & HS & HI2). simpl in *.
      eapply wp_lift; [apply va_add_ok; lia|]. split; [done|]. split; [done|].
      intros k3 Hb3 W. replace (addr + d + n) with (addr + (d + n)) in * by lia.
      replace (len - d - n) with (len - (d + n)) in * by lia.
      eapply wp_mono.
      * apply IH; [by eapply umem_window|lia|by apply HI2|apply W|lia|].
        exact Hfuel2.
      * intros r s' [W' Hr]. split; [by eapply window_trans|done].
    + apply wp_ret. split; [split; [apply kdiff_refl|done]|]. split; [done|].
      exists d. split; [lia|done].
  - assert (d = len) as -> by lia. wp_step. eapply wp_lift; [apply va_sub_ok; lia|].
    apply wp_ret. replace (addr + len - addr) with len by lia.
    split; [split; [apply kdiff_refl|done]|done].
Qed.

(** The range is never too long for the fuel of [process_item_list]. *)
Lemma wp_process_item_list {C} B vs t a addr size number f (I : Z -> C -> kstate -> Prop) len c k :
  len = size * default 1 number ->
  (number = None -> size + addr mod 4096 <= 4096) ->
  0 <= len -> 0 <= addr -> addr + len < 2 ^ 64 ->
  umem_ok seat vs t a k -> handles_chunk B vs addr f I len -> I 0 c k ->
  wp (process_item_list seat size t addr number f) (walk_post B t addr len I k) (c, k).
Proof.
  intros Hlen Hsz Hl Haddr Hend Hum Hf HI. unfold process_item_list.
  rewrite align_offset_4k_ok by lia. unfold PAGE_SIZE_4K. change 0x1000 with 4096.
  replace (bool_decide (number = None) && (size + addr mod 4096 >? 4096)) with false.
  2:{ symmetry. destruct number; [done|]. simpl.
      destruct (Z.gtb_spec (size + addr mod 4096) 4096); [|done]. specialize (Hsz eq_refl). lia. }
  rewrite <- Hlen, wrap64_small by (unfold is_u64; lia).
  pose proof (wp_process_loop B vs t a addr f I len Hf Haddr Hend (process_fuel len) 0 c k) as HP.
  rewrite Z.add_0_r, Z.sub_0_r in HP. apply HP; try done.
  - apply (um_seat _ _ _ _ _ Hum).
  - unfold process_fuel, PAGE_SIZE_4K. pose proof (Z.div_pos len 0x1000). lia.
  - intros _. unfold process_fuel, PAGE_SIZE_4K. change 0x1000 with 4096.
    rewrite Z2Nat.id by (pose proof (Z.div_pos len 4096); lia).
    dlia.
Qed.

Lemma process_item_list_einval {C} t addr size f (c : C) (k : kstate) :
  0 <= addr -> 4096 < size + addr mod 4096 ->
  process_item_list seat size t addr None f (c, k) = Ret (Err EINVAL, (c, k)).
Proof.
  intros Haddr Hsz. unfold process_item_list.
  rewrite align_offset_4k_ok by lia. unfold PAGE_SIZE_4K. change 0x1000 with 4096.
  simpl. destruct (Z.gtb_spec (size + addr mod 4096) 4096); [done|lia].
Qed.
End walk.

(** ** Reading *)

Section user_bytes.
Context `{L : Sel4Laws}.

(** [n] bytes of user memory from [x], if all of them are mapped. *)
Definition user_bytes (k : kstate) (vs : VS) (x : Z) (n : nat) : option (list Z) :=
  mapM (user_byte k vs) (seqZ x (Z.of_nat n)).

Lemma user_bytes_app k vs x n m bs cs :
  user_bytes k vs x n = Some bs -> user_bytes k vs (x + Z.of_nat n) m = Some cs ->
  user_bytes k vs x (n + m) = Some (bs ++ cs).
Proof.
  unfold user_bytes. intros H1 H2. rewrite Nat2Z.inj_add, seqZ_app by lia.
  apply mapM_Some. apply mapM_Some in H1, H2. by apply Forall2_app.
Qed.

(** Bytes of one page. *)
Lemma user_bytes_page k vs x n f :
  translate k vs (down 4096 x) = Some f -> x mod 4096 + Z.of_nat n <= 4096 ->
  user_bytes k vs x n = Some (frame_bytes k f (x mod 4096) n).
Proof.
  intros Ht Hn. unfold user_bytes, frame_bytes. apply mapM_Some, Forall2_same_length_lookup_2.
  - by rewrite length_fmap, !length_seqZ.
  - intros i y b Hy Hb. apply lookup_seqZ in Hy as [-> Hi].
    rewrite list_lookup_fmap in Hb. rewrite lookup_seqZ_lt in Hb by lia.
    simpl in Hb. injection Hb as <-.
    assert (down 4096 (x + Z.of_nat i) = down 4096 x /\
            (x + Z.of_nat i) mod 4096 = x mod 4096 + Z.of_nat i) as [E1 E2].
    { unfold down. dlia. }
    unfold user_byte. by rewrite E1, Ht, E2.
Qed.

Lemma user_bytes_unmapped k vs x n d :
  0 <= d < Z.of_nat n -> translate k vs (down 4096 (x + d)) = None ->
  user_bytes k vs x n = None.
Proof.
  intros Hd Ht. destruct (user_bytes k vs x n) as [bs|] eqn:E; [|done].
  apply mapM_Some in E. apply Forall2_length in E as Hl. rewrite length_seqZ in Hl.
  destruct (lookup_lt_is_Some_2 bs (Z.to_nat d)) as [b Hb]; [lia|].
  destruct (Forall2_lookup_r _ _ _ _ _ E Hb) as (y & Hy & Hu).
  apply lookup_seqZ in Hy as [-> _]. rewrite Z2Nat.id in Hu by lia.
  unfold user_byte in Hu. by rewrite Ht in Hu.
Qed.

(** States that show the user the same memory. *)
Definition same_user (k k' : kstate) : Prop :=
  (forall vs va, translate k' vs va = translate k vs va) /\
  (forall g o, fbyte k' g o = fbyte k g o).

Lemma same_user_refl k : same_user k k.
Proof. by split. Qed.

Lemma same_user_trans k1 k2 k3 : same_user k1 k2 -> same_user k2 k3 -> same_user k1 k3.
Proof.
  intros [H1 H2] [H3 H4]. split; intros; [by rewrite H3|by rewrite H4].
Qed.

Lemma window_same_user k k' : window nowhere k k' -> same_user k k'.
Proof.
  intros (D & _). split; intros; [apply (kd_trans _ _ _ _ _ D)|apply (kd_bytes _ _ _ _ _ D)];
    by intros [].
Qed.

Lemma same_user_frame_bytes k k' f o n :
  same_user k k' -> frame_bytes k' f o n = frame_bytes k f o n.
Proof. intros [_ HB]. apply frame_bytes_ext. auto. Qed.
End user_bytes.

Section reading.
Context `{L : Sel4Laws} `{ML : MemoryAddrLaws} (seat : Z).

(** A chunk that is loaded through the window. *)
Lemma wp_load_chunk k k1 vs x n g (Q : list Z -> kstate -> Prop) :
  page_aligned seat -> translate k vs (down 4096 x) = Some g ->
  translate k1 own_vs seat = Some g -> (forall h o, fbyte k1 h o = fbyte k h o) ->
  0 <= n -> x mod 4096 + n <= 4096 ->
  (forall bs, user_bytes k vs x (Z.to_nat n) = Some bs -> Q bs k1) ->
  wp (load_bytes (seat + x mod 4096) (Z.to_nat n)) Q k1.
Proof.
  intros Hal Ht Ht1 HB Hn0 Hn HQ. pose proof (Z.mod_pos_bound x 4096).
  apply (wp_load_bytes k1 g); try done; try lia.
  rewrite (frame_bytes_ext k) by auto. apply HQ, user_bytes_page; [done|lia].
Qed.

(** The reference result of reading one item. *)
Definition read_item_spec (k : kstate) (vs : VS) (addr size : Z) : result (list Z) Errno :=
  if 4096 <? addr mod 4096 + size then Err EINVAL
  else match user_bytes k vs addr (Z.to_nat size) with
       | Some item => Ok item
       | None => Err EFAULT
       end.

(** The state of [read_item] after [d] bytes: nothing read, or everything. *)
Definition read_item_inv (k : kstate) (vs : VS) (addr size d : Z) (c : list Z) (k' : kstate) : Prop :=
  same_user k k' /\ (d = 0 /\ c = replicate (Z.to_nat size) 0 \/
                     d = size /\ user_bytes k vs addr (Z.to_nat size) = Some c).

Lemma read_item_handles k vs addr size :
  page_aligned seat -> addr mod 4096 + size <= 4096 ->
  handles_chunk seat nowhere vs addr (read_item_cb size) (read_item_inv k vs addr size) size.
Proof.
  intros Hal Hx d n c k0 k1 g Hd Hn Hdn En Htr [HS Hc] Ht1 Hb1.
  destruct Hc as [[-> ->]|[-> _]]; [|lia]. rewrite Z.add_0_r, Z.sub_0_r in *.
  assert (n = size) as -> by lia. unfold read_item_cb. wp_step. apply wp_u_kernel.
  apply (wp_load_chunk k k1 vs addr size g); try done; try lia.
  - by rewrite <- (proj1 HS).
  - intros h o. rewrite Hb1. apply HS.
  - intros bs Hbs. wp_step. simpl. split; [apply kdiff_refl|].
    split; [done|]. intros k3 _ W3. split; [|by right].
    eapply same_user_trans; [exact HS|]. by apply window_same_user.
Qed.

Lemma wp_read_item vs t a k addr size :
  umem_ok seat vs t a k -> 0 <= size -> 0 <= addr -> addr + size < 2 ^ 64 ->
  wp (read_item seat size t addr)
     (fun r k' => r = read_item_spec k vs addr size /\ window nowhere k k') k.
Proof.
  intros Hum Hsize Haddr Hend. unfold read_item_spec.
  destruct (Z.ltb_spec 4096 (addr mod 4096 + size)) as [Hx|Hx].
  { eexists _, _. unfold read_item. rewrite process_item_list_einval by lia.
    split; [done|]. split; [done|]. split; [apply kdiff_refl|].
    split; [done|apply (um_seat _ _ _ _ _ Hum)]. }
  destruct (wp_process_item_list seat nowhere vs t a addr size None (read_item_cb size)
    (read_item_inv k vs addr size) size (replicate (Z.to_nat size) 0) k)
    as (r & [c k'] & E & W & Hr); try done; try (simpl; lia).
  { apply read_item_handles; [|done].
    apply (so_align _ _ (so_seat _ _ _ (um_seat _ _ _ _ _ Hum))). }
  { split; [apply same_user_refl|by left]. }
  exists (match r with Ok _ => Ok c | Err e => Err e end), k'.
  unfold read_item. rewrite E. split; [by destruct r|]. split; [|done].
  destruct r as [n|e].
  - destruct Hr as (-> & _ & [[-> Hc]|[_ Hc]]); simpl in Hc; [by rewrite Hc|by rewrite Hc].
  - destruct Hr as (-> & d & Hd & _ & Hnone).
    rewrite (user_bytes_unmapped _ _ _ _ d); [done|lia|].
    by apply (to_unmapped _ _ _ _ (um_task _ _ _ _ _ Hum)).
Qed.

Lemma buf_write_app o bs cs buf :
  buf_write o (bs ++ cs) buf = buf_write (o + Z.of_nat (length bs)) cs (buf_write o bs buf).
Proof.
  revert o buf. induction bs as [|b bs IH]; intros o buf; cbn [buf_write app length].
  - f_equal. lia.
  - rewrite IH. f_equal. lia.
Qed.

Lemma user_bytes_length k vs x n bs : user_bytes k vs x n = Some bs -> length bs = n.
Proof.
  intros Hb. apply mapM_Some in Hb. apply Forall2_length in Hb. rewrite length_seqZ in Hb. lia.
Qed.

(** Bytes that were read so far, for a byte-wise walk with an accumulator. *)
Definition read_inv {C} (put : list Z -> C -> C) (k : kstate) (vs : VS) (addr : Z) (c0 : C)
    (d : Z) (c : C) (k' : kstate) : Prop :=
  same_user k k' /\
  exists bs, user_bytes k vs addr (Z.to_nat d) = Some bs /\ c = put bs c0.

(** A callback that appends the bytes of each chunk. *)
Lemma read_chunk_handles {C} (put : list Z -> C -> C) (cb : Z -> Z -> Z -> M (C * kstate) unit)
    k vs addr len c0 :
  page_aligned seat ->
  (forall src d n c k1 bs, Z.of_nat (length bs) = d ->
     wp (load_bytes src (Z.to_nat n)) (fun cs k2 =>
       k2 = k1 /\ user_bytes k vs (addr + d) (Z.to_nat n) = Some cs) k1 ->
     c = put bs c0 ->
     wp (cb src d n) (fun _ s => s.2 = k1 /\ exists cs,
       user_bytes k vs (addr + d) (Z.to_nat n) = Some cs /\ s.1 = put (bs ++ cs) c0) (c, k1)) ->
  handles_chunk seat nowhere vs addr cb (read_inv put k vs addr c0) len.
Proof.
  intros Hal Hcb d n c k0 k1 g Hd Hn Hdn En Htr [HS (bs & Hbs & Hc)] Ht1 Hb1.
  pose proof (user_bytes_length _ _ _ _ _ Hbs) as Hlen.
  eapply wp_mono; [apply (Hcb _ _ _ _ _ bs); [lia| |done]|].
  - apply (wp_load_chunk k k1 vs (addr + d) n g); try done; try lia.
    + by rewrite <- (proj1 HS).
    + intros h o. rewrite Hb1. apply HS.
  - intros [] [c2 k2] (E & cs & Hcs & Hc2). simpl in *. subst k2.
    split; [apply kdiff_refl|]. split; [done|]. intros k3 _ W3. split.
    + eapply same_user_trans; [exact HS|]. by apply window_same_user.
    + exists (bs ++ cs). split; [|done]. rewrite Z2Nat.inj_add by lia.
      apply user_bytes_app; [done|]. by rewrite Z2Nat.id by lia.
Qed.

Lemma wp_read_item_list vs t a k addr len buf :
  umem_ok seat vs t a k -> 0 <= len -> 0 <= addr -> addr + len < 2 ^ 64 ->
  wp (read_item_list seat 1 t addr (Some len))
     (fun r s' => window nowhere k s'.2 /\
        match user_bytes k vs addr (Z.to_nat len) with
        | Some bs => r = Ok len /\ s'.1 = buf_write 0 bs buf
        | None => r = Err EFAULT
        end) (buf, k).
Proof.
  intros Hum Hlen Haddr Hend. unfold read_item_list.
  eapply wp_mono.
  - apply (wp_process_item_list seat nowhere vs t a addr 1 (Some len) _
      (read_inv (buf_write 0) k vs addr buf) len); try done; try (simpl; lia).
    + apply read_chunk_handles;
        [apply (so_align _ _ (so_seat _ _ _ (um_seat _ _ _ _ _ Hum)))|].
      intros src d n c k1 bs Hd Hw ->. wp_step. apply wp_u_kernel.
      rewrite Z.mul_1_r. eapply wp_mono; [exact Hw|]. intros cs k2 [-> Hcs]. wp_step. simpl.
      split; [done|]. exists cs. split; [done|]. rewrite buf_write_app. f_equal. lia.
    + split; [apply same_user_refl|]. by exists [].
  - intros r [c k'] [W Hr]. split; [done|]. destruct r as [n|e].
    + destruct Hr as (-> & _ & bs & Hbs & Hc). by rewrite Hbs.
    + destruct Hr as (-> & d & Hd & _ & Hnone).
      rewrite (user_bytes_unmapped _ _ _ _ d); [done|lia|].
      by apply (to_unmapped _ _ _ _ (um_task _ _ _ _ _ Hum)).
Qed.
End reading.

(** ** [sys_write] *)

Section writing_out.
Context `{L : Sel4Laws} `{ML : MemoryAddrLaws} (seat : Z).

(** One iteration on a mapped page puts the page's part of the buffer. *)
Lemma sys_write_step vs t a k x cnt p out fuel cap :
  umem_ok seat vs t a k -> 0 <= x -> 0 < cnt -> x + cnt < 2 ^ 64 ->
  t_mapped_page t !! down 4096 x = Some cap ->
  exists n bs k2, n = Z.min (4096 - x mod 4096) cnt /\
    user_bytes k vs x (Z.to_nat n) = Some bs /\ window nowhere k k2 /\
    sys_write_loop seat (S fuel) t x cnt p (out, k) =
    sys_write_loop seat fuel t (x + n) (cnt - n) (wrap64 (p + n)) (out ++ bs, k2).
Proof.
  intros Hum Hx Hcnt Hend Hcap.
  destruct (to_page _ _ _ _ (um_task _ _ _ _ _ Hum) _ _ Hcap) as (_ & _ & _ & _ & g & Hg & Htr).
  pose proof (um_seat _ _ _ _ _ Hum) as Hseat.
  pose proof (so_align _ _ (so_seat _ _ _ Hseat)) as Hal.
  set (n := Z.min (4096 - x mod 4096) cnt).
  destruct (chunk_bounds x cnt n) as (Hn & Hpage & _); [lia|done|].
  assert (wp (with_seat_copy seat cap
      (bs ← u_kernel (load_bytes (seat + x mod 4096) (Z.to_nat n));
       modify (fun s => (s.1 ++ bs, s.2)) ;; lift (va_add x n)))
    (fun y s' => y = x + n /\ window nowhere k s'.2 /\
       exists bs, user_bytes k vs x (Z.to_nat n) = Some bs /\ s'.1 = out ++ bs) (out, k))
    as (y & [out' k2] & E & -> & W & bs & Hbs & Hout).
  { apply (wp_with_seat_copy seat nowhere _ _ a k g); [done|done|].
    intros k1 Ht1 Hb1 _. wp_step. apply wp_u_kernel.
    apply (wp_load_chunk seat k k1 vs x n g); try done; try lia.
    intros bs Hbs. wp_step. wp_step. eapply wp_lift; [apply va_add_ok; lia|].
    simpl. split; [apply kdiff_refl|]. split; [done|]. eauto. }
  simpl in *. subst out'. exists n, bs, k2. split_and!; try done.
  cbn [sys_write_loop]. destruct (Z.gtb_spec cnt 0); [|lia].
  rewrite align_bits_12, Hcap, align_offset_4k_ok by lia.
  unfold PAGE_SIZE_4K. change 0x1000 with 4096. fold n. by rewrite (bind_Ret _ _ _ _ _ E).
Qed.

Lemma sys_write_loop_mapped vs t a fuel : forall k x cnt p out,
  umem_ok seat vs t a k -> 0 <= x -> 0 <= cnt -> x + cnt < 2 ^ 64 ->
  0 <= p -> p + cnt < 2 ^ 64 ->
  (forall i, 0 <= i < cnt -> is_Some (t_mapped_page t !! down 4096 (x + i))) ->
  (1 <= fuel)%nat -> (0 < cnt -> x mod 4096 + cnt <= 4096 * (Z.of_nat fuel - 1)) ->
  wp (sys_write_loop seat fuel t x cnt p)
     (fun n s' => n = p + cnt /\ window nowhere k s'.2 /\
        exists bs, user_bytes k vs x (Z.to_nat cnt) = Some bs /\ s'.1 = out ++ bs) (out, k).
Proof.
  induction fuel as [|fuel IH]; [lia|].
  intros k x cnt p out Hum Hx Hcnt Hend Hp Hpc Hmap _ Hfuel.
  destruct (decide (cnt = 0)) as [->|Hne].
  - simpl. apply wp_ret. split; [lia|]. split; [|exists []; by rewrite app_nil_r].
    split; [apply kdiff_refl|]. split; [done|apply (um_seat _ _ _ _ _ Hum)].
  - destruct (Hmap 0) as [cap Hcap]; [lia|]. rewrite Z.add_0_r in Hcap.
    destruct (sys_write_step vs t a k x cnt p out fuel cap)
      as (n & bs & k2 & En & Hbs & W & E); try done; try lia.
    destruct (chunk_bounds x cnt n) as (Hn & Hpage & Hnext); [lia|done|].
    destruct (Hnext fuel) as [Hf1 Hf2]; [apply Hfuel; lia|].
    destruct (IH k2 (x + n) (cnt - n) (p + n) (out ++ bs))
      as (r & s' & E' & Hr & W' & cs & Hcs & Hs'); try done; try lia.
    + by eapply umem_window.
    + intros i Hi. replace (x + n + i) with (x + (n + i)) by lia. apply Hmap. lia.
    + rewrite wrap64_small in E by (unfold is_u64; lia).
      exists r, s'. rewrite E. split; [done|]. split; [lia|]. split; [by eapply window_trans|].
      exists (bs ++ cs). rewrite app_assoc. split; [|done].
      replace (Z.to_nat cnt) with (Z.to_nat n + Z.to_nat (cnt - n))%nat by lia.
      apply user_bytes_app; [done|]. rewrite Z2Nat.id by lia.
      destruct (window_same_user _ _ W) as [HT HB].
      rewrite <- Hcs. apply mapM_ext. intros y. unfold user_byte. rewrite HT.
      by destruct (translate k vs (down 4096 y)); simpl; rewrite ?HB.
Qed.

Lemma sys_write_loop_unmapped vs t a fuel : forall k x cnt p out i,
  umem_ok seat vs t a k -> 0 <= x -> x + cnt < 2 ^ 64 -> 0 <= i < cnt ->
  t_mapped_page t !! down 4096 (x + i) = None ->
  sys_write_loop seat fuel t x cnt p (out, k) = NoFuel.
Proof.
  induction fuel as [|fuel IH]; [done|]. intros k x cnt p out i Hum Hx Hend Hi Hnone.
  destruct (t_mapped_page t !! down 4096 x) as [cap|] eqn:Hcap.
  - destruct (sys_write_step vs t a k x cnt p out fuel cap)
      as (n & bs & k2 & En & _ & W & ->); try done; try lia.
    destruct (chunk_bounds x cnt n) as (Hn & Hpage & _); [lia|done|].
    assert (n <= i) as Hni.
    { destruct (Z.le_gt_cases n i) as [|Hlt]; [done|].
      replace (down 4096 (x + i)) with (down 4096 x) in Hnone by (unfold down; dlia). congruence. }
    apply (IH _ _ _ _ _ (i - n)); [by eapply umem_window|lia..|].
    by replace (x + n + (i - n)) with (x + i) by lia.
  - cbn [sys_write_loop]. destruct (Z.gtb_spec cnt 0); [|lia].
    rewrite align_bits_12, Hcap. by eapply IH.
Qed.
End writing_out.

(** ** Writing to user memory *)

Section writing.
Context `{L : Sel4Laws} `{ML : MemoryAddrLaws} (seat : Z).

(** No frame is mapped at two pages of the address space. *)
Definition pages_distinct (k : kstate) (vs : VS) : Prop :=
  forall va va' f, translate k vs va = Some f -> translate k vs va' = Some f -> va = va'.

(** User memory after the bytes [bs] were stored at [x0]. *)
Definition user_written (vs : VS) (x0 : Z) (bs : list Z) (k k' : kstate) : Prop :=
  forall x, user_byte k' vs x =
    if decide (x0 <= x < x0 + Z.of_nat (length bs)) then bs !! Z.to_nat (x - x0)
    else user_byte k vs x.

Lemma host_bytes_length mem o n : 0 <= n -> length (host_bytes mem o n) = Z.to_nat n.
Proof. intros Hn. unfold host_bytes. by rewrite length_fmap, length_seqZ. Qed.

Lemma host_bytes_lookup mem o n i :
  0 <= i < n -> host_bytes mem o n !! Z.to_nat i = Some (mem (o + i)).
Proof.
  intros Hi. unfold host_bytes. rewrite list_lookup_fmap, lookup_seqZ_lt by lia.
  simpl. do 2 f_equal. lia.
Qed.

Lemma frame_bytes_lookup k f o n i :
  0 <= i < Z.of_nat n -> frame_bytes k f o n !! Z.to_nat i = Some (fbyte k f (o + i)).
Proof.
  intros Hi. unfold frame_bytes. rewrite list_lookup_fmap, lookup_seqZ_lt by lia.
  simpl. do 2 f_equal. lia.
Qed.

(** What a store through the window means to the user. *)
Lemma window_store B vs x0 g bs k k1 k2 k3 :
  translate k vs (down 4096 x0) = Some g -> pages_distinct k vs ->
  (forall h o, fbyte k1 h o = fbyte k h o) ->
  frame_bytes k2 g (x0 mod 4096) (length bs) = bs ->
  kdiff nowhere1 nowhere (fun h i => h = g /\
    x0 mod 4096 <= i < x0 mod 4096 + Z.of_nat (length bs)) k1 k2 ->
  (forall h o, fbyte k3 h o = fbyte k2 h o) -> window B k k3 ->
  x0 mod 4096 + Z.of_nat (length bs) <= 4096 ->
  user_written vs x0 bs k k3.
Proof.
  intros Ht Hdist Hb1 Hbs D Hb3 (DW & _) Hfit x. unfold user_byte.
  rewrite (kd_trans _ _ _ _ _ DW) by by intros [].
  destruct (decide (x0 <= x < x0 + Z.of_nat (length bs))) as [Hin|Hout].
  - assert (down 4096 x = down 4096 x0 /\ x mod 4096 = x0 mod 4096 + (x - x0)) as [-> ->]
      by (unfold down; dlia).
    rewrite Ht. simpl. rewrite Hb3, <- Hbs at 1. by rewrite frame_bytes_lookup by lia.
  - destruct (translate k vs (down 4096 x)) as [h|] eqn:Eh; [|done]. simpl. f_equal.
    rewrite Hb3, (kd_bytes _ _ _ _ _ D); [done|]. intros [-> Hi].
    pose proof (Hdist _ _ _ Eh Ht). apply Hout. unfold down in *. dlia.
Qed.

Lemma user_written_nil vs x0 k : user_written vs x0 [] k k.
Proof. intros x. rewrite decide_False; [done|]. simpl. lia. Qed.

Lemma user_written_app vs x0 bs cs k k1 k2 :
  user_written vs x0 bs k k1 ->
  user_written vs (x0 + Z.of_nat (length bs)) cs k1 k2 ->
  user_written vs x0 (bs ++ cs) k k2.
Proof.
  intros H1 H2 x. rewrite H2, H1, length_app.
  repeat case_decide; try lia; try done.
  - rewrite lookup_app_r by lia. f_equal. lia.
  - rewrite lookup_app_l by lia. done.
Qed.

Lemma host_bytes_app mem o n m :
  0 <= n -> 0 <= m -> host_bytes mem o (n + m) = host_bytes mem o n ++ host_bytes mem (o + n) m.
Proof. intros Hn Hm. unfold host_bytes. by rewrite seqZ_app, fmap_app by lia. Qed.

Definition anything : Frame -> Z -> Prop := fun _ _ => True.

Definition write_inv (k : kstate) (vs : VS) (addr : Z) (mem : Z -> Z)
    (d : Z) (_ : unit) (k' : kstate) : Prop :=
  window anything k k' /\ user_written vs addr (host_bytes mem 0 d) k k'.

Lemma write_chunk_handles k vs addr len mem :
  page_aligned seat -> pages_distinct k vs ->
  handles_chunk seat anything vs addr
    (fun dst offset copy_len =>
       u_kernel (store_bytes dst (host_bytes mem (offset * 1) (copy_len * 1))))
    (write_inv k vs addr mem) len.
Proof.
  intros Hal Hdist d n [] k0 k1 g Hd Hn Hdn En Htr [W HU] Ht1 Hb1.
  rewrite !Z.mul_1_r. apply wp_u_kernel.
  apply (wp_store_bytes k1 g); rewrite ?host_bytes_length by lia; try done;
    try (pose proof (Z.mod_pos_bound (addr + d) 4096); lia).
  intros k2 Hbs HS D. simpl.
  split; [eapply kdiff_weaken, D; done|]. split; [done|]. intros k3 Hb3 W3.
  split; [by eapply window_trans|]. rewrite host_bytes_app, Z.add_0_l by lia.
  eapply user_written_app; [exact HU|]. rewrite host_bytes_length, Z2Nat.id by lia.
  eapply (window_store _ _ _ g _ _ k1 k2); rewrite ?host_bytes_length by lia; try done.
  - intros va va' f. destruct W as (DW & _).
    rewrite !(kd_trans _ _ _ _ _ DW) by by intros []. apply Hdist.
  - lia.
Qed.

Lemma wp_write_item_list vs t a k addr len mem :
  umem_ok seat vs t a k -> pages_distinct k vs ->
  0 <= len -> 0 <= addr -> addr + len < 2 ^ 64 ->
  wp (write_item_list seat 1 t addr (Some len) mem)
     (fun r k' => window anything k k' /\ exists d, 0 <= d <= len /\
        user_written vs addr (host_bytes mem 0 d) k k' /\
        match r with
        | Ok n => n = len /\ d = len
        | Err e => e = EFAULT /\ d < len /\ t_mapped_page t !! down 4096 (addr + d) = None
        end) k.
Proof.
  intros Hum Hdist Hlen Haddr Hend. unfold write_item_list, no_state.
  destruct (wp_process_item_list seat anything vs t a addr 1 (Some len)
    (fun dst offset copy_len =>
       u_kernel (store_bytes dst (host_bytes mem (offset * 1) (copy_len * 1))))
    (write_inv k vs addr mem) len tt k)
    as (r & [[] k'] & E & W & Hr); try done; try (simpl; lia).
  - apply write_chunk_handles; [|done].
    apply (so_align _ _ (so_seat _ _ _ (um_seat _ _ _ _ _ Hum))).
  - split; [|apply user_written_nil]. split; [apply kdiff_refl|]. split; [done|].
    apply (um_seat _ _ _ _ _ Hum).
  - exists r, k'. rewrite E. split; [done|]. split; [done|]. destruct r as [n|e].
    + destruct Hr as (-> & _ & HU). exists len. eauto with lia.
    + destruct Hr as (-> & d & Hd & [_ HU] & Hnone). exists d. eauto with lia.
Qed.

(** The callback of [write_item] stores [size] items instead of one. *)
Lemma wp_write_item vs t a k addr size mem :
  umem_ok seat vs t a k -> pages_distinct k vs ->
  0 < size -> 0 <= addr -> addr mod 4096 + size * size <= 4096 -> addr + size < 2 ^ 64 ->
  is_Some (t_mapped_page t !! down 4096 addr) ->
  wp (write_item seat size t addr mem)
     (fun r k' => r = Ok size /\ window anything k k' /\
        user_written vs addr (host_bytes mem 0 (size * size)) k k') k.
Proof.
  intros Hum Hdist Hsize Haddr Hfit Hend [cap Hcap]. unfold write_item, no_state.
  pose proof (Z.mod_pos_bound addr 4096 ltac:(lia)) as Hm.
  pose proof (so_align _ _ (so_seat _ _ _ (um_seat _ _ _ _ _ Hum))) as Hal.
  destruct (wp_process_item_list seat anything vs t a addr size None
    (fun dst _ copy_len => u_kernel (store_bytes dst (host_bytes mem 0 (copy_len * size))))
    (fun d _ k' => d = 0 /\ k' = k \/
       d = size /\ user_written vs addr (host_bytes mem 0 (size * size)) k k') size tt k)
    as (r & [[] k'] & E & W & Hr); try done; try (simpl; nia); [|by left|].
  - intros d n [] k0 k1 g Hd Hn Hdn En Htr HI Ht1 Hb1.
    destruct HI as [[-> ->]|[-> _]]; [|lia]. rewrite Z.add_0_r, Z.sub_0_r in *.
    assert (n = size) as -> by nia. apply wp_u_kernel.
    apply (wp_store_bytes k1 g); rewrite ?host_bytes_length by nia; try done; try nia.
    intros k2 Hbs HS D. simpl. split; [eapply kdiff_weaken, D; done|]. split; [done|].
    intros k3 Hb3 W3. right. split; [done|].
    eapply (window_store _ _ _ g _ _ k1 k2); rewrite ?host_bytes_length by nia; try done. nia.
  - exists r, k'. rewrite E. split; [done|]. destruct r as [n|e].
    + destruct Hr as (-> & [[? _]|[_ HU]]); [lia|done].
    + destruct Hr as (_ & d & Hd & [[-> _]|[-> _]] & Hnone); [|lia].
      rewrite Z.add_0_r in Hnone. congruence.
Qed.
End writing.

(** ** Properties of the user-memory routines *)

Lemma buf_write_lookup_lt bs : forall o buf i,
  i < o -> buf_write o bs buf !! i = buf !! i.
Proof.
  induction bs as [|b bs IH]; intros o buf i Hi; simpl; [done|].
  rewrite IH by lia. by rewrite lookup_insert_ne by lia.
Qed.

Lemma buf_write_lookup bs : forall o buf i b,
  bs !! i = Some b -> buf_write o bs buf !! (o + Z.of_nat i) = Some b.
Proof.
  induction bs as [|b' bs IH]; intros o buf [|i] b Hb; simplify_eq/=.
  - rewrite Z.add_0_r, buf_write_lookup_lt by lia. apply lookup_insert_eq.
  - replace (o + Z.of_nat (S i)) with (o + 1 + Z.of_nat i) by lia. by apply IH.
Qed.

(** The range lies in mapped pages. *)
Definition range_mapped (t : Sel4Task) (addr len : Z) : Prop :=
  forall i, 0 <= i < len -> is_Some (t_mapped_page t !! down 4096 (addr + i)).

(** [read_item] computes a function of user memory: [EINVAL] for an item
    that crosses a page boundary, [EFAULT] when its page is not mapped, and
    otherwise exactly the [size] bytes the user sees at [addr].  It always
    returns, and leaves every translation, every frame and every capability but
    the scratch slot 0 as they were. *)
Theorem read_item_functional `{L : Sel4Laws} `{ML : MemoryAddrLaws} (seat : Z) (vs : VS)
    (t : Sel4Task) (a : ObjectAllocator) (k : kstate) (addr size : Z)
    (Hok : umem_ok seat vs t a k) (Hsize : 0 <= size) (Haddr : 0 <= addr)
    (Hend : addr + size < 2 ^ 64) :
  wp (read_item seat size t addr)
     (fun r k' => r = read_item_spec k vs addr size /\ same_user k k' /\
        umem_ok seat vs t a k') k.
Proof.
  eapply wp_mono; [by apply (wp_read_item seat vs t a)|].
  intros r k' [-> W]. split_and!; [done|by apply window_same_user|by eapply umem_window].
Qed.

(** C12: bytes written with [write_item_list] to a mapped range, over any number
    of pages, are what [read_item_list] then reads back from it, and no byte
    outside the range has changed. *)
Theorem user_copy_roundtrip `{L : Sel4Laws} `{ML : MemoryAddrLaws} (seat : Z) (vs : VS)
    (t : Sel4Task) (a : ObjectAllocator) (k : kstate) (addr len : Z) (mem : Z -> Z)
    (buf : gmap Z Z)
    (Hok : umem_ok seat vs t a k) (Hdist : pages_distinct k vs)
    (Hlen : 0 <= len) (Haddr : 0 <= addr) (Hend : addr + len < 2 ^ 64)
    (Hmap : range_mapped t addr len) :
  wp (write_item_list seat 1 t addr (Some len) mem)
     (fun r k1 => r = Ok len /\
        (forall x, ~ (addr <= x < addr + len) -> user_byte k1 vs x = user_byte k vs x) /\
        wp (read_item_list seat 1 t addr (Some len))
           (fun r s' => r = Ok len /\ forall i, 0 <= i < len -> s'.1 !! i = Some (mem i))
           (buf, k1)) k.
Proof.
  eapply wp_mono; [by apply (wp_write_item_list seat vs t a)|].
  intros r k1 (W & d & Hd & HU & Hr). destruct r as [n|e].
  2:{ destruct Hr as (_ & Hlt & Hnone). destruct (Hmap d) as [c Hc]; [lia|]. congruence. }
  destruct Hr as [-> ->]. split; [done|].
  assert (user_bytes k1 vs addr (Z.to_nat len) = Some (host_bytes mem 0 len)) as Hub.
  { apply mapM_Some, Forall2_same_length_lookup_2.
    - rewrite length_seqZ, host_bytes_length; lia.
    - intros i y b Hy Hb. apply lookup_seqZ in Hy as [-> Hi]. rewrite HU, decide_True.
      + rewrite <- Hb. f_equal. lia.
      + rewrite host_bytes_length by lia. lia. }
  split.
  - intros x Hx. rewrite HU, decide_False; [done|]. rewrite host_bytes_length; lia.
  - eapply wp_mono; [apply (wp_read_item_list seat vs t a); try done; by eapply umem_window|].
    intros r [buf' k2] [_ Hr]. rewrite Hub in Hr. destruct Hr as [-> ->].
    split; [done|]. intros i Hi. rewrite <- (Z2Nat.id i) at 1 by lia.
    apply (buf_write_lookup _ 0). by rewrite host_bytes_lookup by lia.
Qed.

(** [write_item] copies [copy_len] items, not [copy_len] bytes: writing one
    item of [size] bytes replaces [size * size] bytes of the user's page, the
    first [size] with the item and the rest with whatever follows the item in
    the kernel thread's own memory. *)
Theorem write_item_overruns `{L : Sel4Laws} `{ML : MemoryAddrLaws} (seat : Z) (vs : VS)
    (t : Sel4Task) (a : ObjectAllocator) (k : kstate) (addr size : Z) (mem : Z -> Z)
    (Hok : umem_ok seat vs t a k) (Hdist : pages_distinct k vs) (Hsize : 0 < size)
    (Haddr : 0 <= addr) (Hfit : addr mod 4096 + size * size <= 4096)
    (Hend : addr + size < 2 ^ 64) (Hmap : is_Some (t_mapped_page t !! down 4096 addr)) :
  wp (write_item seat size t addr mem)
     (fun r k' => r = Ok size /\
        forall x, addr <= x < addr + size * size -> user_byte k' vs x = Some (mem (x - addr))) k.
Proof.
  eapply wp_mono; [by apply (wp_write_item seat vs t a)|].
  intros r k' (-> & _ & HU). split; [done|]. intros x Hx.
  rewrite HU, host_bytes_length, decide_True by nia.
  rewrite host_bytes_lookup by lia. done.
Qed.

(** [sys_write] of a mapped buffer, with any sufficient fuel. *)
Lemma wp_task_write `{L : Sel4Laws} `{ML : MemoryAddrLaws} seat vs t a k fuel fd buf count out :
  fd = STDOUT_FD \/ fd = STDERR_FD -> umem_ok seat vs t a k ->
  0 <= count < 2 ^ 64 -> 0 <= buf -> buf + count < 2 ^ 64 -> range_mapped t buf count ->
  (process_fuel count <= fuel)%nat ->
  wp (task_write seat fuel t fd buf count)
     (fun r s' => r = Ok count /\ window nowhere k s'.2 /\
        exists bs, user_bytes k vs buf (Z.to_nat count) = Some bs /\ s'.1 = out ++ bs)
     (out, k).
Proof.
  intros Hfd Hok Hcount Hbuf Hend Hmap Hfuel. unfold task_write.
  replace (negb (fd =? STDOUT_FD) && negb (fd =? STDERR_FD)) with false
    by by destruct Hfd as [->| ->].
  assert (count / 4096 + 3 <= Z.of_nat fuel) as Hf.
  { unfold process_fuel, PAGE_SIZE_4K in Hfuel. change 0x1000 with 4096 in Hfuel.
    pose proof (Z.div_pos count 4096). lia. }
  pose proof (Z.div_pos count 4096).
  wp_step. eapply wp_mono; [apply (sys_write_loop_mapped seat vs t a); try done; try lia; intros _; dlia|].
  intros n s' (-> & W & bs & Hbs & Hs'). apply wp_ret. split; [done|]. split; [done|eauto].
Qed.

(** On a buffer in mapped pages, [sys_write] to standard output or standard
    error terminates, puts exactly the user's bytes on the console in order,
    and returns their number. *)
Theorem sys_write_prints `{L : Sel4Laws} `{ML : MemoryAddrLaws} (seat : Z) (vs : VS)
    (t : Sel4Task) (a : ObjectAllocator) (k : kstate) (fd buf count : Z) (out : list Z)
    (Hfd : fd = STDOUT_FD \/ fd = STDERR_FD) (Hok : umem_ok seat vs t a k)
    (Hcount : 0 <= count < 2 ^ 64) (Hbuf : 0 <= buf) (Hend : buf + count < 2 ^ 64)
    (Hmap : range_mapped t buf count) :
  wp (task_write seat (process_fuel count) t fd buf count)
     (fun r s' => r = Ok count /\ same_user k s'.2 /\
        exists bs, user_bytes k vs buf (Z.to_nat count) = Some bs /\ s'.1 = out ++ bs)
     (out, k).
Proof.
  eapply wp_mono; [by apply (wp_task_write seat vs t a)|].
  intros r s' (-> & W & Hbs). split; [done|]. split; [by apply window_same_user|done].
Qed.

(** A buffer with an unmapped page makes [sys_write] loop forever, where
    [process_item_list] reports [EFAULT]: no amount of fuel is enough. *)
Theorem sys_write_unmapped_diverges `{L : Sel4Laws} `{ML : MemoryAddrLaws} (seat : Z) (vs : VS)
    (t : Sel4Task) (a : ObjectAllocator) (k : kstate) (buf count i : Z) (out : list Z)
    (Hok : umem_ok seat vs t a k) (Hbuf : 0 <= buf) (Hend : buf + count < 2 ^ 64)
    (Hi : 0 <= i < count) (Hnone : t_mapped_page t !! down 4096 (buf + i) = None) :
  forall fuel, task_write seat fuel t STDOUT_FD buf count (out, k) = NoFuel.
Proof.
  intros fuel. unfold task_write, mbind, M_bind. simpl.
  by rewrite (sys_write_loop_unmapped seat vs t a fuel k buf count 0 out i).
Qed.

(** *** Witnesses *)

Lemma ref_umem_ok n s e u :
  50 <= s ->
  @umem_ok ref_sel4 ref_view 0x7000 5 ref_user_task (MkAllocator s e u) (ref_user n).
Proof.
  intros Hs. split; [by apply ref_user_task_ok| |vm_compute; discriminate].
  split; [split| | |]; try (vm_compute; reflexivity); try (unfold alloc_range; simpl; lia).
Qed.

Lemma ref_pages_distinct n : @pages_distinct ref_sel4 ref_view (ref_user n) 5.
Proof.
  intros va va' f. cbn. intros [[= <-] _]%lookup_singleton_Some [[= <-] _]%lookup_singleton_Some.
  done.
Qed.

Lemma read_item_functional_witness :
  exists k', @read_item ref_sel4 ref_memory_addr 0x7000 2 ref_user_task 0x5000 (ref_user 0) =
    Ret (Ok [104; 105], k').
Proof.
  destruct (@read_item_functional ref_sel4 ref_view ref_laws ref_memory_addr
              ref_memory_addr_laws 0x7000 5 ref_user_task (MkAllocator 50 1024 26) (ref_user 0)
              0x5000 2) as (r & k' & E & Hr & _).
  - by apply ref_umem_ok.
  - lia.
  - lia.
  - lia.
  - exists k'. rewrite E. subst r. reflexivity.
Defined.

Lemma user_copy_roundtrip_witness :
  exists k1, @write_item_list ref_sel4 ref_memory_addr 0x7000 1 ref_user_task 0x5ffd (Some 3)
      (fun i => 65 + i) (ref_user 0) = Ret (Ok 3, k1) /\
    exists s', @read_item_list ref_sel4 ref_memory_addr 0x7000 1 ref_user_task 0x5ffd (Some 3)
      (∅, k1) = Ret (Ok 3, s') /\ s'.1 !! 2 = Some 67.
Proof.
  destruct (@user_copy_roundtrip ref_sel4 ref_view ref_laws ref_memory_addr
              ref_memory_addr_laws 0x7000 5 ref_user_task (MkAllocator 50 1024 26) (ref_user 0)
              0x5ffd 3 (fun i => 65 + i) ∅) as (r & k1 & E & -> & _ & r2 & s' & E2 & -> & Hs).
  - by apply ref_umem_ok.
  - apply ref_pages_distinct.
  - lia.
  - lia.
  - lia.
  - intros i Hi. assert (i = 0 \/ i = 1 \/ i = 2) as [->|[->| ->]] by lia; by eexists.
  - exists k1. split; [exact E|]. exists s'. split; [exact E2|]. rewrite (Hs 2 ltac:(lia)). reflexivity.
Defined.

(** A 16-byte socket address overwrites 256 bytes. *)
Lemma write_item_overruns_witness :
  exists k', @write_item ref_sel4 ref_memory_addr 0x7000 16 ref_user_task 0x5000
      (fun i => i) (ref_user 0) = Ret (Ok 16, k') /\
    @user_byte ref_sel4 ref_view k' 5 0x50ff = Some 255.
Proof.
  destruct (@write_item_overruns ref_sel4 ref_view ref_laws ref_memory_addr
              ref_memory_addr_laws 0x7000 5 ref_user_task (MkAllocator 50 1024 26) (ref_user 0)
              0x5000 16 (fun i => i)) as (r & k' & E & -> & Hb).
  - by apply ref_umem_ok.
  - apply ref_pages_distinct.
  - lia.
  - lia.
  - vm_compute. discriminate.
  - lia.
  - by eexists.
  - exists k'. split; [exact E|]. rewrite (Hb 0x50ff ltac:(lia)). reflexivity.
Defined.

Lemma sys_write_prints_witness :
  exists s', @task_write ref_sel4 ref_memory_addr 0x7000 (process_fuel 2) ref_user_task
      STDOUT_FD 0x5000 2 ([42], ref_user 0) = Ret (Ok 2, s') /\ s'.1 = [42; 104; 105].
Proof.
  destruct (@sys_write_prints ref_sel4 ref_view ref_laws ref_memory_addr
              ref_memory_addr_laws 0x7000 5 ref_user_task (MkAllocator 50 1024 26) (ref_user 0)
              STDOUT_FD 0x5000 2 [42]) as (r & s' & E & -> & _ & bs & Hbs & Hs).
  - by left.
  - by apply ref_umem_ok.
  - lia.
  - lia.
  - lia.
  - intros i Hi. assert (i = 0 \/ i = 1) as [->| ->] by lia; by eexists.
  - exists s'. split; [exact E|]. rewrite Hs. vm_compute in Hbs. by injection Hbs as <-.
Defined.

Lemma sys_write_unmapped_diverges_witness :
  t_mapped_page ref_user_task !! 0x6000 = None /\
  forall fuel, @task_write ref_sel4 ref_memory_addr 0x7000 fuel ref_user_task
      STDOUT_FD 0x6000 1 ([], ref_user 0) = NoFuel.
Proof.
  split; [reflexivity|].
  apply (@sys_write_unmapped_diverges ref_sel4 ref_view ref_laws ref_memory_addr
              ref_memory_addr_laws 0x7000 5 ref_user_task (MkAllocator 50 1024 26) (ref_user 0)
              0x6000 1 0 []).
  - by apply ref_umem_ok.
  - lia.
  - lia.
  - lia.
  - reflexivity.
Defined.
