(* ===== verification/Exec.v ===== *)
(** * Program images of tasks ([crates/kernel-thread/src/task.rs])

    [map_stack] builds the initial stack with arguments and auxiliary vector,
    [load_elf] copies the loadable segments.  Both fill a page through the page
    seat before mapping it into the task. *)

From S2P Require Import Prelude Words Consts Sel4 Sel4Laws RefKernel Externs Reference ObjAllocator KTask FrameMem UserMem.

(** ** The auxiliary vector *)

Inductive AuxV :=
  | AuxNULL | IGNORE | EXECFD | PHDR | PHENT | PHNUM | PAGESZ | BASE | FLAGS
  | ENTRY | NOTELF | UID | EUID | GID | EGID | PLATFORM | HWCAP | CLKTCK
  | DCACHEBSIZE | SECURE | BASE_PLATFORM | RANDOM | HWCAP2 | EXECFN.

(** [key as usize]; the derived order is the order of these numbers. *)
Definition auxv_key (x : AuxV) : Z :=
  match x with
  | AuxNULL => 0 | IGNORE => 1 | EXECFD => 2 | PHDR => 3 | PHENT => 4 | PHNUM => 5
  | PAGESZ => 6 | BASE => 7 | FLAGS => 8 | ENTRY => 9 | NOTELF => 10 | UID => 11
  | EUID => 12 | GID => 13 | EGID => 14 | PLATFORM => 15 | HWCAP => 16 | CLKTCK => 17
  | DCACHEBSIZE => 19 | SECURE => 23 | BASE_PLATFORM => 24 | RANDOM => 25
  | HWCAP2 => 26 | EXECFN => 31
  end.

(** The map that [map_stack] fills, by key. *)
Definition stack_auxv (execfn entry_point : Z) : gmap Z Z :=
  <[auxv_key AuxNULL := 0]> (<[auxv_key EUID := 0]> (<[auxv_key UID := 0]>
  (<[auxv_key EGID := 0]> (<[auxv_key GID := 0]> (<[auxv_key ENTRY := entry_point]>
  (<[auxv_key PAGESZ := PAGE_SIZE]> {[auxv_key EXECFN := execfn]})))))).

(** ** Model *)

(** The program headers the ELF parser yields. *)
Record ProgramHeader := MkPh {
  ph_load : bool;
  ph_offset : Z;
  ph_vaddr : Z;
  ph_file_size : Z;
  ph_mem_size : Z;
}.

Section exec.
Context `{K : Sel4} (seat : Z).

(** The strings, pushed one below the other at 16-byte boundaries. *)
Fixpoint copy_args (args : list (list Z)) (stack_ptr : Z) : M kstate (list Z * Z) :=
  match args with
  | [] => mret ([], stack_ptr)
  | arg :: args =>
      let stack_ptr :=
        wrap64 (stack_ptr - Z.of_nat (length arg) - 1) / STACK_ALIGN_SIZE * STACK_ALIGN_SIZE in
      store_bytes (wrap64 (seat + stack_ptr mod PAGE_SIZE)) arg ;;
      r ← copy_args args stack_ptr;
      mret (stack_ptr :: r.1, r.2)
  end.

Definition push_num (stack_ptr num : Z) : M kstate Z :=
  let stack_ptr := wrap64 (stack_ptr - USIZE_BYTES) in
  store_bytes (wrap64 (seat + stack_ptr mod PAGE_SIZE)) (to_le_bytes 8 num) ;;
  mret stack_ptr.

Fixpoint push_all (nums : list Z) (stack_ptr : Z) : M kstate Z :=
  match nums with
  | [] => mret stack_ptr
  | num :: nums => sp ← push_num stack_ptr num; push_all nums sp
  end.

(** Everything that is written to the top page of the stack. *)
Definition write_stack (entry_point : Z) (args : list (list Z)) (stack_ptr : Z) : M kstate Z :=
  r ← copy_args args stack_ptr;
  let '(args_ptr, sp) := r in
  execfn ← lift (index args_ptr 0);
  let auxv := stack_auxv execfn entry_point in
  sp ← push_all (btree_iter auxv ≫= fun e => [e.2; e.1]) sp;
  sp ← push_num sp 0;
  sp ← push_num sp 0;
  sp ← push_all (rev args_ptr) sp;
  push_num sp (Z.of_nat (length args_ptr)).

Fixpoint map_stack_loop (pages : list Z) (end_ entry_point : Z) (args : list (list Z))
    (stack_ptr : Z) : M TK Z :=
  match pages with
  | [] => mret stack_ptr
  | vaddr :: pages =>
      page_cap ← t_alloc (allocate_and_retyped_fixed_sized BpGranule);
      sp ← (if vaddr =? wrap64 (end_ - PAGE_SIZE) then
              t_kernel (
                kcall_unwrap (frame_map page_cap SLOT_VSPACE seat rights_all) ;;
                sp ← write_stack entry_point args stack_ptr;
                kcall_unwrap (frame_unmap page_cap) ;;
                mret sp)
            else mret stack_ptr);
      map_page vaddr page_cap ;;
      map_stack_loop pages end_ entry_point args sp
  end.

Definition map_stack (entry_point start end_ : Z) (args : list (list Z)) : M TK Z :=
  assert (end_ mod 0x1000 =? 0) ;;
  assert (start mod 0x1000 =? 0) ;;
  map_stack_loop (step_range PAGE_SIZE start end_) end_ entry_point args end_.

(** The [while vaddr < vaddr_end] loop of [load_elf] for one segment; [elf]
    is the memory of the file's data, [local] the local page map. *)
Fixpoint load_segment_loop (fuel : nat) (elf : Z -> Z) (end_ vaddr_end offset vaddr : Z)
    (local : gmap Z CPtr) : M TK (gmap Z CPtr) :=
  match fuel with
  | O => out_of_fuel
  | S fuel =>
      if vaddr <? vaddr_end then
        let page := vaddr / PAGE_SIZE * PAGE_SIZE in
        page_cap ← (match local !! page with
                    | Some page_cap =>
                        t_kernel (kcall_unwrap (frame_unmap page_cap)) ;; mret page_cap
                    | None => t_alloc (allocate_and_retyped_fixed_sized BpGranule)
                    end);
        offset' ← (if offset <? end_ then
            let rsize := Z.min (PAGE_SIZE - vaddr mod PAGE_SIZE) (end_ - offset) in
            t_kernel (
              kcall_unwrap (frame_map page_cap SLOT_VSPACE seat rights_all) ;;
              store_bytes (wrap64 (seat + offset mod PAGE_SIZE)) (host_bytes elf offset rsize) ;;
              kcall_unwrap (frame_unmap page_cap)) ;;
            mret (wrap64 (offset + rsize))
          else mret offset);
        map_page page page_cap ;;
        load_segment_loop fuel elf end_ vaddr_end offset'
          (wrap64 (vaddr + (PAGE_SIZE - vaddr mod PAGE_SIZE)))
          (<[page := page_cap]> (delete page local))
      else mret local
  end.

Definition load_segment (elf : Z -> Z) (ph : ProgramHeader) (local : gmap Z CPtr) :
    M TK (gmap Z CPtr) :=
  let vaddr_end := wrap64 (ph_vaddr ph + ph_mem_size ph) in
  load_segment_loop (Z.to_nat ((vaddr_end - ph_vaddr ph) / PAGE_SIZE + 3)) elf
    (wrap64 (ph_offset ph + ph_file_size ph)) vaddr_end (ph_offset ph) (ph_vaddr ph) local.

Fixpoint load_segments (elf : Z -> Z) (phs : list ProgramHeader) (local : gmap Z CPtr) :
    M TK unit :=
  match phs with
  | [] => mret tt
  | ph :: phs => local' ← load_segment elf ph local; load_segments elf phs local'
  end.

(** [parsed] is the result of [ElfFile::new]. *)
Definition load_elf (elf : Z -> Z) (parsed : option (list ProgramHeader)) : M TK unit :=
  phs ← unwrap parsed;
  load_segments elf (filter (fun ph => ph_load ph = true) phs) ∅.
End exec.

(** ** The layout of the initial stack *)

(** Offsets of the strings in the top page, the offset of the lowest one, and
    the bytes from there to the end of the page. *)
Fixpoint args_layout (args : list (list Z)) (o : Z) (img : list Z) : list Z * Z * list Z :=
  match args with
  | [] => ([], o, img)
  | arg :: args =>
      let o' := (o - Z.of_nat (length arg) - 1) / 16 * 16 in
      let r := args_layout args o'
                 (arg ++ replicate (Z.to_nat (o - o' - Z.of_nat (length arg))) 0 ++ img) in
      (o' :: r.1.1, r.1.2, r.2)
  end.

Definition word_bytes (ws : list Z) : list Z := ws ≫= to_le_bytes 8.

(** The words above the strings, from the stack pointer upwards: the argument
    count, the argument pointers, the empty environment, and the auxiliary
    vector with its end marker last. *)
Definition stack_words (entry_point : Z) (ptrs : list Z) : list Z :=
  Z.of_nat (length ptrs) :: ptrs ++ [0; 0] ++
  [31; default 0 (head ptrs); 14; 0; 13; 0; 12; 0; 11; 0; 9; entry_point; 6; 4096; 0; 0].

Lemma stack_auxv_iter execfn entry_point :
  btree_iter (stack_auxv execfn entry_point) =
  [(0, 0); (6, 4096); (9, entry_point); (11, 0); (12, 0); (13, 0); (14, 0); (31, execfn)].
Proof. reflexivity. Qed.

Lemma args_layout_le args : forall o img, (args_layout args o img).1.2 <= o.
Proof.
  induction args as [|arg args IH]; intros o img; simpl; [lia|].
  etransitivity; [apply IH|].
  pose proof (Z.mul_div_le (o - Z.of_nat (length arg) - 1) 16). lia.
Qed.

Lemma args_layout_length args : forall o img, length (args_layout args o img).1.1 = length args.
Proof. induction args as [|arg args IH]; intros o img; simpl; [done|]. by rewrite IH. Qed.

Section stack_layout.
Context `{L : Sel4Laws} (seat : Z).

(** The page is zero up to offset [o] and [img] from there on. *)
Record page_is (k : kstate) (f : Frame) (o : Z) (img : list Z) : Prop := {
  pi_low : 0 <= o;
  pi_end : o + Z.of_nat (length img) = 4096;
  pi_zero i : 0 <= i < o -> fbyte k f i = 0;
  pi_img : frame_bytes k f o (length img) = img;
}.

(** Only bytes of [f] have changed. *)
Definition filled (f : Frame) (k k' : kstate) : Prop :=
  same_alloc k k' /\ kdiff nowhere1 nowhere (fun g _ => g = f) k k'.

Lemma filled_refl f k : filled f k k.
Proof. split; [done|apply kdiff_refl]. Qed.

Lemma filled_trans f k1 k2 k3 : filled f k1 k2 -> filled f k2 k3 -> filled f k1 k3.
Proof.
  intros [A1 D1] [A2 D2]. split; [by eapply same_alloc_trans|by eapply kdiff_trans].
Qed.

Lemma filled_translate f k k' vs va : filled f k k' -> translate k' vs va = translate k vs va.
Proof. intros [_ D]. apply (kd_trans _ _ _ _ _ D). by intros []. Qed.

Lemma zero_bytes k f o n :
  (forall i, o <= i < o + Z.of_nat n -> fbyte k f i = 0) -> frame_bytes k f o n = replicate n 0.
Proof.
  revert o. induction n as [|n IH]; intros o Hz; [done|].
  rewrite frame_bytes_S. simpl. rewrite Hz, IH; [done|intros; apply Hz; lia|lia].
Qed.

(** A store below what is written already. *)
Lemma wp_store_page k f o img o' bs :
  page_aligned seat -> 0 <= seat < 2 ^ 48 -> translate k own_vs seat = Some f ->
  page_is k f o img -> 0 <= o' -> o' + Z.of_nat (length bs) <= o -> o' < 4096 ->
  wp (store_bytes (wrap64 (seat + o')) bs) (fun _ k' => filled f k k' /\
    page_is k' f o' (bs ++ replicate (Z.to_nat (o - o' - Z.of_nat (length bs))) 0 ++ img)) k.
Proof.
  intros Hal Hs Ht [P1 P2 P3 P4] Ho' Hle Hlt.
  rewrite wrap64_small by (unfold is_u64; lia).
  apply (wp_store_bytes k f); try done; [lia|]. intros k' Hbs HS D.
  split; [split; [done|eapply kdiff_weaken, D; naive_solver]|].
  assert (forall i, i < o' \/ o' + Z.of_nat (length bs) <= i -> fbyte k' f i = fbyte k f i) as HK.
  { intros i Hi. apply (kd_bytes _ _ _ _ _ D). intros [_ ?]. lia. }
  split.
  - done.
  - rewrite !length_app, length_replicate. lia.
  - intros i Hi. rewrite HK by lia. apply P3. lia.
  - rewrite !length_app, length_replicate, !frame_bytes_app, Hbs. f_equal. f_equal.
    + apply zero_bytes. intros i Hi. rewrite HK by lia. apply P3. lia.
    + rewrite <- P4 at 2. rewrite (frame_bytes_ext k) by (intros; apply HK; lia).
      f_equal. lia.
Qed.

Context (Hal : page_aligned seat) (Hseat : 0 <= seat < 2 ^ 48).
Context (base : Z) (Hbase : base mod 4096 = 0) (Hb : 0 <= base) (Hb' : base + 4096 < 2 ^ 64).

Lemma wp_copy_args f args : forall k o img,
  translate k own_vs seat = Some f -> page_is k f o img ->
  0 <= (args_layout args o img).1.2 ->
  wp (copy_args seat args (base + o)) (fun r k' => filled f k k' /\
    let lay := args_layout args o img in
    r = ((fun p => base + p) <$> lay.1.1, base + lay.1.2) /\ page_is k' f lay.1.2 lay.2) k.
Proof.
  induction args as [|arg args IH]; intros k o img Ht HP Hlow; cbn [copy_args args_layout].
  - apply wp_ret. split; [apply filled_refl|done].
  - cbn [args_layout] in Hlow. simpl in Hlow.
    set (n := Z.of_nat (length arg)) in *. set (o' := (o - n - 1) / 16 * 16) in *.
    pose proof (args_layout_le args o' (arg ++ replicate (Z.to_nat (o - o' - n)) 0 ++ img)) as Hle.
    pose proof (pi_low _ _ _ _ HP). pose proof (pi_end _ _ _ _ HP).
    assert (o' <= o - n - 1) as Ho' by (unfold o'; dlia).
    assert (0 <= o') as Ho0 by lia.
    replace (wrap64 (base + o - n - 1) / STACK_ALIGN_SIZE * STACK_ALIGN_SIZE) with (base + o').
    2:{ unfold STACK_ALIGN_SIZE. rewrite wrap64_small by (unfold is_u64; lia). unfold o'. dlia. }
    replace ((base + o') mod PAGE_SIZE) with o' by (rewrite PAGE_SIZE_eq; dlia).
    wp_step. eapply wp_mono; [apply (wp_store_page k f o img o' arg); try done; lia|].
    intros [] k1 [F1 P1]. fold n in P1. wp_step.
    eapply wp_mono; [apply (IH k1); [by rewrite (filled_translate _ _ _ _ _ F1)|exact P1|done]|].
    intros [ps sp] k2 (F2 & E & P2). injection E as -> ->. apply wp_ret.
    split; [by eapply filled_trans|done].
Qed.

Lemma wp_push_num f k o img num :
  translate k own_vs seat = Some f -> page_is k f o img -> 8 <= o ->
  wp (push_num seat (base + o) num) (fun r k' => filled f k k' /\ r = base + (o - 8) /\
    page_is k' f (o - 8) (to_le_bytes 8 num ++ img)) k.
Proof.
  intros Ht HP Ho. pose proof (pi_end _ _ _ _ HP). unfold push_num, USIZE_BYTES.
  rewrite wrap64_small by (unfold is_u64; lia).
  replace ((base + o - 8) mod PAGE_SIZE) with (o - 8) by (rewrite PAGE_SIZE_eq; dlia).
  wp_step. eapply wp_mono; [apply (wp_store_page k f o img (o - 8)); try done|].
  - lia.
  - rewrite length_to_le_bytes. lia.
  - lia.
  - intros [] k' [F P]. rewrite length_to_le_bytes in P.
    replace (Z.to_nat (o - (o - 8) - Z.of_nat 8)) with 0%nat in P by lia.
    apply wp_ret. split; [done|]. split; [lia|done].
Qed.

Lemma word_bytes_app ws ws' : word_bytes (ws ++ ws') = word_bytes ws ++ word_bytes ws'.
Proof. unfold word_bytes. by rewrite bind_app. Qed.

Lemma word_bytes_cons w ws : word_bytes (w :: ws) = to_le_bytes 8 w ++ word_bytes ws.
Proof. done. Qed.

Lemma wp_push_all f nums : forall k o img,
  translate k own_vs seat = Some f -> page_is k f o img ->
  8 * Z.of_nat (length nums) <= o ->
  wp (push_all seat nums (base + o)) (fun r k' => filled f k k' /\
    r = base + (o - 8 * Z.of_nat (length nums)) /\
    page_is k' f (o - 8 * Z.of_nat (length nums)) (word_bytes (rev nums) ++ img)) k.
Proof.
  induction nums as [|num nums IH]; intros k o img Ht HP Ho; cbn [push_all length rev] in *.
  - apply wp_ret. rewrite Z.sub_0_r. split; [apply filled_refl|done].
  - wp_step. eapply wp_mono; [apply (wp_push_num f k o img); try done; lia|].
    intros r k1 (F1 & -> & P1).
    eapply wp_mono; [apply (IH k1 (o - 8)); [by rewrite (filled_translate _ _ _ _ _ F1)|done|lia]|].
    intros r k2 (F2 & -> & P2). split; [by eapply filled_trans|].
    rewrite word_bytes_app, <- app_assoc. unfold word_bytes at 2. simpl.
    replace (o - 8 * Z.of_nat (S (length nums))) with (o - 8 - 8 * Z.of_nat (length nums)) by lia.
    done.
Qed.

Lemma wp_write_stack f k entry_point args :
  translate k own_vs seat = Some f -> page_is k f 4096 [] -> args <> [] ->
  let lay := args_layout args 4096 [] in
  let ptrs := (fun p => base + p) <$> lay.1.1 in
  let o := lay.1.2 - 8 * Z.of_nat (19 + length args) in
  0 <= o ->
  wp (write_stack seat entry_point args (base + 4096)) (fun r k' => filled f k k' /\
    r = base + o /\ page_is k' f o (word_bytes (stack_words entry_point ptrs) ++ lay.2)) k.
Proof.
  intros Ht HP Hne lay ptrs o Ho.
  assert (length ptrs = length args) as Hlen
    by (unfold ptrs, lay; rewrite length_fmap; apply args_layout_length).
  unfold write_stack. wp_step. eapply wp_mono; [apply (wp_copy_args f args k 4096 []); try done|].
  { unfold o, lay in Ho. lia. }
  intros r k1 (F1 & -> & P1). fold lay ptrs in P1 |- *.
  destruct ptrs as [|p0 ptrs'] eqn:Eptrs; [by destruct args|]. rewrite <- Eptrs in *.
  wp_step. apply (wp_lift _ p0); [by rewrite Eptrs|]. rewrite stack_auxv_iter.
  assert (forall k', filled f k k' -> translate k' own_vs seat = Some f) as HT.
  { intros k' F. by rewrite (filled_translate _ _ _ _ _ F). }
  wp_step. eapply wp_mono; [eapply (wp_push_all f); [by apply HT|exact P1|simpl; lia]|].
  intros r k2 (F2 & -> & P2). pose proof (filled_trans _ _ _ _ F1 F2) as F12.
  wp_step. eapply wp_mono; [eapply (wp_push_num f); [by apply HT|exact P2|simpl; lia]|].
  intros r k3 (F3 & -> & P3). pose proof (filled_trans _ _ _ _ F12 F3) as F13.
  wp_step. eapply wp_mono; [eapply (wp_push_num f); [by apply HT|exact P3|simpl; lia]|].
  intros r k4 (F4 & -> & P4). pose proof (filled_trans _ _ _ _ F13 F4) as F14.
  wp_step. eapply wp_mono; [eapply (wp_push_all f);
    [by apply HT|exact P4|rewrite length_rev; simpl; lia]|].
  intros r k5 (F5 & -> & P5). pose proof (filled_trans _ _ _ _ F14 F5) as F15.
  eapply wp_mono; [eapply (wp_push_num f);
    [by apply HT|exact P5|rewrite length_rev; simpl; lia]|].
  intros r k6 (F6 & -> & P6). split; [by eapply filled_trans|].
  rewrite length_rev, Hlen, rev_involutive in *. cbn [length mbind list_bind app] in *.
  replace (lay.1.2 - 8 * Z.of_nat 16 - 8 - 8 - 8 * Z.of_nat (length args) - 8) with o in *
    by (unfold o; lia).
  split; [done|]. unfold stack_words. rewrite Hlen, Eptrs in *. cbn [head default] in *.
  rewrite <- Eptrs in *. rewrite word_bytes_cons, !word_bytes_app, <- !app_assoc. exact P6.
Qed.
End stack_layout.

(** ** Filling a page before it is mapped *)

Section fill.
Context `{L : Sel4Laws} (seat : Z).

(** The page [p] shows frame [f] and is not mapped anywhere; only [f] and the
    mapping state of [p] differ from [k]. *)
Definition page_filled (p : CPtr) (f : Frame) (k k' : kstate) : Prop :=
  cap_frame k' p = Some f /\ cap_mapping k' p = None /\ same_alloc k k' /\
  kdiff (only p) nowhere (fun g _ => g = f) k k'.

Lemma wp_seat_fill {A} (R : A -> (Z -> Z) -> Prop) (body : M kstate A) k p f :
  seat_free seat k -> cap_frame k p = Some f -> cap_mapping k p = None ->
  (forall k1, translate k1 own_vs seat = Some f ->
     (forall o, fbyte k1 f o = fbyte k f o) ->
     wp body (fun x k2 => filled f k1 k2 /\ R x (fbyte k2 f)) k1) ->
  (forall x m m', (forall o, m' o = m o) -> R x m -> R x m') ->
  wp (kcall_unwrap (frame_map p SLOT_VSPACE seat rights_all) ;;
      x ← body; kcall_unwrap (frame_unmap p) ;; mret x)
     (fun x k' => page_filled p f k k' /\ seat_free seat k' /\ R x (fbyte k' f)) k.
Proof.
  intros S Hf Hm Hbody HR. wp_step.
  apply (wp_seat_map seat k p f); try done. intros k1 T1 F1 M1 _ A1 D1.
  wp_step. eapply wp_mono; [apply Hbody; [done|]|].
  { intros o. apply (kd_bytes _ _ _ _ _ D1). by intros []. }
  intros x k2 [[A2 D2] HX]. wp_step. apply (wp_seat_unmap seat k2 p f).
  { by rewrite (kd_frame _ _ _ _ _ D2) by by intros []. }
  { by rewrite (kd_mapping _ _ _ _ _ D2) by by intros []. }
  intros k3 T3 F3 M3 _ A3 D3. apply wp_ret.
  assert (kdiff (only p) nowhere (fun g _ => g = f) k k3) as D.
  { apply (kdiff_restore _ _ _ own_vs seat).
    - apply (kdiff_trans _ _ _ _ k1); [|apply (kdiff_trans _ _ _ _ k2)];
        eapply kdiff_weaken; try eassumption; unfold only, only2, nowhere, nowhere1; naive_solver.
    - rewrite T3. symmetry. apply S. }
  split_and!.
  - split_and!; try done. eapply same_alloc_trans; [exact A1|]. by eapply same_alloc_trans.
  - eapply seat_free_kdiff; [exact S|exact D| |done]. intros E. unfold only in E.
    pose proof (so_vs _ _ S) as Hv. rewrite E in Hv. apply frame_not_vs in Hf. congruence.
  - eapply HR, HX. intros o. apply (kd_bytes _ _ _ _ _ D3). by intros [].
Qed.

(** Filling an unmapped page does not disturb the task or the allocator. *)
Lemma page_filled_task vs t a k k' p f :
  task_ok vs t a k -> cap_frame k p = Some f -> cap_mapping k p = None ->
  page_filled p f k k' -> task_ok vs t a k'.
Proof.
  intros [H1 H2 H3 H4] Hf Hm (F & Mp & _ & D). split; try done.
  - rewrite (kd_vs _ _ _ _ _ D); [done|]. intros E. unfold only in E.
    apply frame_not_vs in Hf. congruence.
  - intros va c Hc. destruct (H3 va c Hc) as (Ha & Hb & Hr & Hmc & g & Hg & Htg).
    assert (c <> p) by congruence.
    rewrite (kd_mapping _ _ _ _ _ D), (kd_frame _ _ _ _ _ D), (kd_trans _ _ _ _ _ D)
      by first [done|by intros []]. eauto 10.
  - intros va Hn. rewrite (kd_trans _ _ _ _ _ D) by by intros []. auto.
Qed.

Lemma page_filled_alloc n a k k' p f :
  ~ alloc_range a p -> page_filled p f k k' -> alloc_ok n (a, k) -> alloc_ok n (a, k').
Proof.
  intros Hp (_ & _ & A & D) HA. eapply alloc_ok_kdiff; [exact D|done| |done].
  by intros c ->.
Qed.

(** Mapping a filled page keeps its bytes. *)
Lemma page_mapped_bytes vs va page f m t a k s' o :
  page_mapped vs va page f m t a k s' -> cap_frame k page = Some f -> ~ alloc_range a page ->
  fbyte s'.2.2 f o = fbyte k f o.
Proof.
  intros (pts & k1 & _ & [_ D1] & D2 & _) Hf Hp.
  rewrite (kd_bytes _ _ _ _ _ D2) by by intros [].
  apply (kd_bytes _ _ _ _ _ D1). intros HF. by apply (HF page).
Qed.

(** The seat survives steps of the allocator and of other address spaces. *)
Lemma seat_free_grows vs P a a' k k' :
  seat_free seat k -> ~ alloc_range a SLOT_VSPACE -> vs <> own_vs ->
  grows vs P a a' k k' -> seat_free seat k'.
Proof.
  intros S Hv Hne [_ D]. eapply seat_free_kdiff; [exact S|exact D|done|].
  rewrite (kd_trans _ _ _ _ _ D) by naive_solver. apply S.
Qed.

(** The memory of the other tasks is as before. *)
Lemma grows_user_other vs P vs' t a a' k k' x :
  vs' <> vs -> grows vs P a a' k k' -> task_ok vs' t a k ->
  user_byte k' vs' x = user_byte k vs' x.
Proof.
  intros Hne [_ D] Hok. unfold user_byte. rewrite (kd_trans _ _ _ _ _ D) by naive_solver.
  destruct (t_mapped_page t !! down 4096 x) as [c|] eqn:E.
  - destruct (to_page _ _ _ _ Hok _ _ E) as (_ & _ & Hr & _ & f & Hf & ->). simpl.
    rewrite (kd_bytes _ _ _ _ _ D); [done|]. intros HF. by apply (HF c).
  - by rewrite (to_unmapped _ _ _ _ Hok _ E).
Qed.
(** What the user sees after pages were added. *)
Lemma pages_added_user vs l t a k s' x :
  task_ok vs t a k -> pages_added vs l t a k s' -> (forall y, y ∈ l -> page_aligned y) ->
  user_byte s'.2.2 vs x =
    match user_byte k vs x with
    | Some b => Some b
    | None => if decide (down 4096 x ∈ l) then Some 0 else None
    end.
Proof.
  intros Hok P Hal. unfold user_byte. pose proof (pa_ok _ _ _ _ _ _ P) as Hok'.
  destruct (t_mapped_page t !! down 4096 x) as [c|] eqn:Ec.
  - destruct (to_page _ _ _ _ Hok _ _ Ec) as (_ & _ & _ & _ & f & Hf & Ht).
    pose proof (pa_old _ _ _ _ _ _ P _ _ Ec) as Ec'.
    destruct (to_page _ _ _ _ Hok' _ _ Ec') as (_ & _ & _ & _ & f' & Hf' & Ht').
    destruct (pages_added_keeps vs l t a k s' _ c f (x mod 4096) P Hok Ec Hf) as [Hk Hb].
    assert (f' = f) as -> by congruence. rewrite Ht, Ht'. simpl. by rewrite Hb.
  - rewrite (to_unmapped _ _ _ _ Hok _ Ec). simpl. case_decide as Hin.
    + destruct (pa_new _ _ _ _ _ _ P _ Ec Hin) as (c & f & Hc & _ & Hf & Hz).
      destruct (to_page _ _ _ _ Hok' _ _ Hc) as (_ & _ & _ & _ & f' & Hf' & Ht').
      assert (f' = f) as -> by congruence. rewrite Ht'. simpl. by rewrite Hz.
    + by rewrite (to_unmapped _ _ _ _ Hok' _ (pa_else _ _ _ _ _ _ P _ Ec Hin)).
Qed.

(** A page that was not mapped now shows the frame [f]; the other pages of the
    task are as before. *)
Lemma page_mapped_user vs va page f m t a k s' x :
  page_mapped vs va page f m t a k s' -> task_ok vs t a k ->
  cap_frame k page = Some f -> ~ alloc_range a page -> t_mapped_page t !! va = None ->
  user_byte s'.2.2 vs x =
    if decide (down 4096 x = va) then Some (fbyte k f (x mod 4096)) else user_byte k vs x.
Proof.
  intros PM Hok Hf Hp Hnew. pose proof PM as (pts & k1 & _ & [_ D1] & D2 & _ & _ & Ht).
  unfold user_byte. case_decide as Hx.
  - rewrite Hx, Ht. simpl. by rewrite (page_mapped_bytes _ _ _ _ _ _ _ _ _ _ PM Hf Hp).
  - rewrite (kd_trans _ _ _ _ _ D2) by (unfold only2; naive_solver).
    rewrite (kd_trans _ _ _ _ _ D1) by by intros [_ []].
    destruct (translate k vs (down 4096 x)) as [g|] eqn:Eg; [|done]. simpl. f_equal.
    destruct (task_translated _ _ _ _ _ _ Hok Eg) as (c & _ & Hc & Hcg).
    rewrite (kd_bytes _ _ _ _ _ D2) by by intros [].
    apply (kd_bytes _ _ _ _ _ D1). intros HF. by apply (HF c).
Qed.

(** A new frame that was filled and mapped at one page. *)
Lemma grows_filled vs va f a a' k k1 k2 k3 k4 :
  slots_start a < slots_end a -> retyped BpGranule (slots_start a) k k1 ->
  cap_frame k1 (slots_start a) = Some f -> page_filled (slots_start a) f k1 k2 ->
  grows vs nowhere1 (bump a) a' k2 k3 ->
  kdiff (only (slots_start a)) (only2 vs va) nowhere k3 k4 ->
  grows vs (only va) a a' k k4.
Proof.
  intros Hlt HR Hf (Hf2 & _ & _ & D2) G3 D4.
  assert (alloc_range a (slots_start a)) as Hpa by (unfold alloc_range; lia).
  apply (grows_map_own vs va a k2 k3 k a' k4); try done.
  pose proof (retyped_grows vs _ _ _ _ Hlt HR) as [HJ D1]. split; [done|].
  eapply kdiff_trans; [exact D1|].
  eapply kdiff_weaken, D2; [by intros c ->|by intros ? ? []|].
  destruct HR as (f' & Hf' & _ & Hnf & _). intros g i -> c _.
  assert (f' = f) as -> by congruence. apply Hnf.
Qed.

Lemma filled_user_same vs f a k k1 k2 x :
  retyped BpGranule (slots_start a) k k1 -> cap_frame k1 (slots_start a) = Some f ->
  page_filled (slots_start a) f k1 k2 -> user_byte k2 vs x = user_byte k vs x.
Proof.
  intros (f' & Hf' & _ & _ & Hnt & _ & D1) Hf (_ & _ & _ & D2).
  assert (f' = f) as -> by congruence. unfold user_byte.
  rewrite (kd_trans _ _ _ _ _ D2), (kd_trans _ _ _ _ _ D1) by by intros [].
  destruct (translate k vs (down 4096 x)) as [g|] eqn:Eg; [|done]. simpl.
  assert (g <> f) by (intros ->; by apply (Hnt vs (down 4096 x))).
  by rewrite (kd_bytes _ _ _ _ _ D2), (kd_bytes _ _ _ _ _ D1).
Qed.
End fill.

(** ** [map_stack] *)

Section map_stack.
Context `{L : Sel4Laws} (seat : Z).

(** Below the top page, the loop adds a zeroed page. *)
Lemma map_stack_loop_low vaddr pages end_ entry_point args sp s :
  vaddr <> wrap64 (end_ - PAGE_SIZE) ->
  map_stack_loop seat (vaddr :: pages) end_ entry_point args sp s =
  (alloc_and_map vaddr ;; map_stack_loop seat pages end_ entry_point args sp) s.
Proof.
  intros Hne. cbn [map_stack_loop]. apply Z.eqb_neq in Hne as ->.
  unfold alloc_and_map, mbind, M_bind, mret, M_ret.
  by destruct (t_alloc _ s) as [[c s1]| | |].
Qed.

Lemma wp_map_stack_low vs end_ entry_point args sp rest (Q : Z -> TK -> Prop) l : forall m t a k,
  task_ok vs t a k -> NoDup l ->
  (forall x, x ∈ l -> x <> wrap64 (end_ - PAGE_SIZE) /\ page_aligned x /\ 0 <= x < 2 ^ 48 /\
     t_mapped_page t !! x = None) ->
  alloc_ok (length l * Z.to_nat NUM_LEVELS + m) (a, k) ->
  (forall s1, pages_added vs l t a k s1 -> alloc_ok m s1.2 ->
     wp (map_stack_loop seat rest end_ entry_point args sp) Q s1) ->
  wp (map_stack_loop seat (l ++ rest) end_ entry_point args sp) Q (t, (a, k)).
Proof.
  induction l as [|x l IH]; intros m t a k Hok Hnd Hl HA HQ.
  - apply HQ; [by apply pages_added_nil|done].
  - apply NoDup_cons in Hnd as [Hx Hnd].
    destruct (Hl x) as (Hne & Hal & Hr & Hnew); [left|].
    assert (forall s, wp (alloc_and_map x ;; map_stack_loop seat (l ++ rest) end_ entry_point args sp)
        Q s -> wp (map_stack_loop seat ((x :: l) ++ rest) end_ entry_point args sp) Q s) as Hwp.
    { intros s (r & s' & E & HQ'). exists r, s'. split; [|done].
      simpl app. by rewrite map_stack_loop_low. }
    apply Hwp. wp_step. eapply wp_mono.
    + apply (wp_alloc_and_map vs (length l * Z.to_nat NUM_LEVELS + m)); try done.
      simpl length in HA. by replace (Z.to_nat NUM_LEVELS + (length l * Z.to_nat NUM_LEVELS + m))%nat
        with (S (length l) * Z.to_nat NUM_LEVELS + m)%nat by lia.
    + intros [] [t1 [a1 k1]] [P1 A1].
      apply (IH m); [apply (pa_ok _ _ _ _ _ _ P1)|done| |done|].
      * intros y Hy. destruct (Hl y) as (? & ? & ? & Hny); [by right|].
        split_and!; try done; try lia. apply (pa_else _ _ _ _ _ _ P1); [done|].
        intros ->%list_elem_of_singleton. done.
      * intros s2 P2 A2. apply HQ; [|done]. by apply (pages_added_app vs [x] l t a k _ s2 P1).
Qed.

(** The result of [map_stack]: the bytes [img] end at [end_], the rest of the
    stack area is zero, and nothing else of the address space has changed. *)
Record stack_ready (vs : VS) (t : Sel4Task) (a : ObjectAllocator) (k : kstate) (start end_ : Z)
    (img : list Z) (m : nat) (sp : Z) (s' : TK) : Prop := {
  sr_sp : sp = end_ - Z.of_nat (length img);
  sr_task : exists mp pts, s'.1 = set_mapped_page mp (set_mapped_pt pts t);
  sr_grows : grows vs (fun va => start <= va < end_) a s'.2.1 k s'.2.2;
  sr_ok : task_ok vs s'.1 s'.2.1 s'.2.2;
  sr_alloc : alloc_ok m s'.2;
  sr_pages va : is_Some (t_mapped_page s'.1 !! va) <->
    is_Some (t_mapped_page t !! va) \/ va ∈ step_range PAGE_SIZE start end_;
  sr_bytes x : user_byte s'.2.2 vs x =
    if decide (start <= x < end_) then if decide (x < sp) then Some 0 else img !! Z.to_nat (x - sp)
    else user_byte k vs x;
}.

Lemma stack_ready_img vs t a k start end_ img m sp s' :
  stack_ready vs t a k start end_ img m sp s' -> start <= sp ->
  user_bytes s'.2.2 vs sp (length img) = Some img.
Proof.
  intros R Hs. unfold user_bytes. apply mapM_Some, Forall2_same_length_lookup_2.
  - rewrite length_seqZ. lia.
  - intros i y b Hy Hb. apply lookup_seqZ in Hy as [-> Hi].
    pose proof (sr_sp _ _ _ _ _ _ _ _ _ _ R). rewrite (sr_bytes _ _ _ _ _ _ _ _ _ _ R).
    rewrite decide_True, decide_False by lia. rewrite <- Hb. f_equal. lia.
Qed.

Context (end_ : Z) (Hend : end_ mod 4096 = 0) (Hend' : 4096 <= end_ <= 2 ^ 48).

(** The top page: filled through the seat, then mapped. *)
Lemma wp_map_stack_top vs entry_point args m t a k :
  task_ok vs t a k -> seat_free seat k -> ~ alloc_range a SLOT_VSPACE ->
  t_mapped_page t !! (end_ - 4096) = None -> vs <> own_vs ->
  alloc_ok (Z.to_nat NUM_LEVELS + m) (a, k) -> args <> [] ->
  let lay := args_layout args 4096 [] in
  let ptrs := (fun p => end_ - 4096 + p) <$> lay.1.1 in
  let o := lay.1.2 - 8 * Z.of_nat (19 + length args) in
  let img := word_bytes (stack_words entry_point ptrs) ++ lay.2 in
  0 <= o ->
  wp (map_stack_loop seat [end_ - 4096] end_ entry_point args end_)
     (fun sp s' => sp = end_ - 4096 + o /\ stack_ready vs t a k (end_ - 4096) end_ img m sp s')
     (t, (a, k)).
Proof.
  intros Hok S Hv Hnew Hvs HA Hne lay ptrs o img Ho. pose proof (levels_range k vs 0) as HL.
  replace (Z.to_nat NUM_LEVELS + m)%nat with (Datatypes.S (Z.to_nat NUM_LEVELS - 1 + m)) in HA by lia.
  pose proof (ao_range _ _ HA) as [_ Hr]. simpl in Hr.
  assert (slots_start a < slots_end a) as Hlt by lia.
  cbn [map_stack_loop]. rewrite PAGE_SIZE_eq, wrap64_small, Z.eqb_refl by (unfold is_u64; lia).
  wp_step. unfold t_alloc. wp_step. simpl.
  apply (wp_allocate _ _ _ _ _ HA). intros k1 HA1 HR _ _. simpl.
  pose proof (retyped_grows vs _ _ _ _ Hlt HR) as HG.
  pose proof HR as (f & Hf & Hm & _ & _ & Hz & _). set (p := slots_start a) in *.
  assert (~ alloc_range (bump a) p) as Hp by (unfold alloc_range; simpl; lia).
  assert (task_ok vs t (bump a) k1) as Hok1 by by apply (task_ok_grows_nowhere _ _ a _ k).
  wp_step. unfold t_kernel. wp_step. simpl. eapply wp_mono.
  { apply (wp_seat_fill seat (fun r b => r = end_ - 4096 + o /\
      o + Z.of_nat (length img) = 4096 /\ forall i, 0 <= i < 4096 ->
        Some (b i) = if decide (i < o) then Some 0 else img !! Z.to_nat (i - o))
      _ k1 p f); try done.
    - by apply (seat_free_grows seat vs nowhere1 a (bump a) k).
    - intros k2 T2 B2. replace end_ with (end_ - 4096 + 4096) at 1 by lia.
      eapply wp_mono; [apply (wp_write_stack seat) with (f := f); try done; try (apply S); try lia|].
      + by rewrite Zminus_mod, Hend.
      + split; try done. intros i Hi. by rewrite B2.
      + intros r k3 (F3 & -> & [P1 P2 P3 P4]). fold lay ptrs o img in P2, P3, P4.
        split; [done|]. split; [done|]. split; [exact P2|]. intros i Hi. case_decide as Hio; [by rewrite P3 by lia|].
        rewrite <- P4, frame_bytes_lookup by lia. do 2 f_equal. lia.
    - intros x b b' Hb (-> & Hl & Hi). split_and!; try done. intros i Hin. by rewrite Hb, Hi. }
  intros sp k2 (PF & S2 & -> & Hlen & Himg). wp_step.
  pose proof PF as (F2 & M2 & A2 & D2).
  assert (task_ok vs t (bump a) k2) as Hok2 by by eapply page_filled_task.
  eapply wp_mono.
  { apply (wp_map_page vs m _ _ _ _ _ f); try done.
    - unfold page_aligned. by rewrite Zminus_mod, Hend.
    - lia.
    - by eapply page_filled_alloc. }
  intros [] s' PM. apply wp_ret. split; [done|].
  pose proof (fun x => page_mapped_user _ _ _ _ _ _ _ _ _ x PM Hok2 F2 Hp Hnew) as HU.
  destruct PM as (pts & k3 & E & G3 & D3 & Hok' & HA' & Ht).
  split; try done.
  - lia.
  - rewrite E. eauto.
  - eapply grows_weaken, (grows_filled vs (end_ - 4096) f a _ k k1 k2 k3); try done.
    intros va ->. lia.
  - intros va. rewrite E. simpl. rewrite lookup_insert_is_Some'.
    rewrite PAGE_SIZE_eq, elem_of_step_range by lia.
    assert (end_ - 4096 = va <-> end_ - 4096 <= va < end_ /\ (va - (end_ - 4096)) mod 4096 = 0) by dlia.
    naive_solver.
  - intros x. rewrite HU. destruct (decide (down 4096 x = end_ - 4096)) as [Hx|Hx].
    + assert (end_ - 4096 <= x < end_ /\ x mod 4096 = x - (end_ - 4096)) as [Hxr ->]
        by (unfold down in Hx; dlia).
      rewrite (decide_True _ _ Hxr), Himg by lia. repeat case_decide; try lia; try done. f_equal. lia.
    + rewrite decide_False by (intros Hxr; apply Hx; unfold down; dlia).
      by apply (filled_user_same vs f a k k1 k2).
Qed.

Lemma step_range_snoc s e :
  s mod 4096 = 0 -> e mod 4096 = 0 -> s < e ->
  step_range 4096 s e = step_range 4096 s (e - 4096) ++ [e - 4096].
Proof.
  intros Hs He Hlt. unfold step_range.
  assert (s + 4096 <= e) by (apply aligned_gap; lia).
  rewrite !Z.max_r by lia. rewrite !up_aligned by dlia.
  replace ((e - s) / 4096) with ((e - 4096 - s) / 4096 + 1) by dlia.
  rewrite seqZ_app, fmap_app by dlia. f_equal. simpl. f_equal. dlia.
Qed.

(** The zeroed low pages and the top page together. *)
Lemma stack_ready_low vs t a k start img m sp s1 s' :
  start mod 4096 = 0 -> 0 <= start < end_ -> task_ok vs t a k ->
  (forall va, start <= va < end_ -> t_mapped_page t !! va = None) ->
  pages_added vs (step_range 4096 start (end_ - 4096)) t a k s1 ->
  end_ - 4096 <= sp -> stack_ready vs s1.1 s1.2.1 s1.2.2 (end_ - 4096) end_ img m sp s' ->
  stack_ready vs t a k start end_ img m sp s'.
Proof.
  intros Hst Hs Hok Hfree P1 Hsp [R1 (mp & pts & R2) R3 R4 R5 R6 R7].
  assert (start + 4096 <= end_) as Hgap by (apply aligned_gap; lia).
  split; try done.
  - destruct (pa_task _ _ _ _ _ _ P1) as (mp' & pts' & E). rewrite R2, E. eexists _, _. reflexivity.
  - eapply grows_trans; [eapply grows_weaken, (pa_grows _ _ _ _ _ _ P1)|eapply grows_weaken, R3].
    + intros va [[Hva _]%elem_of_step_range _]; simpl; lia.
    + intros va Hva. simpl in *. lia.
  - intros va. rewrite R6, PAGE_SIZE_eq, (step_range_snoc start) by (done || lia).
    rewrite elem_of_app, list_elem_of_singleton.
    assert (va ∈ step_range 4096 (end_ - 4096) end_ <-> va = end_ - 4096) as ->
      by (rewrite elem_of_step_range by lia; dlia).
    destruct (t_mapped_page t !! va) as [c|] eqn:Et.
    + apply (pa_old _ _ _ _ _ _ P1) in Et as Et'. rewrite Et'. naive_solver.
    + destruct (decide (va ∈ step_range 4096 start (end_ - 4096))) as [Hin|Hin].
      * destruct (pa_new _ _ _ _ _ _ P1 va Et Hin) as (c & f & Hc & _). rewrite Hc. naive_solver.
      * rewrite (pa_else _ _ _ _ _ _ P1 va Et Hin). naive_solver.
  - intros x. rewrite R7.
    rewrite (pages_added_user vs (step_range 4096 start (end_ - 4096)) t a k s1 x Hok P1).
    2:{ intros y [_ Hy]%elem_of_step_range; [|lia]. unfold page_aligned. clear - Hy Hst. dlia. }
    assert (down 4096 x ∈ step_range 4096 start (end_ - 4096) <-> start <= x < end_ - 4096) as Hd
      by (rewrite elem_of_step_range by lia; unfold down; split; [|intros; split]; dlia).
    destruct (decide (end_ - 4096 <= x < end_));
      [by rewrite (decide_True (P := start <= x < end_)) by lia|].
    destruct (decide (start <= x < end_)) as [Hx|Hx].
    + rewrite (decide_True (P := x < sp)) by lia.
      assert (user_byte k vs x = None) as ->.
      { unfold user_byte. rewrite (to_unmapped _ _ _ _ Hok); [done|]. apply Hfree. unfold down. dlia. }
      by rewrite decide_True by (apply Hd; lia).
    + rewrite decide_False by (rewrite Hd; lia). by destruct (user_byte k vs x).
Qed.

Lemma wp_map_stack vs entry_point args start m t a k :
  task_ok vs t a k -> seat_free seat k -> ~ alloc_range a SLOT_VSPACE -> vs <> own_vs ->
  start mod 4096 = 0 -> 0 <= start < end_ ->
  (forall va, start <= va < end_ -> t_mapped_page t !! va = None) ->
  alloc_ok (length (step_range 4096 start end_) * Z.to_nat NUM_LEVELS + m) (a, k) ->
  args <> [] ->
  let lay := args_layout args 4096 [] in
  let ptrs := (fun p => end_ - 4096 + p) <$> lay.1.1 in
  let o := lay.1.2 - 8 * Z.of_nat (19 + length args) in
  let img := word_bytes (stack_words entry_point ptrs) ++ lay.2 in
  0 <= o ->
  wp (map_stack seat entry_point start end_ args)
     (fun sp s' => sp = end_ - 4096 + o /\ stack_ready vs t a k start end_ img m sp s')
     (t, (a, k)).
Proof.
  intros Hok S Hv Hvs Hst Hs Hfree HA Hne lay ptrs o img Ho.
  assert (start + 4096 <= end_) as Hgap by (apply aligned_gap; lia).
  unfold map_stack. wp_step. apply wp_assert; [by apply Z.eqb_eq|].
  wp_step. apply wp_assert; [by apply Z.eqb_eq|]. rewrite PAGE_SIZE_eq.
  rewrite step_range_snoc in * by (done || lia).
  apply (wp_map_stack_low vs _ _ _ _ _ _ _ (Z.to_nat NUM_LEVELS + m)); try done.
  - apply NoDup_step_range. lia.
  - intros x Hx. apply elem_of_step_range in Hx as [Hx Hm]; [|lia].
    rewrite PAGE_SIZE_eq, wrap64_small by (unfold is_u64; lia).
    split; [lia|]. split; [unfold page_aligned; dlia|]. split; [lia|]. apply Hfree. lia.
  - rewrite length_app in HA. simpl in HA. eapply alloc_ok_le, HA. lia.
  - intros [t1 [a1 k1]] P1 A1. pose proof (pa_grows _ _ _ _ _ _ P1) as G1. simpl in G1.
    eapply wp_mono; [apply (wp_map_stack_top vs entry_point args m t1 a1 k1); try done|].
    + apply (pa_ok _ _ _ _ _ _ P1).
    + by eapply seat_free_grows.
    + destruct G1 as [[j ->] _]. by intros ?%alloc_range_bump.
    + apply (pa_else _ _ _ _ _ _ P1); [apply Hfree; lia|].
      intros [Hx _]%elem_of_step_range; lia.
    + intros sp s' [-> R]. split; [done|].
      apply (stack_ready_low _ _ _ _ _ _ _ _ (t1, (a1, k1))); try done.
      fold lay o. lia.
Qed.
End map_stack.

(** ** Strings *)

(** The image found so far stays the upper part of the page. *)
Lemma args_layout_suffix args : forall o img,
  0 <= (args_layout args o img).1.2 ->
  exists pre, (args_layout args o img).2 = pre ++ img /\
    (args_layout args o img).1.2 + Z.of_nat (length pre) = o.
Proof.
  induction args as [|arg args IH]; intros o img Ho; cbn [args_layout fst snd] in *.
  - exists []. split; [done|]. simpl. lia.
  - destruct (IH _ _ Ho) as (pre & -> & Hpre).
    exists (pre ++ arg ++ replicate (Z.to_nat
      (o - (o - Z.of_nat (length arg) - 1) / 16 * 16 - Z.of_nat (length arg))) 0).
    split; [by rewrite <- !app_assoc|].
    rewrite !length_app, length_replicate. rewrite !Nat2Z.inj_add, Z2Nat.id by dlia. lia.
Qed.

(** Every string is in the image at its pointer, followed by a zero byte. *)
Lemma args_layout_strings args : forall o img i arg p,
  0 <= (args_layout args o img).1.2 ->
  args !! i = Some arg -> (args_layout args o img).1.1 !! i = Some p ->
  exists l1 l2, (args_layout args o img).2 = l1 ++ (arg ++ [0]) ++ l2 /\
    (args_layout args o img).1.2 + Z.of_nat (length l1) = p.
Proof.
  induction args as [|arg0 args IH]; intros o img [|i] arg p Ho Harg Hp;
    cbn [args_layout fst snd lookup list_lookup] in *; simplify_eq.
  - destruct (args_layout_suffix _ _ _ Ho) as (pre & -> & Hpre).
    set (q := (o - Z.of_nat (length arg) - 1) / 16 * 16) in *.
    assert (q <= o - Z.of_nat (length arg) - 1) by (unfold q; dlia).
    destruct (Z.to_nat (o - q - Z.of_nat (length arg))) as [|n] eqn:En; [lia|].
    exists pre, (replicate n 0 ++ img). split; [|done]. by rewrite <- !app_assoc.
  - by apply (IH _ _ i).
Qed.

Lemma args_layout_aligned args : forall o img,
  o mod 16 = 0 -> (args_layout args o img).1.2 mod 16 = 0.
Proof.
  induction args as [|arg args IH]; intros o img Ho; simpl; [done|].
  apply IH, Z.mod_mul. lia.
Qed.

Lemma user_bytes_sub `{V : Sel4View} k vs x n l1 bs l2 :
  user_bytes k vs x n = Some (l1 ++ bs ++ l2) ->
  user_bytes k vs (x + Z.of_nat (length l1)) (length bs) = Some bs.
Proof.
  unfold user_bytes. intros HU%mapM_Some. apply mapM_Some.
  pose proof (Forall2_length _ _ _ HU) as Hlen. rewrite length_seqZ, !length_app in Hlen.
  apply Forall2_app_inv_r in HU as (s1 & s2 & H1 & HU & E).
  apply Forall2_app_inv_r in HU as (s3 & s4 & H3 & H4 & ->).
  apply Forall2_length in H1 as L1. apply Forall2_length in H3 as L3.
  replace (seqZ (x + Z.of_nat (length l1)) (Z.of_nat (length bs))) with s3; [done|].
  replace (Z.of_nat n) with (Z.of_nat (length l1) + (Z.of_nat (length bs) + Z.of_nat (length l2)))
    in E by lia.
  rewrite !seqZ_app in E by lia.
  apply app_inj_1 in E as [_ E]; [|rewrite length_seqZ; lia].
  apply app_inj_1 in E as [E _]; [done|]. rewrite length_seqZ; lia.
Qed.

Lemma word_bytes_length ws : length (word_bytes ws) = (8 * length ws)%nat.
Proof.
  induction ws as [|w ws IH]; [done|]. rewrite word_bytes_cons, length_app, IH.
  rewrite length_to_le_bytes. simpl. lia.
Qed.

(** The strings and the words fit into the top page. *)
Definition stack_fits (args : list (list Z)) : Prop :=
  8 * Z.of_nat (19 + length args) <= (args_layout args 4096 []).1.2.

(** What [map_stack] needs: a well-formed task without pages in the stack area,
    the free page seat, and capability slots and memory for the pages and their
    translation tables. *)
Record stack_pre `{Sel4View} (seat : Z) (vs : VS) (t : Sel4Task) (a : ObjectAllocator)
    (k : kstate) (start end_ : Z) (args : list (list Z)) : Prop := {
  sp_task : task_ok vs t a k;
  sp_vs : vs <> own_vs;
  sp_seat : seat_free seat k;
  sp_seat_slot : ~ alloc_range a SLOT_VSPACE;
  sp_start : start mod 4096 = 0 /\ 0 <= start < end_;
  sp_end : end_ mod 4096 = 0 /\ 4096 <= end_ <= 2 ^ 48;
  sp_new va : start <= va < end_ -> t_mapped_page t !! va = None;
  sp_alloc : alloc_ok (length (step_range 4096 start end_) * Z.to_nat NUM_LEVELS) (a, k);
  sp_args : args <> [];
  sp_fits : stack_fits args;
}.

(** C17: [map_stack] builds the initial stack the program expects.  At the
    returned stack pointer the user reads the number of arguments, one pointer
    per argument, the terminator of the arguments and of the empty environment,
    and the auxiliary vector ending in [AT_NULL]; each argument pointer points
    to the argument's bytes followed by a zero byte; and exactly the pages of
    the stack area were added to the task. *)
Theorem map_stack_layout `{L : Sel4Laws} (seat : Z) (vs : VS) (t : Sel4Task)
    (a : ObjectAllocator) (k : kstate) (entry_point start end_ : Z) (args : list (list Z))
    (Hpre : stack_pre seat vs t a k start end_ args) :
  wp (map_stack seat entry_point start end_ args)
     (fun sp s' => exists ptrs, length ptrs = length args /\
        user_bytes s'.2.2 vs sp (8 * (19 + length args)) =
          Some (word_bytes (stack_words entry_point ptrs)) /\
        (forall i arg p, args !! i = Some arg -> ptrs !! i = Some p ->
           user_bytes s'.2.2 vs p (length arg + 1) = Some (arg ++ [0])) /\
        task_ok vs s'.1 s'.2.1 s'.2.2 /\
        forall va, is_Some (t_mapped_page s'.1 !! va) <->
          is_Some (t_mapped_page t !! va) \/ va ∈ step_range PAGE_SIZE start end_)
     (t, (a, k)).
Proof.
  destruct Hpre as [H1 H2 H3 H4 [H5 H6] [H7 H8] H9 H10 H11 H12]. unfold stack_fits in H12.
  eapply wp_mono; [apply (wp_map_stack seat end_ H7 H8 vs _ _ _ 0); try done;
    [by rewrite Nat.add_0_r|lia]|].
  intros sp s' (Esp & R).
  assert (start + 4096 <= end_) as Hgap by (apply aligned_gap; lia).
  assert (start <= sp) as Hsp by lia.
  pose proof (stack_ready_img _ _ _ _ _ _ _ _ _ _ R Hsp) as Hub.
  pose proof (sr_ok _ _ _ _ _ _ _ _ _ _ R) as Hok'. pose proof (sr_pages _ _ _ _ _ _ _ _ _ _ R) as Hdom.
  set (lay := args_layout args 4096 []) in *.
  set (ptrs := (fun p => end_ - 4096 + p) <$> lay.1.1) in *. exists ptrs.
  assert (length ptrs = length args) as Hlen
    by (unfold ptrs, lay; rewrite length_fmap; apply args_layout_length).
  assert (length (word_bytes (stack_words entry_point ptrs)) = (8 * (19 + length args))%nat) as Hw.
  { rewrite word_bytes_length. unfold stack_words. simpl. rewrite length_app, Hlen. simpl. lia. }
  split_and!; try done.
  - rewrite <- Hw. pose proof (user_bytes_sub _ _ _ _ [] _ _ Hub) as HS.
    simpl in HS. by rewrite Z.add_0_r in HS.
  - intros i arg p Harg Hp. unfold ptrs in Hp. rewrite list_lookup_fmap in Hp.
    apply fmap_Some in Hp as (q & Hq & ->).
    destruct (args_layout_strings args 4096 [] i arg q) as (l1 & l2 & E & Hpos); try done; [fold lay; lia|].
    fold lay in E, Hpos. rewrite E, app_assoc in Hub.
    apply user_bytes_sub in Hub. rewrite !length_app, Hw in Hub. simpl length in Hub.
    rewrite <- Hub. f_equal. lia.
Qed.

(** The stack pointer [map_stack] returns is a multiple of 16, as the
    procedure call standard asks for, exactly when the number of arguments is
    odd.  [sys_exec] passes two arguments. *)
Theorem map_stack_alignment `{L : Sel4Laws} (seat : Z) (vs : VS) (t : Sel4Task)
    (a : ObjectAllocator) (k : kstate) (entry_point start end_ : Z) (args : list (list Z))
    (Hpre : stack_pre seat vs t a k start end_ args) :
  wp (map_stack seat entry_point start end_ args)
     (fun sp _ => sp mod 16 = if Nat.odd (length args) then 0 else 8)
     (t, (a, k)).
Proof.
  destruct Hpre as [H1 H2 H3 H4 [H5 H6] [H7 H8] H9 H10 H11 H12]. unfold stack_fits in H12.
  eapply wp_mono; [apply (wp_map_stack seat end_ H7 H8 vs _ _ _ 0); try done;
    [by rewrite Nat.add_0_r|lia]|].
  intros sp s' [-> _].
  pose proof (args_layout_aligned args 4096 [] eq_refl) as Hal.
  set (x := (args_layout args 4096 []).1.2) in *. clearbody x.
  assert (end_ mod 16 = 0) by dlia.
  destruct (Nat.odd (length args)) eqn:Eo.
  - apply Nat.odd_spec in Eo as [m Em]. dlia.
  - assert (Nat.even (length args) = true) as [m Em]%Nat.even_spec
      by (by rewrite <- Nat.negb_odd, Eo). dlia.
Qed.

(** ["busybox"; "--help"], the arguments of [sys_exec]. *)
Definition exec_args : list (list Z) :=
  [[98; 117; 115; 121; 98; 111; 120]; [45; 45; 104; 101; 108; 112]].

Lemma ref_stack_pre args :
  args <> [] -> stack_fits args ->
  @stack_pre ref_sel4 ref_view 0x7000 5 ref_user_task (MkAllocator 50 1024 26) (ref_user 16)
    0x10000 0x12000 args.
Proof.
  intros Hne Hfits. pose proof (ref_umem_ok 16 50 1024 26 ltac:(lia)) as [T S V].
  split; try done; try apply S.
  - intros va Hva. cbn. rewrite lookup_singleton_ne by lia. done.
  - apply (ref_user_alloc_ok 8); vm_compute; intuition discriminate.
Qed.

Lemma map_stack_layout_witness :
  exists sp s', @map_stack ref_sel4 0x7000 0 0x10000 0x12000 exec_args
      (ref_user_task, (MkAllocator 50 1024 26, ref_user 16)) = Ret (sp, s') /\
    exists ptrs, @user_bytes ref_sel4 ref_view s'.2.2 5 sp 168 =
      Some (word_bytes (stack_words 0 ptrs)).
Proof.
  destruct (@map_stack_layout ref_sel4 ref_view ref_laws 0x7000 5 ref_user_task
              (MkAllocator 50 1024 26) (ref_user 16) 0 0x10000 0x12000 exec_args)
    as (sp & s' & E & ptrs & _ & Hu & _).
  - apply ref_stack_pre; [done|]. vm_compute. discriminate.
  - exists sp, s'. split; [exact E|]. exists ptrs. exact Hu.
Defined.

Lemma map_stack_alignment_witness :
  exists sp s', @map_stack ref_sel4 0x7000 0 0x10000 0x12000 exec_args
      (ref_user_task, (MkAllocator 50 1024 26, ref_user 16)) = Ret (sp, s') /\ sp mod 16 = 8.
Proof.
  destruct (@map_stack_alignment ref_sel4 ref_view ref_laws 0x7000 5 ref_user_task
              (MkAllocator 50 1024 26) (ref_user 16) 0 0x10000 0x12000 exec_args)
    as (sp & s' & E & Hsp).
  - apply ref_stack_pre; [done|]. vm_compute. discriminate.
  - exists sp, s'. split; [exact E|exact Hsp].
Defined.
