(* ===== verification/ElfLoad.v ===== *)
(** * Loading an ELF file into a task ([Sel4Task::load_elf], [crates/kernel-thread/src/task.rs])

    [load_elf] walks the pages of every loadable segment: it takes a new frame,
    or the frame of an earlier segment that shares the page, copies the
    segment's bytes through the page seat and maps the frame.  This file proves
    that the task then sees the memory image the program headers describe. *)

From S2P Require Import Prelude Words Consts Sel4 Sel4Laws RefKernel Externs Reference ObjAllocator KTask FrameMem UserMem Exec.

(** ** The memory image of the program headers *)

(** The pages of the address range [v .. vend). *)
Definition on_pages (v vend x : Z) : bool :=
  (v <? vend) && (down 4096 v <=? x) && (x <? up 4096 vend).

(** The byte a segment from [v], with the file's bytes [o .. end_), leaves at
    [x] when [r] was there before. *)
Definition segment_byte (elf : Z -> Z) (end_ vend o v x : Z) (r : option Z) : option Z :=
  if (v <=? x) && (x <? v + (end_ - o)) then Some (elf (o + (x - v)))
  else if on_pages v vend x then Some (default 0 r) else r.

Definition ph_byte (elf : Z -> Z) (ph : ProgramHeader) (x : Z) (r : option Z) : option Z :=
  segment_byte elf (ph_offset ph + ph_file_size ph) (ph_vaddr ph + ph_mem_size ph)
    (ph_offset ph) (ph_vaddr ph) x r.

(** The byte at [x] once all the headers were loaded, later ones over earlier
    ones. *)
Definition elf_byte (elf : Z -> Z) (phs : list ProgramHeader) (r : option Z) (x : Z) : option Z :=
  foldl (fun r ph => ph_byte elf ph x r) r phs.

(** A loadable header as the ELF specification asks for: the file part is not
    longer than the memory part, and offset and address agree within a page. *)
Record ph_ok (ph : ProgramHeader) : Prop := {
  pk_vaddr : 0 <= ph_vaddr ph;
  pk_end : ph_vaddr ph + ph_mem_size ph <= 2 ^ 48;
  pk_sizes : 0 <= ph_file_size ph <= ph_mem_size ph;
  pk_offset : 0 <= ph_offset ph /\ ph_offset ph + ph_file_size ph < 2 ^ 64;
  pk_congruent : ph_offset ph mod 4096 = ph_vaddr ph mod 4096;
}.

Definition range_pages (v vend : Z) : nat := Z.to_nat ((up 4096 vend - down 4096 v) / 4096).

Definition ph_pages (ph : ProgramHeader) : nat :=
  range_pages (ph_vaddr ph) (ph_vaddr ph + ph_mem_size ph).

Definition is_load (ph : ProgramHeader) : Prop := ph_load ph = true.

(** The bytes of the page at [page], of which [n] are replaced from [o]. *)
Definition page_patch (elf : Z -> Z) (src o n : Z) (b : Z -> Z) (i : Z) : Z :=
  if (o <=? i) && (i <? o + n) then elf (src + (i - o)) else b i.

(** A memory in which one page is [b]. *)
Definition with_page (m : Z -> option Z) (page : Z) (b : Z -> Z) (x : Z) : option Z :=
  if down 4096 x =? page then Some (b (x mod 4096)) else m x.

(** The bytes of a page that is new where [m] has none. *)
Definition page_of (m : Z -> option Z) (page i : Z) : Z := default 0 (m (page + i)).

(** What one iteration writes, and the rest of the segment. *)
Lemma segment_byte_step elf end_ vend o v m x :
  v < vend -> 0 <= v -> v + (end_ - o) <= vend \/ end_ <= o ->
  let n := if o <? end_ then Z.min (4096 - v mod 4096) (end_ - o) else 0 in
  segment_byte elf end_ vend o v x (m x) =
  segment_byte elf end_ vend (o + n) (v + (4096 - v mod 4096)) x
    (with_page m (down 4096 v) (page_patch elf o (v mod 4096) n (page_of m (down 4096 v))) x).
Proof.
  intros Hv Hv0 Hend n.
  assert (0 <= v mod 4096 < 4096) as Hm by (apply Z.mod_pos_bound; lia).
  assert (down 4096 v = v - v mod 4096) as Hd by (unfold down; dlia).
  unfold segment_byte, with_page, page_patch, page_of, on_pages.
  replace (down 4096 (v + (4096 - v mod 4096))) with (down 4096 v + 4096) by (unfold down; dlia).
  set (u := up 4096 vend).
  assert (vend <= u < vend + 4096) as Hup by (by apply up_bounds).
  assert (u mod 4096 = 0) as Hupm by (by apply up_mod). clearbody u. subst n.
  destruct (Z.eqb_spec (down 4096 x) (down 4096 v)) as [Hx|Hx].
  - assert (down 4096 v <= x < down 4096 v + 4096) as Hxr by (unfold down in *; dlia).
    assert (x mod 4096 = x - down 4096 v) as -> by (unfold down in *; dlia).
    replace (down 4096 v + (x - down 4096 v)) with x by lia.
    replace (v mod 4096) with (v - down 4096 v) in * by lia.
    assert (x < u) by (unfold down in *; dlia).
    destruct (Z.ltb_spec o end_); clear Hx;
    repeat match goal with
    | |- context [?a <? ?b] => destruct (Z.ltb_spec a b); simpl
    | |- context [?a <=? ?b] => destruct (Z.leb_spec a b); simpl
    end; try lia; try done; do 2 f_equal; lia.
  - assert (x < down 4096 v \/ down 4096 v + 4096 <= x) as Hxr by (unfold down in *; dlia).
    assert (v + (4096 - v mod 4096) < vend \/ u <= down 4096 v + 4096) as Hlast
      by (unfold down in *; dlia).
    assert (v mod 4096 = v - down 4096 v) as E by lia. rewrite E in *. clear E Hx.
    destruct (Z.ltb_spec o end_);
    repeat match goal with
    | |- context [?a <? ?b] => destruct (Z.ltb_spec a b); simpl
    | |- context [?a <=? ?b] => destruct (Z.leb_spec a b); simpl
    end; try lia; try done; do 2 f_equal; lia.
Qed.

Lemma segment_byte_done elf end_ vend o v x r :
  vend <= v -> v + (end_ - o) <= vend \/ end_ <= o ->
  segment_byte elf end_ vend o v x r = r.
Proof.
  intros Hv Hend. unfold segment_byte, on_pages.
  destruct (Z.leb_spec v x), (Z.ltb_spec x (v + (end_ - o))), (Z.ltb_spec v vend); simpl; done || lia.
Qed.

Lemma range_pages_step v vend :
  v < vend -> 0 <= v ->
  range_pages v vend = S (range_pages (v + (4096 - v mod 4096)) vend).
Proof.
  intros Hv H0. unfold range_pages.
  assert (down 4096 (v + (4096 - v mod 4096)) = down 4096 v + 4096) as -> by (unfold down; dlia).
  pose proof (up_bounds 4096 vend ltac:(lia)). pose proof (up_mod 4096 vend ltac:(lia)).
  set (u := up 4096 vend) in *. clearbody u. unfold down. dlia.
Qed.

(** ** Mapping over a page the record still has *)

(** [load_elf] unmaps a page it takes again with [frame_unmap], which leaves the
    page in [mapped_page]. *)
Definition forget (va : Z) (t : Sel4Task) : Sel4Task :=
  set_mapped_page (delete va (t_mapped_page t)) t.

Section forget.
Context `{K : Sel4}.

Lemma map_table_forget vspace va t ak s' :
  map_table vspace va (forget va t, ak) = Ret (tt, s') ->
  exists t', s'.1 = forget va t' /\ t_vspace t' = t_vspace t /\
    map_table vspace va (t, ak) = Ret (tt, (t', s'.2)).
Proof.
  unfold map_table. intros E. ibind E as c s1 E1. ibind E as [] s2 E2. injection E as <-.
  unfold t_alloc, t_kernel, zoom in E1, E2. simpl in E1.
  destruct (allocate_and_retyped_fixed_sized BpPT ak) as [[c' ak1]| | |] eqn:Ea; try done.
  injection E1 as -> <-. simpl in E2.
  destruct (kcall_unwrap (pt_map c vspace va) ak1.2) as [[u k2]| | |] eqn:Ek; try done.
  injection E2 as _ <-. simpl.
  exists (set_mapped_pt (t_mapped_pt t ++ [c]) t). split; [done|]. split; [done|].
  unfold mbind, M_bind, t_alloc, t_kernel, zoom. simpl. rewrite Ea. simpl. by rewrite Ek.
Qed.

Lemma map_page_loop_forget n va p : forall t ak s',
  map_page_loop n va p (forget va t, ak) = Ret (tt, s') ->
  t_mapped_page s'.1 !! va = Some p -> map_page_loop n va p (t, ak) = Ret (tt, s').
Proof.
  induction n as [|n IH]; intros t ak s' E Hp; cbn [map_page_loop] in *.
  - injection E as <-. simpl in Hp. by rewrite lookup_delete_eq in Hp.
  - ibind E as v s1 E1. injection E1 as <- <-. ibind E as r s2 E2.
    unfold t_kernel, zoom, kcall in E2. simpl in E2.
    destruct (frame_map p (t_vspace t) va rights_all ak.2) as [r' k'] eqn:Ef.
    injection E2 as -> <-.
    unfold mbind at 1, M_bind, gets. unfold mbind at 1, M_bind, t_kernel, zoom, kcall. simpl.
    rewrite Ef. simpl. destruct r as [u|[]]; try done.
    + unfold t_modify, modify in *. injection E as <-. simpl. do 2 f_equal.
      unfold set_mapped_page, forget. simpl. by rewrite insert_delete_eq.
    + ibind E as [] s3 E3. simpl in E3.
      apply map_table_forget in E3 as (t' & E1 & Ev & E3).
      rewrite (bind_Ret _ _ _ _ _ E3). destruct s3 as [t3 ak3]. simpl in E1. subst t3.
      by apply IH.
Qed.

Lemma map_page_forget va p t ak s' :
  map_page va p (forget va t, ak) = Ret (tt, s') ->
  t_mapped_page s'.1 !! va = Some p -> map_page va p (t, ak) = Ret (tt, s').
Proof.
  unfold map_page. intros E Hp. ibind E as [] s1 E1.
  unfold assert in *. destruct (va mod PAGE_SIZE =? 0); [|done]. injection E1 as <-.
  unfold mbind, M_bind, mret, M_ret. by apply map_page_loop_forget.
Qed.
End forget.

(** ** One page *)

Section load.
Context `{L : Sel4Laws} (seat : Z) (vs : VS) (t0 : Sel4Task) (a0 : ObjectAllocator) (k0 : kstate).
Context (Hvs : vs <> own_vs) (Hslot : ~ alloc_range a0 SLOT_VSPACE).

(** The task [t0] after some pages were loaded: its record is the local page
    map, its memory is [m], and its frames are its own, none was there before. *)
Record elf_state (local : gmap Z CPtr) (m : Z -> option Z) (t : Sel4Task)
    (a : ObjectAllocator) (k : kstate) : Prop := {
  es_task : exists pts, t = set_mapped_page local (set_mapped_pt pts t0);
  es_ok : task_ok vs t a k;
  es_grows : grows vs (fun _ => True) a0 a k0 k;
  es_seat : seat_free seat k;
  es_distinct : pages_distinct k vs;
  es_fresh va f o : translate k vs va = Some f -> fresh_bytes a0 k0 f o;
  es_own va c : local !! va = Some c -> alloc_range a0 c;
  es_bytes x : user_byte k vs x = m x;
}.

(** A frame of the task's own that is not mapped, with the bytes [b]. *)
Record free_page (p : CPtr) (f : Frame) (b : Z -> Z) (a : ObjectAllocator) (k : kstate) : Prop := {
  fp_frame : cap_frame k p = Some f;
  fp_mapping : cap_mapping k p = None;
  fp_slot : ~ alloc_range a p;
  fp_own : alloc_range a0 p;
  fp_fresh o : fresh_bytes a0 k0 f o;
  fp_unused va : translate k vs va <> Some f;
  fp_bytes i : 0 <= i < 4096 -> fbyte k f i = b i;
}.

Definition without_page (m : Z -> option Z) (page x : Z) : option Z :=
  if down 4096 x =? page then None else m x.

Lemma elf_state_frame local m t a a' k k' :
  elf_state local m t a k -> task_ok vs t a' k' -> grows vs (fun _ => True) a0 a' k0 k' ->
  seat_free seat k' -> (forall va, translate k' vs va = translate k vs va) ->
  (forall va f o, translate k vs va = Some f -> fbyte k' f o = fbyte k f o) ->
  elf_state local m t a' k'.
Proof.
  intros [E1 E2 E3 E4 E5 E6 E7 E8] Hok HG HS HT HB. split; try done.
  - intros va va' f. rewrite !HT. apply E5.
  - intros va f o. rewrite HT. apply E6.
  - intros x. rewrite <- E8. unfold user_byte. rewrite HT.
    destruct (translate k vs (down 4096 x)) as [f|] eqn:Et; [|done]. simpl. f_equal. by eapply HB.
Qed.

Lemma elf_state_ext local m m' t a k :
  (forall x, m x = m' x) -> elf_state local m t a k -> elf_state local m' t a k.
Proof. intros Hm [E1 E2 E3 E4 E5 E6 E7 E8]. split; try done. intros x. by rewrite E8. Qed.

Lemma grows_more P a a' k k' :
  grows vs (fun _ => True) a0 a k0 k -> grows vs P a a' k k' ->
  grows vs (fun _ => True) a0 a' k0 k'.
Proof. intros G1 G2. eapply grows_trans; [exact G1|]. eapply grows_weaken, G2. done. Qed.

Lemma elf_vspace_slot local m t a k : elf_state local m t a k -> ~ alloc_range a SLOT_VSPACE.
Proof. intros E. destruct (es_grows _ _ _ _ _ E) as [[j ->] _]. by intros ?%alloc_range_bump. Qed.

(** A page of an earlier segment is taken out of the address space again. *)
Lemma wp_take_page local m t a k page p n :
  elf_state local m t a k -> local !! page = Some p -> alloc_ok n (a, k) ->
  wp (t_kernel (kcall_unwrap (frame_unmap p)) ;; mret p)
     (fun c s' => c = p /\ exists f k', s' = (t, (a, k')) /\ alloc_ok n (a, k') /\
        elf_state (delete page local) (without_page m page) (forget page t) a k' /\
        free_page p f (page_of m page) a k') (t, (a, k)).
Proof.
  intros HE Hp HA. pose proof HE as [(pts & ->) E2 E3 E4 E5 E6 E7 E8].
  destruct (to_page _ _ _ _ E2 page p Hp) as (Hal & Hva & Hr & Hm & f & Hf & Ht).
  destruct (frame_unmap_ok k p f vs page Hf Hm) as (k' & Ek & Ht' & Hm' & Hf' & _ & HSA & D).
  wp_step. unfold t_kernel. wp_step. simpl. eapply wp_kcall_unwrap; [exact Ek|].
  apply wp_ret. split; [done|]. exists f, k'. split; [done|].
  assert (forall va, va <> page -> translate k' vs va = translate k vs va) as HT
    by (intros va Hne; apply (kd_trans _ _ _ _ _ D); unfold only2; naive_solver).
  assert (forall g o, fbyte k' g o = fbyte k g o) as HB
    by (intros g o; apply (kd_bytes _ _ _ _ _ D); by intros []).
  assert (forall va g, translate k' vs va = Some g -> va <> page /\ translate k vs va = Some g) as HT'.
  { intros va g Hg. destruct (decide (va = page)) as [->|Hne]; [congruence|]. by rewrite <- HT. }
  split_and!.
  - eapply alloc_ok_kdiff; [exact D|done| |exact HA]. by intros c ->.
  - split.
    + by exists pts.
    + by apply (task_ok_unmapped vs _ a k k' page p).
    + destruct E3 as [HJ D0]. split; [done|]. eapply kdiff_trans; [exact D0|].
      eapply kdiff_weaken, D; [intros c ->; by eapply E7|by intros v va [-> ->]|by intros ? ? []].
    + eapply seat_free_kdiff; [exact E4|exact D| |].
      * intros E. unfold only in E. pose proof (so_vs _ _ E4) as Hv. rewrite E in Hv.
        apply frame_not_vs in Hf. congruence.
      * rewrite (kd_trans _ _ _ _ _ D); [apply E4|]. intros [E _]. congruence.
    + intros va va' g [_ H1]%HT' [_ H2]%HT'. by eapply E5.
    + intros va g o [_ Hg]%HT'. by eapply E6.
    + intros va c [_ Hc]%lookup_delete_Some. by eapply E7.
    + intros x. unfold user_byte, without_page. destruct (Z.eqb_spec (down 4096 x) page) as [->|Hne].
      * by rewrite Ht'.
      * rewrite HT by done. rewrite <- E8. unfold user_byte.
        destruct (translate k vs (down 4096 x)); [|done]. simpl. by rewrite HB.
  - split; try done.
    + by eapply E7.
    + intros o. by eapply E6.
    + intros va Hg. apply HT' in Hg as [Hne Hg]. by apply Hne, (E5 _ _ f).
    + intros i Hi. rewrite HB. unfold page_of. rewrite <- E8. unfold user_byte.
      unfold page_aligned in Hal. assert (down 4096 (page + i) = page /\ (page + i) mod 4096 = i) as [-> ->] by (unfold down; dlia).
      by rewrite Ht.
Qed.

(** A page that no segment has used yet gets a new, zeroed frame. *)
Lemma wp_new_frame local m t a k page n :
  elf_state local m t a k -> local !! page = None -> page_aligned page ->
  alloc_ok (S n) (a, k) ->
  wp (t_alloc (allocate_and_retyped_fixed_sized BpGranule))
     (fun p s' => exists f k', s' = (t, (bump a, k')) /\ alloc_ok n (bump a, k') /\
        elf_state (delete page local) (without_page m page) (forget page t) (bump a) k' /\
        free_page p f (page_of m page) (bump a) k') (t, (a, k)).
Proof.
  intros HE Hp Hal HA. pose proof HE as [(pts & ->) E2 E3 E4 E5 E6 E7 E8].
  pose proof (ao_range _ _ HA) as [_ Hr]. simpl in Hr.
  assert (slots_start a < slots_end a) as Hlt by lia.
  assert (forall x, down 4096 x = page -> m x = None) as Hm0.
  { intros x Hx. rewrite <- E8. unfold user_byte.
    by rewrite Hx, (to_unmapped _ _ _ _ E2 page Hp). }
  unfold t_alloc. wp_step. simpl. apply (wp_allocate _ _ _ _ _ HA). intros k1 HA1 HR _ _. simpl.
  pose proof (retyped_grows vs _ _ _ _ Hlt HR) as HG.
  destruct HR as (f & Hf & Hm & Hnew & Htr & Hz & D).
  exists f, k1. split; [done|]. split; [done|].
  assert (forall va, translate k1 vs va = translate k vs va) as HT
    by (intros va; apply (kd_trans _ _ _ _ _ D); by intros []).
  split.
  - rewrite delete_id by done. unfold forget. simpl. rewrite (delete_id _ _ Hp).
    apply (elf_state_ext _ m).
    { intros x. unfold without_page. destruct (Z.eqb_spec (down 4096 x) page); auto. }
    apply (elf_state_frame _ _ _ a _ k); try done.
    + by apply (task_ok_grows_nowhere vs _ a _ k).
    + by eapply grows_more.
    + eapply seat_free_grows; [done|by eapply elf_vspace_slot|exact Hvs|exact HG].
    + intros va g o Hg. apply (kd_bytes _ _ _ _ _ D). intros ->. by apply (Htr vs va).
  - split; try done.
    + unfold alloc_range. simpl. lia.
    + destruct E3 as [[j ->] _]. apply (alloc_range_bump j). unfold alloc_range. simpl in *. lia.
    + intros o c Hc. destruct E3 as [_ D0]. rewrite <- (kd_frame _ _ _ _ _ D0) by done. apply Hnew.
    + intros va. rewrite HT. apply Htr.
    + intros i Hi. rewrite Hz. unfold page_of. rewrite Hm0; [done|].
      unfold page_aligned in Hal. unfold down. dlia.
Qed.

(** Writing the frame through the seat. *)
Lemma page_filled_state local m t a k k' p f b b' :
  elf_state local m t a k -> free_page p f b a k -> page_filled p f k k' -> seat_free seat k' ->
  (forall i, 0 <= i < 4096 -> fbyte k' f i = b' i) ->
  elf_state local m t a k' /\ free_page p f b' a k'.
Proof.
  intros HE [F1 F2 F3 F4 F5 F6 F7] HP HS Hb. pose proof HP as (Hf' & Hm' & HSA & D).
  assert (forall va, translate k' vs va = translate k vs va) as HT
    by (intros va; apply (kd_trans _ _ _ _ _ D); by intros []).
  split.
  - apply (elf_state_frame _ _ _ a _ k); try done.
    + eapply page_filled_task; [apply (es_ok _ _ _ _ _ HE)|exact F1|exact F2|exact HP].
    + destruct (es_grows _ _ _ _ _ HE) as [HJ D0]. split; [done|].
      eapply kdiff_trans; [exact D0|].
      eapply kdiff_weaken, D; [by intros c ->|by intros ? ? []|by intros g o ->].
    + intros va g o Hg. apply (kd_bytes _ _ _ _ _ D). intros ->. by apply (F6 va).
  - split; try done. intros va. by rewrite HT.
Qed.

Lemma page_of_with m page b x :
  page_aligned page -> down 4096 x = page -> with_page m page b x = Some (b (x mod 4096)).
Proof. intros Hal Hx. unfold with_page. by rewrite Hx, Z.eqb_refl. Qed.

(** Mapping the frame at its page. *)
Lemma wp_map_free local m t a k page p f b n :
  elf_state (delete page local) (without_page m page) (forget page t) a k ->
  free_page p f b a k -> page_aligned page -> 0 <= page < 2 ^ 48 ->
  alloc_ok (Z.to_nat NUM_LEVELS - 1 + n) (a, k) ->
  wp (map_page page p)
     (fun _ s' => elf_state (<[page := p]> local) (with_page m page b) s'.1 s'.2.1 s'.2.2 /\
        alloc_ok n s'.2) (t, (a, k)).
Proof.
  intros [(pts & Et) E2 E3 E4 E5 E6 E7 E8] [F1 F2 F3 F4 F5 F6 F7] Hal Hpg HA.
  destruct (wp_map_page vs n (forget page t) a k page p f) as ([] & s' & E & PM); try done.
  { apply lookup_delete_eq. }
  pose proof PM as (pts' & k1 & Es & G1 & D2 & Hok & HA' & Htp).
  exists tt, s'. split.
  { apply map_page_forget; [exact E|]. rewrite Es. apply lookup_insert_eq. }
  split; [|done]. pose proof G1 as [_ D1].
  assert (forall va, va <> page -> translate s'.2.2 vs va = translate k vs va) as HT.
  { intros va Hne. rewrite (kd_trans _ _ _ _ _ D2) by (unfold only2; naive_solver).
    apply (kd_trans _ _ _ _ _ D1). by intros [_ []]. }
  assert (forall va g o, translate k vs va = Some g -> fbyte s'.2.2 g o = fbyte k g o) as HB.
  { intros va g o Hg. destruct (task_translated _ _ _ _ _ _ E2 Hg) as (c & _ & Hc & Hcg).
    rewrite (kd_bytes _ _ _ _ _ D2) by by intros [].
    apply (kd_bytes _ _ _ _ _ D1). intros HF. by apply (HF c). }
  split.
  - exists pts'. rewrite Es, Et. simpl. unfold set_mapped_page, set_mapped_pt. simpl.
    by rewrite insert_delete_eq.
  - done.
  - pose proof (grows_more _ _ _ _ _ E3 G1) as [HJ D0]. split; [done|].
    eapply kdiff_trans; [exact D0|].
    eapply kdiff_weaken, D2; [by intros c ->|by intros ? ? [-> ->]|by intros ? ? []].
  - pose proof (seat_free_grows seat vs nowhere1 a s'.2.1 k k1 E4) as S1.
    assert (~ alloc_range a SLOT_VSPACE) as Hv
      by (destruct E3 as [[j ->] _]; by intros ?%alloc_range_bump).
    specialize (S1 Hv Hvs G1).
    eapply seat_free_kdiff; [exact S1|exact D2| |].
    + intros Ev. unfold only in Ev. pose proof (so_vs _ _ S1) as Hc.
      rewrite Ev, (kd_vs _ _ _ _ _ D1) in Hc by done. apply frame_not_vs in F1. congruence.
    + rewrite (kd_trans _ _ _ _ _ D2); [apply S1|]. intros [Eq _]. congruence.
  - intros va va' g H1 H2.
    destruct (decide (va = page)) as [->|Hne], (decide (va' = page)) as [->|Hne'];
      [done|rewrite HT in H2 by done|rewrite HT in H1 by done
      |rewrite HT in H1, H2 by done; by eapply E5].
    + exfalso. apply (F6 va'). congruence.
    + exfalso. apply (F6 va). congruence.
  - intros va g o Hg. destruct (decide (va = page)) as [->|Hne].
    + rewrite Htp in Hg. injection Hg as <-. apply F5.
    + rewrite HT in Hg by done. by eapply E6.
  - intros va c. rewrite lookup_insert_Some. intros [[_ <-]|[Hne Hc]]; [done|].
    apply (E7 va). by rewrite lookup_delete_ne.
  - intros x. unfold with_page, user_byte. destruct (Z.eqb_spec (down 4096 x) page) as [->|Hne].
    + rewrite Htp. simpl. f_equal.
      rewrite (page_mapped_bytes _ _ _ _ _ _ _ _ _ _ PM F1 F3). apply F7, Z.mod_pos_bound. lia.
    + rewrite HT by done. specialize (E8 x). unfold without_page, user_byte in E8.
      apply Z.eqb_neq in Hne. rewrite Hne in E8. rewrite <- E8.
      destruct (translate k vs (down 4096 x)) as [g|] eqn:Eg; [|done]. simpl. f_equal. by eapply HB.
Qed.

(** Copying the segment's bytes into the frame. *)
Lemma wp_fill_page local m t a k p f elf src o n b :
  elf_state local m t a k -> free_page p f b a k -> 0 <= o -> 0 <= n -> o + n <= 4096 ->
  src mod PAGE_SIZE = o ->
  wp (kcall_unwrap (frame_map p SLOT_VSPACE seat rights_all) ;;
      store_bytes (wrap64 (seat + src mod PAGE_SIZE)) (host_bytes elf src n) ;;
      kcall_unwrap (frame_unmap p))
     (fun _ k' => page_filled p f k k' /\ elf_state local m t a k' /\
        free_page p f (page_patch elf src o n b) a k') k.
Proof.
  intros HE HF Ho Hn Hon Hsrc. pose proof (es_seat _ _ _ _ _ HE) as S.
  pose proof HF as [F1 F2 F3 F4 F5 F6 F7].
  destruct (wp_seat_fill seat (fun (_ : unit) g => forall i, 0 <= i < 4096 ->
      g i = page_patch elf src o n b i)
    (store_bytes (wrap64 (seat + src mod PAGE_SIZE)) (host_bytes elf src n)) k p f)
    as ([] & k' & E & PF & S' & HB); try done.
  - intros k1 T1 B1. rewrite Hsrc.
    assert (0 <= seat < 2 ^ 48) as Hs by apply S.
    rewrite wrap64_small by (unfold is_u64; lia).
    apply (wp_store_bytes k1 f); [apply S|done|done|rewrite host_bytes_length; lia|].
    rewrite !host_bytes_length, Z2Nat.id by lia. intros k2 Hbs HSA D.
    split; [split; [done|]; eapply kdiff_weaken, D; naive_solver|].
    intros i Hi. unfold page_patch.
    destruct (Z.leb_spec o i), (Z.ltb_spec i (o + n)); simpl;
      try (rewrite (kd_bytes _ _ _ _ _ D), B1 by (intros [_ ?]; lia); by apply F7).
    pose proof (frame_bytes_lookup k2 f o (Z.to_nat n) (i - o)) as E1.
    rewrite Hbs, host_bytes_lookup in E1 by lia.
    replace (o + (i - o)) with i in E1 by lia. specialize (E1 ltac:(lia)). congruence.
  - intros [] g g' Hg HR i Hi. rewrite Hg. by apply HR.
  - exists tt, k'. split.
    + ibind E as [] s1 E1. ibind E as [] s2 E2. ibind E as [] s3 E3. injection E as <-.
      rewrite (bind_Ret _ _ _ _ _ E1), (bind_Ret _ _ _ _ _ E2). exact E3.
    + split; [done|]. by apply (page_filled_state _ _ _ _ k _ _ _ b).
Qed.

(** The number of bytes one iteration copies. *)
Definition copy_size (end_ o v : Z) : Z :=
  if o <? end_ then Z.min (4096 - v mod 4096) (end_ - o) else 0.

(** The frame for a page, from the local map or new. *)
Lemma wp_page_frame local m t a k page n :
  elf_state local m t a k -> page_aligned page -> alloc_ok (S n) (a, k) ->
  wp (match local !! page with
      | Some page_cap => t_kernel (kcall_unwrap (frame_unmap page_cap)) ;; mret page_cap
      | None => t_alloc (allocate_and_retyped_fixed_sized BpGranule)
      end)
     (fun p s' => exists f a1 k1, s' = (t, (a1, k1)) /\ alloc_ok n (a1, k1) /\
        elf_state (delete page local) (without_page m page) (forget page t) a1 k1 /\
        free_page p f (page_of m page) a1 k1) (t, (a, k)).
Proof.
  intros HE Hal HA. destruct (local !! page) as [p|] eqn:Ep.
  - eapply wp_mono; [apply (wp_take_page local m t a k page p _ HE Ep
      (alloc_ok_le _ _ _ (Nat.le_succ_diag_r _) HA))|].
    intros c s' (-> & f & k' & ? & ? & ? & ?). eauto 10.
  - eapply wp_mono; [apply (wp_new_frame local m t a k page _ HE Ep Hal HA)|].
    intros p s' (f & k' & ? & ? & ? & ?). eauto 10.
Qed.

(** The copy, when the file has bytes left for the page. *)
Lemma wp_page_copy local m t t' a k p f elf end_ o v b n :
  elf_state local m t' a k -> free_page p f b a k -> 0 <= o -> end_ < 2 ^ 64 -> o < 2 ^ 64 ->
  (o < end_ -> o mod 4096 = v mod 4096) -> alloc_ok n (a, k) ->
  wp (if o <? end_ then
        t_kernel (
          kcall_unwrap (frame_map p SLOT_VSPACE seat rights_all) ;;
          store_bytes (wrap64 (seat + o mod PAGE_SIZE))
            (host_bytes elf o (Z.min (PAGE_SIZE - v mod PAGE_SIZE) (end_ - o))) ;;
          kcall_unwrap (frame_unmap p)) ;;
        mret (wrap64 (o + Z.min (PAGE_SIZE - v mod PAGE_SIZE) (end_ - o)))
      else mret o)
     (fun o' s' => exists k', o' = o + copy_size end_ o v /\ s' = (t, (a, k')) /\
        alloc_ok n (a, k') /\ elf_state local m t' a k' /\
        free_page p f (page_patch elf o (v mod 4096) (copy_size end_ o v) b) a k') (t, (a, k)).
Proof.
  intros HE HF Ho Hend Ho64 Hc HA. unfold copy_size.
  assert (0 <= v mod 4096 < 4096) as Hm by (apply Z.mod_pos_bound; lia).
  destruct (Z.ltb_spec o end_) as [Hoe|Hoe].
  - unfold t_kernel. wp_step. wp_step. simpl. eapply wp_mono.
    + apply (wp_fill_page _ _ _ _ _ _ _ elf o (v mod 4096)
        (Z.min (PAGE_SIZE - v mod PAGE_SIZE) (end_ - o)) _ HE HF); rewrite ?PAGE_SIZE_eq; auto; lia.
    + intros [] k2 (PF & HE2 & HF2). apply wp_ret. exists k2. rewrite PAGE_SIZE_eq in *.
      rewrite wrap64_small by (unfold is_u64; lia). split_and!; try done.
      eapply page_filled_alloc; [apply (fp_slot _ _ _ _ _ HF)|exact PF|done].
  - apply wp_ret. exists k. split_and!; try done; [lia|].
    destruct HF. split; try done. intros i Hi. unfold page_patch.
    destruct (Z.leb_spec (v mod 4096) i), (Z.ltb_spec i (v mod 4096 + 0)); simpl; auto; lia.
Qed.

(** ** The loop over the pages of a segment *)

Lemma wp_load_segment_loop elf end_ vend fuel : forall n local m t a k o v,
  elf_state local m t a k -> 0 <= v -> vend <= 2 ^ 48 -> 0 <= o -> end_ < 2 ^ 64 ->
  v + (end_ - o) <= vend \/ end_ <= o -> (o < end_ -> o mod 4096 = v mod 4096) -> o < 2 ^ 64 ->
  (range_pages v vend < fuel)%nat ->
  alloc_ok (range_pages v vend * Z.to_nat NUM_LEVELS + n) (a, k) ->
  wp (load_segment_loop seat fuel elf end_ vend o v local)
     (fun local' s' => elf_state local' (fun x => segment_byte elf end_ vend o v x (m x))
        s'.1 s'.2.1 s'.2.2 /\ alloc_ok n s'.2) (t, (a, k)).
Proof.
  induction fuel as [|fuel IH]; intros n local m t a k o v HE Hv Hvend Ho Hend Hb Hc Ho64 Hfuel HA;
    [lia|].
  cbn [load_segment_loop]. destruct (Z.ltb_spec v vend) as [Hlt|Hge].
  2:{ apply wp_ret. split; [|eapply alloc_ok_le, HA; lia]. eapply elf_state_ext, HE.
      intros x. by rewrite segment_byte_done. }
  pose proof (levels_range k vs 0) as HL. rewrite range_pages_step in HA, Hfuel by done.
  set (v' := v + (4096 - v mod 4096)) in *.
  set (rest := (range_pages v' vend * Z.to_nat NUM_LEVELS + n)%nat).
  assert (0 <= v mod 4096 < 4096) as Hm by (apply Z.mod_pos_bound; lia).
  assert (v / PAGE_SIZE * PAGE_SIZE = down 4096 v) as -> by (rewrite PAGE_SIZE_eq; unfold down; dlia).
  assert (page_aligned (down 4096 v)) as Hal by by apply down_mod.
  assert (0 <= down 4096 v < 2 ^ 48) as Hpg by (unfold down; dlia).
  assert (alloc_ok (S (Z.to_nat NUM_LEVELS - 1 + rest)) (a, k)) as HA1
    by (eapply alloc_ok_le, HA; unfold rest; lia).
  wp_step. eapply wp_mono; [apply (wp_page_frame _ _ _ _ _ _ _ HE Hal HA1)|].
  intros p s' (f & a1 & k1 & -> & HA2 & HE1 & HF1).
  wp_step. eapply wp_mono.
  { apply (wp_page_copy _ _ t _ _ _ _ _ elf end_ o v _ _ HE1 HF1 Ho Hend Ho64 Hc HA2). }
  intros o' s' (k2 & -> & -> & HA3 & HE2 & HF2).
  wp_step. eapply wp_mono; [apply (wp_map_free _ _ _ _ _ _ _ _ _ _ HE2 HF2 Hal Hpg HA3)|].
  intros [] [t3 [a3 k3]] [HE3 HA4]. simpl in HE3, HA4.
  rewrite insert_delete_eq, PAGE_SIZE_eq. fold v'. rewrite wrap64_small by (unfold is_u64, v'; lia).
  assert (forall P : Z -> Prop, (o < end_ -> P (Z.min (4096 - v mod 4096) (end_ - o))) ->
    (end_ <= o -> P 0) -> P (copy_size end_ o v)) as Hcase
    by (intros P H1 H2; unfold copy_size; destruct (Z.ltb_spec o end_); auto).
  eapply wp_mono; [apply (IH n); try exact HE3; try done; try lia; try (unfold v'; lia)|].
  - pattern (copy_size end_ o v). apply Hcase; lia.
  - pattern (copy_size end_ o v). unfold v'. apply Hcase; lia.
  - pattern (copy_size end_ o v). unfold v'. apply Hcase; [|lia].
    intros Hoe Hlt'. specialize (Hc Hoe). dlia.
  - pattern (copy_size end_ o v). apply Hcase; lia.
  - intros local' s' [HE4 HA5]. split; [|done]. eapply elf_state_ext, HE4.
    intros x. symmetry. by apply segment_byte_step.
Qed.

Lemma wp_load_segment elf ph n local m t a k :
  elf_state local m t a k -> ph_ok ph ->
  alloc_ok (ph_pages ph * Z.to_nat NUM_LEVELS + n) (a, k) ->
  wp (load_segment seat elf ph local)
     (fun local' s' => elf_state local' (fun x => ph_byte elf ph x (m x)) s'.1 s'.2.1 s'.2.2 /\
        alloc_ok n s'.2) (t, (a, k)).
Proof.
  intros HE [P1 P2 P3 P4 P5] HA. unfold load_segment, ph_byte.
  rewrite !wrap64_small by (unfold is_u64; lia).
  apply wp_load_segment_loop; try done; try lia.
  set (v := ph_vaddr ph) in *. set (vend := v + ph_mem_size ph) in *.
  assert (v <= vend) as Hle by lia. unfold range_pages.
  pose proof (up_bounds 4096 vend ltac:(lia)) as Hu. rewrite PAGE_SIZE_eq.
  set (u := up 4096 vend) in *. clearbody u vend. unfold down. dlia.
Qed.

Definition elf_pages (phs : list ProgramHeader) : nat := sum_list_with ph_pages phs.

Lemma wp_load_segments elf phs : forall n local m t a k,
  elf_state local m t a k -> Forall ph_ok phs ->
  alloc_ok (elf_pages phs * Z.to_nat NUM_LEVELS + n) (a, k) ->
  wp (load_segments seat elf phs local)
     (fun _ s' => exists local',
        elf_state local' (fun x => elf_byte elf phs (m x) x) s'.1 s'.2.1 s'.2.2 /\
        alloc_ok n s'.2) (t, (a, k)).
Proof.
  induction phs as [|ph phs IH]; intros n local m t a k HE Hphs HA; cbn [load_segments].
  - apply wp_ret. exists local. split; [exact HE|done].
  - apply Forall_cons in Hphs as [Hph Hphs]. wp_step. eapply wp_mono.
    + apply (wp_load_segment elf ph (elf_pages phs * Z.to_nat NUM_LEVELS + n) _ _ _ _ _ HE Hph).
      eapply alloc_ok_le, HA. unfold elf_pages. simpl. lia.
    + intros local' [t1 [a1 k1]] [HE1 HA1].
      eapply wp_mono; [apply (IH n _ _ _ _ _ HE1 Hphs HA1)|]. intros [] s' HQ. exact HQ.
Qed.

Lemma elf_state_init :
  task_ok vs t0 a0 k0 -> t_mapped_page t0 = ∅ -> seat_free seat k0 ->
  elf_state ∅ (fun _ => None) t0 a0 k0.
Proof.
  intros Hok Hempty HS.
  assert (forall va, translate k0 vs va = None) as HT.
  { intros va. apply (to_unmapped _ _ _ _ Hok). by rewrite Hempty. }
  split; try done.
  - exists (t_mapped_pt t0). rewrite <- Hempty. by destruct t0.
  - apply grows_refl.
  - intros va va' f. by rewrite HT.
  - intros va f o. by rewrite HT.
  - intros x. unfold user_byte. by rewrite HT.
Qed.

Lemma wp_load_elf elf phs n :
  task_ok vs t0 a0 k0 -> t_mapped_page t0 = ∅ -> seat_free seat k0 ->
  Forall ph_ok (filter is_load phs) ->
  alloc_ok (elf_pages (filter is_load phs) * Z.to_nat NUM_LEVELS + n) (a0, k0) ->
  wp (load_elf seat elf (Some phs))
     (fun _ s' => exists local,
        elf_state local (elf_byte elf (filter is_load phs) None) s'.1 s'.2.1 s'.2.2 /\
        alloc_ok n s'.2) (t0, (a0, k0)).
Proof.
  intros Hok Hempty HS Hphs HA. unfold load_elf. wp_step. apply wp_unwrap.
  by apply (wp_load_segments elf _ n ∅ (fun _ => None)); [apply elf_state_init|..].
Qed.

End load.

(** What [load_elf] needs: a task without pages, the free page seat, headers as
    the ELF specification asks for, and capability slots and memory for the
    pages and their translation tables. *)
Record elf_pre `{Sel4View} (seat : Z) (vs : VS) (t : Sel4Task) (a : ObjectAllocator)
    (k : kstate) (phs : list ProgramHeader) : Prop := {
  ep_task : task_ok vs t a k;
  ep_empty : t_mapped_page t = ∅;
  ep_vs : vs <> own_vs;
  ep_seat : seat_free seat k;
  ep_slot : ~ alloc_range a SLOT_VSPACE;
  ep_headers : Forall ph_ok (filter is_load phs);
  ep_alloc : alloc_ok (elf_pages (filter is_load phs) * Z.to_nat NUM_LEVELS) (a, k);
}.

(** C8: [load_elf] gives a new task the memory the program headers describe.  It
    returns, and afterwards every byte of the task's address space is the one
    of the last loadable segment whose file part covers it, zero elsewhere on
    the pages of the segments, also when segments share a page, and unmapped
    everywhere else.  The task's record is exact, no frame is mapped twice, and
    the memory of every other task is unchanged. *)
Theorem load_elf_loads `{L : Sel4Laws} (seat : Z) (vs : VS) (t : Sel4Task)
    (a : ObjectAllocator) (k : kstate) (elf : Z -> Z) (phs : list ProgramHeader)
    (Hpre : elf_pre seat vs t a k phs) :
  wp (load_elf seat elf (Some phs))
     (fun _ s' =>
        (forall x, user_byte s'.2.2 vs x = elf_byte elf (filter is_load phs) None x) /\
        task_ok vs s'.1 s'.2.1 s'.2.2 /\ pages_distinct s'.2.2 vs /\ seat_free seat s'.2.2 /\
        (forall vs' t' x, vs' <> vs -> task_ok vs' t' a k ->
           task_ok vs' t' s'.2.1 s'.2.2 /\ user_byte s'.2.2 vs' x = user_byte k vs' x))
     (t, (a, k)).
Proof.
  destruct Hpre as [H1 H2 H3 H4 H5 H6 H7].
  eapply wp_mono; [apply (wp_load_elf seat vs t a k H3 H5 elf phs 0); try done; by rewrite Nat.add_0_r|].
  intros [] s' (local & HE & _). destruct HE as [E1 E2 E3 E4 E5 E6 E7 E8].
  split_and!; try done. intros vs' t' x Hne Hok'. split.
  - by eapply task_ok_other.
  - by eapply grows_user_other.
Qed.

(** A file with two segments that share a page: six bytes of code, and two
    bytes of data followed by zeroed memory that reaches into the next page. *)
Definition ref_elf (o : Z) : Z := if o <? 0x20 then o + 1 else 0xff.
Definition ref_phs : list ProgramHeader :=
  [MkPh true 0x4 0x10004 6 6; MkPh false 0 0 0x40 0x40; MkPh true 0x10 0x10010 2 0x1000].
Definition ref_elf_task : Sel4Task := MkTask 0 2 14 15 13 [] ∅ 0x200000000 None None.

Lemma ref_elf_pre :
  @elf_pre ref_sel4 ref_view 0x7000 6 ref_elf_task (MkAllocator 50 1024 26) (ref_user 24) ref_phs.
Proof.
  pose proof (ref_umem_ok 24 50 1024 26 ltac:(lia)) as [_ S V].
  split; try done; try apply S.
  - split; cbn; try done; [unfold alloc_range; simpl; lia|].
    intros va _. by rewrite lookup_singleton_ne.
  - cbn. repeat constructor; vm_compute; intuition discriminate.
  - apply (ref_user_alloc_ok 12); vm_compute; intuition discriminate.
Qed.

Lemma load_elf_loads_witness :
  exists s', @load_elf ref_sel4 0x7000 ref_elf (Some ref_phs)
      (ref_elf_task, (MkAllocator 50 1024 26, ref_user 24)) = Ret (tt, s') /\
    @user_byte ref_sel4 ref_view s'.2.2 6 0x10005 = Some 6 /\
    @user_byte ref_sel4 ref_view s'.2.2 6 0x10011 = Some 0x12 /\
    @user_byte ref_sel4 ref_view s'.2.2 6 0x11008 = Some 0 /\
    @user_byte ref_sel4 ref_view s'.2.2 6 0x12000 = None.
Proof.
  destruct (@load_elf_loads ref_sel4 ref_view ref_laws 0x7000 6 ref_elf_task
              (MkAllocator 50 1024 26) (ref_user 24) ref_elf ref_phs ref_elf_pre)
    as ([] & s' & E & HB & _).
  exists s'. split; [exact E|]. rewrite !HB. vm_compute. split_and!; reflexivity.
Defined.
