(* ===== verification/ImageMap.v ===== *)
(** * Mapping program images ([crates/common/src/utils.rs])

    The footprint of an ELF image, its translation tables, and the pages that
    hold its segments.  The code is part of [root-task], which is built with
    overflow checks ([chk = true]), and of [kernel-thread], which is not. *)

From S2P Require Import Prelude Words Consts Sel4 Sel4Laws RefKernel ObjAllocator.

(** What the [object] crate yields for a segment: address, size in memory, file
    data, and the ELF flags ([None] for another format). *)
Record Segment := MkSegment {
  seg_addr : Z;
  seg_size : Z;
  seg_data : option (list Z);
  seg_flags : option Z;
}.

Definition PF_X : Z := 1.
Definition PF_W : Z := 2.
Definition PF_R : Z := 4.

Definition round_down (n b : Z) : Z := n - n mod b.

(** [usize::next_multiple_of] *)
Definition next_multiple_of (chk : bool) (n b : Z) : outcome Z :=
  if n mod b =? 0 then Ret n else add_chk chk n (b - n mod b).

Definition coarsen_footprint (chk : bool) (fp : Z * Z) (granularity : Z) : outcome (Z * Z) :=
  e ← next_multiple_of chk fp.2 granularity;
  mret (round_down fp.1 granularity, e).

(** [Range<usize>::len] *)
Definition range_len (fp : Z * Z) : Z := Z.max 0 (fp.2 - fp.1).

Fixpoint min_addr (segs : list Segment) : option Z :=
  match segs with
  | [] => None
  | s :: segs => Some (match min_addr segs with
                       | Some m => Z.min (seg_addr s) m
                       | None => seg_addr s
                       end)
  end.

Fixpoint max_end (chk : bool) (segs : list Segment) : outcome (option Z) :=
  match segs with
  | [] => mret None
  | s :: segs =>
      e ← add_chk chk (seg_addr s) (seg_size s);
      m ← max_end chk segs;
      mret (Some (match m with Some m => Z.max e m | None => e end))
  end.

Definition footprint (chk : bool) (segs : list Segment) : outcome (Z * Z) :=
  match min_addr segs with
  | None => Panic PUnwrap
  | Some min =>
      m ← max_end chk segs;
      match m with
      | None => Panic PUnwrap
      | Some max => coarsen_footprint chk (min, max) GRANULE_SIZE
      end
  end.

Section image.
Context `{K : Sel4} (chk : bool).

(** [CapRightsBuilder] and the rights it builds are the same value here. *)
Definition add_rights (rights : CapRights) (flags : option Z) : outcome CapRights :=
  match flags with
  | Some p_flags =>
      let rights := if negb (Z.land p_flags PF_R =? 0) then rights_read true rights else rights in
      let rights := if negb (Z.land p_flags PF_W =? 0) then rights_write true rights else rights in
      let rights := if negb (Z.land p_flags PF_X =? 0) then rights_grant true rights else rights in
      Ret rights
  | None => Panic PTodo
  end.

(** One table of a level. *)
Definition map_one_table (vspace : CPtr) (level addr : Z) : M AK unit :=
  bp ← unwrap (table_blueprint level);
  pt ← allocate_and_retype bp;
  in_kernel (kcall_unwrap (table_map level pt vspace addr)).

Definition map_level (vspace : CPtr) (fp : Z * Z) (level : Z) : M AK unit :=
  let span_bytes := Z.shiftl 1 (span_bits level) in
  fl ← lift (coarsen_footprint chk fp span_bytes);
  for_each (fun i =>
      off ← lift (mul_chk chk i span_bytes);
      addr ← lift (add_chk chk fl.1 off);
      map_one_table vspace level addr)
    (seqZ 0 (range_len fl / span_bytes)).

Definition map_intermediate_translation_tables (vspace : CPtr) (fp : Z * Z) : M AK unit :=
  for_each (map_level vspace fp) (seqZ 1 (NUM_LEVELS - 1)).

(** The pages of the footprint, all with full rights at first. *)
Fixpoint alloc_pages (n : nat) : M AK (list (CPtr * CapRights)) :=
  match n with
  | O => mret []
  | S n =>
      c ← allocate_and_retyped_fixed_sized BpGranule;
      ps ← alloc_pages n;
      mret ((c, rights_all) :: ps)
  end.

(** [pages[from..][..n]], as the index of the first element. *)
Definition check_slice {A} (l : list A) (from n : Z) : outcome unit :=
  if (from <=? Z.of_nat (length l)) && (n <=? Z.of_nat (length l) - from)
  then Ret tt else Panic PIndex.

(** The first loop over the pages of a segment. *)
Fixpoint widen_rights (flags : option Z) (pages : list (CPtr * CapRights)) (from n : nat) :
    outcome (list (CPtr * CapRights)) :=
  match n with
  | O => mret pages
  | S n =>
      match pages !! from with
      | Some (c, r) =>
          r' ← add_rights r flags;
          widen_rights flags (<[from := (c, r')]> pages) (S from) n
      | None => Panic PIndex
      end
  end.

(** The second loop: the segment's data, page by page. *)
Fixpoint copy_segment (caller_vspace : CPtr) (free_page_addr : Z)
    (pages : list (CPtr * CapRights)) (data : list Z) (offset_into_page : Z) : M kstate unit :=
  match pages with
  | [] => mret tt
  | (page_cap, _) :: pages =>
      let data_len := Z.to_nat (Z.min (GRANULE_SIZE - offset_into_page) (Z.of_nat (length data))) in
      kcall_unwrap (frame_map page_cap caller_vspace free_page_addr rights_all) ;;
      store_bytes (free_page_addr + offset_into_page) (take data_len data) ;;
      kcall_unwrap (frame_unmap page_cap) ;;
      copy_segment caller_vspace free_page_addr pages (drop data_len data) 0
  end.

Definition map_segment (fp : Z * Z) (caller_vspace : CPtr) (free_page_addr : Z)
    (pages : list (CPtr * CapRights)) (seg : Segment) : M AK (list (CPtr * CapRights)) :=
  seg_end ← lift (add_chk chk (seg_addr seg) (seg_size seg));
  sf ← lift (coarsen_footprint chk (seg_addr seg, seg_end) GRANULE_SIZE);
  let n := range_len sf / GRANULE_SIZE in
  data ← unwrap (seg_data seg);
  data_end ← lift (add_chk chk (seg_addr seg) (Z.of_nat (length data)));
  df ← lift (coarsen_footprint chk (seg_addr seg, data_end) GRANULE_SIZE);
  let n_data := range_len df / GRANULE_SIZE in
  d ← lift (sub_chk chk sf.1 fp.1);
  let from := d / GRANULE_SIZE in
  lift (check_slice pages from n) ;;
  pages ← lift (widen_rights (seg_flags seg) pages (Z.to_nat from) (Z.to_nat n));
  lift (check_slice pages from n_data) ;;
  in_kernel (copy_segment caller_vspace free_page_addr
    (take (Z.to_nat n_data) (drop (Z.to_nat from) pages)) data (seg_addr seg mod GRANULE_SIZE)) ;;
  mret pages.

Fixpoint map_segments (fp : Z * Z) (caller_vspace : CPtr) (free_page_addr : Z)
    (pages : list (CPtr * CapRights)) (segs : list Segment) : M AK (list (CPtr * CapRights)) :=
  match segs with
  | [] => mret pages
  | seg :: segs =>
      pages ← map_segment fp caller_vspace free_page_addr pages seg;
      map_segments fp caller_vspace free_page_addr pages segs
  end.

(** The final loop: the pages in the child's address space. *)
Fixpoint map_pages_at (vspace : CPtr) (start : Z) (i : Z) (pages : list (CPtr * CapRights))
    (mapped_page : gmap Z CPtr) : M AK (gmap Z CPtr) :=
  match pages with
  | [] => mret mapped_page
  | (page_cap, rights) :: pages =>
      off ← lift (mul_chk chk i GRANULE_SIZE);
      addr ← lift (add_chk chk start off);
      in_kernel (kcall_unwrap (frame_map page_cap vspace addr rights)) ;;
      map_pages_at vspace start (i + 1) pages (<[addr := page_cap]> mapped_page)
  end.

Definition map_image (mapped_page : gmap Z CPtr) (vspace : CPtr) (fp : Z * Z)
    (segs : list Segment) (caller_vspace : CPtr) (free_page_addr : Z) : M AK (gmap Z CPtr) :=
  pages ← alloc_pages (Z.to_nat (range_len fp / GRANULE_SIZE));
  pages ← map_segments fp caller_vspace free_page_addr pages segs;
  map_pages_at vspace fp.1 0 pages mapped_page.
End image.

(** ** The footprint *)

Lemma round_down_eq n b : round_down n b = down b n.
Proof. done. Qed.

Lemma next_multiple_of_ok chk n b :
  0 < b -> 0 <= n -> up b n < 2 ^ 64 -> next_multiple_of chk n b = Ret (up b n).
Proof.
  intros Hb Hn Hu. unfold next_multiple_of, up in *.
  destruct (Z.eqb_spec (n mod b) 0); [done|].
  apply add_chk_small. unfold is_u64. pose proof (Z.mod_pos_bound n b). lia.
Qed.

Lemma coarsen_footprint_ok chk s e b :
  0 < b -> 0 <= e -> up b e < 2 ^ 64 ->
  coarsen_footprint chk (s, e) b = Ret (down b s, up b e).
Proof.
  intros Hb He Hu. unfold coarsen_footprint. cbn [fst snd].
  rewrite next_multiple_of_ok by done. done.
Qed.

(** Segments whose end, rounded up to a page, stays within 64 bits. *)
Definition seg_wf (s : Segment) : Prop :=
  0 <= seg_addr s /\ 0 <= seg_size s /\ up 4096 (seg_addr s + seg_size s) < 2 ^ 64.

Lemma min_addr_spec segs m :
  min_addr segs = Some m ->
  (forall s, s ∈ segs -> m <= seg_addr s) /\ exists s, s ∈ segs /\ seg_addr s = m.
Proof.
  revert m. induction segs as [|s segs IH]; intros m; simpl; [done|].
  destruct (min_addr segs) as [m'|] eqn:E; intros [= <-].
  - destruct (IH m' eq_refl) as [Hle (s' & Hs' & Hm')]. split.
    + intros x [->|Hx]%elem_of_cons; [lia|]. specialize (Hle x Hx). lia.
    + destruct (Z.min_spec (seg_addr s) m') as [[_ ->]|[_ ->]].
      * exists s. split; [left|done].
      * exists s'. split; [by right|done].
  - destruct segs; [|simpl in E; by destruct (min_addr segs)]. split.
    + intros x ->%list_elem_of_singleton. lia.
    + exists s. split; [left|done].
Qed.

Lemma max_end_spec chk segs :
  segs <> [] -> (forall s, s ∈ segs -> seg_wf s) ->
  exists m, max_end chk segs = Ret (Some m) /\
    (forall s, s ∈ segs -> seg_addr s + seg_size s <= m) /\
    exists s, s ∈ segs /\ seg_addr s + seg_size s = m.
Proof.
  induction segs as [|s segs IH]; intros Hne Hwf; [done|]. cbn [max_end].
  destruct (Hwf s) as (H1 & H2 & H3); [left|].
  pose proof (up_bounds 4096 (seg_addr s + seg_size s) ltac:(lia)).
  rewrite add_chk_small by (unfold is_u64; lia). cbn [mbind outcome_bind].
  destruct segs as [|s2 segs].
  - simpl. eexists. split; [done|]. split.
    + by intros x ->%list_elem_of_singleton.
    + exists s. split; [left|done].
  - destruct IH as (m & -> & Hle & s' & Hs' & Hm); [done|intros; apply Hwf; by right|].
    cbn [mbind outcome_bind mret outcome_ret]. eexists. split; [done|]. split.
    + intros x [->|Hx]%elem_of_cons; [lia|]. specialize (Hle x Hx). lia.
    + destruct (Z.max_spec (seg_addr s + seg_size s) m) as [[_ ->]|[_ ->]].
      * exists s'. split; [by right|done].
      * exists s. split; [left|done].
Qed.

Lemma footprint_eq chk segs :
  segs <> [] -> (forall s, s ∈ segs -> seg_wf s) ->
  exists mn mx, footprint chk segs = Ret (down 4096 mn, up 4096 mx) /\ 0 <= mn <= mx /\
    (forall s, s ∈ segs -> mn <= seg_addr s /\ seg_addr s + seg_size s <= mx) /\
    (exists s, s ∈ segs /\ seg_addr s = mn) /\ (exists s, s ∈ segs /\ seg_addr s + seg_size s = mx).
Proof.
  intros Hne Hwf. unfold footprint, GRANULE_SIZE. destruct (min_addr segs) as [mn|] eqn:Emin.
  2:{ destruct segs as [|s segs]; [done|]. simpl in Emin. by destruct (min_addr segs). }
  destruct (min_addr_spec _ _ Emin) as [Hle (s0 & Hs0 & Emn)].
  destruct (max_end_spec chk segs Hne Hwf) as (mx & -> & Hmx & s1 & Hs1 & Emx).
  destruct (Hwf s1 Hs1) as (? & ? & ?), (Hwf s0 Hs0) as (? & ? & ?).
  cbn [mbind outcome_bind]. rewrite coarsen_footprint_ok by (rewrite <- ?Emx; lia).
  pose proof (Hle s1 Hs1). exists mn, mx. split_and!; [done|lia|lia|naive_solver..].
Qed.

(** C38: the footprint of an image is the smallest page-aligned range that
    contains every segment: it starts at the page of the lowest segment, ends
    at the page boundary after the highest one, and is computed without overflow
    in both builds. *)
Theorem footprint_tight (chk : bool) (segs : list Segment)
    (Hne : segs <> []) (Hwf : forall s, s ∈ segs -> seg_wf s) :
  exists a b, footprint chk segs = Ret (a, b) /\ a mod 4096 = 0 /\ b mod 4096 = 0 /\
    (forall s, s ∈ segs -> a <= seg_addr s /\ seg_addr s + seg_size s <= b) /\
    (exists s, s ∈ segs /\ seg_addr s < a + 4096) /\
    (exists s, s ∈ segs /\ b < seg_addr s + seg_size s + 4096).
Proof.
  destruct (footprint_eq chk segs Hne Hwf) as (mn & mx & -> & _ & Hin & (s0 & Hs0 & <-) & (s1 & Hs1 & <-)).
  pose proof (down_bounds 4096 (seg_addr s0) ltac:(lia)).
  pose proof (up_bounds 4096 (seg_addr s1 + seg_size s1) ltac:(lia)).
  eexists _, _. split_and!; [done|apply down_mod; lia|apply up_mod; lia| | |].
  - intros s Hs. specialize (Hin s Hs). lia.
  - exists s0. split; [done|lia].
  - exists s1. split; [done|lia].
Qed.

Lemma footprint_tight_witness :
  footprint true [MkSegment 0x200158 0x1700 (Some []) (Some 4);
                  MkSegment 0x202858 0x100 (Some []) (Some 6)] = Ret (0x200000, 0x203000) /\
  exists a b, footprint true [MkSegment 0x200158 0x1700 (Some []) (Some 4);
                  MkSegment 0x202858 0x100 (Some []) (Some 6)] = Ret (a, b) /\ a mod 4096 = 0.
Proof.
  split; [reflexivity|].
  destruct (footprint_tight true [MkSegment 0x200158 0x1700 (Some []) (Some 4);
                  MkSegment 0x202858 0x100 (Some []) (Some 6)]) as (a & b & E & Ha & _).
  - done.
  - intros s [->|[->|[]%not_elem_of_nil]%elem_of_cons]%elem_of_cons; vm_compute;
      intuition discriminate.
  - exists a, b. split; [exact E|exact Ha].
Defined.

(** ** Rights *)

(** Setting a right that is set already changes nothing. *)
Class RightsLaws `{Sel4} : Prop := {
  rights_read_all : rights_read true rights_all = rights_all;
  rights_write_all : rights_write true rights_all = rights_all;
  rights_grant_all : rights_grant true rights_all = rights_all;
}.

Lemma ref_rights_laws : @RightsLaws ref_sel4.
Proof. by split. Qed.

Section rights.
Context `{RL : RightsLaws} (chk : bool).

Definition all_rights (pages : list (CPtr * CapRights)) : Prop :=
  Forall (fun p => p.2 = rights_all) pages.

Lemma add_rights_all flags r : add_rights rights_all flags = Ret r -> r = rights_all.
Proof.
  destruct flags as [fl|]; [|done]. simpl. intros [= <-].
  repeat destruct (negb _); by rewrite ?rights_read_all, ?rights_write_all, ?rights_grant_all.
Qed.

Lemma alloc_pages_all n s ps s' : alloc_pages n s = Ret (ps, s') -> all_rights ps.
Proof.
  revert s ps s'. induction n as [|n IH]; intros s ps s' E; simpl in E.
  - injection E as <- <-. constructor.
  - ibind E as c s1 E1. ibind E as ps1 s2 E2. injection E as <- <-.
    constructor; [done|]. by eapply IH.
Qed.

Lemma widen_rights_all flags n : forall pages from pages',
  all_rights pages -> widen_rights flags pages from n = Ret pages' -> all_rights pages'.
Proof.
  induction n as [|n IH]; intros pages from pages' Hall E; simpl in E; [by injection E as <-|].
  destruct (pages !! from) as [[c r]|] eqn:El; [|done].
  assert (r = rights_all) as -> by (by apply (Forall_lookup_1 _ _ _ _ Hall El)).
  destruct (add_rights rights_all flags) as [r'| | |] eqn:Er; try done.
  apply add_rights_all in Er as ->. eapply IH; [|exact E].
  by apply Forall_insert.
Qed.

Lemma map_segment_all fp cv fpa pages seg s pages' s' :
  all_rights pages -> map_segment chk fp cv fpa pages seg s = Ret (pages', s') ->
  all_rights pages'.
Proof.
  intros Hall E. unfold map_segment in E. inv_bind.
  injection E as <- <-. match goal with
  | H : lift (widen_rights _ _ _ _) _ = Ret _ |- _ =>
      unfold lift in H; destruct (widen_rights _ _ _ _) eqn:Ew; try done;
      injection H as <- <-
  end. by eapply widen_rights_all.
Qed.

Lemma map_segments_all fp cv fpa segs : forall pages s pages' s',
  all_rights pages -> map_segments chk fp cv fpa pages segs s = Ret (pages', s') ->
  all_rights pages'.
Proof.
  induction segs as [|seg segs IH]; intros pages s pages' s' Hall E; simpl in E.
  - by injection E as <- <-.
  - ibind E as ps s1 E1. eapply IH; [|exact E]. by eapply map_segment_all.
Qed.
End rights.

(** The segment flags have no effect on the rights of the pages: the
    builders start with all rights and [add_rights] only ever adds, so every
    page of the image, also of a read-only segment, is mapped with all rights. *)
Theorem image_pages_all_rights `{RL : RightsLaws} (chk : bool) (n : nat) (fp : Z * Z)
    (caller_vspace : CPtr) (free_page_addr : Z) (segs : list Segment) (s : AK)
    (pages : list (CPtr * CapRights)) (s' : AK)
    (Hrun : (ps ← alloc_pages n; map_segments chk fp caller_vspace free_page_addr ps segs) s
            = Ret (pages, s')) :
  forall c r, (c, r) ∈ pages -> r = rights_all.
Proof.
  ibind Hrun as ps s1 E1. intros c r Hin.
  assert (all_rights pages) as Hall
    by (eapply map_segments_all; [by eapply alloc_pages_all|exact Hrun]).
  unfold all_rights in Hall. rewrite Forall_forall in Hall. by apply (Hall (c, r)).
Qed.

Lemma image_pages_all_rights_witness :
  (50, @rights_all ref_sel4) ∈ [(50, @rights_all ref_sel4)] /\
  forall c r, (c, r) ∈ [(50, @rights_all ref_sel4)] -> r = @rights_all ref_sel4.
Proof.
  split; [by left|].
  eapply (@image_pages_all_rights ref_sel4 ref_rights_laws true 1 (0x200000, 0x201000) 3 0x7000
            [MkSegment 0x200000 16 (Some []) (Some 4)] (MkAllocator 50 1024 26, ref_boot 4)).
  vm_compute. reflexivity.
Defined.
