(* ===== verification/ImageTables.v ===== *)
(** * The translation tables of an image

    [map_intermediate_translation_tables] of [crates/common/src/utils.rs] maps,
    level by level, the tables a new address space needs for the footprint of an
    image.  This file proves that no page of the footprint lacks a table
    afterwards and that no table is mapped twice. *)

From S2P Require Import Prelude Words Consts Sel4 Sel4Laws RefKernel ObjAllocator KTask ImageMap.

(** What [sel4] documents of the tables of an address space: the levels below
    the root span decreasing powers of two, a table can be mapped where the
    levels above it exist and it does not, and serves its whole span. *)
Class TableLaws `{V : Sel4View} := {
  table_at : kstate -> VS -> Z -> Z -> bool;
  levels_pos : 1 <= NUM_LEVELS;
  span_range l : 1 <= l < NUM_LEVELS -> 12 <= span_bits l <= 48;
  span_decreasing l l' : 1 <= l' <= l -> l < NUM_LEVELS -> span_bits l <= span_bits l';
  table_is_pt l : 1 <= l < NUM_LEVELS -> table_blueprint l = Some BpPT;
  tables_complete k vs va :
    (forall l, 1 <= l < NUM_LEVELS -> table_at k vs l va = true) -> missing k vs va = 0%nat;
  retype_tables k u bp d s n r k' :
    untyped_retype u bp d s n k = (r, k') -> forall vs l va, table_at k' vs l va = table_at k vs l va;
  table_map_ok k l p v va vs :
    cap_pt k p = true -> cap_vs k v = Some vs -> 0 <= va < 2 ^ 48 -> va mod 2 ^ span_bits l = 0 ->
    1 <= l < NUM_LEVELS -> (forall l', 1 <= l' < l -> table_at k vs l' va = true) ->
    table_at k vs l va = false ->
    exists k', table_map l p v va k = (Ok tt, k') /\ same_alloc k k' /\
      slot_empty k' p = slot_empty k p /\ kdiff (only p) nowhere nowhere k k' /\
      forall l' x, table_at k' vs l' x =
        table_at k vs l' x || bool_decide (l' = l /\ va <= x < va + 2 ^ span_bits l);
}.

(** ** The regions of a level *)

Section regions.
Context `{K : Sel4}.

Definition span (l : Z) : Z := 2 ^ span_bits l.
Definition lo (fp : Z * Z) (l : Z) : Z := down (span l) fp.1.
Definition hi (fp : Z * Z) (l : Z) : Z := up (span l) fp.2.
Definition regions (fp : Z * Z) (l : Z) : nat := Z.to_nat ((hi fp l - lo fp l) / span l).

(** The tables of all the levels. *)
Definition tables_needed (fp : Z * Z) : nat := sum_list (regions fp <$> seqZ 1 (NUM_LEVELS - 1)).
End regions.

Lemma seqZ_at n dn x rest : seqZ 0 n = dn ++ x :: rest -> x = Z.of_nat (length dn) /\ x < n.
Proof.
  intros E. assert (seqZ 0 n !! length dn = Some x) as Hx by (rewrite E; by rewrite list_lookup_middle).
  apply lookup_seqZ in Hx. lia.
Qed.

Lemma pow_divides a b : 0 <= a <= b -> 2 ^ b mod 2 ^ a = 0.
Proof.
  intros H. replace b with ((b - a) + a) by lia. rewrite Z.pow_add_r by lia.
  apply Z.mod_mul. pose proof (Z.pow_pos_nonneg 2 a). lia.
Qed.

Lemma mod_trans x m n : 0 < m -> 0 < n -> m mod n = 0 -> x mod m = 0 -> x mod n = 0.
Proof.
  intros Hm Hn [c Hc]%Z.mod_divide [d Hd]%Z.mod_divide; [|lia..]. apply Z.mod_divide; [lia|].
  exists (d * c). subst x m. lia.
Qed.

Section tables.
Context `{L : Sel4Laws} `{TL : !TableLaws}.

Lemma span_facts l : 1 <= l < NUM_LEVELS -> 0 < span l /\ 2 ^ 48 mod span l = 0 /\ span l <= 2 ^ 48.
Proof.
  intros Hl. pose proof (span_range l Hl). unfold span. split_and!.
  - apply Z.pow_pos_nonneg; lia.
  - apply pow_divides. lia.
  - apply Z.pow_le_mono_r; lia.
Qed.

Lemma region_facts (fp : Z * Z) l :
  0 <= fp.1 -> fp.1 <= fp.2 -> fp.2 <= 2 ^ 48 -> 1 <= l < NUM_LEVELS ->
  0 <= lo fp l <= fp.1 /\ fp.2 <= hi fp l <= 2 ^ 48 /\ lo fp l mod span l = 0 /\
  hi fp l = lo fp l + Z.of_nat (regions fp l) * span l.
Proof.
  intros H0 H1 H2 Hl. destruct (span_facts l Hl) as (Hs & Hd & _). unfold lo, hi, regions.
  pose proof (down_bounds (span l) fp.1 Hs). pose proof (up_bounds (span l) fp.2 Hs).
  pose proof (down_ge_aligned (span l) fp.1 0 Hs (Zmod_0_l _) H0).
  pose proof (up_le_aligned (span l) fp.2 (2 ^ 48) Hs Hd H2).
  pose proof (down_mod (span l) fp.1 Hs) as Hm. pose proof (up_mod (span l) fp.2 Hs) as Hm'.
  split_and!; try lia. unfold lo, hi. set (d := down _ _) in *. set (u := up _ _) in *.
  apply Z.mod_divide in Hm as [c Hc]; [|lia]. apply Z.mod_divide in Hm' as [e He]; [|lia].
  rewrite Hc, He, <- Z.mul_sub_distr_r, Z.div_mul by lia.
  assert (c <= e) by nia. rewrite Z2Nat.id by lia. lia.
Qed.

(** A coarser level covers the regions of a finer one. *)
Lemma regions_nested (fp : Z * Z) l l' :
  1 <= l' <= l -> l < NUM_LEVELS -> lo fp l' <= lo fp l /\ hi fp l <= hi fp l'.
Proof.
  intros Hl Hl2. destruct (span_facts l) as (Hs & _ & _); [lia|].
  destruct (span_facts l') as (Hs' & _ & _); [lia|].
  pose proof (span_decreasing l l' Hl Hl2).
  assert (12 <= span_bits l <= 48) by (apply span_range; lia).
  assert (span l' mod span l = 0) as Hdiv by (apply pow_divides; lia).
  unfold lo, hi. split.
  - apply down_ge_aligned; [done| |apply down_bounds; lia].
    eapply mod_trans; [exact Hs'|done..|]. by apply down_mod.
  - apply up_le_aligned; [done| |apply up_bounds; lia].
    eapply mod_trans; [exact Hs'|done..|]. by apply up_mod.
Qed.

(** ** The loops *)

(** The levels above [l] have all their regions, [l] the first [i], the others
    none. *)
Definition tables_upto (fp : Z * Z) (vs : VS) (l i : Z) (k : kstate) : Prop :=
  forall l' x, 1 <= l' < NUM_LEVELS -> table_at k vs l' x =
    bool_decide (lo fp l' <= x < (if decide (l' < l) then hi fp l'
                                 else if decide (l' = l) then lo fp l + i * span l else lo fp l')).

(** After some of the tables. *)
Definition tabled (fp : Z * Z) (v : CPtr) (vs : VS) (a : ObjectAllocator) (k : kstate)
    (j : nat) (m : nat) (l i : Z) (s : AK) : Prop :=
  s.1 = bump_by j a /\ alloc_ok m s /\ kdiff (alloc_range a) nowhere nowhere k s.2 /\
  cap_vs s.2 v = Some vs /\ tables_upto fp vs l i s.2.

Lemma allocate_tables bp (T : VS -> Z -> Z -> bool) :
  preserves (fun s => forall vs l x, table_at s.2 vs l x = T vs l x) (allocate_and_retype bp).
Proof.
  assert (forall u b d s n, preserves (fun s : AK => forall vs l x, table_at s.2 vs l x = T vs l x)
            (in_kernel (kcall_unwrap (untyped_retype u b d s n)))) as HK.
  { intros u b d s n [a k] [] s' HI (k' & -> & E%kcall_unwrap_inv)%in_kernel_inv vs l x.
    simpl in *. by rewrite (retype_tables _ _ _ _ _ _ _ _ E). }
  unfold allocate_and_retype, allocate_slot. apply preserves_bind.
  - apply preserves_bind.
    + intros [a k] c s' HI (_ & _ & ->)%take_slot_inv. done.
    + intros c. apply preserves_bind; [auto with monad|]. intros u. apply preserves_bind; [|auto with monad].
      case_match; [apply HK|apply preserves_ret].
  - intros [[si ci] raw]. apply preserves_bind; [auto with monad|]. intros u.
    apply preserves_bind; [apply HK|auto with monad].
Qed.

Lemma tables_upto_step fp vs l i k k' :
  1 <= l < NUM_LEVELS -> 0 <= i ->
  (forall l' x, table_at k' vs l' x = table_at k vs l' x ||
     bool_decide (l' = l /\ lo fp l + i * span l <= x < lo fp l + i * span l + span l)) ->
  tables_upto fp vs l i k -> tables_upto fp vs l (i + 1) k'.
Proof.
  intros Hl Hi HT HU l' x Hl'. rewrite HT, HU by done. destruct (span_facts l Hl) as (Hs & _).
  rewrite <- bool_decide_or. apply bool_decide_ext. repeat case_decide; subst; nia.
Qed.

Lemma wp_one_table fp v vs a k j m l i s :
  0 <= fp.1 -> fp.1 <= fp.2 -> fp.2 <= 2 ^ 48 -> 1 <= l < NUM_LEVELS -> 0 <= i < Z.of_nat (regions fp l) ->
  tabled fp v vs a k j (S m) l i s ->
  wp (map_one_table v l (lo fp l + i * span l)) (fun _ s' => tabled fp v vs a k (S j) m l (i + 1) s') s.
Proof.
  intros H0 H1 H2 Hl Hi. destruct s as [a1 k1]. intros (Ea & HA & D & Hv & HU). simpl in Ea, D, Hv, HU.
  destruct (region_facts fp l H0 H1 H2 Hl) as ([Hlo _] & [_ Hhi] & Hmod & Eq).
  destruct (span_facts l Hl) as (Hs & _ & _).
  pose proof (ao_range _ _ HA) as [_ Hr]. simpl in Hr.
  unfold map_one_table. rewrite table_is_pt by done. wp_step. wp_step. wp_step.
  eapply wp_mono.
  { apply (wp_preserves _ _ (fun c s' => c = slots_start a1 /\ s'.1 = bump a1 /\ alloc_ok m s' /\
       retyped BpPT (slots_start a1) k1 s'.2 /\ slot_empty k1 (slots_start a1) = true) (a1, k1)
       (allocate_tables BpPT (table_at k1))); [done|].
    apply (wp_allocate m _ _ _ _ HA). intros k' HA' HR He _. done. }
  intros p [a2 k2] [(-> & Ea2 & HA2 & (Hpt & _ & D2) & He) HT]. simpl in *. subst a2.
  set (p := slots_start a1) in *.
  assert (v <> p) as Hvp by (intros ->; apply vs_not_empty in Hv; congruence).
  destruct (table_map_ok k2 l p v (lo fp l + i * span l) vs) as (k3 & E3 & A3 & He3 & D3 & HT3);
    [done| |nia| |done| | |].
  { by rewrite (kd_vs _ _ _ _ _ D2). }
  { fold (span l). rewrite Z.mod_add by lia. exact Hmod. }
  { intros l' Hl'. rewrite HT, HU by lia. rewrite decide_True by lia. apply bool_decide_true.
    destruct (regions_nested fp l l'); [lia..|]. nia. }
  { rewrite HT, HU by lia. rewrite decide_False, decide_True by lia. apply bool_decide_false. lia. }
  unfold in_kernel. wp_step. eapply wp_kcall_unwrap; [exact E3|]. unfold tabled. simpl.
  assert (alloc_range a p) as Hp by (subst p a1; unfold alloc_range, bump_by in *; simpl in *; lia).
  split_and!.
  - rewrite Ea, bump_is, bump_by_bump_by. f_equal. lia.
  - eapply alloc_ok_kdiff; [exact D3|done| |exact HA2]. intros c ->. simpl. lia.
  - eapply kdiff_trans; [exact D|].
    eapply kdiff_trans; eapply kdiff_weaken; [..|exact D2| | | |exact D3]; try done; by intros c ->.
  - rewrite (kd_vs _ _ _ _ _ D3), (kd_vs _ _ _ _ _ D2); done.
  - apply (tables_upto_step fp vs l i k2); [done|lia|exact HT3|].
    intros l' x Hl'. rewrite HT. by apply HU.
Qed.

(** The end of a level is the start of the next. *)
Lemma tables_upto_next fp vs l k :
  0 <= fp.1 -> fp.1 <= fp.2 -> fp.2 <= 2 ^ 48 -> 1 <= l < NUM_LEVELS ->
  tables_upto fp vs l (Z.of_nat (regions fp l)) k -> tables_upto fp vs (l + 1) 0 k.
Proof.
  intros H0 H1 H2 Hl HU l' x Hl'. rewrite HU by done.
  destruct (region_facts fp l H0 H1 H2 Hl) as (_ & _ & _ & Eq).
  apply bool_decide_ext. repeat case_decide; subst; try lia.
Qed.

Lemma wp_map_level chk fp v vs a k j m l s :
  0 <= fp.1 -> fp.1 <= fp.2 -> fp.2 <= 2 ^ 48 -> 1 <= l < NUM_LEVELS ->
  tabled fp v vs a k j (regions fp l + m) l 0 s ->
  wp (map_level chk v fp l) (fun _ s' => tabled fp v vs a k (j + regions fp l) m (l + 1) 0 s') s.
Proof.
  intros H0 H1 H2 Hl HT. destruct (region_facts fp l H0 H1 H2 Hl) as ([Hlo _] & [_ Hhi] & Hmod & Eq).
  destruct (span_facts l Hl) as (Hs & _ & _).
  pose proof (span_range l Hl). unfold map_level. rewrite Z.shiftl_1_l. fold (span l).
  destruct fp as [f1 f2]. cbn [fst snd] in *.
  wp_step. eapply wp_lift; [apply coarsen_footprint_ok; unfold hi in *; simpl in *; lia|].
  set (fp := (f1, f2)) in *. change (down (span l) f1) with (lo fp l). change (up (span l) f2) with (hi fp l).
  assert (range_len (lo fp l, hi fp l) / span l = Z.of_nat (regions fp l)) as En.
  { unfold range_len. cbn [fst snd]. rewrite Z.max_r by nia.
    rewrite Eq. replace (lo fp l + _ - _) with (Z.of_nat (regions fp l) * span l) by lia. apply Z.div_mul. lia. }
  rewrite En. eapply wp_mono.
  - apply (wp_for_each _ (fun dn s => tabled fp v vs a k (j + length dn) (regions fp l - length dn + m) l
             (Z.of_nat (length dn)) s)).
    + simpl. by rewrite Nat.add_0_r, Nat.sub_0_r.
    + intros dn i s1 [rest E] HT1. apply seqZ_at in E as [-> Hi]. cbn [fst].
      wp_step. eapply wp_lift; [apply mul_chk_small; unfold is_u64; nia|].
      wp_step. eapply wp_lift; [apply add_chk_small; unfold is_u64; nia|].
      eapply wp_mono.
      * apply (wp_one_table fp v vs a k (j + length dn) (regions fp l - S (length dn) + m)); try done; [lia|].
        by replace (S (regions fp l - S (length dn) + m)) with (regions fp l - length dn + m)%nat by lia.
      * intros [] s2 HT2. rewrite length_app. simpl.
        replace (j + (length dn + 1))%nat with (S (j + length dn)) by lia.
        replace (length dn + 1)%nat with (S (length dn)) by lia.
        by replace (Z.of_nat (S (length dn))) with (Z.of_nat (length dn) + 1) by lia.
  - intros [] s' (E1 & E2 & E3 & E4 & E5). rewrite length_seqZ, Nat2Z.id in *.
    split_and!; try done.
    + by rewrite Nat.sub_diag in E2.
    + by apply tables_upto_next.
Qed.

Lemma wp_map_levels chk fp v vs a k m n : forall j l s,
  0 <= fp.1 -> fp.1 <= fp.2 -> fp.2 <= 2 ^ 48 -> 1 <= l -> l + Z.of_nat n <= NUM_LEVELS ->
  tabled fp v vs a k j (sum_list (regions fp <$> seqZ l (Z.of_nat n)) + m) l 0 s ->
  wp (for_each (map_level chk v fp) (seqZ l (Z.of_nat n)))
    (fun _ s' => tabled fp v vs a k (j + sum_list (regions fp <$> seqZ l (Z.of_nat n))) m (l + Z.of_nat n) 0 s') s.
Proof.
  induction n as [|n IH]; intros j l s H0 H1 H2 Hl Hn HT.
  - simpl in *. wp_step. by rewrite Z.add_0_r, Nat.add_0_r.
  - rewrite (seqZ_cons l) in * by lia. cbn [fmap list_fmap sum_list for_each] in *.
    replace (Z.pred (Z.of_nat (S n))) with (Z.of_nat n) in * by lia.
    wp_step. rewrite <- Nat.add_assoc in HT. eapply wp_mono; [eapply wp_map_level, HT; lia|].
    intros [] s1 HT1. eapply wp_mono; [apply IH; try done; try lia|].
    intros [] s2 HT2. simpl in HT2. rewrite Nat.add_assoc.
    by replace (l + Z.of_nat (S n)) with (Z.succ l + Z.of_nat n) by lia.
Qed.

(** In a new address space, the tables of a footprint. *)
Lemma wp_image_tables chk fp v vs a k m :
  0 <= fp.1 -> fp.1 <= fp.2 -> fp.2 <= 2 ^ 48 -> cap_vs k v = Some vs ->
  (forall l x, 1 <= l < NUM_LEVELS -> table_at k vs l x = false) ->
  alloc_ok (tables_needed fp + m) (a, k) ->
  wp (map_intermediate_translation_tables chk v fp) (fun _ s' =>
      s'.1 = bump_by (tables_needed fp) a /\ alloc_ok m s' /\
      kdiff (alloc_range a) nowhere nowhere k s'.2 /\
      forall va, fp.1 <= va < fp.2 -> missing s'.2 vs va = 0%nat) (a, k).
Proof.
  intros H0 H1 H2 Hv Hnew HA. unfold map_intermediate_translation_tables, tables_needed in *.
  pose proof levels_pos. replace (NUM_LEVELS - 1) with (Z.of_nat (Z.to_nat (NUM_LEVELS - 1))) in * by lia.
  eapply wp_mono.
  - apply (wp_map_levels chk fp v vs a k m _ 0); try done; [lia|].
    split_and!; simpl; try done; [by rewrite bump_by_0|].
    intros l x Hl. rewrite Hnew by done. symmetry. apply bool_decide_false.
    repeat case_decide; subst; lia.
  - intros [] s' (E1 & E2 & E3 & _ & E5). split_and!; try done.
    intros va Hva. apply tables_complete. intros l Hl. rewrite E5 by done. rewrite decide_True by lia.
    apply bool_decide_true. destruct (region_facts fp l H0 H1 H2 Hl) as (? & ? & _). lia.
Qed.
End tables.

(** ** The reference kernel has such tables *)

Definition r_table_at (k : @kstate ref_sel4) (vs l x : Z) : bool :=
  bool_decide ((vs, 12 + 9 * (4 - l), x / 2 ^ (12 + 9 * (4 - l))) ∈ rk_tables k).

Lemma div_region b va x : 0 < b -> va mod b = 0 -> (x / b = va / b <-> va <= x < va + b).
Proof.
  intros Hb Hva. pose proof (Z.div_mod x b ltac:(lia)). pose proof (Z.div_mod va b ltac:(lia)).
  pose proof (Z.mod_pos_bound x b Hb). split; nia.
Qed.

Lemma r_absent_first k vs va l :
  1 <= l < 4 -> (forall l', 1 <= l' < l -> r_table_at k vs l' va = true) -> r_table_at k vs l va = false ->
  exists rest, r_absent k vs va = (vs, 12 + 9 * (4 - l), va / 2 ^ (12 + 9 * (4 - l))) :: rest.
Proof.
  intros Hl Hup Hne. unfold r_table_at in *. apply bool_decide_eq_false in Hne.
  assert (forall l', 1 <= l' < l -> (vs, 12 + 9 * (4 - l'), va / 2 ^ (12 + 9 * (4 - l'))) ∈ rk_tables k) as Hin.
  { intros l' Hl'. by apply (bool_decide_eq_true_1 _ (Hup l' Hl')). }
  unfold r_absent, r_regions. rewrite !filter_cons.
  assert (l = 1 \/ l = 2 \/ l = 3) as [->|[->| ->]] by lia.
  - rewrite decide_True by exact Hne. eauto.
  - rewrite decide_False by (intros HH; apply HH, (Hin 1); lia).
    rewrite decide_True by exact Hne. eauto.
  - rewrite decide_False by (intros HH; apply HH, (Hin 1); lia).
    rewrite decide_False by (intros HH; apply HH, (Hin 2); lia).
    rewrite decide_True by exact Hne. eauto.
Qed.

#[local] Arguments r_missing : simpl never.
#[local] Arguments r_absent : simpl never.

#[global] Instance ref_table_laws : @TableLaws ref_sel4 ref_view.
Proof.
  refine (@Build_TableLaws ref_sel4 ref_view r_table_at _ _ _ _ _ _ _).
  - done.
  - intros l. cbn. lia.
  - intros l l'. cbn. lia.
  - intros l Hl. cbn in *. rewrite (proj2 (Z.ltb_lt 0 l)), (proj2 (Z.ltb_lt l 4)) by lia. done.
  - intros k vs va Hall. change (r_missing k vs va = 0%nat). cbn in Hall.
    unfold r_missing, r_absent, r_regions. unfold r_table_at in Hall.
    rewrite !filter_cons. repeat rewrite decide_False; [done|..];
      intros HH; apply HH; [apply (bool_decide_eq_true_1 _ (Hall 3 ltac:(lia)))
        |apply (bool_decide_eq_true_1 _ (Hall 2 ltac:(lia)))|apply (bool_decide_eq_true_1 _ (Hall 1 ltac:(lia)))].
  - intros k u bp d s n r k' E vs l va. cbn in *. unfold r_table_at.
    replace (rk_tables k') with (rk_tables k); [done|]. revert E. unfold r_retype, r_err.
    repeat case_match; by intros [= <- <-].
  - intros k l p v va vs Hp Hv Hva Hmod Hl Hup Hne. cbn in *. unfold r_pt_map.
    destruct (rk_caps k !! p) as [[| |[]|]|] eqn:Ep; try done.
    destruct (rk_caps k !! v) as [[|w| |]|] eqn:Ev; try done. injection Hv as ->.
    destruct (r_absent_first k vs va l Hl Hup Hne) as [rest ->].
    eexists. split; [reflexivity|]. split; [done|]. split; [cbn; by rewrite lookup_insert_eq|]. split.
    + r_kdiff. apply r_missing_le. cbn. set_solver.
    + intros l' x. unfold r_table_at. rewrite <- bool_decide_or. apply bool_decide_ext. cbn.
      rewrite elem_of_union, elem_of_singleton.
      assert (0 < 2 ^ (12 + 9 * (4 - l))) as Hpos by (apply Z.pow_pos_nonneg; lia).
      pose proof (div_region _ va x Hpos Hmod). split.
      * intros [[= El E]|]; [right|by left]. assert (l' = l) as -> by lia. split; [done|]. by apply H.
      * intros [|[-> Hx]]; [by right|left]. f_equal. by apply H.
Defined.
