(* ===== verification/ImageLoad.v ===== *)
(** * Loading a program image

    [map_image] of [crates/common/src/utils.rs] puts the segments of an ELF file
    into new frames through a page of the caller's address space and then maps
    the frames in the new address space.  This file proves that the new address
    space holds the image. *)

From S2P Require Import Prelude Words Consts Sel4 Sel4Laws RefKernel ObjAllocator KTask FrameMem UserMem ImageMap ImageTables.

(** ** What the image says *)

(** The byte a segment has at an address, and the byte of the image: the last
    segment that has one there wins, and the rest of the pages is zero. *)
Definition seg_byte (s : Segment) (x : Z) : option Z :=
  if decide (seg_addr s <= x) then default [] (seg_data s) !! Z.to_nat (x - seg_addr s) else None.

Definition image_byte (segs : list Segment) (x : Z) : Z :=
  foldl (fun acc s => default acc (seg_byte s x)) 0 segs.

Section load.
Context `{L : Sel4Laws}.

(** ** The frames of the pages *)

(** The capabilities [ps] designate the frames [fs], different ones, none of
    which is mapped anywhere. *)
Record frames_ok (a : ObjectAllocator) (k : kstate) (ps : list (CPtr * CapRights))
    (fs : list Frame) : Prop := {
  fo_caps : Forall2 (fun p f => cap_frame k p.1 = Some f /\ cap_mapping k p.1 = None) ps fs;
  fo_out : Forall (fun p => ~ alloc_range a p.1) ps;
  fo_nodup : NoDup fs;
  fo_new f : f ∈ fs -> forall vs va, translate k vs va <> Some f;
}.

(** The frames one after the other. *)
Definition lin (k : kstate) (fs : list Frame) (j : Z) : option Z :=
  if decide (0 <= j) then (fun f => fbyte k f (j mod 4096)) <$> fs !! Z.to_nat (j / 4096) else None.

Lemma wp_alloc_pages n : forall m a k,
  alloc_ok (n + m) (a, k) ->
  wp (alloc_pages n) (fun ps s' => exists fs,
      length fs = n /\ frames_ok s'.1 s'.2 ps fs /\ s'.1 = bump_by n a /\ alloc_ok m s' /\
      kdiff (alloc_range a) nowhere (fresh_bytes a k) k s'.2 /\
      (forall f, f ∈ fs -> (forall o, fbyte s'.2 f o = 0) /\
         forall c, cap_frame k c <> Some f)) (a, k).
Proof.
  induction n as [|n IH]; intros m a k HA; cbn [alloc_pages].
  - wp_step. exists []. split; [done|]. split.
    { split; [constructor|constructor|constructor|]. by intros f Hf%not_elem_of_nil. }
    split; [by rewrite bump_by_0|]. split; [done|]. split; [apply kdiff_refl|].
    by intros f Hf%not_elem_of_nil.
  - pose proof (ao_range _ _ HA) as [_ Hr]. simpl in Hr.
    assert (slots_start a < slots_end a) as Hlt by lia.
    wp_step. apply (wp_allocate (n + m) _ _ _ _ HA). intros k1 HA1 HR He He1.
    pose proof (retyped_grows own_vs _ _ _ _ Hlt HR) as [_ DG].
    destruct HR as (f & Hf & Hm & Hfresh & Hnew & Hz & DR). wp_step.
    eapply wp_mono; [by apply IH|].
    intros ps [a' k'] (fs & Hlen & [F1 F2 F3 F4] & Ha & HA' & D & HF). simpl in *. wp_step.
    set (p := slots_start a) in *.
    assert (~ alloc_range (bump a) p) as Hp by (unfold alloc_range; simpl; lia).
    assert (alloc_range a p) as Hpa by (unfold alloc_range; lia).
    exists (f :: fs). split_and!; simpl; try lia.
    + split.
      * constructor; [|done]. simpl. split.
        -- by rewrite (kd_frame _ _ _ _ _ D).
        -- by rewrite (kd_mapping _ _ _ _ _ D).
      * constructor; [|done]. simpl. subst a'. by intros ?%alloc_range_bump.
      * constructor; [|done]. intros Hin. destruct (HF f Hin) as [_ Hc]. by apply (Hc p).
      * intros g Hg vs va. rewrite (kd_trans _ _ _ _ _ D) by by intros [].
        apply elem_of_cons in Hg as [->|Hg].
        -- rewrite (kd_trans _ _ _ _ _ DR) by by intros []. apply Hnew.
        -- intros Ht. apply (F4 g Hg vs va). by rewrite (kd_trans _ _ _ _ _ D) by by intros [].
    + subst a'. by rewrite bump_by_bump.
    + done.
    + eapply kdiff_trans; [eapply kdiff_weaken, DG; by intros ? ?; try tauto; intros [_ []]|].
      eapply kdiff_weaken, D; [|done|].
      * intros c. unfold alloc_range. simpl. lia.
      * intros g o HG c Hc. rewrite <- (kd_frame _ _ _ _ _ DG) by done. apply HG.
        unfold alloc_range in *. simpl. lia.
    + intros g Hg. apply elem_of_cons in Hg as [->|Hg].
      * split; [|done]. intros o. rewrite (kd_bytes _ _ _ _ _ D); [done|].
        intros HG. by apply (HG p).
      * destruct (HF g Hg) as [Hgz Hgc]. split; [done|]. intros c Hcg.
        destruct (decide (c = p)) as [->|Hne].
        { apply frame_not_empty in Hcg. congruence. }
        apply (Hgc c). by rewrite (kd_frame _ _ _ _ _ DR).
Qed.

(** ** Copying a segment *)

(** One page through the seat. *)
Lemma wp_write_page {A} seat k p f o bs (rest : M kstate A) (Q : A -> kstate -> Prop) :
  seat_free seat k -> cap_frame k p = Some f -> cap_mapping k p = None ->
  0 <= o -> o + Z.of_nat (length bs) <= 4096 ->
  (forall k', seat_free seat k' -> cap_frame k' p = Some f -> cap_mapping k' p = None ->
     same_alloc k k' -> frame_bytes k' f o (length bs) = bs ->
     kdiff (only p) nowhere (fun g i => g = f /\ o <= i < o + Z.of_nat (length bs)) k k' -> wp rest Q k') ->
  wp (kcall_unwrap (frame_map p SLOT_VSPACE seat rights_all) ;;
      store_bytes (seat + o) bs ;; kcall_unwrap (frame_unmap p) ;; rest) Q k.
Proof.
  intros HS Hf Hm Ho Hl HQ. wp_step. apply (wp_seat_map seat k p f); try done.
  intros k1 T1 F1 M1 _ A1 D1. wp_step. apply (wp_store_bytes k1 f); try done; [apply HS|].
  intros k2 B2 A2 D2. wp_step. apply (wp_seat_unmap seat k2 p f).
  { by rewrite (kd_frame _ _ _ _ _ D2) by by intros []. }
  { by rewrite (kd_mapping _ _ _ _ _ D2) by by intros []. }
  intros k3 T3 F3 M3 _ A3 D3.
  assert (kdiff (only p) nowhere (fun g i => g = f /\ o <= i < o + Z.of_nat (length bs)) k k3) as D.
  { apply (kdiff_restore _ _ _ own_vs seat); [|by rewrite T3, (so_free _ _ HS)].
    apply (kdiff_trans _ _ _ _ k1); [|apply (kdiff_trans _ _ _ _ k2)];
      eapply kdiff_weaken; [..|exact D1| | | |exact D2| | | |exact D3];
      unfold only, only2, nowhere, nowhere1; naive_solver. }
  apply HQ; try done.
  - eapply seat_free_kdiff; [exact HS|exact D| |exact T3].
    intros E. apply frame_not_vs in Hf. pose proof (so_vs _ _ HS). unfold only in E. congruence.
  - eapply same_alloc_trans; [exact A1|]. by eapply same_alloc_trans.
  - rewrite <- B2 at 2. apply frame_bytes_ext. intros i _. apply (kd_bytes _ _ _ _ _ D3). by intros [].
Qed.

Definition caps_of (ps : list (CPtr * CapRights)) : CPtr -> Prop := fun c => c ∈ ps.*1.
Definition bytes_of (fs : list Frame) : Frame -> Z -> Prop := fun f _ => f ∈ fs.

Lemma lin_cons_0 k f fs j : 0 <= j < 4096 -> lin k (f :: fs) j = Some (fbyte k f j).
Proof.
  intros Hj. unfold lin. rewrite decide_True by lia. rewrite Z.div_small, Z.mod_small by lia. done.
Qed.

Lemma lin_cons_S k f fs j : 4096 <= j -> lin k (f :: fs) j = lin k fs (j - 4096).
Proof.
  intros Hj. unfold lin. rewrite !decide_True by lia.
  replace (j / 4096) with (1 + (j - 4096) / 4096) by dlia.
  assert (0 <= (j - 4096) / 4096) by (apply Z.div_pos; lia).
  rewrite Z2Nat.inj_add by lia. simpl. by replace ((j - 4096) mod 4096) with (j mod 4096) by dlia.
Qed.

Lemma frames_ok_cons a k p r ps f fs :
  frames_ok a k ((p, r) :: ps) (f :: fs) ->
  cap_frame k p = Some f /\ cap_mapping k p = None /\ p ∉ ps.*1 /\ f ∉ fs /\ frames_ok a k ps fs.
Proof.
  intros [F1 F2 F3 F4]. apply Forall2_cons in F1 as [[Hf Hm] F1]. apply Forall_cons in F2 as [_ F2].
  apply NoDup_cons in F3 as [Hnf F3]. split_and!; try done.
  - intros (q & -> & Hq)%list_elem_of_fmap. apply list_elem_of_lookup in Hq as [i Hi].
    destruct (Forall2_lookup_l _ _ _ _ _ F1 Hi) as (g & Hg & Hgf & _). simpl in Hf.
    apply Hnf. apply list_elem_of_lookup. exists i. congruence.
  - split; try done. intros g Hg. apply F4. by right.
Qed.

(** Steps that touch neither the capabilities nor the translations. *)
Lemma frames_ok_kdiff a k k' ps fs C B :
  kdiff C nowhere B k k' -> (forall c, c ∈ ps.*1 -> ~ C c) -> frames_ok a k ps fs -> frames_ok a k' ps fs.
Proof.
  intros D HC [F1 F2 F3 F4]. split; try done.
  - apply Forall2_same_length_lookup_2; [by eapply Forall2_length|]. intros i p f Hp Hf.
    destruct (Forall2_lookup_lr _ _ _ _ _ _ F1 Hp Hf) as [H1 H2].
    assert (~ C p.1) by (apply HC, list_elem_of_fmap; exists p; split; [done|by eapply list_elem_of_lookup_2]).
    by rewrite (kd_frame _ _ _ _ _ D), (kd_mapping _ _ _ _ _ D).
  - intros f Hf vs va. rewrite (kd_trans _ _ _ _ _ D) by by intros []. by apply F4.
Qed.

(** The bytes of the segment go into the frames from the offset on. *)
Definition written (fs : list Frame) (o : Z) (data : list Z) (k k' : kstate) : Prop :=
  forall j, lin k' fs j =
    if decide (o <= j < o + Z.of_nat (length data)) then data !! Z.to_nat (j - o) else lin k fs j.

Lemma lin_ext k k' fs j :
  (forall f o, f ∈ fs -> fbyte k' f o = fbyte k f o) -> lin k' fs j = lin k fs j.
Proof.
  intros He. unfold lin. case_decide; [|done].
  destruct (fs !! Z.to_nat (j / 4096)) as [f|] eqn:E; [|done]. simpl.
  rewrite He; [done|]. by eapply list_elem_of_lookup_2.
Qed.

Lemma written_cons f fs o (data : list Z) dl k k1 k2 :
  0 <= o < 4096 -> f ∉ fs -> dl = Z.to_nat (Z.min (4096 - o) (Z.of_nat (length data))) ->
  frame_bytes k1 f o dl = take dl data ->
  (forall i, ~ (o <= i < o + Z.of_nat dl) -> fbyte k1 f i = fbyte k f i) ->
  (forall g i, g ∈ fs -> fbyte k1 g i = fbyte k g i) ->
  (forall i, fbyte k2 f i = fbyte k1 f i) -> written fs 0 (drop dl data) k1 k2 ->
  written (f :: fs) o data k k2.
Proof.
  intros Ho Hnf Hdl HB Hout Hfs H2 HW j.
  destruct (Z.lt_ge_cases j 0) as [Hneg|Hpos].
  { rewrite decide_False by lia. unfold lin. by rewrite !decide_False by lia. }
  destruct (Z.lt_ge_cases j 4096) as [Hj|Hj].
  - rewrite !lin_cons_0 by lia. rewrite H2. case_decide as Hin.
    + pose proof (frame_bytes_lookup k1 f o dl (j - o) ltac:(lia)) as Hl.
      rewrite HB, lookup_take_lt in Hl by lia. rewrite Hl. do 2 f_equal. lia.
    + f_equal. apply Hout. lia.
  - rewrite !lin_cons_S by lia. rewrite HW, (lin_ext k k1), length_drop by done.
    destruct (decide (o <= j < o + Z.of_nat (length data))) as [Hin|Hout'].
    + rewrite decide_True by lia. rewrite lookup_drop. f_equal. lia.
    + by rewrite decide_False by lia.
Qed.

Lemma wp_copy_segment seat a ps : forall fs data o k,
  seat_free seat k -> frames_ok a k ps fs -> 0 <= o < 4096 ->
  Z.of_nat (length data) <= 4096 * Z.of_nat (length ps) - o ->
  wp (copy_segment SLOT_VSPACE seat ps data o) (fun _ k' =>
      seat_free seat k' /\ frames_ok a k' ps fs /\ same_alloc k k' /\
      kdiff (caps_of ps) nowhere (bytes_of fs) k k' /\ written fs o data k k') k.
Proof.
  induction ps as [|[p r] ps IH]; intros fs data o k HS HF Ho Hlen; cbn [copy_segment].
  - pose proof (fo_caps _ _ _ _ HF) as HF2. apply Forall2_nil_inv_l in HF2 as ->. wp_step.
    assert (o = 0 /\ data = []) as [-> ->] by (destruct data; simpl in Hlen; split; try done; lia).
    split; [done|]. split; [done|]. split; [done|]. split; [apply kdiff_refl|].
    intros j. rewrite decide_False by (simpl; lia). done.
  - pose proof (fo_caps _ _ _ _ HF) as HF2. apply Forall2_cons_inv_l in HF2 as (f & fs' & _ & _ & ->).
    destruct (frames_ok_cons _ _ _ _ _ _ _ HF) as (Hf & Hm & Hp & Hnf & HF').
    set (dl := Z.to_nat (Z.min (GRANULE_SIZE - o) (Z.of_nat (length data)))).
    change GRANULE_SIZE with 4096 in dl. cbn [length] in Hlen.
    assert (length (take dl data) = dl) as Hdl by (rewrite length_take; lia).
    apply (wp_write_page seat k p f o (take dl data)); try done; [lia|lia|].
    intros k1 HS1 Hf1 Hm1 A1 B1 D1. rewrite Hdl in *.
    eapply wp_mono.
    + apply (IH fs' (drop dl data) 0 k1 HS1); [|lia|rewrite length_drop; lia].
      eapply frames_ok_kdiff; [exact D1| |exact HF']. intros c Hc ->. done.
    + intros [] k2 (HS2 & HF2 & A2 & D2 & W2).
      split; [done|]. split; [|split; [by eapply same_alloc_trans|split]].
      * destruct HF as [F1 F2 F3 F4]. split; try done.
        -- constructor; [|apply HF2]. simpl. by rewrite (kd_frame _ _ _ _ _ D2), (kd_mapping _ _ _ _ _ D2).
        -- intros g Hg vs va. rewrite (kd_trans _ _ _ _ _ D2), (kd_trans _ _ _ _ _ D1) by by intros [].
           by apply F4.
      * eapply kdiff_trans; eapply kdiff_weaken; [..|exact D1| | | |exact D2]; try done.
        -- intros c ->. left.
        -- intros g i [-> _]. left.
        -- intros c Hc. by right.
        -- intros g i Hg. by right.
      * eapply (written_cons f fs' o data dl k k1 k2); try done.
        -- intros i Hi. apply (kd_bytes _ _ _ _ _ D1). naive_solver.
        -- intros g i Hg. apply (kd_bytes _ _ _ _ _ D1). intros [-> _]. done.
        -- intros i. apply (kd_bytes _ _ _ _ _ D2). done.
Qed.

(** ** A part of the pages *)

Lemma lin_slice k (fs : list Frame) m n j :
  0 <= j < 4096 * Z.of_nat n -> lin k (take n (drop m fs)) j = lin k fs (4096 * Z.of_nat m + j).
Proof.
  intros Hj. unfold lin. rewrite !decide_True by lia.
  replace ((4096 * Z.of_nat m + j) / 4096) with (Z.of_nat m + j / 4096) by dlia.
  replace ((4096 * Z.of_nat m + j) mod 4096) with (j mod 4096) by dlia.
  rewrite lookup_take_lt, lookup_drop by dlia. do 3 f_equal. dlia.
Qed.

Lemma slice_index {A} (l : list A) m n x :
  x ∈ take n (drop m l) -> exists i, (m <= i < m + n)%nat /\ l !! i = Some x.
Proof.
  intros [i Hi]%list_elem_of_lookup. apply lookup_take_Some in Hi as [Hi Hlt].
  rewrite lookup_drop in Hi. exists (m + i)%nat. split; [lia|done].
Qed.

Lemma frames_ok_slice a k ps fs m n :
  frames_ok a k ps fs -> frames_ok a k (take n (drop m ps)) (take n (drop m fs)).
Proof.
  intros [F1 F2 F3 F4]. split.
  - by apply Forall2_take, Forall2_drop.
  - by apply Forall_take, Forall_drop.
  - eapply sublist_NoDup; [exact F3|]. etrans; [apply sublist_take|apply sublist_drop].
  - intros f (i & _ & Hi)%slice_index. apply F4. by eapply list_elem_of_lookup_2.
Qed.

Lemma frames_ok_fst a k ps ps' fs : ps'.*1 = ps.*1 -> frames_ok a k ps fs -> frames_ok a k ps' fs.
Proof.
  intros E [F1 F2 F3 F4]. split; try done.
  - apply (Forall2_fmap_l fst (fun c f => cap_frame k c = Some f /\ cap_mapping k c = None)).
    rewrite E. by apply Forall2_fmap_l.
  - apply (Forall_fmap fst (fun c => ~ alloc_range a c)). rewrite E. by apply Forall_fmap.
Qed.

(** Steps on some of the pages that leave them as they should be. *)
Lemma frames_ok_part a k k' ps fs ps1 fs1 B :
  kdiff (caps_of ps1) nowhere B k k' -> frames_ok a k ps1 fs1 -> frames_ok a k' ps1 fs1 ->
  frames_ok a k ps fs -> frames_ok a k' ps fs.
Proof.
  intros D G G' [F1 F2 F3 F4]. split; try done.
  - eapply Forall2_impl; [exact F1|]. intros p f [Hf Hm].
    destruct (decide (p.1 ∈ ps1.*1)) as [Hin|Hout].
    2:{ by rewrite (kd_frame _ _ _ _ _ D), (kd_mapping _ _ _ _ _ D). }
    apply list_elem_of_fmap in Hin as (q & Eq & [i Hi]%list_elem_of_lookup).
    destruct (Forall2_lookup_l _ _ _ _ _ (fo_caps _ _ _ _ G) Hi) as (g & Hg & Hgk & _).
    destruct (Forall2_lookup_lr _ _ _ _ _ _ (fo_caps _ _ _ _ G') Hi Hg) as [Hg1 Hg2].
    rewrite Eq in *. split; [congruence|done].
  - intros f Hf vs va. rewrite (kd_trans _ _ _ _ _ D) by by intros []. by apply F4.
Qed.

Lemma written_slice (fs : list Frame) m n o (data : list Z) k k' C T :
  NoDup fs -> 0 <= o -> o + Z.of_nat (length data) <= 4096 * Z.of_nat n ->
  kdiff C T (bytes_of (take n (drop m fs))) k k' ->
  written (take n (drop m fs)) o data k k' -> written fs (4096 * Z.of_nat m + o) data k k'.
Proof.
  intros Hnd Ho Hl D HW j.
  destruct (decide (0 <= j - 4096 * Z.of_nat m < 4096 * Z.of_nat n)) as [Hin|Hout].
  - specialize (HW (j - 4096 * Z.of_nat m)). rewrite !lin_slice in HW by done.
    replace (4096 * Z.of_nat m + (j - 4096 * Z.of_nat m)) with j in HW by lia. rewrite HW.
    repeat case_decide; try lia; [|done]. f_equal. lia.
  - rewrite decide_False by lia. unfold lin. case_decide as Hj; [|done].
    destruct (fs !! Z.to_nat (j / 4096)) as [f|] eqn:E; [|done]. simpl. f_equal.
    apply (kd_bytes _ _ _ _ _ D). intros (i & Hi & Hf)%slice_index.
    rewrite NoDup_alt in Hnd. specialize (Hnd _ _ _ E Hf). dlia.
Qed.

(** ** A segment *)

Lemma check_slice_ok {A} (l : list A) from n :
  from + n <= Z.of_nat (length l) -> 0 <= n -> check_slice l from n = Ret tt.
Proof.
  intros H1 H2. unfold check_slice.
  rewrite (proj2 (Z.leb_le from _)), (proj2 (Z.leb_le n _)) by lia. done.
Qed.

(** A segment of an ELF file inside the footprint. *)
Definition seg_ok (fp : Z * Z) (s : Segment) : Prop :=
  fp.1 <= seg_addr s /\ 0 <= seg_size s /\ seg_addr s + seg_size s <= fp.2 /\
  (exists d, seg_data s = Some d /\ Z.of_nat (length d) <= seg_size s) /\
  (exists fl, seg_flags s = Some fl).

Lemma widen_rights_ok fl n : forall ps from,
  (from + n <= length ps)%nat ->
  exists ps', widen_rights (Some fl) ps from n = Ret ps' /\ ps'.*1 = ps.*1.
Proof.
  induction n as [|n IH]; intros ps from Hn; cbn [widen_rights]; [by exists ps|].
  destruct (lookup_lt_is_Some_2 ps from) as [[c r] E]; [lia|]. rewrite E.
  destruct (add_rights r (Some fl)) as [r'| | |] eqn:Er; [|by simpl in Er..].
  destruct (IH (<[from := (c, r')]> ps) (S from)) as (ps' & E' & Hps');
    [rewrite length_insert; lia|].
  exists ps'. split; [exact E'|]. rewrite Hps', list_fmap_insert. apply list_insert_id.
  by rewrite list_lookup_fmap, E.
Qed.

Lemma written_seg fs (fp : Z * Z) seg d k k' j v :
  seg_data seg = Some d -> fp.1 <= seg_addr seg -> 0 <= j ->
  written fs (seg_addr seg - fp.1) d k k' -> lin k fs j = Some v ->
  lin k' fs j = Some (default v (seg_byte seg (fp.1 + j))).
Proof.
  intros Hd Ha Hj HW Hv. rewrite HW, Hv. unfold seg_byte. rewrite Hd. simpl.
  case_decide as Hin.
  - rewrite decide_True by lia. destruct (lookup_lt_is_Some_2 d (Z.to_nat (j - (seg_addr seg - fp.1)))) as [b Hb]; [lia|].
    replace (fp.1 + j - seg_addr seg) with (j - (seg_addr seg - fp.1)) by lia. by rewrite Hb.
  - case_decide as Hle; [|done]. by rewrite lookup_ge_None_2 by lia.
Qed.

(** The pages during the loop over the segments: the bytes of the frames are
    those the segments so far have put there. *)
Definition in_footprint (fp : Z * Z) (fs : list Frame) : Prop :=
  fp.2 - fp.1 = 4096 * Z.of_nat (length fs) /\ page_aligned fp.1 /\ 0 <= fp.1 /\ fp.2 < 2 ^ 63.

Definition loaded (seat : Z) (fp : Z * Z) (fs : list Frame) (seg : list Segment)
    (ps ps' : list (CPtr * CapRights)) (s s' : AK) : Prop :=
  s'.1 = s.1 /\ ps'.*1 = ps.*1 /\ seat_free seat s'.2 /\ frames_ok s'.1 s'.2 ps' fs /\
  same_alloc s.2 s'.2 /\ kdiff (caps_of ps) nowhere (bytes_of fs) s.2 s'.2 /\
  forall j v, 0 <= j -> lin s.2 fs j = Some v ->
    lin s'.2 fs j = Some (foldl (fun acc s => default acc (seg_byte s (fp.1 + j))) v seg).

(** The pages of a segment among those of the footprint. *)
Lemma seg_pages (fp : Z * Z) x e len :
  page_aligned fp.1 -> fp.1 <= x <= e -> e <= fp.2 -> fp.2 - fp.1 = 4096 * len ->
  let m := (down 4096 x - fp.1) / 4096 in
  let n := range_len (down 4096 x, up 4096 e) / 4096 in
  0 <= m /\ 0 <= n /\ m + n <= len /\ down 4096 x = fp.1 + 4096 * m /\ up 4096 e = down 4096 x + 4096 * n.
Proof.
  intros Hal Hx He Hl m n. unfold page_aligned in Hal.
  pose proof (down_ge_aligned 4096 x fp.1 ltac:(lia) Hal ltac:(lia)).
  pose proof (up_le_aligned 4096 e fp.2 ltac:(lia) ltac:(dlia) He).
  pose proof (down_bounds 4096 x ltac:(lia)). pose proof (up_bounds 4096 e ltac:(lia)).
  pose proof (down_mod 4096 x ltac:(lia)). pose proof (up_mod 4096 e ltac:(lia)).
  unfold range_len in n. cbn [fst snd] in n. subst m n.
  generalize dependent (down 4096 x). generalize dependent (up 4096 e). intros u ? ? ? w ? ? ?.
  replace (Z.max 0 (u - w)) with (u - w) by lia. dlia.
Qed.

Lemma wp_map_segment chk seat fp fs ps seg a k :
  seat_free seat k -> frames_ok a k ps fs -> in_footprint fp fs -> seg_ok fp seg ->
  wp (map_segment chk fp SLOT_VSPACE seat ps seg)
     (fun ps' s' => loaded seat fp fs [seg] ps ps' (a, k) s') (a, k).
Proof.
  intros HS HF (Hlen & Hal & Hp0 & Hp1) (Hs1 & Hs2 & Hs3 & (d & Hd & Hdl) & (fl & Hfl)).
  pose proof (Forall2_length _ _ _ (fo_caps _ _ _ _ HF)) as Hps.
  set (x := seg_addr seg) in *.
  pose proof (seg_pages fp x (x + seg_size seg) (Z.of_nat (length fs)) Hal ltac:(lia) ltac:(lia) Hlen) as Hn.
  pose proof (seg_pages fp x (x + Z.of_nat (length d)) (Z.of_nat (length fs)) Hal ltac:(lia) ltac:(lia) Hlen) as Hnd.
  pose proof (up_bounds 4096 (x + seg_size seg) ltac:(lia)).
  pose proof (up_bounds 4096 (x + Z.of_nat (length d)) ltac:(lia)).
  pose proof (down_bounds 4096 x ltac:(lia)).
  unfold map_segment, GRANULE_SIZE. fold x.
  wp_step. eapply wp_lift; [apply add_chk_small; unfold is_u64; lia|].
  wp_step. eapply wp_lift; [apply coarsen_footprint_ok; lia|].
  cbn [fst snd]. rewrite Hd. wp_step. apply wp_unwrap.
  wp_step. eapply wp_lift; [apply add_chk_small; unfold is_u64; lia|].
  wp_step. eapply wp_lift; [apply coarsen_footprint_ok; lia|].
  cbv zeta in Hn, Hnd. cbn [fst snd].
  set (n := range_len (down 4096 x, up 4096 (x + seg_size seg)) / 4096) in *.
  set (nd := range_len (down 4096 x, up 4096 (x + Z.of_nat (length d))) / 4096) in *.
  wp_step. eapply wp_lift; [apply sub_chk_small; unfold is_u64; lia|].
  set (m := (down 4096 x - fp.1) / 4096) in *. destruct Hn as (? & ? & ? & Hdx & ?), Hnd as (_ & ? & ? & _ & ?).
  wp_step. eapply wp_lift; [apply check_slice_ok; lia|].
  destruct (widen_rights_ok fl (Z.to_nat n) ps (Z.to_nat m)) as (ps' & Ew & Eps); [lia|].
  rewrite Hfl. wp_step. eapply wp_lift; [exact Ew|].
  assert (length ps' = length ps) as Hps' by (rewrite <- (length_fmap fst ps), <- Eps; by rewrite length_fmap).
  wp_step. eapply wp_lift; [apply check_slice_ok; lia|].
  apply (frames_ok_fst _ _ _ ps') in HF as HF'; [|done].
  pose proof (frames_ok_slice a k ps' fs (Z.to_nat m) (Z.to_nat nd) HF') as HFs.
  wp_step. unfold in_kernel. wp_step. eapply wp_mono.
  { apply (wp_copy_segment seat a _ _ d _ k HS HFs); [dlia|].
    rewrite length_take, length_drop. unfold down in *. lia. }
  intros [] k' (HS' & HFs' & A' & D & W). wp_step. unfold loaded. simpl.
  eapply (written_slice fs (Z.to_nat m) (Z.to_nat nd) (x mod 4096) d k k') in W;
    [|apply HF|dlia|unfold down in *; lia|exact D].
  replace (4096 * Z.of_nat (Z.to_nat m) + x mod 4096) with (x - fp.1) in W by (unfold down in *; lia).
  split_and!; try done.
  - by eapply frames_ok_part.
  - eapply kdiff_weaken, D; [|done|].
    + intros c. unfold caps_of. rewrite <- Eps, fmap_take, fmap_drop. by intros (i & _ & Hi)%slice_index; eapply list_elem_of_lookup_2.
    + intros f o (i & _ & Hi)%slice_index. by eapply list_elem_of_lookup_2.
  - intros j v Hj Hv. by apply (written_seg fs fp seg d k k').
Qed.

Lemma wp_map_segments chk seat fp fs segs : forall ps a k,
  seat_free seat k -> frames_ok a k ps fs -> in_footprint fp fs -> Forall (seg_ok fp) segs ->
  wp (map_segments chk fp SLOT_VSPACE seat ps segs)
     (fun ps' s' => loaded seat fp fs segs ps ps' (a, k) s') (a, k).
Proof.
  induction segs as [|seg segs IH]; intros ps a k HS HF Hin Hsegs; cbn [map_segments].
  - wp_step. unfold loaded. split_and!; try done.
  - apply Forall_cons in Hsegs as [Hseg Hsegs]. wp_step.
    eapply wp_mono; [by apply (wp_map_segment chk seat fp fs)|].
    intros ps1 [a1 k1] (Ea & Eps & HS1 & HF1 & A1 & D1 & W1). simpl in *. subst a1.
    eapply wp_mono; [by apply IH|].
    intros ps2 [a2 k2] (Ea & Eps2 & HS2 & HF2 & A2 & D2 & W2). simpl in *. subst a2.
    unfold loaded in *. simpl. split_and!; try done.
    + by rewrite Eps2.
    + by eapply same_alloc_trans.
    + eapply kdiff_trans; [exact D1|]. unfold caps_of in *. by rewrite <- Eps.
    + intros j v Hj Hv. by apply W2, W1.
Qed.

(** ** The pages in the new address space *)

(** From [start] on, the pages [ps] with their frames [fs] are at their place in
    [vs] and in the page map, and nothing else has changed. *)
Record pages_at (vs : VS) (start : Z) (ps : list (CPtr * CapRights)) (fs : list Frame)
    (mp mp' : gmap Z CPtr) (k k' : kstate) : Prop := {
  pg_at i p f : ps !! i = Some p -> fs !! i = Some f ->
    mp' !! (start + 4096 * Z.of_nat i) = Some p.1 /\ cap_frame k' p.1 = Some f /\
    cap_mapping k' p.1 = Some (vs, start + 4096 * Z.of_nat i) /\
    translate k' vs (start + 4096 * Z.of_nat i) = Some f;
  pg_else va : ~ (start <= va < start + 4096 * Z.of_nat (length ps)) -> mp' !! va = mp !! va;
  pg_alloc : same_alloc k k';
  pg_diff : kdiff (caps_of ps)
    (fun vs' va => vs' = vs /\ start <= va < start + 4096 * Z.of_nat (length ps)) nowhere k k';
}.

Lemma frames_ok_mapped a k k1 p f ps fs vs va :
  kdiff (only p) (only2 vs va) nowhere k k1 -> translate k1 vs va = Some f -> p ∉ ps.*1 -> f ∉ fs ->
  frames_ok a k ps fs -> frames_ok a k1 ps fs.
Proof.
  intros D Ht Hp Hf [F1 F2 F3 F4]. split; try done.
  - apply Forall2_same_length_lookup_2; [by eapply Forall2_length|]. intros i q g Hq Hg.
    destruct (Forall2_lookup_lr _ _ _ _ _ _ F1 Hq Hg) as [H1 H2].
    assert (~ only p q.1) by (intros <-; apply Hp, list_elem_of_fmap; exists q; split; [done|by eapply list_elem_of_lookup_2]).
    by rewrite (kd_frame _ _ _ _ _ D), (kd_mapping _ _ _ _ _ D).
  - intros g Hg vs' va' E. destruct (decide (vs' = vs /\ va' = va)) as [[-> ->]|Hne].
    + congruence.
    + apply (F4 g Hg vs' va'). by rewrite <- (kd_trans _ _ _ _ _ D).
Qed.

Lemma pages_at_cons vs start p r ps f fs mp mp' k k1 k2 :
  p ∉ ps.*1 -> cap_frame k1 p = Some f -> cap_mapping k1 p = Some (vs, start) ->
  translate k1 vs start = Some f -> same_alloc k k1 -> kdiff (only p) (only2 vs start) nowhere k k1 ->
  pages_at vs (start + 4096) ps fs (<[start := p]> mp) mp' k1 k2 ->
  pages_at vs start ((p, r) :: ps) (f :: fs) mp mp' k k2.
Proof.
  intros Hp Hf Hm Ht A D [P1 P2 P3 P4]. split.
  - intros [|i] q g Hq Hg; simpl in Hq, Hg.
    + injection Hq as <-. injection Hg as <-. replace (start + 4096 * Z.of_nat 0) with start by lia. simpl.
      rewrite P2, lookup_insert_eq, (kd_frame _ _ _ _ _ P4), (kd_mapping _ _ _ _ _ P4), (kd_trans _ _ _ _ _ P4)
        by first [done|lia|intros [_ ?]; lia]. done.
    + replace (start + 4096 * Z.of_nat (S i)) with (start + 4096 + 4096 * Z.of_nat i) by lia. by apply P1.
  - intros va Hva. cbn [length] in Hva. rewrite P2, lookup_insert_ne by lia. done.
  - by eapply same_alloc_trans.
  - cbn [length]. eapply kdiff_trans; eapply kdiff_weaken; [..|exact D| | | |exact P4]; try done.
    + intros c ->. left.
    + intros ? ? [-> ->]. split; [done|lia].
    + intros c Hc. by right.
    + intros ? ? [-> ?]. split; [done|lia].
Qed.

Lemma wp_map_pages_at chk v vs a start ps : forall i fs mp k,
  frames_ok a k ps fs -> cap_vs k v = Some vs -> page_aligned start -> 0 <= start -> 0 <= i ->
  start + 4096 * (i + Z.of_nat (length ps)) <= 2 ^ 48 ->
  (forall j, 0 <= j < Z.of_nat (length ps) ->
     missing k vs (start + 4096 * (i + j)) = 0%nat /\ translate k vs (start + 4096 * (i + j)) = None) ->
  wp (map_pages_at chk v start i ps mp)
     (fun mp' s' => s'.1 = a /\ pages_at vs (start + 4096 * i) ps fs mp mp' k s'.2) (a, k).
Proof.
  induction ps as [|[p r] ps IH]; intros i fs mp k HF Hv Hal Hs Hi Hmax Hva; cbn [map_pages_at].
  - wp_step. split; [done|]. split; try done.
  - pose proof (fo_caps _ _ _ _ HF) as HF2. apply Forall2_cons_inv_l in HF2 as (f & fs' & _ & _ & ->).
    destruct (frames_ok_cons _ _ _ _ _ _ _ HF) as (Hf & Hm & Hp & Hnf & HF').
    unfold GRANULE_SIZE. cbn [length] in Hmax, Hva. rewrite Nat2Z.inj_succ in Hmax, Hva.
    wp_step. eapply wp_lift; [apply mul_chk_small; unfold is_u64; lia|].
    wp_step. eapply wp_lift; [apply add_chk_small; unfold is_u64; lia|].
    destruct (Hva 0) as [Hm0 Ht0]; [lia|]. replace (start + 4096 * (i + 0)) with (start + i * 4096) in Hm0, Ht0 by lia.
    destruct (frame_map_ok k p v (start + i * 4096) r f vs)
      as (k1 & E & Ht & Hcm & Hcf & He & HSA & D); try done; [unfold page_aligned in *; dlia|lia|].
    wp_step. unfold in_kernel. wp_step. eapply wp_kcall_unwrap; [exact E|].
    simpl. eapply wp_mono.
    + apply (IH (i + 1) fs' (<[start + i * 4096 := p]> mp) k1); try done; try lia.
      * by eapply frames_ok_mapped.
      * rewrite (kd_vs _ _ _ _ _ D); [done|]. intros ->. apply frame_not_vs in Hf. congruence.
      * intros j Hj. destruct (Hva (1 + j)) as [Hmj Htj]; [lia|].
        replace (i + 1 + j) with (i + (1 + j)) by lia.
        pose proof (kd_missing _ _ _ _ _ D vs (start + 4096 * (i + (1 + j)))).
        rewrite (kd_trans _ _ _ _ _ D) by (intros [_ ?]; lia). split; [lia|done].
    + intros mp' [a' k'] [Ea HP]. simpl in *. split; [done|].
      replace (start + 4096 * (i + 1)) with (start + 4096 * i + 4096) in HP by lia.
      replace (start + i * 4096) with (start + 4096 * i) in * by lia.
      by eapply pages_at_cons.
Qed.

(** ** The whole image *)

(** The image is at its place in [vs]: every byte of the footprint is the one the
    segments say, and the page map has the capability of its frame. *)
Definition image_at (vs : VS) (fp : Z * Z) (segs : list Segment) (mp : gmap Z CPtr) (k : kstate) : Prop :=
  forall x, fp.1 <= x < fp.2 -> exists c f,
    mp !! down 4096 x = Some c /\ cap_frame k c = Some f /\ cap_mapping k c = Some (vs, down 4096 x) /\
    translate k vs (down 4096 x) = Some f /\ fbyte k f (x mod 4096) = image_byte segs x.

Lemma loaded_image vs fp fs segs ps ps' s1 s2 mp mp' k seat :
  in_footprint fp fs -> loaded seat fp fs segs ps ps' s1 s2 ->
  (forall f o, f ∈ fs -> fbyte s1.2 f o = 0) -> pages_at vs fp.1 ps' fs mp mp' s2.2 k ->
  image_at vs fp segs mp' k.
Proof.
  intros (Hlen & Hal & H0 & _) (_ & _ & _ & HF & _ & _ & HL) Hz [P1 _ _ P4] x Hx.
  pose proof (Forall2_length _ _ _ (fo_caps _ _ _ _ HF)) as Hps. unfold page_aligned in Hal.
  set (i := Z.to_nat ((x - fp.1) / 4096)).
  assert (i < length fs)%nat as Hi by (subst i; dlia).
  destruct (lookup_lt_is_Some_2 fs i Hi) as [f Hf].
  destruct (lookup_lt_is_Some_2 ps' i) as [p Hp]; [lia|].
  destruct (P1 i p f Hp Hf) as (M1 & M2 & M3 & M4).
  replace (fp.1 + 4096 * Z.of_nat i) with (down 4096 x) in * by (subst i; unfold down; dlia).
  exists p.1, f. split_and!; try done.
  assert (lin s1.2 fs (x - fp.1) = Some 0) as Hl0.
  { unfold lin. rewrite decide_True by lia. fold i. rewrite Hf. simpl. f_equal. apply Hz. by eapply list_elem_of_lookup_2. }
  apply HL in Hl0; [|lia]. unfold lin in Hl0. rewrite decide_True in Hl0 by lia. fold i in Hl0.
  rewrite Hf in Hl0. simpl in Hl0. injection Hl0 as Hl0.
  rewrite (kd_bytes _ _ _ _ _ P4) by by intros [].
  replace (x mod 4096) with ((x - fp.1) mod 4096) by dlia. rewrite Hl0. unfold image_byte.
  by replace (fp.1 + (x - fp.1)) with x by lia.
Qed.

(** The number of pages of a footprint. *)
Definition pages_in (fp : Z * Z) : nat := Z.to_nat (range_len fp / GRANULE_SIZE).

(** The capabilities of new pages are the allocator's. *)
Lemma new_caps a a1 k k1 ps fs T B :
  kdiff (alloc_range a) T B k k1 -> frames_ok a1 k1 ps fs ->
  (forall f, f ∈ fs -> forall c, cap_frame k c <> Some f) ->
  forall c, caps_of ps c -> alloc_range a c /\ cap_vs k1 c = None /\ ~ alloc_range a1 c.
Proof.
  intros D [F1 F2 _ _] Hnew c (p & -> & [i Hp]%list_elem_of_lookup)%list_elem_of_fmap.
  destruct (Forall2_lookup_l _ _ _ _ _ F1 Hp) as (f & Hf & Hcf & _). split_and!.
  - destruct (decide (slots_start a <= p.1 < slots_end a)) as [|Hn]; [done|].
    exfalso. eapply (Hnew f (list_elem_of_lookup_2 _ _ _ Hf)). by rewrite <- (kd_frame _ _ _ _ _ D).
  - by eapply frame_not_vs.
  - by apply (Forall_lookup_1 _ _ _ _ F2 Hp).
Qed.

Lemma wp_map_image chk v vs seat fp segs mp m a k :
  seat_free seat k -> cap_vs k v = Some vs -> ~ alloc_range a SLOT_VSPACE -> ~ alloc_range a v ->
  alloc_ok (pages_in fp + m) (a, k) ->
  page_aligned fp.1 -> page_aligned fp.2 -> 0 <= fp.1 <= fp.2 -> fp.2 <= 2 ^ 48 -> Forall (seg_ok fp) segs ->
  (forall va, page_aligned va -> fp.1 <= va < fp.2 -> missing k vs va = 0%nat /\ translate k vs va = None) ->
  wp (map_image chk mp v fp segs SLOT_VSPACE seat) (fun mp' s' =>
      image_at vs fp segs mp' s'.2 /\ (forall va, ~ (fp.1 <= va < fp.2) -> mp' !! va = mp !! va) /\
      s'.1 = bump_by (pages_in fp) a /\ alloc_ok m s' /\
      kdiff (alloc_range a) (fun vs' va => vs' = vs /\ fp.1 <= va < fp.2) (fresh_bytes a k) k s'.2) (a, k).
Proof.
  intros HS Hv Hso Hvo HA Hal1 Hal2 Hfp Hmax Hsegs Hva. unfold map_image. wp_step. fold (pages_in fp).
  assert (fp.2 - fp.1 = 4096 * Z.of_nat (pages_in fp)) as Hlen.
  { unfold pages_in, range_len, GRANULE_SIZE, page_aligned in *. rewrite Z.max_r by lia. dlia. }
  eapply wp_mono; [by apply (wp_alloc_pages (pages_in fp) m)|].
  intros ps [a1 k1] (fs & Efs & HF & Ea & HA1 & D1 & Hz). simpl in *.
  assert (in_footprint fp fs) as Hin by (split_and!; [rewrite Efs|..]; done || lia).
  assert (seat_free seat k1) as HS1.
  { eapply seat_free_kdiff; [exact HS|exact D1|done|].
    rewrite (kd_trans _ _ _ _ _ D1) by by intros []. apply HS. }
  wp_step. eapply wp_mono; [by apply (wp_map_segments chk seat fp fs)|].
  intros ps2 [a2 k2] HL. pose proof HL as (Ea2 & Eps & HS2 & HF2 & A2 & D2 & _). simpl in *. subst a2.
  pose proof (new_caps _ _ _ _ _ _ _ _ D1 HF (fun f Hf => proj2 (Hz f Hf))) as Hcaps.
  pose proof (new_caps _ _ _ _ _ _ _ _ D1 (frames_ok_fst _ _ _ ps2 _ Eps HF) (fun f Hf => proj2 (Hz f Hf))) as Hcaps2.
  assert (cap_vs k1 v = Some vs) as Hv1 by (by rewrite (kd_vs _ _ _ _ _ D1)).
  pose proof (Forall2_length _ _ _ (fo_caps _ _ _ _ HF2)) as Hps2.
  eapply wp_mono.
  - apply (wp_map_pages_at chk v vs a1 fp.1 ps2 0 fs mp k2); try done; try lia.
    + rewrite (kd_vs _ _ _ _ _ D2); [done|]. intros (_ & ? & _)%Hcaps. congruence.
    + intros j Hj. destruct (Hva (fp.1 + 4096 * (0 + j))) as [Hm Ht]; [unfold page_aligned in *; dlia|lia|].
      pose proof (kd_missing _ _ _ _ _ D1 vs (fp.1 + 4096 * (0 + j))).
      pose proof (kd_missing _ _ _ _ _ D2 vs (fp.1 + 4096 * (0 + j))).
      split; [lia|]. by rewrite (kd_trans _ _ _ _ _ D2), (kd_trans _ _ _ _ _ D1) by by intros [].
  - intros mp' [a3 k3] [Ea3 HP]. simpl in *. replace (fp.1 + 4096 * 0) with fp.1 in HP by lia. subst a3.
    pose proof HP as [P1 P2 P3 P4]. split_and!.
    + eapply (loaded_image vs fp fs segs ps ps2 (a1, k1) (a1, k2)); try done.
      by intros f o Hf; apply Hz.
    + intros va Hn. apply P2. lia.
    + done.
    + eapply alloc_ok_kdiff; [exact P4|exact P3|by intros c (_ & _ & ?)%Hcaps2|].
      eapply alloc_ok_kdiff; [exact D2|exact A2|by intros c (_ & _ & ?)%Hcaps|exact HA1].
    + eapply kdiff_trans; [eapply kdiff_weaken, D1; by try intros ? ? []|].
      eapply kdiff_trans; eapply kdiff_weaken; [..|exact D2| | | |exact P4].
      * by intros c (? & _)%Hcaps.
      * by intros ? ? [].
      * intros f o Hf c _. by apply Hz.
      * by intros c (? & _)%Hcaps2.
      * intros ? ? [-> ?]. split; [done|lia].
      * by intros ? ? [].
Qed.

(** Later steps on slots that were empty, other pages and other frames keep the
    image. *)
Lemma image_at_kdiff vs fp segs mp mp' k k' C T B :
  kdiff C T B k k' -> (forall c, C c -> slot_empty k c = true) ->
  (forall vs' va, T vs' va -> ~ (fp.1 <= va < fp.2)) ->
  (forall f o c, B f o -> cap_frame k c <> Some f) ->
  (forall va, fp.1 <= va < fp.2 -> mp' !! va = mp !! va) -> page_aligned fp.1 ->
  image_at vs fp segs mp k -> image_at vs fp segs mp' k'.
Proof.
  intros D HC HT HB Hmp Hal HI x Hx. destruct (HI x Hx) as (c & f & H1 & H2 & H3 & H4 & H5).
  assert (~ C c) as Hc by (intros ?%HC; apply frame_not_empty in H2; congruence).
  pose proof (down_bounds 4096 x ltac:(lia)).
  pose proof (down_ge_aligned 4096 x fp.1 ltac:(lia) Hal ltac:(lia)).
  exists c, f. split_and!.
  - by rewrite Hmp by lia.
  - by rewrite (kd_frame _ _ _ _ _ D).
  - by rewrite (kd_mapping _ _ _ _ _ D).
  - rewrite (kd_trans _ _ _ _ _ D); [done|]. intros HTx%HT. lia.
  - rewrite (kd_bytes _ _ _ _ _ D); [done|]. intros HBx. by apply (HB _ _ c HBx).
Qed.

(** A segment as an ELF file describes it. *)
Definition elf_segment (s : Segment) : Prop :=
  seg_wf s /\ (exists d, seg_data s = Some d /\ Z.of_nat (length d) <= seg_size s) /\
  (exists fl, seg_flags s = Some fl).

Lemma footprint_segs chk segs fp :
  segs <> [] -> Forall elf_segment segs -> footprint chk segs = Ret fp ->
  page_aligned fp.1 /\ page_aligned fp.2 /\ 0 <= fp.1 <= fp.2 /\ Forall (seg_ok fp) segs.
Proof.
  intros Hne Hsegs E. rewrite Forall_forall in Hsegs.
  destruct (footprint_eq chk segs Hne) as (mn & mx & E' & Hm & Hin & _); [by intros s [Hs _]%Hsegs|].
  rewrite E in E'. injection E' as ->. unfold page_aligned. cbn [fst snd].
  pose proof (down_bounds 4096 mn ltac:(lia)). pose proof (up_bounds 4096 mx ltac:(lia)).
  pose proof (down_ge_aligned 4096 mn 0 ltac:(lia) (Zmod_0_l _) ltac:(lia)).
  split_and!; [apply down_mod; lia|apply up_mod; lia|lia..|].
  apply Forall_forall. intros s Hs. destruct (Hin s Hs), (Hsegs s Hs) as ((? & ? & ?) & ? & ?).
  unfold seg_ok. cbn [fst snd]. split_and!; try done; lia.
Qed.
End load.
