(* ===== verification/KThread.v ===== *)
(** * The state of the kernel thread

    Its tasks ([TASK_MAP] in [crates/kernel-thread/src/child_test.rs]), its
    object allocator with the kernel behind it, the task-id counter, the IPC
    buffer, and what leaves the thread: the console and the requests sent to the
    net thread. *)

From S2P Require Import Prelude Words Consts Sel4 Sel4Laws RefKernel Externs Reference Messages Uspace ObjAllocator KTask FrameMem UserMem.

Section kthread.
Context `{K : Sel4}.

Record KT := MkKT {
  kt_tasks : gmap Z Sel4Task;
  kt_ak : AK;
  kt_next_id : Z;
  kt_ipc : IpcBuffer;
  kt_console : list Z;
  kt_sent : list NetRequsetabel;
}.

Definition set_tasks (x : gmap Z Sel4Task) (s : KT) : KT :=
  MkKT x (kt_ak s) (kt_next_id s) (kt_ipc s) (kt_console s) (kt_sent s).
Definition set_ak (x : AK) (s : KT) : KT :=
  MkKT (kt_tasks s) x (kt_next_id s) (kt_ipc s) (kt_console s) (kt_sent s).
Definition set_next_id (x : Z) (s : KT) : KT :=
  MkKT (kt_tasks s) (kt_ak s) x (kt_ipc s) (kt_console s) (kt_sent s).
Definition set_ipc (x : IpcBuffer) (s : KT) : KT :=
  MkKT (kt_tasks s) (kt_ak s) (kt_next_id s) x (kt_console s) (kt_sent s).
Definition set_console (x : list Z) (s : KT) : KT :=
  MkKT (kt_tasks s) (kt_ak s) (kt_next_id s) (kt_ipc s) x (kt_sent s).
Definition set_sent (x : list NetRequsetabel) (s : KT) : KT :=
  MkKT (kt_tasks s) (kt_ak s) (kt_next_id s) (kt_ipc s) (kt_console s) x.

Definition kt_kernel (s : KT) : kstate := (kt_ak s).2.
Definition set_kernel (k : kstate) (s : KT) : KT := set_ak ((kt_ak s).1, k) s.

(** Computations on the parts. *)
Definition on_alloc {A} (m : M AK A) : M KT A := zoom kt_ak set_ak m.
Definition on_kernel {A} (m : M kstate A) : M KT A := zoom kt_kernel set_kernel m.
Definition on_ipc {A} (m : M IpcBuffer A) : M KT A := zoom kt_ipc set_ipc m.

(** [task_map.get(&badge).unwrap()] *)
Definition get_task (badge : Z) : M KT Sel4Task := fun s =>
  match kt_tasks s !! badge with
  | Some t => Ret (t, s)
  | None => Panic PUnwrap
  end.

(** A computation on [task_map.get_mut(&badge).unwrap()]. *)
Definition with_task {A} (badge : Z) (m : M TK A) : M KT A := fun s =>
  match kt_tasks s !! badge with
  | Some t =>
      match m (t, kt_ak s) with
      | Ret (x, (t', ak')) => Ret (x, set_ak ak' (set_tasks (<[badge := t']> (kt_tasks s)) s))
      | Panic p => Panic p
      | Deadlock => Deadlock
      | NoFuel => NoFuel
      end
  | None => Panic PUnwrap
  end.

(** A task that is not in the map yet. *)
Definition on_local {A} (t : Sel4Task) (m : M TK A) : M KT (A * Sel4Task) := fun s =>
  match m (t, kt_ak s) with
  | Ret (x, (t', ak')) => Ret ((x, t'), set_ak ak' s)
  | Panic p => Panic p
  | Deadlock => Deadlock
  | NoFuel => NoFuel
  end.

(** [buffer.msg_regs()[i]] *)
Definition msg_reg (i : Z) : M KT Z := fun s =>
  match index (msg_regs (kt_ipc s)) i with
  | Ret v => Ret (v, s)
  | Panic p => Panic p
  | Deadlock => Deadlock
  | NoFuel => NoFuel
  end.

Lemma msg_reg_Ret i v s :
  0 <= i -> msg_regs (kt_ipc s) !! Z.to_nat i = Some v -> msg_reg i s = Ret (v, s).
Proof. intros Hi Hv. unfold msg_reg. by rewrite (index_lookup _ _ v). Qed.

Lemma wp_with_task {A} badge (m : M TK A) t (Q : A -> KT -> Prop) s :
  kt_tasks s !! badge = Some t ->
  wp m (fun x s' => Q x (set_ak s'.2 (set_tasks (<[badge := s'.1]> (kt_tasks s)) s))) (t, kt_ak s) ->
  wp (with_task badge m) Q s.
Proof.
  intros Ht (x & [t' ak'] & E & HQ). eexists _, _. unfold with_task. rewrite Ht, E.
  split; [done|exact HQ].
Qed.

Lemma with_task_inv {A} badge (m : M TK A) s x s' :
  with_task badge m s = Ret (x, s') ->
  exists t t' ak', kt_tasks s !! badge = Some t /\ m (t, kt_ak s) = Ret (x, (t', ak')) /\
    s' = set_ak ak' (set_tasks (<[badge := t']> (kt_tasks s)) s).
Proof.
  unfold with_task. destruct (kt_tasks s !! badge) as [t|] eqn:Et; [|done].
  destruct (m (t, kt_ak s)) as [[y [t' ak']]| | |] eqn:E; try done.
  intros [= -> <-]. by exists t, t', ak'.
Qed.

(** A request under an unknown badge stops the thread. *)
Lemma with_task_unknown {A} badge (m : M TK A) s :
  kt_tasks s !! badge = None -> with_task badge m s = Panic PUnwrap.
Proof. intros E. unfold with_task. by rewrite E. Qed.
End kthread.

(** A kernel thread on the reference kernel, with one user task under badge 1. *)
Definition ref_kt (n : nat) : @KT ref_sel4 :=
  @MkKT ref_sel4 {[1 := ref_user_task]} (MkAllocator 50 1024 26, ref_user n) 2 blank_ipc [] [].
