(* ===== verification/NetClient.v ===== *)
(** * The kernel thread's client of the net thread
      ([crates/kernel-thread/src/syscall/net])

    Socket system calls become requests to the net thread.  The net thread is
    another protection domain: [ep_call] is what a call through its endpoint
    does to the caller's IPC buffer and to the kernel state (the shared page). *)

From S2P Require Import Prelude Words Consts Sel4 Sel4Laws RefKernel Externs Reference Messages Uspace ObjAllocator KTask FrameMem UserMem KThread.

(** ** Addresses in the reply of [accept] *)

(** The local function [parse_ipaddr] of [sys_accept]. *)
Definition parse_ipaddr (is_ipv4 : bool) (addr_low addr_high port : Z) : SocketAddr :=
  if is_ipv4 then MkSocketAddr (V4 (take 4 (to_be_bytes 8 addr_low))) port
  else MkSocketAddr (V6 (to_be_bytes 16 (Z.lor (Z.shiftl addr_high 32) addr_low))) port.

Section client.
Context `{K : Sel4} `{MI : MessageInfoApi} `{MA : MemoryAddr} `{AX : AxErrno}.
Context (seat : Z).
(** The reply of the net thread. *)
Context (ep_call : CPtr -> MessageInfo -> IpcBuffer -> kstate -> IpcBuffer * kstate).
(** Memory layout of [core::net::SocketAddr] and of the reader's stack: its
    size, its bytes followed by what lies behind it, and its address. *)
Context (SOCKADDR_SIZE : Z) (sockaddr_mem : SocketAddr -> Z -> Z) (stack_ptr : Z).
(** The address of the heap allocation of a [Vec]. *)
Context (heap_ptr : Z) (heap_mem : Z -> Z).

Definition send_net_ipc (label : NetRequsetabel) (cap : option CPtr) : M KT unit :=
  let ipc_ep := DEFAULT_CUSTOM_SLOT + 2 in
  match cap with
  | Some cap => on_ipc (write_cap 0 cap)
  | None => mret tt
  end ;;
  mi ← on_ipc (NetRequsetabel_build label);
  modify (fun s =>
    let '(b, k) := ep_call ipc_ep mi (kt_ipc s) (kt_kernel s) in
    set_sent (kt_sent s ++ [label]) (set_ipc b (set_kernel k s))).

(** [gen_cap]: [copy_nonoverlapping] counts items of [size] bytes. *)
Definition gen_cap (size : Z) (mem : Z -> Z) (num : option Z) : M KT CPtr :=
  new_cap ← on_alloc (allocate_and_retyped_fixed_sized BpGranule);
  on_kernel (kcall_unwrap (frame_map new_cap SLOT_VSPACE seat rights_all)) ;;
  let copy_num := default 1 num in
  (if wrap64 (size * copy_num) >? PAGE_SIZE_4K then panic_with PExplicit else mret tt) ;;
  on_kernel (store_bytes seat (host_bytes mem 0 (wrap64 (size * copy_num) * size))) ;;
  mret new_cap.

(** The [tcp] module. *)
Definition handle_axresult (val : Z) : M KT (result Z AxError) :=
  let val_i32 := as_i32 val in
  if val_i32 =? 0 then mret (Ok val)
  else e ← unwrap (ax_try_from val_i32); mret (Err e).

Definition tcp_new : M KT Z :=
  send_net_ipc NRL_New None ;; msg_reg 0.

Definition tcp_is_non_blocking (socket_id : Z) : M KT bool :=
  send_net_ipc (NRL_IsNonBlocking socket_id) None ;;
  r ← msg_reg 0; mret (negb (r =? 0)).

Definition tcp_set_nonblocking (socket_id : Z) (is_nonblocking : bool) : M KT unit :=
  send_net_ipc (NRL_SetNonBlocking socket_id (Z.b2z is_nonblocking)) None.

Definition unit_result (r : result Z AxError) : result unit AxError :=
  match r with Ok _ => Ok tt | Err e => Err e end.

Definition tcp_bind (socket_id : Z) (local_addr : SocketAddr) : M KT (result unit AxError) :=
  cap ← gen_cap SOCKADDR_SIZE (sockaddr_mem local_addr) None;
  send_net_ipc (NRL_Bind socket_id stack_ptr) (Some cap) ;;
  v ← msg_reg 0; r ← handle_axresult v; mret (unit_result r).

(** A buffer is the length of the slice; its bytes are those of the allocation. *)
Definition tcp_send (socket_id buf_len : Z) : M KT (result Z AxError) :=
  (if buf_len >? PAGE_SIZE_4K then panic_with PExplicit else mret tt) ;;
  cap ← gen_cap 1 heap_mem (Some buf_len);
  on_kernel (store_bytes seat (host_bytes heap_mem 0 buf_len)) ;;
  send_net_ipc (NRL_Send socket_id heap_ptr buf_len) (Some cap) ;;
  v ← msg_reg 0; handle_axresult v.

(** [recv] returns the bytes it copied to the buffer's address as well. *)
Definition tcp_recv (socket_id buf_len : Z) : M KT (list Z * result Z AxError) :=
  (if buf_len >? PAGE_SIZE_4K then panic_with PExplicit else mret tt) ;;
  cap ← gen_cap 1 heap_mem (Some buf_len);
  send_net_ipc (NRL_Recv socket_id heap_ptr buf_len) (Some cap) ;;
  len ← msg_reg 0;
  bs ← on_kernel (load_bytes seat (Z.to_nat len));
  r ← handle_axresult len; mret (bs, r).

Definition tcp_recv_timeout (socket_id buf_len timeout : Z) : M KT (list Z * result Z AxError) :=
  (if buf_len >? PAGE_SIZE_4K then panic_with PExplicit else mret tt) ;;
  cap ← gen_cap 1 heap_mem (Some buf_len);
  send_net_ipc (NRL_RecvTimeout socket_id heap_ptr buf_len timeout) (Some cap) ;;
  len ← msg_reg 0;
  bs ← on_kernel (load_bytes seat (Z.to_nat len));
  r ← handle_axresult len; mret (bs, r).

Definition tcp_listen (socket_id : Z) : M KT (result unit AxError) :=
  send_net_ipc (NRL_Listen socket_id) None ;;
  v ← msg_reg 0; r ← handle_axresult v; mret (unit_result r).

Definition tcp_connect (socket_id : Z) (remote_addr : SocketAddr) : M KT (result unit AxError) :=
  cap ← gen_cap SOCKADDR_SIZE (sockaddr_mem remote_addr) None;
  send_net_ipc (NRL_Connect socket_id 0) (Some cap) ;;
  v ← msg_reg 0; r ← handle_axresult v; mret (unit_result r).

(** [i32::abs] of a release build. *)
Definition i32_abs (z : Z) : Z := as_i32 (Z.abs z).

Definition tcp_accept (socket_id : Z) : M KT (result (list Z) AxError) :=
  send_net_ipc (NRL_Accept socket_id) None ;;
  r0 ← msg_reg 0;
  if as_i64 r0 <? 0 then
    e ← unwrap (ax_try_from (i32_abs (as_i32 r0))); mret (Err e)
  else
    r1 ← msg_reg 1; r2 ← msg_reg 2; r3 ← msg_reg 3; r4 ← msg_reg 4;
    mret (Ok [r0; r1; r2; r3; r4]).

Definition tcp_close (socket_id : Z) : M KT (result unit AxError) :=
  send_net_ipc (NRL_Close socket_id) None ;;
  v ← msg_reg 0; r ← handle_axresult v; mret (unit_result r).

Definition tcp_shutdown (socket_id : Z) : M KT (result unit AxError) :=
  send_net_ipc (NRL_Shutdown socket_id) None ;;
  v ← msg_reg 0; r ← handle_axresult v; mret (unit_result r).

(** ** The system calls *)

(** [socket_fd as u64] sign-extends. *)
Definition fd_id (socket_fd : Z) : Z := wrap64 (as_i32 socket_fd).

(** The C structure as it lies in user memory: family, then 14 data bytes. *)
Definition LIBC_SOCKADDR_SIZE : Z := 16.
Definition parse_sockaddr (bs : list Z) : LibcSocketAddr :=
  MkLibcSocketAddr (from_le_bytes (take 2 bs)) (drop 2 bs).

Definition k_read_item (badge size addr : Z) : M KT (result (list Z) Errno) :=
  t ← get_task badge;
  on_kernel (read_item seat size t addr).

Definition sys_socket (_badge _domain _type _protocol : Z) : M KT (result Z Errno) :=
  id ← tcp_new; mret (Ok id).

Definition sys_bind (badge socket_fd addr _addr_len : Z) : M KT (result Z Errno) :=
  bs <-? k_read_item badge LIBC_SOCKADDR_SIZE addr ;
  local_addr ← lift (LibcSocketAddr_into (parse_sockaddr bs));
  r ← tcp_bind (fd_id socket_fd) local_addr;
  match r with
  | Ok _ => mret (Ok 0)
  | Err e => if AxError_eqb e InvalidInput then mret (Err EINVAL) else panic_with PExplicit
  end.

(** The match shared by the other calls: two errors are [EINVAL], the rest is
    fatal. *)
Definition einval_or_panic {A} (r : result A AxError) (ok : A -> M KT (result Z Errno)) :
    M KT (result Z Errno) :=
  match r with
  | Ok x => ok x
  | Err e => if AxError_eqb e InvalidInput || AxError_eqb e AddrInUse
             then mret (Err EINVAL) else panic_with PExplicit
  end.

Definition sys_connect (badge socket_fd addr _addr_len : Z) : M KT (result Z Errno) :=
  bs <-? k_read_item badge LIBC_SOCKADDR_SIZE addr ;
  remote_addr ← lift (LibcSocketAddr_into (parse_sockaddr bs));
  r ← tcp_connect (fd_id socket_fd) remote_addr;
  einval_or_panic r (fun _ => mret (Ok 0)).

Definition sys_listen (_badge socket_fd : Z) : M KT (result Z Errno) :=
  r ← tcp_listen (fd_id socket_fd);
  einval_or_panic r (fun _ => mret (Ok 0)).

(** [libc_mem] is the memory that starts with the converted address. *)
Definition sys_accept (libc_mem : LibcSocketAddr -> Z -> Z) (badge socket_fd addr _addr_len : Z) :
    M KT (result Z Errno) :=
  t ← get_task badge;
  r ← tcp_accept (fd_id socket_fd);
  einval_or_panic r (fun ans =>
    id ← lift (index ans 0);
    v4 ← lift (index ans 1);
    p ← lift (index ans 2);
    lo ← lift (index ans 3);
    hi ← lift (index ans 4);
    libc ← lift (LibcSocketAddr_from (parse_ipaddr (negb (v4 =? 0)) lo hi (wrap16 p)));
    on_kernel (write_item seat LIBC_SOCKADDR_SIZE t addr (libc_mem libc)) ;;
    mret (Ok id)).

Definition sys_shutdown (_badge socket_fd _how : Z) : M KT (result Z Errno) :=
  r ← tcp_shutdown (fd_id socket_fd);
  einval_or_panic r (fun _ => mret (Ok 0)).

(** [Vec::with_capacity(len)] is an empty vector: its slice has length 0, and
    [read_item_list] fills the spare capacity. *)
Definition sys_sendto (badge socket_fd buf len _flags addr _addr_len : Z) :
    M KT (result Z Errno) :=
  bs <-? k_read_item badge LIBC_SOCKADDR_SIZE addr ;
  _remote ← lift (LibcSocketAddr_into (parse_sockaddr bs));
  t ← get_task badge;
  (fun s => match read_item_list seat 1 t buf (Some len) (∅, kt_kernel s) with
            | Ret (_, (_, k)) => Ret (tt, set_kernel k s)
            | Panic p => Panic p
            | Deadlock => Deadlock
            | NoFuel => NoFuel
            end) ;;
  r ← tcp_send (fd_id socket_fd) 0;
  einval_or_panic r (fun len => mret (Ok len)).

Definition sys_recvfrom (badge socket_fd buf len _flags _addr _addr_len : Z) :
    M KT (result Z Errno) :=
  t ← get_task badge;
  r ← tcp_recv (fd_id socket_fd) 0;
  einval_or_panic r.2 (fun len =>
    on_kernel (write_item_list seat 1 t buf (Some len)
      (fun i => default 0 (r.1 !! Z.to_nat i)))).
End client.

(** ** Requests that leave the thread *)

(** [sends m ls]: whenever [m] returns, it has sent exactly the requests [ls x],
    where [x] is its result. *)
Definition sends `{Sel4} {A} (m : M KT A) (ls : A -> list NetRequsetabel) : Prop :=
  forall s x s', m s = Ret (x, s') -> kt_sent s' = kt_sent s ++ ls x.

Notation sends_nothing m := (sends m (fun _ => [])).

Section trace.
Context `{K : Sel4}.

Lemma sends_ret {A} (a : A) : sends_nothing (mret a).
Proof. intros s x s' [= <- <-]. by rewrite app_nil_r. Qed.

Lemma sends_panic {A} p : sends_nothing (@panic_with KT A p).
Proof. by intros s x s' ?. Qed.

Lemma sends_zoom {T A} (get : KT -> T) (put : T -> KT -> KT) (m : M T A) :
  (forall t s, kt_sent (put t s) = kt_sent s) -> sends_nothing (zoom get put m).
Proof.
  intros Hp s x s'. unfold zoom. destruct (m (get s)) as [[y t]| | |]; try done.
  intros [= <- <-]. by rewrite Hp, app_nil_r.
Qed.

Lemma sends_lift {A} (o : outcome A) : sends_nothing (lift o).
Proof.
  intros s x s'. unfold lift. destruct o; try done. intros [= <- <-]. by rewrite app_nil_r.
Qed.

Lemma sends_get_task badge : sends_nothing (get_task badge).
Proof.
  intros s x s'. unfold get_task. destruct (kt_tasks s !! badge); try done.
  intros [= <- <-]. by rewrite app_nil_r.
Qed.

Lemma sends_msg_reg i : sends_nothing (msg_reg i).
Proof.
  intros s x s'. unfold msg_reg. destruct (index _ i); try done.
  intros [= <- <-]. by rewrite app_nil_r.
Qed.

(** A silent step before or after the requests. *)
Lemma sends_bind_l {A B} (m : M KT A) (f : A -> M KT B) ls :
  sends_nothing m -> (forall a, sends (f a) ls) -> sends (mbind f m) ls.
Proof.
  intros Hm Hf s x s' (a & s1 & E1 & E2)%bind_inv.
  rewrite (Hf _ _ _ _ E2), (Hm _ _ _ E1). by rewrite app_nil_r.
Qed.

Lemma sends_bind_r {A B} (m : M KT A) (f : A -> M KT B) (l : list NetRequsetabel) :
  sends m (fun _ => l) -> (forall a, sends_nothing (f a)) -> sends (mbind f m) (fun _ => l).
Proof.
  intros Hm Hf s x s' (a & s1 & E1 & E2)%bind_inv.
  rewrite (Hf _ _ _ _ E2), (Hm _ _ _ E1). by rewrite app_nil_r.
Qed.
End trace.

#[export] Hint Resolve sends_ret sends_panic sends_lift sends_get_task sends_msg_reg : monad.
#[export] Hint Extern 1 (sends (on_kernel _) _) => by apply sends_zoom : monad.
#[export] Hint Extern 1 (sends (on_alloc _) _) => by apply sends_zoom : monad.
#[export] Hint Extern 1 (sends (on_ipc _) _) => by apply sends_zoom : monad.

Section requests.
Context `{K : Sel4} `{MI : MessageInfoApi} `{MA : MemoryAddr} `{AX : AxErrno} (seat : Z).
Context (ep_call : CPtr -> MessageInfo -> IpcBuffer -> kstate -> IpcBuffer * kstate).
Context (heap_ptr : Z) (heap_mem : Z -> Z).

Lemma sends_send_net_ipc label cap : sends (send_net_ipc ep_call label cap) (fun _ => [label]).
Proof.
  unfold send_net_ipc. apply sends_bind_l; [destruct cap; auto with monad|]. intros [].
  apply sends_bind_l; [auto with monad|]. intros mi s x s' [= _ <-].
  by destruct (ep_call _ _ _ _).
Qed.

Lemma sends_gen_cap size mem num : sends_nothing (gen_cap seat size mem num).
Proof.
  unfold gen_cap. apply sends_bind_l; [auto with monad|]. intros c.
  apply sends_bind_l; [auto with monad|]. intros [].
  apply sends_bind_l; [destruct (_ >? _); auto with monad|]. intros [].
  apply sends_bind_l; auto with monad.
Qed.

Lemma sends_handle_axresult v : sends_nothing (handle_axresult v).
Proof.
  unfold handle_axresult. destruct (_ =? 0); [auto with monad|].
  apply sends_bind_l; [|auto with monad]. destruct (ax_try_from _); simpl; auto with monad.
Qed.

Lemma sends_tcp_send id len :
  sends (tcp_send seat ep_call heap_ptr heap_mem id len) (fun _ => [NRL_Send id heap_ptr len]).
Proof.
  unfold tcp_send. apply sends_bind_l; [destruct (_ >? _); auto with monad|]. intros [].
  apply sends_bind_l; [apply sends_gen_cap|]. intros c.
  apply sends_bind_l; [auto with monad|]. intros [].
  apply sends_bind_r; [apply sends_send_net_ipc|]. intros [].
  apply sends_bind_l; [auto with monad|]. intros v. apply sends_handle_axresult.
Qed.

Lemma sends_tcp_recv id len :
  sends (tcp_recv seat ep_call heap_ptr heap_mem id len) (fun _ => [NRL_Recv id heap_ptr len]).
Proof.
  unfold tcp_recv. apply sends_bind_l; [destruct (_ >? _); auto with monad|]. intros [].
  apply sends_bind_l; [apply sends_gen_cap|]. intros c.
  apply sends_bind_r; [apply sends_send_net_ipc|]. intros [].
  apply sends_bind_l; [auto with monad|]. intros v.
  apply sends_bind_l; [auto with monad|]. intros bs.
  apply sends_bind_l; [apply sends_handle_axresult|auto with monad].
Qed.

Lemma sends_einval {A} (r : result A AxError) ok :
  (forall x, sends_nothing (ok x)) -> sends_nothing (einval_or_panic r ok).
Proof. intros Hok. destruct r; simpl; [auto|]. destruct (_ || _); auto with monad. Qed.
End requests.

(** [sys_sendto] and [sys_recvfrom] never move a byte: whatever length the
    caller asks for, the request that reaches the net thread has length 0,
    because the length of the slice of [Vec::with_capacity(len)] is 0. *)
Theorem socket_io_requests_empty `{K : Sel4} `{MI : MessageInfoApi} `{MA : MemoryAddr}
    `{AX : AxErrno} (seat : Z)
    (ep_call : CPtr -> MessageInfo -> IpcBuffer -> kstate -> IpcBuffer * kstate)
    (heap_ptr : Z) (heap_mem : Z -> Z) (badge fd buf len flags addr addr_len n : Z) (s s' : KT)
    (Hrun : sys_sendto seat ep_call heap_ptr heap_mem badge fd buf len flags addr addr_len s
              = Ret (Ok n, s') \/
            sys_recvfrom seat ep_call heap_ptr heap_mem badge fd buf len flags addr addr_len s
              = Ret (Ok n, s')) :
  kt_sent s' = kt_sent s ++ [NRL_Send (fd_id fd) heap_ptr 0] \/
  kt_sent s' = kt_sent s ++ [NRL_Recv (fd_id fd) heap_ptr 0].
Proof.
  destruct Hrun as [H|H]; [left|right].
  - unfold sys_sendto, bind_r in H. ibind H as rb s1 E1.
    assert (kt_sent s1 = kt_sent s) as Hs1.
    { assert (sends_nothing (k_read_item seat badge LIBC_SOCKADDR_SIZE addr)) as HS
        by (unfold k_read_item; apply sends_bind_l; auto with monad).
      rewrite (HS _ _ _ E1). by rewrite app_nil_r. }
    destruct rb as [bs|e]; [|done]. rewrite <- Hs1. revert H.
    match goal with |- ?m s1 = _ -> _ =>
      assert (sends m (fun _ => [NRL_Send (fd_id fd) heap_ptr 0])) as HS; [|apply HS] end.
    apply sends_bind_l; [auto with monad|]. intros a.
    apply sends_bind_l; [auto with monad|]. intros t.
    apply sends_bind_l.
    { intros s0 x s2. destruct (read_item_list _ _ _ _ _ _) as [[r [b k]]| | |]; try done.
      intros [= <- <-]. by rewrite app_nil_r. }
    intros []. apply sends_bind_r; [apply sends_tcp_send|].
    intros r. apply sends_einval. auto with monad.
  - revert H. apply (sends_bind_l (get_task badge)
      _ (fun _ => [NRL_Recv (fd_id fd) heap_ptr 0])); [auto with monad|]. intros t.
    apply sends_bind_r; [apply sends_tcp_recv|].
    intros r. apply sends_einval. auto with monad.
Qed.

(** ** Replies of the net thread *)

(** A positive reply, which is how the net thread reports a number of bytes,
    is never a success for the client: [handle_axresult] takes it for an error
    code, or stops the thread when it is not one. *)
Theorem positive_reply_never_ok `{K : Sel4} `{AX : AxErrno} (v n : Z) (s s' : KT)
    (Hv : 0 < v < 2 ^ 32) :
  handle_axresult v s <> Ret (Ok n, s').
Proof.
  unfold handle_axresult. intros E.
  destruct (Z.eqb_spec (as_i32 v) 0) as [Hz|Hz].
  - unfold as_i32 in Hz. rewrite Z.mod_small in Hz by lia.
    destruct (Z.ltb_spec v (2 ^ 31)); lia.
  - ibind E as e s1 E1. done.
Qed.

Lemma positive_reply_never_ok_witness :
  (forall n s', @handle_axresult ref_sel4 ref_axerrno 5 (ref_kt 0) <> Ret (Ok n, s')) /\
  @handle_axresult ref_sel4 ref_axerrno 1460 (ref_kt 0) = Panic PUnwrap.
Proof.
  split; [|reflexivity]. intros n s'.
  apply (@positive_reply_never_ok ref_sel4 ref_axerrno 5 n). lia.
Defined.

(** An [accept] that failed in the net thread looks like a new connection:
    error codes are positive, the client tests for negative ones, and the code
    becomes the socket id of the result. *)
Theorem accept_error_becomes_socket `{K : Sel4} `{MI : MessageInfoApi} `{ML : !MessageInfoLaws}
    `{AX : AxErrno} `{AL : !AxErrnoLaws}
    (ep_call : CPtr -> MessageInfo -> IpcBuffer -> kstate -> IpcBuffer * kstate)
    (id : Z) (e : AxError) (s : KT) (rest : list Z)
    (Hipc : ipc_wf (kt_ipc s))
    (Hreply : forall mi b k, msg_regs (ep_call (DEFAULT_CUSTOM_SLOT + 2) mi b k).1 =
       [ax_code e; 0; 0; 0; 0] ++ rest) :
  wp (tcp_accept ep_call id)
     (fun r _ => r = Ok [ax_code e; 0; 0; 0; 0]) s.
Proof.
  unfold tcp_accept. wp_step. unfold send_net_ipc. wp_step. wp_step. wp_step.
  unfold on_ipc. wp_step. eapply wp_mono; [exact (p_build_ok (NRL_Accept id) (kt_ipc s) I Hipc)|].
  intros mi b _. wp_step.
  pose proof (ax_code_range e) as He.
  set (s1 := let '(b0, k0) := ep_call _ _ _ _ in _).
  assert (msg_regs (kt_ipc s1) = [ax_code e; 0; 0; 0; 0] ++ rest) as Hr.
  { unfold s1. pose proof (Hreply mi b (kt_kernel (set_ipc b s))) as Hr.
    simpl in *. destruct (ep_call _ _ _ _) as [b1 k1]. exact Hr. }
  assert (forall i v, ([ax_code e; 0; 0; 0; 0] ++ rest) !! Z.to_nat i = Some v -> 0 <= i ->
    msg_reg i s1 = Ret (v, s1)) as Hm.
  { intros i v Hv Hi. apply msg_reg_Ret; [done|]. by rewrite Hr. }
  eexists _, s1. split; [|done].
  rewrite (bind_Ret _ _ _ _ _ (Hm 0 _ eq_refl ltac:(lia))).
  rewrite as_i64_small by lia. destruct (Z.ltb_spec (ax_code e) 0); [lia|].
  rewrite (bind_Ret _ _ _ _ _ (Hm 1 _ eq_refl ltac:(lia))).
  rewrite (bind_Ret _ _ _ _ _ (Hm 2 _ eq_refl ltac:(lia))).
  rewrite (bind_Ret _ _ _ _ _ (Hm 3 _ eq_refl ltac:(lia))).
  by rewrite (bind_Ret _ _ _ _ _ (Hm 4 _ eq_refl ltac:(lia))).
Qed.

(** *** Witnesses *)

(** A net thread whose first reply register is [v]. *)
Definition ref_reply (v : Z) (_ : CPtr) (_ : Z) (b : IpcBuffer) (k : rk) : IpcBuffer * rk :=
  (MkIpc ([v; 0; 0; 0; 0] ++ replicate 115 0) (caps_or_badges b), k).

Lemma accept_error_becomes_socket_witness :
  wp (@tcp_accept ref_sel4 packed_message_info ref_axerrno (ref_reply 8) 3)
     (fun r _ => r = Ok [8; 0; 0; 0; 0]) (ref_kt 0).
Proof.
  apply (@accept_error_becomes_socket ref_sel4 packed_message_info packed_message_info_laws
           ref_axerrno ref_axerrno_laws (ref_reply 8) 3 RWouldBlock (ref_kt 0)
           (replicate 115 0)).
  - apply blank_ipc_wf.
  - reflexivity.
Defined.

Lemma socket_io_requests_empty_witness :
  exists s', @sys_recvfrom ref_sel4 packed_message_info ref_memory_addr ref_axerrno 0x7000
      (ref_reply 0) 0x9000 (fun _ => 0) 1 3 0x5000 100 0 0 0 (ref_kt 8) = Ret (Ok 0, s') /\
    (kt_sent s' = kt_sent (ref_kt 8) ++ [NRL_Send 3 0x9000 0] \/
     kt_sent s' = kt_sent (ref_kt 8) ++ [NRL_Recv 3 0x9000 0]).
Proof.
  destruct (run_value_Ret (@sys_recvfrom ref_sel4 packed_message_info ref_memory_addr ref_axerrno
    0x7000 (ref_reply 0) 0x9000 (fun _ => 0) 1 3 0x5000 100 0 0 0) (ref_kt 8) (Ok 0)) as [s' E].
  - vm_compute. reflexivity.
  - exists s'. split; [exact E|].
    apply (@socket_io_requests_empty ref_sel4 packed_message_info ref_memory_addr ref_axerrno
      0x7000 (ref_reply 0) 0x9000 (fun _ => 0) 1 3 0x5000 100 0 0 0 0 (ref_kt 8) s').
    right. exact E.
Defined.
