(* ===== verification/Syscalls.v ===== *)
(** * System calls of the kernel thread
      ([crates/kernel-thread/src/syscall], [child_test.rs])

    Memory, task and dispatch operations on the kernel thread's state, and the
    service loop that receives faults and system calls of the user tasks. *)

From S2P Require Import Prelude Words Consts Sel4 Sel4Laws RefKernel Externs Reference Messages Uspace ObjAllocator KTask FrameMem UserMem Exec ImageMap KThread NetClient.

(** ** Flags of [sys_mmap] *)

Definition PROT_READ : Z := Z.shiftl 1 0.
Definition PROT_WRITE : Z := Z.shiftl 1 1.
Definition PROT_EXEC : Z := Z.shiftl 1 2.
Definition MmapProt_all : Z := foldr Z.lor 0 [PROT_READ; PROT_WRITE; PROT_EXEC].

Definition MAP_SHARED : Z := Z.shiftl 1 0.
Definition MAP_PRIVATE : Z := Z.shiftl 1 1.
Definition MAP_FIXED : Z := Z.shiftl 1 4.
Definition MAP_ANONYMOUS : Z := Z.shiftl 1 5.
Definition MAP_NORESERVE : Z := Z.shiftl 1 14.
Definition MAP_STACK : Z := 0x20000.
Definition MmapFlags_all : Z :=
  foldr Z.lor 0 [MAP_SHARED; MAP_PRIVATE; MAP_FIXED; MAP_ANONYMOUS; MAP_NORESERVE; MAP_STACK].

(** [impl From<MmapProt> for CapRights] *)
Definition MmapProt_rights `{Sel4} `{Bitflags} (value : Z) : CapRights :=
  let r := rights_all in
  let r := if negb (bf_contains value PROT_READ) then rights_read false r else r in
  if negb (bf_contains value PROT_WRITE) then rights_write false r else r.

(** ** What the program is linked with

    Addresses the linker and the allocator choose, memory layouts the Rust
    compiler chooses, the embedded ELF files as the two ELF crates parse them,
    and the net thread behind its endpoint. *)

Record ElfInfo := MkElf {
  elf_entry : Z;
  elf_sections : list (Z * Z);     (* address, size *)
  elf_tbss : option Z;
}.

Class KEnv `{Sel4} `{MessageInfoApi} := {
  page_seat : Z;
  ext_page_seat : Z;
  ke_call : CPtr -> MessageInfo -> IpcBuffer -> kstate -> IpcBuffer * kstate;
  ke_sockaddr_size : Z;
  ke_sockaddr_mem : SocketAddr -> Z -> Z;
  ke_stack_ptr : Z;
  ke_heap_ptr : Z;
  ke_heap_mem : Z -> Z;
  ke_libc_mem : LibcSocketAddr -> Z -> Z;
  ke_clone_size : Z;
  ke_parse_clone_args : list Z -> CloneArgs;
  shim_image : option (list Segment);
  shim_elf : option ElfInfo;
  test_elf : option ElfInfo;
  test_phs : option (list ProgramHeader);
  test_mem : Z -> Z;
}.

Section syscalls.
Context `{K : Sel4} `{MI : MessageInfoApi} `{MA : MemoryAddr} `{AX : AxErrno}
  `{BF : Bitflags} `{SC : SyscallsCrate} `{KE : !KEnv}.

Notation SysResult := (result Z Errno).

(** ** Memory *)

Definition task_brk (addr : Z) : M TK SysResult :=
  if (addr <? USPACE_HEAP_BASE) || (wrap64 (USPACE_HEAP_BASE + USPACE_HEAP_SIZE) <? addr)
  then mret (Err ENOMEM)
  else
    heap ← gets (fun s => t_heap s.1);
    (if heap <? addr then _ ← Sel4Task_brk addr; mret tt else mret tt) ;;
    t_modify (set_heap addr) ;;
    mret (Ok 0).

Definition sys_brk (badge addr : Z) : M KT SysResult := with_task badge (task_brk addr).

(** The body of the loop of [sys_mmap]. *)
Definition mmap_page (vaddr : Z) : M TK unit :=
  m ← gets (fun s => t_mapped_page s.1);
  match m !! vaddr with
  | Some _ => mret tt
  | None => alloc_and_map vaddr
  end.

(** [VirtAddr + usize], [PageIter4K::new(..).expect(..)]: the pages of a range. *)
Definition pages_of (start length : Z) : M TK (list Z) :=
  e ← lift (va_add start length);
  unwrap (page_iter_4k (align_down_4k start) (align_up_4k e)).

Definition task_mmap (addr length prot flags : Z) : M TK SysResult :=
  match bf_from_bits MmapFlags_all flags with
  | None => mret (Err EINVAL)
  | Some map_flags =>
      match bf_from_bits MmapProt_all prot with
      | None => mret (Err EINVAL)
      | Some _ =>
          start_addr ← (if bf_contains map_flags MAP_FIXED then mret addr
                        else t ← gets fst; unwrap (find_free_area t addr length));
          pages ← pages_of start_addr length;
          for_each mmap_page pages ;;
          mret (Ok start_addr)
      end
  end.

Definition sys_mmap (badge addr length prot flags _fd _offset : Z) : M KT SysResult :=
  with_task badge (task_mmap addr length (as_i32 prot) (as_i32 flags)).

Definition unmap_page_if (vaddr : Z) : M TK unit :=
  m ← gets (fun s => t_mapped_page s.1);
  match m !! vaddr with
  | Some page => unmap_page vaddr page
  | None => mret tt
  end.

Definition task_unmap (addr length : Z) : M TK SysResult :=
  pages ← pages_of addr length;
  for_each unmap_page_if pages ;;
  mret (Ok 0).

Definition sys_unmap (badge addr length : Z) : M KT SysResult :=
  with_task badge (task_unmap addr length).

(** ** Output *)

Definition on_console {A} (m : M (list Z * kstate) A) : M KT A :=
  zoom (fun s => (kt_console s, kt_kernel s))
    (fun ck s => set_console ck.1 (set_kernel ck.2 s)) m.

Definition sys_write (fuel : nat) (badge fd buf count : Z) : M KT SysResult :=
  t ← get_task badge;
  on_console (task_write page_seat fuel t fd buf count).

(** ** Tasks *)

Definition sys_getpid (badge : Z) : M KT SysResult :=
  t ← get_task badge; mret (Ok (t_pid t)).
Definition sys_getppid (badge : Z) : M KT SysResult :=
  t ← get_task badge; mret (Ok (t_pid t)).
Definition sys_getuid (badge : Z) : M KT SysResult :=
  t ← get_task badge; mret (Ok (t_id t)).
Definition sys_geteuid (badge : Z) : M KT SysResult :=
  t ← get_task badge; mret (Ok (t_id t)).
Definition sys_gettid (badge : Z) : M KT SysResult := mret (Ok badge).
Definition sys_set_tid_address (badge tidptr : Z) : M KT SysResult :=
  with_task badge (t_modify (set_clear_child_tid (Some tidptr)) ;; mret (Ok badge)).

Definition task_exit (exit_code : Z) : M TK SysResult :=
  t_modify (set_exit (Some exit_code)) ;;
  tcb ← gets (fun s => t_tcb s.1);
  t_kernel (kcall_unwrap (tcb_suspend tcb)) ;;
  mret (Ok 0).

Definition sys_exit (badge exit_code : Z) : M KT SysResult := with_task badge (task_exit exit_code).
Definition sys_exit_group (badge exit_code : Z) : M KT SysResult :=
  with_task badge (task_exit exit_code).
Definition sys_sched_yield : M KT SysResult := mret (Ok 0).

(** The end of the ELF file's sections, rounded up to a page. *)
Definition ipc_buffer_addr_of (elf : ElfInfo) : Z :=
  let max := foldl (fun acc x => Z.max acc (wrap64 (x.1 + x.2))) 0 (elf_sections elf) in
  wrap64 (max + 4096 - 1) / 4096 * 4096.

Definition BUSYBOX_HELP : list (list Z) := exec_args.

Definition task_exec (fault_ep : CPtr) : M TK SysResult :=
  t_modify (fun t => set_mapped_pt [] (set_mapped_page ∅ t)) ;;
  segs ← unwrap shim_image;
  fp ← lift (footprint false segs);
  vspace ← gets (fun s => t_vspace s.1);
  mp ← gets (fun s => t_mapped_page s.1);
  mp' ← t_alloc (map_image false mp vspace fp segs SLOT_VSPACE page_seat);
  t_modify (set_mapped_page mp') ;;
  sp_ptr ← map_stack page_seat 0 (USPACE_STACK_TOP - USPACE_STACK_SIZE) USPACE_STACK_TOP
             BUSYBOX_HELP;
  file ← unwrap shim_elf;
  ipc_buffer_cap ← t_alloc (allocate_and_retyped_fixed_sized BpGranule);
  let ipc_buffer_addr := ipc_buffer_addr_of file in
  map_page ipc_buffer_addr ipc_buffer_cap ;;
  t ← gets fst;
  t_kernel (kcall_unwrap (tcb_configure (t_tcb t) fault_ep (t_cnode t)
    (cnode_cap_data 0 (SEL4_WORD_BITS - 12)) (t_vspace t) ipc_buffer_addr ipc_buffer_cap)) ;;
  t_kernel (kcall_unwrap (tcb_set_sched_params (t_tcb t) SLOT_TCB 0 255)) ;;
  t_kernel (kcall_unwrap (tcb_write_all_registers (t_tcb t) false
    (MkCtx (elf_entry file) sp_ptr {[1 := ipc_buffer_addr]} (default 0 (elf_tbss file))))) ;;
  t_modify (set_exit (Some 0)) ;;
  t_kernel (kcall_unwrap (tcb_resume (t_tcb t))) ;;
  mret (Ok 0).

Definition sys_exec (badge : Z) (fault_ep : CPtr) (_path _argv _envp : Z) : M KT SysResult :=
  with_task badge (task_exec fault_ep).

(** ** [sys_clone] *)

(** The contents of a page, through the two windows: the new page at
    [EXT_FREE_PAGE_PLACEHOLDER], a copy of the source's capability at the page
    seat. *)
Definition copy_page (new_page_cap page_cap : CPtr) : M kstate unit :=
  kcall_unwrap (frame_map new_page_cap SLOT_VSPACE ext_page_seat rights_all) ;;
  no_state (with_seat_copy page_seat page_cap (u_kernel (
    bs ← load_bytes page_seat (Z.to_nat GRANULE_SIZE);
    store_bytes ext_page_seat bs))) ;;
  kcall_unwrap (frame_unmap new_page_cap).

(** One page of the source, copied into a new page at the same address. *)
Definition clone_page (vaddr : Z) (page_cap : CPtr) : M TK unit :=
  new_page_cap ← t_alloc (allocate_and_retyped_fixed_sized BpGranule);
  t_kernel (copy_page new_page_cap page_cap) ;;
  map_page vaddr new_page_cap.

(** On the destination task, for the pages of the source. *)
Definition clone_vspace (src : Sel4Task) : M TK unit :=
  for_each (fun e => clone_page e.1 e.2) (btree_iter (t_mapped_page src)).

(** [.map_err(|_| Errno::ENOMEM)?] after the new task exists: the early return
    drops it. *)
Definition or_drop (op : kstate -> result unit Error * kstate) (k : M TK SysResult) :
    M TK SysResult :=
  r ← t_kernel (kcall op);
  match r with
  | Ok _ => k
  | Err _ => t ← gets fst; t_kernel (Sel4Task_drop t) ;; mret (Err ENOMEM)
  end.

Definition IPC_BUFFER_ADDR : Z := 0x40000.

(** The registers of the new thread. *)
Definition clone_regs (args : CloneArgs) (regs : UserContext) : UserContext :=
  let regs :=
    if ca_init_fn args =? 0
    then MkCtx (wrap64 (ctx_pc regs + 4)) (ctx_sp regs) (ctx_gpr regs) (ctx_tpidr_el0 regs)
    else MkCtx (ca_init_fn args) (ctx_sp regs) (<[0 := ca_init_argv args]> (ctx_gpr regs))
           (ctx_tpidr_el0 regs) in
  if negb (ca_stack args =? 0)
  then MkCtx (ctx_pc regs) (ca_stack args) (ctx_gpr regs) (ctx_tpidr_el0 regs) else regs.

(** The part of [sys_clone] that works on the new task; [task] is the parent. *)
Definition clone_setup (task : Sel4Task) (fault_ep badge clone_flags : Z) (args : CloneArgs) :
    M TK SysResult :=
  cnode ← gets (fun s => t_cnode s.1);
  t_kernel (kcall_unwrap (cnode_copy (relative_bits_with_depth cnode 1 CNODE_RADIX_BITS)
    (relative SLOT_CNODE (t_tcb task)) rights_all)) ;;
  or_drop (cnode_mint (relative_bits_with_depth cnode DEFAULT_THREAD_FAULT_EP CNODE_RADIX_BITS)
             (relative SLOT_CNODE fault_ep) rights_all badge) (
  (if negb (bf_contains clone_flags CLONE_VM) then clone_vspace task
   else
     slot ← t_alloc allocate_slot;
     t_kernel (kcall_unwrap (cnode_copy (relative SLOT_CNODE slot.2)
       (relative SLOT_CNODE (t_vspace task)) rights_all)) ;;
     t_modify (set_vspace slot.2)) ;;
  ipc_buffer_cap ← t_alloc (allocate_and_retyped_fixed_sized BpGranule);
  map_page IPC_BUFFER_ADDR ipc_buffer_cap ;;
  t ← gets fst;
  or_drop (tcb_configure (t_tcb t) fault_ep (t_cnode t)
             (cnode_cap_data 0 (SEL4_WORD_BITS - CNODE_RADIX_BITS)) (t_vspace t)
             IPC_BUFFER_ADDR ipc_buffer_cap) (
  or_drop (tcb_set_sched_params (t_tcb t) SLOT_TCB 0 255) (
  regs ← t_kernel (kcall_unwrap (tcb_read_all_registers (t_tcb task) false));
  t_kernel (kcall_unwrap (tcb_write_all_registers (t_tcb t) false (clone_regs args regs))) ;;
  t_kernel (kcall_unwrap (tcb_resume (t_tcb t))) ;;
  mret (Ok badge)))).

(** [Sel4Task::new] with the thread's id counter. *)
Definition new_task : M KT Sel4Task :=
  id ← gets kt_next_id;
  r ← on_alloc (Sel4Task_new id);
  modify (set_next_id r.2) ;;
  mret r.1.

(** [BTreeMap::insert]: a task that was there before is dropped. *)
Definition insert_task (id : Z) (t : Sel4Task) : M KT unit :=
  old ← gets (fun s => kt_tasks s !! id);
  modify (fun s => set_tasks (<[id := t]> (kt_tasks s)) s) ;;
  match old with
  | Some t' => on_kernel (Sel4Task_drop t')
  | None => mret tt
  end.

Definition sys_clone (badge : Z) (fault_ep : CPtr) (clone_args _size : Z) : M KT SysResult :=
  task ← get_task badge;
  if clone_args =? 0 then mret (Err EINVAL)
  else
    bs <-? on_kernel (read_item page_seat ke_clone_size task clone_args) ;
    let args := ke_parse_clone_args bs in
    match bf_from_bits CloneFlags_all (ca_flags args) with
    | None => mret (Err EINVAL)
    | Some clone_flags =>
        t ← new_task;
        let new_badge := t_id t in
        r ← on_local t (clone_setup task fault_ep new_badge clone_flags args);
        match r.1 with
        | Ok id => insert_task new_badge r.2 ;; mret (Ok id)
        | Err e => mret (Err e)
        end
    end.

(** ** The dispatcher *)

Definition handle_ipc_call (fuel : nat) (badge sys_id : Z) (args : list Z) (fault_ep : CPtr) :
    M KT SysResult :=
  match Sysno_new sys_id with
  | None => mret (Err EINVAL)
  | Some sys_no =>
      a0 ← lift (index args 0); a1 ← lift (index args 1); a2 ← lift (index args 2);
      a3 ← lift (index args 3); a4 ← lift (index args 4); a5 ← lift (index args 5);
      match sys_no with
      | sys_no_write => sys_write fuel badge (as_i32 a0) a1 a2
      | sys_no_brk => sys_brk badge a0
      | sys_no_mmap => sys_mmap badge a0 a1 a2 a3 a4 a5
      | sys_no_munmap => sys_unmap badge a0 a1
      | sys_no_exit => sys_exit badge (as_i32 a0)
      | sys_no_exit_group => sys_exit_group badge (as_i32 a0)
      | sys_no_getpid => sys_getpid badge
      | sys_no_execve => sys_exec badge fault_ep a0 a1 a2
      | sys_no_clone => sys_clone badge fault_ep a0 a1
      | sys_no_gettid => sys_gettid badge
      | sys_no_sched_yield => sys_sched_yield
      | sys_no_getppid => sys_getppid badge
      | sys_no_set_tid_address => sys_set_tid_address badge a0
      | sys_no_getuid => sys_getuid badge
      | sys_no_geteuid => sys_geteuid badge
      | sys_no_socket => sys_socket ke_call badge a0 a1 a2
      | sys_no_accept => sys_accept page_seat ke_call ke_libc_mem badge a0 a1 a2
      | sys_no_bind => sys_bind page_seat ke_call ke_sockaddr_size ke_sockaddr_mem
                         ke_stack_ptr badge a0 a1 a2
      | sys_no_connect => sys_connect page_seat ke_call ke_sockaddr_size ke_sockaddr_mem
                            badge a0 a1 a2
      | sys_no_listen => sys_listen ke_call badge a0
      | sys_no_sendto => sys_sendto page_seat ke_call ke_heap_ptr ke_heap_mem
                           badge a0 a1 a2 a3 a4 a5
      | sys_no_recvfrom => sys_recvfrom page_seat ke_call ke_heap_ptr ke_heap_mem
                             badge a0 a1 a2 a3 a4 a5
      | sys_no_shutdown => sys_shutdown ke_call badge a0 a1
      | sys_other _ => mret (Err ENOSYS)
      end
  end.

(** [.map_err(|e| -e.into_raw() as isize).unwrap_or_else(|e| e as usize)] *)
Definition encode_result (r : SysResult) : Z :=
  match r with
  | Ok v => v
  | Err e => wrap64 (- Errno_into_raw e)
  end.

(** [reply_with]: the registers and the length of the reply. *)
Fixpoint write_regs (i : Z) (regs : list Z) : M IpcBuffer unit :=
  match regs with
  | [] => mret tt
  | r :: regs => write_reg i r ;; write_regs (i + 1) regs
  end.

Definition reply_with (regs : list Z) : M KT MessageInfo :=
  on_ipc (write_regs 0 regs) ;;
  mret (mi_new 0 0 0 (8 * Z.of_nat (length regs))).

(** ** [test_child] *)

(** ["busybox"], ["echo"], ["Kernel Thread's Child Says Hello!"] *)
Definition CHILD_ARGS : list (list Z) :=
  [[98; 117; 115; 121; 98; 111; 120];
   [101; 99; 104; 111];
   [75; 101; 114; 110; 101; 108; 32; 84; 104; 114; 101; 97; 100; 39; 115; 32;
    67; 104; 105; 108; 100; 32; 83; 97; 121; 115; 32; 72; 101; 108; 108; 111; 33]].

(** [op?] for a kernel error: the early return drops the task. *)
Definition or_drop_err (op : kstate -> result unit Error * kstate)
    (k : M TK (result unit Error)) : M TK (result unit Error) :=
  r ← t_kernel (kcall op);
  match r with
  | Ok _ => k
  | Err e => t ← gets fst; t_kernel (Sel4Task_drop t) ;; mret (Err e)
  end.

(** The first task, up to its resumption. *)
Definition child_setup (ep : CPtr) : M TK (result unit Error) :=
  t ← gets fst;
  t_kernel (kcall_unwrap (cnode_copy (relative_bits_with_depth (t_cnode t) 1 CNODE_RADIX_BITS)
    (relative SLOT_CNODE (t_tcb t)) rights_all)) ;;
  or_drop_err (cnode_mint
      (relative_bits_with_depth (t_cnode t) DEFAULT_THREAD_FAULT_EP CNODE_RADIX_BITS)
      (relative SLOT_CNODE ep) rights_all (t_id t)) (
  load_elf page_seat test_mem test_phs ;;
  file ← unwrap test_elf;
  sp_ptr ← map_stack page_seat 0 (USPACE_STACK_TOP - 16 * PAGE_SIZE) USPACE_STACK_TOP CHILD_ARGS;
  ipc_buffer_cap ← t_alloc (allocate_and_retyped_fixed_sized BpGranule);
  let ipc_buffer_addr := ipc_buffer_addr_of file in
  map_page ipc_buffer_addr ipc_buffer_cap ;;
  or_drop_err (tcb_configure (t_tcb t) ep (t_cnode t)
      (cnode_cap_data 0 (SEL4_WORD_BITS - CNODE_RADIX_BITS)) (t_vspace t)
      ipc_buffer_addr ipc_buffer_cap) (
  or_drop_err (tcb_set_sched_params (t_tcb t) SLOT_TCB 0 255) (
  t_kernel (kcall_unwrap (tcb_write_all_registers (t_tcb t) false
    (MkCtx (elf_entry file) sp_ptr {[0 := ep]} (default 0 (elf_tbss file))))) ;;
  t_kernel (kcall_unwrap (tcb_resume (t_tcb t))) ;;
  mret (Ok tt)))).

Definition start_child (ep : CPtr) : M KT (result unit Error) :=
  t ← new_task;
  r ← on_local t (child_setup ep);
  match r.1 with
  | Ok _ => insert_task (t_id t) r.2 ;; mret (Ok tt)
  | Err e => mret (Err e)
  end.

(** *** The service loop *)

(** The faults [Fault::new] distinguishes here. *)
Inductive Fault := VmFault (addr : Z) | OtherFault.

(** A message as the loop receives it: its tag, its registers, the fault it
    carries if it is one, and the badge of the sender. *)
Record Incoming := MkIncoming {
  in_message : MessageInfo;
  in_regs : list Z;
  in_fault : Fault;
  in_badge : Z;
}.

(** A reply with the registers written for it, or none. *)
Inductive served := Replied (mi : MessageInfo) (regs : list Z) | NoReply | ExitLoop.

Definition handle_fault (badge : Z) (f : Fault) : M KT unit :=
  match f with
  | VmFault addr =>
      let vaddr := align_bits addr PAGE_SIZE_BITS in
      page_cap ← on_alloc (allocate_and_retyped_fixed_sized BpGranule);
      with_task badge (
        map_page vaddr page_cap ;;
        tcb ← gets (fun s => t_tcb s.1);
        t_kernel (kcall_unwrap (tcb_resume tcb)))
  | OtherFault => mret tt
  end.

(** [msgs[1..7]] *)
Definition syscall_args : M KT (list Z) :=
  a1 ← msg_reg 1; a2 ← msg_reg 2; a3 ← msg_reg 3; a4 ← msg_reg 4; a5 ← msg_reg 5; a6 ← msg_reg 6;
  mret [a1; a2; a3; a4; a5; a6].

Definition serve (fuel : nat) (ep : CPtr) (m : Incoming) : M KT served :=
  modify (fun s => set_ipc (set_msg_regs (in_regs m) (kt_ipc s)) s) ;;
  if mi_label (in_message m) <? 8 then
    handle_fault (in_badge m) (in_fault m) ;; mret NoReply
  else
    match CustomMessageLabel_try_from (in_message m) with
    | Some CML_TestCustomMessage => mi ← reply_with []; mret (Replied mi [])
    | Some CML_SysCall =>
        sys_id ← msg_reg 0;
        args ← syscall_args;
        res ← handle_ipc_call fuel (in_badge m) sys_id args ep;
        mi ← reply_with [encode_result res];
        mret (Replied mi [encode_result res])
    | Some CML_Exit => mret ExitLoop
    | None => mret NoReply
    end.

Fixpoint service_loop (fuel : nat) (ep : CPtr) (msgs : list Incoming) : M KT (list served) :=
  match msgs with
  | [] => mret []
  | m :: msgs =>
      r ← serve fuel ep m;
      match r with
      | ExitLoop => mret [r]
      | _ => rs ← service_loop fuel ep msgs; mret (r :: rs)
      end
  end.

(** [test_child] against the messages it receives. *)
Definition test_child (fuel : nat) (ep : CPtr) (msgs : list Incoming) :
    M KT (result (list served) Error) :=
  r ← start_child ep;
  match r with
  | Ok _ => rs ← service_loop fuel ep msgs; mret (Ok rs)
  | Err e => mret (Err e)
  end.
End syscalls.
