(* ===== verification/KInv.v ===== *)
(** * The kernel thread's memory invariant

    Every task's record of its address space is exact, tasks do not share
    address spaces, and the page seat is free.  The memory system calls and the
    page-fault handler keep it, terminate, and do what they are asked to. *)

From S2P Require Import Prelude Words Consts Sel4 Sel4Laws RefKernel Externs Reference Messages Uspace ObjAllocator KTask FrameMem UserMem Exec ImageMap KThread NetClient Syscalls.

(** ** Steps of one task *)

Section task_step.
Context `{L : Sel4Laws}.

(** The capabilities a step of the task with address space [vs] may touch: free
    slots of the allocator and frames mapped in [vs]. *)
Definition step_caps (vs : VS) (a : ObjectAllocator) (k : kstate) : CPtr -> Prop :=
  fun c => alloc_range a c \/
    (is_Some (cap_frame k c) /\ exists va, cap_mapping k c = Some (vs, va)).

Definition task_step (vs : VS) (a a' : ObjectAllocator) (k k' : kstate) : Prop :=
  (exists j, a' = bump_by j a) /\
  (forall c, ~ alloc_range a c -> cap_frame k' c = cap_frame k c) /\
  kdiff (step_caps vs a k) (fun v _ => v = vs) (fresh_bytes a k) k k'.

#[local] Instance step_caps_dec vs a k c : Decision (step_caps vs a k c).
Proof.
  apply or_dec; [unfold alloc_range; apply _|]. apply and_dec; [apply _|].
  destruct (cap_mapping k c) as [[v va]|] eqn:E.
  - destruct (decide (v = vs)) as [->|Hne]; [left; eauto|right].
    intros [va' [= ? ?]]. done.
  - right. by intros [va' ?].
Defined.

Lemma task_step_refl vs a k : task_step vs a a k k.
Proof. split; [exists 0%nat; by rewrite bump_by_0|]. split; [done|apply kdiff_refl]. Qed.

Lemma grows_task_step vs P a a' k k' : grows vs P a a' k k' -> task_step vs a a' k k'.
Proof.
  intros [HB D]. split; [done|]. split; [apply (kd_frame _ _ _ _ _ D)|].
  eapply kdiff_weaken, D; [by left|naive_solver|done].
Qed.

Lemma task_step_trans vs a1 a2 a3 k1 k2 k3 :
  task_step vs a1 a2 k1 k2 -> task_step vs a2 a3 k2 k3 -> task_step vs a1 a3 k1 k3.
Proof.
  intros ([i ->] & F1 & D1) ([j ->] & F2 & D2). split; [eexists; apply bump_by_bump_by|].
  split.
  { intros c Hc. rewrite F2, F1; [done|done|]. by intros ?%alloc_range_bump. }
  eapply kdiff_trans; [exact D1|]. eapply kdiff_weaken, D2.
  - intros c Hc. destruct (decide (step_caps vs a1 k1 c)) as [|Hn]; [done|].
    destruct Hc as [Hc|[Hf [va Hm]]]; [left; by eapply alloc_range_bump|].
    rewrite (kd_frame _ _ _ _ _ D1) in Hf by done.
    rewrite (kd_mapping _ _ _ _ _ D1) in Hm by done. right. eauto.
  - done.
  - intros f o HF c Hc. rewrite <- F1 by done. apply HF. by intros ?%alloc_range_bump.
Qed.

(** Another task is not affected. *)
Lemma task_ok_step_other vs vs' t a a' k k' :
  vs' <> vs -> task_step vs a a' k k' -> task_ok vs' t a k -> task_ok vs' t a' k'.
Proof.
  intros Hne ([j ->] & F & D) [H1 H2 H3 H4]. split.
  - rewrite (kd_vs _ _ _ _ _ D); [done|]. intros [?|[[f Hf] _]]; [done|].
    apply frame_not_vs in Hf. congruence.
  - by intros ?%alloc_range_bump.
  - intros va c Hc. destruct (H3 va c Hc) as (Ha & Hb & Hr & Hm & f & Hf & Ht).
    rewrite F by done. rewrite (kd_trans _ _ _ _ _ D) by done.
    rewrite (kd_mapping _ _ _ _ _ D); [|intros [?|[_ [va' ?]]]; [done|congruence]].
    refine (conj Ha (conj Hb (conj _ (conj Hm _)))); [by intros ?%alloc_range_bump|eauto].
  - intros va Hva. rewrite (kd_trans _ _ _ _ _ D) by done. auto.
Qed.

Lemma task_step_user_other vs vs' t a a' k k' x :
  vs' <> vs -> task_step vs a a' k k' -> task_ok vs' t a k ->
  user_byte k' vs' x = user_byte k vs' x.
Proof.
  intros Hne (_ & F & D) Hok. unfold user_byte. rewrite (kd_trans _ _ _ _ _ D) by done.
  destruct (t_mapped_page t !! down 4096 x) as [c|] eqn:E.
  - destruct (to_page _ _ _ _ Hok _ _ E) as (_ & _ & Hr & _ & f & Hf & ->). simpl.
    rewrite (kd_bytes _ _ _ _ _ D); [done|]. intros HF. by apply (HF c).
  - by rewrite (to_unmapped _ _ _ _ Hok _ E).
Qed.

Lemma seat_ok_step seat vs a a' k k' :
  vs <> own_vs -> task_step vs a a' k k' -> seat_ok seat a k -> seat_ok seat a' k'.
Proof.
  intros Hne ([j ->] & F & D) [S1 S2 S3 S4].
  assert (~ step_caps vs a k 0) as H0.
  { intros [?|[[f Hf] _]]; [done|]. apply frame_not_empty in Hf. congruence. }
  split.
  - eapply seat_free_kdiff; [exact S1|exact D| |].
    + intros [?|[[f Hf] _]]; [done|]. apply frame_not_vs in Hf.
      pose proof (so_vs _ _ S1). congruence.
    + rewrite (kd_trans _ _ _ _ _ D) by done. apply S1.
  - by intros ?%alloc_range_bump.
  - by rewrite (kd_empty _ _ _ _ _ D).
  - by intros ?%alloc_range_bump.
Qed.
End task_step.

(** ** The invariant *)

Section inv.
Context `{L : Sel4Laws} (seat : Z).

(** [asp] names the address space of each task. *)
Record kt_ok (asp : Z -> VS) (s : KT) : Prop := {
  ko_task b t : kt_tasks s !! b = Some t ->
    task_ok (asp b) t (kt_ak s).1 (kt_ak s).2 /\ asp b <> own_vs;
  ko_distinct b b' : is_Some (kt_tasks s !! b) -> is_Some (kt_tasks s !! b') ->
    b <> b' -> asp b <> asp b';
  ko_seat : seat_ok seat (kt_ak s).1 (kt_ak s).2;
}.

(** A step of one task keeps the invariant. *)
Lemma kt_ok_step asp s b t t' ak' :
  kt_ok asp s -> kt_tasks s !! b = Some t ->
  task_step (asp b) (kt_ak s).1 ak'.1 (kt_ak s).2 ak'.2 ->
  task_ok (asp b) t' ak'.1 ak'.2 ->
  kt_ok asp (set_ak ak' (set_tasks (<[b := t']> (kt_tasks s)) s)).
Proof.
  intros [K1 K2 K3] Ht HS Hok. split; simpl.
  - intros b' t2. destruct (decide (b' = b)) as [->|Hne].
    + rewrite lookup_insert_eq. intros [= <-]. split; [done|]. by apply (K1 b t).
    + rewrite lookup_insert_ne by done. intros Ht2. destruct (K1 b' t2 Ht2) as [Hok2 Hv].
      split; [|done]. eapply task_ok_step_other; [|exact HS|done].
      apply K2; [eauto|eauto|done].
  - intros b1 b2 H1 H2. apply K2.
    + apply lookup_insert_is_Some' in H1 as [->|]; eauto.
    + apply lookup_insert_is_Some' in H2 as [->|]; eauto.
  - eapply seat_ok_step; [by apply (K1 b t)|exact HS|done].
Qed.

(** What a step of task [b] means for the others: the invariant is kept, the
    tasks are the same, and no byte of another task changes. *)
Record mem_step (asp : Z -> VS) (b : Z) (s s' : KT) : Prop := {
  ms_ok : kt_ok asp s';
  ms_tasks b' : is_Some (kt_tasks s' !! b') <-> is_Some (kt_tasks s !! b');
  ms_other b' x : is_Some (kt_tasks s !! b') -> b' <> b ->
    user_byte (kt_kernel s') (asp b') x = user_byte (kt_kernel s) (asp b') x;
  ms_tcb b' t t' : kt_tasks s !! b' = Some t -> kt_tasks s' !! b' = Some t' -> t_tcb t' = t_tcb t;
  ms_ipc : kt_ipc s' = kt_ipc s;
}.

Lemma mem_step_task asp s b t t' ak' :
  kt_ok asp s -> kt_tasks s !! b = Some t ->
  task_step (asp b) (kt_ak s).1 ak'.1 (kt_ak s).2 ak'.2 -> task_ok (asp b) t' ak'.1 ak'.2 ->
  t_tcb t' = t_tcb t ->
  mem_step asp b s (set_ak ak' (set_tasks (<[b := t']> (kt_tasks s)) s)).
Proof.
  intros HK Ht HS Hok Htcb. split; [by eapply kt_ok_step|..|done]; simpl.
  - intros b'. rewrite lookup_insert_is_Some'. naive_solver.
  - intros b' x [t2 Ht2] Hne. destruct (ko_task _ _ HK b' t2 Ht2) as [Hok2 _].
    eapply task_step_user_other; [|exact HS|exact Hok2].
    apply (ko_distinct _ _ HK); eauto.
  - intros b' t1 t2 H1. destruct (decide (b' = b)) as [->|Hne].
    + rewrite lookup_insert_eq. intros [= <-]. congruence.
    + rewrite lookup_insert_ne by done. congruence.
Qed.

(** The same as a rule for [with_task]. *)
Lemma wp_with_task_ok {A} asp s b t (m : M TK A) (Q : A -> Sel4Task -> AK -> Prop) :
  kt_ok asp s -> kt_tasks s !! b = Some t ->
  wp m (fun x s' => task_step (asp b) (kt_ak s).1 s'.2.1 (kt_ak s).2 s'.2.2 /\
          task_ok (asp b) s'.1 s'.2.1 s'.2.2 /\ t_tcb s'.1 = t_tcb t /\ Q x s'.1 s'.2) (t, kt_ak s) ->
  wp (with_task b m)
     (fun x s' => mem_step asp b s s' /\ exists t', kt_tasks s' = <[b := t']> (kt_tasks s) /\
        kt_console s' = kt_console s /\ Q x t' (kt_ak s')) s.
Proof.
  intros HK Ht Hm. apply (wp_with_task _ _ t); [done|].
  eapply wp_mono; [exact Hm|]. intros x [t' ak'] (HS & Hok & Htcb & HQ). simpl in *.
  split; [by eapply mem_step_task|]. by exists t'.
Qed.

(** A use of the page seat on behalf of task [b]. *)
Lemma mem_step_window asp s b t k' con :
  kt_ok asp s -> kt_tasks s !! b = Some t -> window nowhere (kt_kernel s) k' ->
  mem_step asp b s (set_console con (set_kernel k' s)).
Proof.
  intros HK Ht HW. pose proof (window_same_user _ _ HW) as [HT HB].
  assert (forall b t, kt_tasks s !! b = Some t -> umem_ok seat (asp b) t (kt_ak s).1 k') as Hum.
  { intros b' t' Ht'. destruct (ko_task _ _ HK b' t' Ht') as [Hok Hv].
    eapply umem_window; [|exact HW]. split; [done|apply (ko_seat _ _ HK)|done]. }
  split; [split|..]; simpl; try done.
  - intros b' t' Ht'. destruct (Hum b' t' Ht'). done.
  - apply (ko_distinct _ _ HK).
  - by destruct (Hum b t Ht).
  - intros b' x _ _. unfold user_byte. rewrite HT.
    destruct (translate (kt_kernel s) _ _); simpl; by rewrite ?HB.
  - congruence.
Qed.
End inv.

(** ** Mapping ranges *)

Lemma pages_added_tcb `{Sel4View} vs l t a k s' :
  pages_added vs l t a k s' -> t_tcb s'.1 = t_tcb t.
Proof. intros (m & pts & E)%pa_task. by rewrite E. Qed.

Section mmap.
Context `{L : Sel4Laws} `{ML : MemoryAddrLaws}.

Lemma pages_added_skip vs t a k va c :
  task_ok vs t a k -> t_mapped_page t !! va = Some c -> pages_added vs [va] t a k (t, (a, k)).
Proof.
  intros Hok Hc. split; simpl; try done.
  - exists (t_mapped_page t), (t_mapped_pt t). by destruct t.
  - apply grows_refl.
  - intros va' Hn ->%list_elem_of_singleton. congruence.
Qed.

Lemma wp_mmap_page vs m t a k va :
  task_ok vs t a k -> page_aligned va -> 0 <= va < 2 ^ 48 ->
  alloc_ok (Z.to_nat NUM_LEVELS + m) (a, k) ->
  wp (mmap_page va) (fun _ s' => pages_added vs [va] t a k s' /\ alloc_ok m s'.2) (t, (a, k)).
Proof.
  intros Hok Hal Hva HA. unfold mmap_page. wp_step. wp_step. simpl.
  destruct (t_mapped_page t !! va) as [c|] eqn:E.
  - wp_step. split; [by eapply pages_added_skip|]. eapply alloc_ok_le, HA. lia.
  - by apply wp_alloc_and_map.
Qed.

Lemma wp_mmap_pages vs l : forall m t a k,
  task_ok vs t a k -> (forall x, x ∈ l -> page_aligned x /\ 0 <= x < 2 ^ 48) ->
  alloc_ok (length l * Z.to_nat NUM_LEVELS + m) (a, k) ->
  wp (for_each mmap_page l) (fun _ s' => pages_added vs l t a k s' /\ alloc_ok m s'.2) (t, (a, k)).
Proof.
  induction l as [|x l IH]; intros m t a k Hok Hl HA; cbn [for_each length] in *.
  - wp_step. split; [by apply pages_added_nil|done].
  - destruct (Hl x) as [Hal Hx]; [left|]. wp_step. eapply wp_mono.
    + apply (wp_mmap_page vs (length l * Z.to_nat NUM_LEVELS + m)); try done.
      eapply alloc_ok_le, HA. lia.
    + intros [] [t1 [a1 k1]] [P1 A1]. eapply wp_mono; [apply (IH m t1 a1 k1)|].
      * apply (pa_ok _ _ _ _ _ _ P1).
      * intros y Hy. apply Hl. by right.
      * done.
      * intros [] s2 [P2 A2]. split; [|done].
        by apply (pages_added_app vs [x] l t a k (t1, (a1, k1)) s2 P1).
Qed.

(** The pages of a range. *)
Lemma wp_pages_of start len (Q : list Z -> TK -> Prop) s :
  0 <= start -> 0 <= len -> up 4096 (start + len) <= 2 ^ 48 ->
  Q (step_range 4096 (down 4096 start) (up 4096 (start + len))) s ->
  wp (pages_of start len) Q s.
Proof.
  intros Hs Hl Hu HQ. unfold pages_of.
  pose proof (up_bounds 4096 (start + len) ltac:(lia)).
  pose proof (down_bounds 4096 start ltac:(lia)).
  wp_step. eapply wp_lift; [apply va_add_ok; lia|].
  rewrite align_down_4k_ok, align_up_4k_ok by (unfold PAGE_SIZE_4K; lia).
  rewrite page_iter_4k_ok; [|apply down_mod; unfold PAGE_SIZE_4K; lia
    |apply up_mod; unfold PAGE_SIZE_4K; lia].
  apply wp_unwrap, HQ.
Qed.

Lemma length_pages_of start len :
  0 <= start -> 0 <= len ->
  (length (step_range 4096 (down 4096 start) (up 4096 (start + len))) <= Z.to_nat (len / 4096 + 2))%nat.
Proof.
  intros Hs Hl. unfold step_range. rewrite length_fmap, length_seqZ.
  pose proof (up_bounds 4096 (start + len) ltac:(lia)).
  pose proof (down_bounds 4096 start ltac:(lia)).
  pose proof (down_mod 4096 start ltac:(lia)). pose proof (up_mod 4096 (start + len) ltac:(lia)).
  rewrite Z.max_r by lia. rewrite up_aligned by dlia. apply Z2Nat.inj_le; dlia.
Qed.

End mmap.

(** ** System calls *)

Section syscall_specs.
Context `{L : Sel4Laws} `{ML : MemoryAddrLaws} `{BF : Bitflags} (seat : Z).

(** Pages that had no frame now have a zeroed one, all others are unchanged. *)
Definition zero_fill (vs : VS) (lo hi : Z) (k k' : kstate) : Prop :=
  forall x, user_byte k' vs x =
    match user_byte k vs x with
    | Some b => Some b
    | None => if decide (lo <= x < hi) then Some 0 else None
    end.

Lemma in_pages_of x start e :
  start mod 4096 = 0 -> e mod 4096 = 0 ->
  down 4096 x ∈ step_range 4096 start e <-> start <= x < e.
Proof.
  intros Hs He. rewrite elem_of_step_range by lia.
  pose proof (down_bounds 4096 x ltac:(lia)). pose proof (down_mod 4096 x ltac:(lia)) as Hd.
  split.
  - intros [[Hx1 Hx2] _]. pose proof (aligned_gap 4096 (down 4096 x) e). lia.
  - intros [Hx1 Hx2]. pose proof (down_ge_aligned 4096 x start).
    split; [lia|]. rewrite Zminus_mod, Hd, Hs. done.
Qed.

(** Allocations that are enough for mapping [len] bytes. *)
Definition mmap_cost (len : Z) : nat := Z.to_nat (len / 4096 + 2) * Z.to_nat NUM_LEVELS.

(** The choice of the start address. *)
Definition mmap_start (t : Sel4Task) (map_flags addr length : Z) : option Z :=
  if bf_contains map_flags MAP_FIXED then Some addr else find_free_area t addr length.

Lemma mmap_pages_aligned r len x :
  0 <= r -> up 4096 (r + len) <= 2 ^ 48 -> x ∈ step_range 4096 (down 4096 r) (up 4096 (r + len)) ->
  page_aligned x /\ 0 <= x < 2 ^ 48.
Proof.
  intros Hr Hend [Hx Hm]%elem_of_step_range; [|lia].
  pose proof (down_mod 4096 r ltac:(lia)) as Hdm. pose proof (down_ge_aligned 4096 r 0 ltac:(lia) eq_refl Hr).
  split; [unfold page_aligned; dlia|lia].
Qed.

Lemma wp_task_mmap_pages vs m t a k addr len prot flags mf mp r :
  task_ok vs t a k -> bf_from_bits MmapFlags_all flags = Some mf ->
  bf_from_bits MmapProt_all prot = Some mp -> mmap_start t mf addr len = Some r ->
  0 <= r -> 0 <= len -> up 4096 (r + len) <= 2 ^ 48 ->
  alloc_ok (mmap_cost len + m) (a, k) ->
  wp (task_mmap addr len prot flags)
     (fun x s' => x = Ok r /\ pages_added vs (step_range 4096 (down 4096 r) (up 4096 (r + len))) t a k s' /\
        alloc_ok m s'.2) (t, (a, k)).
Proof.
  intros Hok Hfl Hpr Hst Hr Hlen Hend HA. unfold task_mmap. rewrite Hfl, Hpr. wp_step.
  assert (forall Q : Z -> TK -> Prop, Q r (t, (a, k)) ->
    wp (if bf_contains mf MAP_FIXED then mret addr
        else t ← gets fst; unwrap (find_free_area t addr len)) Q (t, (a, k))) as Hstart.
  { intros Q HQ. unfold mmap_start in Hst. destruct (bf_contains mf MAP_FIXED).
    - injection Hst as ->. by wp_step.
    - wp_step. wp_step. simpl. rewrite Hst. by apply wp_unwrap. }
  apply Hstart. wp_step. apply wp_pages_of; [done..|].
  wp_step. eapply wp_mono.
  - apply (wp_mmap_pages vs _ m t a k Hok); [intros x; by apply mmap_pages_aligned|].
    eapply alloc_ok_le, HA. apply Nat.add_le_mono_r, Nat.mul_le_mono_r. by apply length_pages_of.
  - intros [] s' [P HA']. by wp_step.
Qed.

Lemma wp_task_mmap vs m t a k addr len prot flags mf mp r :
  task_ok vs t a k -> bf_from_bits MmapFlags_all flags = Some mf ->
  bf_from_bits MmapProt_all prot = Some mp -> mmap_start t mf addr len = Some r ->
  0 <= r -> 0 <= len -> up 4096 (r + len) <= 2 ^ 48 ->
  alloc_ok (mmap_cost len + m) (a, k) ->
  wp (task_mmap addr len prot flags)
     (fun x s' => task_step vs a s'.2.1 k s'.2.2 /\ task_ok vs s'.1 s'.2.1 s'.2.2 /\
        t_tcb s'.1 = t_tcb t /\ x = Ok r /\ zero_fill vs (down 4096 r) (up 4096 (r + len)) k s'.2.2 /\ alloc_ok m s'.2)
     (t, (a, k)).
Proof.
  intros Hok Hfl Hpr Hst Hr Hlen Hend HA. eapply wp_mono; [by eapply wp_task_mmap_pages|].
  intros x s' (-> & P & HA').
  split; [by eapply grows_task_step, pa_grows|]. split; [apply (pa_ok _ _ _ _ _ _ P)|].
  split; [by eapply pages_added_tcb|]. split; [done|]. split; [|done]. intros y.
  rewrite (pages_added_user vs _ t a k s' y Hok P) by (intros z; by apply mmap_pages_aligned).
  destruct (user_byte k vs y); [done|]. apply decide_ext. apply in_pages_of; [apply down_mod|apply up_mod]; lia.
Qed.

Lemma wp_sys_mmap asp m s badge t addr len prot flags fd off mf mp r :
  kt_ok seat asp s -> kt_tasks s !! badge = Some t ->
  bf_from_bits MmapFlags_all (as_i32 flags) = Some mf ->
  bf_from_bits MmapProt_all (as_i32 prot) = Some mp -> mmap_start t mf addr len = Some r ->
  0 <= r -> 0 <= len -> up 4096 (r + len) <= 2 ^ 48 -> alloc_ok (mmap_cost len + m) (kt_ak s) ->
  wp (sys_mmap badge addr len prot flags fd off)
     (fun res s' => res = Ok r /\ mem_step seat asp badge s s' /\ kt_console s' = kt_console s /\
        zero_fill (asp badge) (down 4096 r) (up 4096 (r + len)) (kt_kernel s) (kt_kernel s') /\
        alloc_ok m (kt_ak s')) s.
Proof.
  intros Hinv Htask Hflags Hprot Hstart Hr Hlen Hend HA. unfold sys_mmap.
  destruct (ko_task _ _ _ Hinv badge t Htask) as [Hok _].
  destruct s as [tasks [a k] id ipc con sent]. simpl in *.
  eapply wp_mono; [apply (wp_with_task_ok seat asp _ badge t _ (fun x t' ak' => x = Ok r /\
    zero_fill (asp badge) (down 4096 r) (up 4096 (r + len)) k ak'.2 /\ alloc_ok m ak')); [done|done|]|].
  - simpl. by eapply wp_task_mmap.
  - intros x s' (HK & t' & _ & Hcon & -> & HZ & HA'). done.
Qed.
End syscall_specs.

(** The area [find_free_area] finds is not mapped. *)
Lemma free_area_unmapped `{L : Sel4Laws} vs t a k addr len :
  task_ok vs t a k -> 0 <= addr -> 0 <= len <= 2 ^ 40 -> addr + len <= 2 ^ 40 ->
  (forall va c, t_mapped_page t !! va = Some c -> va < 2 ^ 40) ->
  exists r, find_free_area t addr len = Some r /\ USPACE_BASE <= r <= 2 ^ 40 + 4096 /\
    forall x, r <= x < r + len -> user_byte k vs x = None.
Proof.
  intros Hok Haddr Hlen Hend Hpages.
  destruct (find_free_area_spec t addr len) as (r & Hr & Hbase & Hfree & Hwhere); try lia.
  { unfold USPACE_BASE. lia. }
  { intros va c Hc. destruct (to_page _ _ _ _ Hok va c Hc) as (_ & ? & _).
    specialize (Hpages va c Hc). rewrite PAGE_SIZE_eq. lia. }
  exists r. split; [done|]. split; [split; [done|]|].
  { destruct Hwhere as [->|(va & c & Hc & ->)]; [unfold USPACE_BASE; lia|].
    specialize (Hpages va c Hc). rewrite PAGE_SIZE_eq. lia. }
  intros x Hx. unfold user_byte. rewrite (to_unmapped _ _ _ _ Hok); [done|].
  destruct (t_mapped_page t !! down 4096 x) as [c|] eqn:E; [|done].
  destruct (to_page _ _ _ _ Hok _ c E) as (Hal & _).
  pose proof (down_bounds 4096 x ltac:(lia)). rewrite PAGE_SIZE_eq in Hfree.
  destruct (Hfree _ _ E); lia.
Qed.

(** C13: [sys_mmap] with flags it knows never fails as long as slots and memory
    last: it returns the requested address for [MAP_FIXED] and the free area
    otherwise, every byte of the pages of that range is mapped afterwards --
    zero where no page was mapped, unchanged where one was -- no other byte of
    the caller's address space changes, and the invariant is kept, so that no
    other task is affected. *)
Theorem mmap_maps_range `{L : Sel4Laws} `{ML : MemoryAddrLaws} `{BF : Bitflags} (seat : Z)
    (asp : Z -> VS) (s : KT) (badge : Z) (t : Sel4Task)
    (addr len prot flags fd off mf mp r : Z)
    (Hinv : kt_ok seat asp s) (Htask : kt_tasks s !! badge = Some t)
    (Hflags : bf_from_bits MmapFlags_all (as_i32 flags) = Some mf)
    (Hprot : bf_from_bits MmapProt_all (as_i32 prot) = Some mp)
    (Hstart : mmap_start t mf addr len = Some r)
    (Hr : 0 <= r) (Hlen : 0 <= len) (Hend : up 4096 (r + len) <= 2 ^ 48)
    (Halloc : alloc_ok (Z.to_nat (len / 4096 + 2) * Z.to_nat NUM_LEVELS) (kt_ak s)) :
  wp (sys_mmap badge addr len prot flags fd off)
     (fun res s' => res = Ok r /\ kt_ok seat asp s' /\
        zero_fill (asp badge) (down 4096 r) (up 4096 (r + len)) (kt_kernel s) (kt_kernel s')) s.
Proof.
  eapply wp_mono; [eapply (wp_sys_mmap seat asp 0); try done; by rewrite Nat.add_0_r|].
  intros x s' (-> & HK & _ & HZ & _). split; [done|]. split; [apply HK|exact HZ].
Qed.

(** C25: the area [sys_mmap] chooses itself is new memory: without [MAP_FIXED] no
    byte of the returned range was mapped before the call, and every byte of
    it reads as zero afterwards. *)
Theorem mmap_area_is_new `{L : Sel4Laws} `{ML : MemoryAddrLaws} `{BF : Bitflags} (seat : Z)
    (asp : Z -> VS) (s : KT) (badge : Z) (t : Sel4Task)
    (addr len prot flags fd off mf mp : Z)
    (Hinv : kt_ok seat asp s) (Htask : kt_tasks s !! badge = Some t)
    (Hflags : bf_from_bits MmapFlags_all (as_i32 flags) = Some mf)
    (Hprot : bf_from_bits MmapProt_all (as_i32 prot) = Some mp)
    (Hfixed : bf_contains mf MAP_FIXED = false)
    (Haddr : 0 <= addr) (Hlen : 0 <= len <= 2 ^ 40) (Hend : addr + len <= 2 ^ 40)
    (Hpages : forall va c, t_mapped_page t !! va = Some c -> va < 2 ^ 40)
    (Halloc : alloc_ok (Z.to_nat (len / 4096 + 2) * Z.to_nat NUM_LEVELS) (kt_ak s)) :
  wp (sys_mmap badge addr len prot flags fd off)
     (fun res s' => exists r, res = Ok r /\ USPACE_BASE <= r /\
        forall x, r <= x < r + len ->
          user_byte (kt_kernel s) (asp badge) x = None /\
          user_byte (kt_kernel s') (asp badge) x = Some 0) s.
Proof.
  destruct (ko_task _ _ _ Hinv badge t Htask) as [Hok _].
  destruct (free_area_unmapped (asp badge) t _ _ addr len Hok) as (r & Hr & Hbase & Hfree); try done.
  pose proof (up_bounds 4096 (r + len) ltac:(lia)).
  pose proof (down_bounds 4096 r ltac:(lia)).
  eapply wp_mono.
  - eapply (wp_sys_mmap seat asp 0 _ badge t _ _ _ _ _ _ mf mp r); try done;
      [|unfold USPACE_BASE in Hbase; lia|lia|lia|by rewrite Nat.add_0_r].
    unfold mmap_start. by rewrite Hfixed.
  - intros x s' (-> & _ & _ & HZ & _). exists r. split; [done|]. split; [lia|].
    intros x Hx. pose proof (Hfree x Hx) as Hn. split; [exact Hn|].
    rewrite HZ. unfold kt_kernel. by rewrite Hn, decide_True by lia.
Qed.

(** ** Unmapping *)

Section unmap.
Context `{L : Sel4Laws} `{ML : MemoryAddrLaws}.

(** The pages [l] are gone, everything else is as before. *)
Definition pages_removed (vs : VS) (l : list Z) (k k' : kstate) : Prop :=
  forall x, user_byte k' vs x =
    if decide (down 4096 x ∈ l) then None else user_byte k vs x.

Definition unmapped_post (vs : VS) (l : list Z) (t : Sel4Task) (a : ObjectAllocator) (k : kstate)
    (s' : TK) : Prop :=
  s'.2.1 = a /\ t_tcb s'.1 = t_tcb t /\ task_step vs a a k s'.2.2 /\ task_ok vs s'.1 a s'.2.2 /\
  pages_removed vs l k s'.2.2 /\ (forall m, alloc_ok m (a, k) -> alloc_ok m (a, s'.2.2)).

Lemma wp_unmap_page_if vs t a k va :
  task_ok vs t a k ->
  wp (unmap_page_if va) (fun _ s' => unmapped_post vs [va] t a k s') (t, (a, k)).
Proof.
  intros Hok. unfold unmap_page_if. wp_step. wp_step. simpl.
  destruct (t_mapped_page t !! va) as [page|] eqn:E.
  - destruct (to_page _ _ _ _ Hok va page E) as (_ & _ & Hr & Hm & f & Hf & _).
    eapply wp_mono; [by apply (wp_unmap_page vs)|].
    intros [] [t' [a' k']] (E1 & E2 & Ht & Hok' & _ & HSA & HF & D). simpl in *. subst t' a'.
    split; [done|]. split; [done|]. split; [|split; [done|split]].
    3:{ intros m. eapply alloc_ok_kdiff; [exact D|done|]. by intros c ->. }
    + split; [exists 0%nat; by rewrite bump_by_0|]. split.
      * intros c Hc. destruct (decide (c = page)) as [->|]; [done|].
        by apply (kd_frame _ _ _ _ _ D).
      * eapply kdiff_weaken, D; [|by intros ? ? []|by intros ? ? []].
        intros c ->. right. rewrite Hf. eauto.
    + intros x. unfold user_byte. cbn [fst snd]. case_decide as Hx.
      * apply list_elem_of_singleton in Hx. by rewrite Hx, Ht.
      * rewrite (kd_trans _ _ _ _ _ D) by (intros [_ ?]; set_solver).
        destruct (translate k vs (down 4096 x)); [|done]. simpl.
        by rewrite (kd_bytes _ _ _ _ _ D) by by intros [].
  - wp_step. split; [done|]. split; [done|]. split; [apply task_step_refl|]. split; [done|]. split; [|done].
    intros x. case_decide as Hx; [|done]. apply list_elem_of_singleton in Hx.
    unfold user_byte. cbn [fst snd]. by rewrite Hx, (to_unmapped _ _ _ _ Hok va E).
Qed.

Lemma wp_unmap_pages vs l : forall t a k,
  task_ok vs t a k ->
  wp (for_each unmap_page_if l) (fun _ s' => unmapped_post vs l t a k s') (t, (a, k)).
Proof.
  induction l as [|x l IH]; intros t a k Hok; cbn [for_each].
  - wp_step. split; [done|]. split; [done|]. split; [apply task_step_refl|]. split; [done|]. split; [|done].
    intros y. rewrite decide_False; [done|]. apply not_elem_of_nil.
  - wp_step. eapply wp_mono; [by apply (wp_unmap_page_if vs)|].
    intros [] [t1 [a1 k1]] (E1 & T1 & S1 & O1 & R1 & A1). simpl in *. subst a1.
    eapply wp_mono; [by apply (IH t1 a k1)|].
    intros [] [t2 [a2 k2]] (E2 & T2 & S2 & O2 & R2 & A2). simpl in *. subst a2.
    split; [done|]. split; [simpl; congruence|]. split; [by eapply task_step_trans|]. split; [done|]. split; [|by eauto].
    intros y. simpl. rewrite R2, R1. repeat case_decide; set_solver.
Qed.
Lemma wp_sys_unmap seat asp m s badge t addr len :
  kt_ok seat asp s -> kt_tasks s !! badge = Some t ->
  0 <= addr -> 0 <= len -> up 4096 (addr + len) <= 2 ^ 48 ->
  wp (sys_unmap badge addr len)
     (fun res s' => res = Ok 0 /\ mem_step seat asp badge s s' /\ kt_console s' = kt_console s /\
        (forall x, user_byte (kt_kernel s') (asp badge) x =
          if decide (down 4096 addr <= x < up 4096 (addr + len)) then None
          else user_byte (kt_kernel s) (asp badge) x) /\
        (alloc_ok m (kt_ak s) -> alloc_ok m (kt_ak s'))) s.
Proof.
  intros Hinv Htask Haddr Hlen Hend. unfold sys_unmap, task_unmap.
  destruct (ko_task _ _ _ Hinv badge t Htask) as [Hok _].
  destruct s as [tasks [a k] id ipc con sent]. simpl in *.
  set (l := step_range 4096 (down 4096 addr) (up 4096 (addr + len))).
  eapply wp_mono; [apply (wp_with_task_ok seat asp _ badge t _ (fun x t' ak' => x = Ok 0 /\
    pages_removed (asp badge) l k ak'.2 /\ (alloc_ok m (a, k) -> alloc_ok m ak'))); [done|done|]|].
  - simpl. wp_step. apply wp_pages_of; [done..|]. wp_step.
    eapply wp_mono; [by apply (wp_unmap_pages (asp badge))|].
    intros [] [t' [a' k']] (E & T & S & O & R & HA). simpl in *. subst a'. wp_step. simpl.
    split_and!; try done. apply HA.
  - intros x s' (HK & t' & _ & Hcon & -> & HR & HA). split_and!; try done. intros x.
    change (kt_kernel s') with (kt_ak s').2. rewrite HR. apply decide_ext.
    apply in_pages_of; [apply down_mod|apply up_mod]; lia.
Qed.
End unmap.

(** C16: [sys_unmap] always succeeds: afterwards no byte of the pages of the
    range is mapped, every other byte of the caller is unchanged, and the
    invariant is kept. *)
Theorem munmap_unmaps_range `{L : Sel4Laws} `{ML : MemoryAddrLaws} (seat : Z)
    (asp : Z -> VS) (s : KT) (badge : Z) (t : Sel4Task) (addr len : Z)
    (Hinv : kt_ok seat asp s) (Htask : kt_tasks s !! badge = Some t)
    (Haddr : 0 <= addr) (Hlen : 0 <= len) (Hend : up 4096 (addr + len) <= 2 ^ 48) :
  wp (sys_unmap badge addr len)
     (fun res s' => res = Ok 0 /\ kt_ok seat asp s' /\
        forall x, user_byte (kt_kernel s') (asp badge) x =
          if decide (down 4096 addr <= x < up 4096 (addr + len)) then None
          else user_byte (kt_kernel s) (asp badge) x) s.
Proof.
  eapply wp_mono; [by apply (wp_sys_unmap seat asp 0 s badge t)|].
  intros x s' (-> & HK & _ & HR & _). split; [done|]. split; [apply HK|exact HR].
Qed.

(** ** The heap *)

Section brk.
Context `{L : Sel4Laws}.

Lemma wp_alloc_and_map_list vs l : forall m t a k,
  task_ok vs t a k -> NoDup l ->
  (forall x, x ∈ l -> page_aligned x /\ 0 <= x < 2 ^ 48 /\ t_mapped_page t !! x = None) ->
  alloc_ok (length l * Z.to_nat NUM_LEVELS + m) (a, k) ->
  wp (for_each alloc_and_map l)
     (fun _ s' => pages_added vs l t a k s' /\ alloc_ok m s'.2) (t, (a, k)).
Proof.
  induction l as [|x l IH]; intros m t a k Hok Hnd Hl HA; cbn [for_each length] in *.
  - wp_step. split; [by apply pages_added_nil|done].
  - apply NoDup_cons in Hnd as [Hx Hnd]. destruct (Hl x) as (Hal & Hr & Hn); [left|].
    wp_step. eapply wp_mono.
    + apply (wp_alloc_and_map vs (length l * Z.to_nat NUM_LEVELS + m)); try done.
      eapply alloc_ok_le, HA. lia.
    + intros [] [t1 [a1 k1]] [P1 A1]. eapply wp_mono; [apply (IH m t1 a1 k1); try done|].
      * apply (pa_ok _ _ _ _ _ _ P1).
      * intros y Hy. destruct (Hl y) as (? & ? & ?); [by right|]. split; [done|]. split; [done|].
        apply (pa_else _ _ _ _ _ _ P1); [done|]. intros ->%list_elem_of_singleton. done.
      * intros [] s2 [P2 A2]. split; [|done].
        by apply (pages_added_app vs [x] l t a k (t1, (a1, k1)) s2 P1).
Qed.
End brk.

(** The addresses [sys_brk] accepts. *)
Definition in_heap_window (addr : Z) : Prop :=
  USPACE_HEAP_BASE <= addr <= USPACE_HEAP_BASE + USPACE_HEAP_SIZE.

Lemma heap_window_test addr :
  in_heap_window addr ->
  (addr <? USPACE_HEAP_BASE) || (wrap64 (USPACE_HEAP_BASE + USPACE_HEAP_SIZE) <? addr) = false.
Proof.
  unfold in_heap_window. intros Ha. rewrite wrap64_small by (vm_compute; intuition discriminate).
  destruct (Z.ltb_spec addr USPACE_HEAP_BASE); [lia|].
  destruct (Z.ltb_spec (USPACE_HEAP_BASE + USPACE_HEAP_SIZE) addr); [lia|done].
Qed.

(** C33: growing a page-aligned heap maps it: [sys_brk] to a higher address of the
    heap window maps zeroed pages for the whole range from the old break to the
    new one, records the new break, returns 0 and keeps the invariant. *)
Theorem brk_grows_heap `{L : Sel4Laws} (seat : Z) (asp : Z -> VS) (s : KT)
    (badge addr : Z) (t : Sel4Task)
    (Hinv : kt_ok seat asp s) (Htask : kt_tasks s !! badge = Some t)
    (Hwin : in_heap_window addr) (Hheap : USPACE_HEAP_BASE <= t_heap t < addr)
    (Halign : t_heap t mod 4096 = 0)
    (Hnew : forall va, t_heap t <= va < addr -> t_mapped_page t !! va = None)
    (Halloc : alloc_ok (length (step_range 4096 (t_heap t) addr) * Z.to_nat NUM_LEVELS) (kt_ak s)) :
  wp (sys_brk badge addr)
     (fun res s' => res = Ok 0 /\ kt_ok seat asp s' /\
        (exists t', kt_tasks s' = <[badge := t']> (kt_tasks s) /\ t_heap t' = addr) /\
        zero_fill (asp badge) (t_heap t) (up 4096 addr) (kt_kernel s) (kt_kernel s')) s.
Proof.
  unfold sys_brk. destruct (ko_task _ _ _ Hinv badge t Htask) as [Hok _].
  destruct s as [tasks [a k] id ipc con sent]. simpl in *.
  assert (0 < USPACE_HEAP_BASE /\ USPACE_HEAP_BASE + USPACE_HEAP_SIZE < 2 ^ 48) as HB
    by (vm_compute; intuition discriminate). unfold in_heap_window in Hwin.
  eapply wp_mono; [apply (wp_with_task_ok seat asp _ badge t _ (fun x t' ak' => x = Ok 0 /\
    t_heap t' = addr /\ zero_fill (asp badge) (t_heap t) (up 4096 addr) k ak'.2)); [done|done|]|].
  2:{ intros x s' (HK & t' & Et & _ & -> & Hh & HZ). split_and!; [done|apply HK|by exists t'|done]. }
  unfold task_brk. simpl. rewrite heap_window_test by done. wp_step. wp_step. simpl.
  destruct (Z.ltb_spec (t_heap t) addr); [|lia]. wp_step. wp_step.
  unfold Sel4Task_brk. destruct (Z.eqb_spec addr 0); [lia|]. wp_step. wp_step. wp_step.
  set (l := step_range PAGE_SIZE (t_heap t) addr).
  assert (forall x, x ∈ l -> page_aligned x /\ 0 <= x < 2 ^ 48 /\ t_mapped_page t !! x = None) as Hl.
  { intros x [Hx Hm]%elem_of_step_range; [|done]. rewrite PAGE_SIZE_eq in Hm.
    split; [unfold page_aligned; dlia|]. split; [lia|]. apply Hnew. lia. }
  eapply wp_mono; [apply (wp_alloc_and_map_list (asp badge) l 0 t a k); try done|].
  - apply NoDup_step_range. done.
  - by rewrite Nat.add_0_r.
  - intros [] [t' [a' k']] [P _]. wp_step. wp_step. wp_step. unfold t_modify. wp_step. wp_step.
    simpl. split; [by eapply grows_task_step, (pa_grows _ _ _ _ _ _ P)|].
    split; [apply task_ok_set_heap, (pa_ok _ _ _ _ _ _ P)|].
    split; [exact (pages_added_tcb _ _ _ _ _ _ P)|]. split; [done|]. split; [done|].
    intros x. pose proof (pages_added_user (asp badge) l t a k _ x Hok P ltac:(intros; by apply Hl)) as E.
    simpl in E. rewrite E. clear E.
    destruct (user_byte k (asp badge) x); [done|]. apply decide_ext.
    unfold l. rewrite PAGE_SIZE_eq, elem_of_step_range by lia.
    pose proof (down_bounds 4096 x ltac:(lia)). pose proof (down_mod 4096 x ltac:(lia)) as Hd.
    pose proof (up_bounds 4096 addr ltac:(lia)). pose proof (up_mod 4096 addr ltac:(lia)) as Hu.
    split.
    + intros [[? ?] _].
      pose proof (aligned_gap 4096 (down 4096 x) (up 4096 addr) ltac:(lia) Hd Hu). lia.
    + intros [? ?]. pose proof (down_ge_aligned 4096 x (t_heap t) ltac:(lia) Halign).
      split; [split; [lia|]|by rewrite Zminus_mod, Hd, Halign].
      destruct (Z.lt_ge_cases (down 4096 x) addr) as [|Hge]; [done|].
      pose proof (up_le_aligned 4096 addr (down 4096 x) ltac:(lia) Hd Hge). lia.
Qed.

(** The first [sys_brk] of a task maps nothing: a new task's break is
    [0x2_0000_0000], above the whole heap window, so any address of the window
    only moves the break down.  The call reports success, and the kernel state
    is what it was. *)
Theorem first_brk_maps_nothing `{K : Sel4} (s : KT) (badge addr : Z) (t : Sel4Task)
    (Htask : kt_tasks s !! badge = Some t) (Hfresh : t_heap t = 0x200000000)
    (Hwin : in_heap_window addr) :
  sys_brk badge addr s =
  Ret (Ok 0, set_tasks (<[badge := set_heap addr t]> (kt_tasks s)) s).
Proof.
  unfold sys_brk, with_task, task_brk. rewrite Htask, heap_window_test by done.
  unfold mbind, M_bind, gets, t_modify, modify, mret, M_ret. simpl. rewrite Hfresh.
  destruct (Z.ltb_spec 0x200000000 addr) as [Hlt|].
  - unfold in_heap_window in Hwin. assert (USPACE_HEAP_BASE + USPACE_HEAP_SIZE < 0x200000000)
      by (vm_compute; reflexivity). lia.
  - by destruct s.
Qed.

(** A break that is not page-aligned cannot grow: the next higher [sys_brk]
    stops the kernel thread at the alignment assertion of [map_page]. *)
Theorem brk_unaligned_growth_panics `{L : Sel4Laws} (s : KT) (badge addr : Z) (t : Sel4Task)
    (Htask : kt_tasks s !! badge = Some t) (Hwin : in_heap_window addr)
    (Hgrow : t_heap t < addr) (Halign : t_heap t mod 4096 <> 0)
    (Halloc : alloc_ok 1 (kt_ak s)) :
  sys_brk badge addr s = Panic PAssert.
Proof.
  unfold sys_brk, with_task. rewrite Htask.
  destruct s as [tasks [a k] id ipc con sent]. cbn [kt_ak kt_tasks] in *.
  assert (addr <> 0) as Hne.
  { unfold in_heap_window in Hwin. assert (0 < USPACE_HEAP_BASE) by (vm_compute; done). lia. }
  destruct (wp_allocate 0 BpGranule a k (fun _ _ => True)) as (c & ak & E & _); [done|done|].
  assert (exists rest, step_range PAGE_SIZE (t_heap t) addr = t_heap t :: rest) as [rest El].
  { unfold step_range. rewrite PAGE_SIZE_eq, Z.max_r by lia.
    pose proof (up_bounds 4096 (addr - t_heap t) ltac:(lia)).
    pose proof (up_mod 4096 (addr - t_heap t) ltac:(lia)).
    rewrite (seqZ_cons 0) by dlia. simpl. rewrite Z.add_0_r. eauto. }
  assert (alloc_and_map (t_heap t) (t, (a, k)) = Panic PAssert) as Ep.
  { unfold alloc_and_map, t_alloc, zoom, mbind, M_bind. simpl.
    unfold allocate_and_retyped_fixed_sized. rewrite E. unfold map_page, mbind, M_bind.
    apply Z.eqb_neq in Halign. rewrite PAGE_SIZE_eq. by rewrite Halign. }
  assert (Sel4Task_brk addr (t, (a, k)) = Panic PAssert) as Eb.
  { unfold Sel4Task_brk. destruct (Z.eqb_spec addr 0); [lia|].
    rewrite (bind_Ret _ _ _ (t_heap t) (t, (a, k))) by done.
    apply bind_Panic. rewrite El. by apply bind_Panic. }
  match goal with |- context [task_brk addr ?x] =>
    assert (task_brk addr x = Panic PAssert) as Et; [|by rewrite Et] end.
  unfold task_brk. rewrite heap_window_test by done.
  rewrite (bind_Ret _ _ _ (t_heap t) (t, (a, k))) by done.
  destruct (Z.ltb_spec (t_heap t) addr); [|lia]. apply bind_Panic. by apply bind_Panic.
Qed.

(** ** Page faults *)

(** Resuming a thread succeeds and does not touch memory or capabilities. *)
Definition resumable `{Sel4View} (tcb : CPtr) : Prop :=
  forall k, exists k', tcb_resume tcb k = (Ok tt, k') /\ same_alloc k k' /\
    kdiff nowhere1 nowhere nowhere k k'.

(** The page is allocated before the task is looked up; for a known task the
    order does not matter. *)
Lemma handle_fault_eq `{K : Sel4} badge addr s t :
  kt_tasks s !! badge = Some t ->
  handle_fault badge (VmFault addr) s =
  with_task badge (
    alloc_and_map (align_bits addr PAGE_SIZE_BITS) ;;
    tcb ← gets (fun s => t_tcb s.1);
    t_kernel (kcall_unwrap (tcb_resume tcb))) s.
Proof.
  intros Ht. unfold handle_fault, with_task, on_alloc, alloc_and_map, t_alloc, zoom, mbind, M_bind.
  rewrite Ht. simpl. destruct (allocate_and_retyped_fixed_sized BpGranule (kt_ak s))
    as [[c ak]| | |]; try done. simpl. rewrite Ht.
  by destruct (map_page _ c _) as [[[] s1]| | |].
Qed.

Lemma wp_handle_fault `{L : Sel4Laws} seat asp m s badge addr t :
  kt_ok seat asp s -> kt_tasks s !! badge = Some t -> 0 <= addr < 2 ^ 48 ->
  t_mapped_page t !! down 4096 addr = None -> resumable (t_tcb t) ->
  alloc_ok (Z.to_nat NUM_LEVELS + m) (kt_ak s) ->
  wp (handle_fault badge (VmFault addr))
     (fun _ s' => mem_step seat asp badge s s' /\ kt_console s' = kt_console s /\
        zero_fill (asp badge) (down 4096 addr) (down 4096 addr + 4096)
          (kt_kernel s) (kt_kernel s') /\ alloc_ok m (kt_ak s')) s.
Proof.
  intros Hinv Htask Haddr Hnew Hresume Halloc. assert (forall Q, wp (with_task badge (alloc_and_map (align_bits addr PAGE_SIZE_BITS) ;;
      tcb ← gets (fun s => t_tcb s.1); t_kernel (kcall_unwrap (tcb_resume tcb)))) Q s ->
    wp (handle_fault badge (VmFault addr)) Q s) as Heq.
  { intros Q (x & s' & E & HQ). exists x, s'. by rewrite (handle_fault_eq _ _ _ t). }
  apply Heq. destruct (ko_task _ _ _ Hinv badge t Htask) as [Hok _].
  destruct s as [tasks [a k] id ipc con sent]. simpl in *.
  rewrite (align_bits_12 addr : align_bits addr PAGE_SIZE_BITS = _).
  pose proof (down_mod 4096 addr ltac:(lia)) as Hd.
  pose proof (down_bounds 4096 addr ltac:(lia)).
  pose proof (down_ge_aligned 4096 addr 0 ltac:(lia) eq_refl ltac:(lia)).
  eapply wp_mono; [apply (wp_with_task_ok seat asp _ badge t _ (fun _ t' ak' =>
    zero_fill (asp badge) (down 4096 addr) (down 4096 addr + 4096) k ak'.2 /\ alloc_ok m ak'));
    [done|done|]|].
  2:{ intros x s' (HK & t' & _ & Hcon & HZ & HA). done. }
  simpl. wp_step. eapply wp_mono.
  { apply (wp_alloc_and_map (asp badge) m); try done; lia. }
  intros [] [t' [a' k']] [P HA']. wp_step. wp_step. unfold t_kernel. wp_step. simpl.
  destruct (pa_task _ _ _ _ _ _ P) as (mp & pts & Et). simpl in Et. subst t'. simpl.
  destruct (Hresume k') as (k2 & E2 & A2 & D2). eapply wp_kcall_unwrap; [exact E2|]. simpl.
  assert (grows (asp badge) nowhere1 a' a' k' k2) as HG.
  { split; [exists 0%nat; by rewrite bump_by_0|]. eapply kdiff_weaken, D2; by intros. }
  split.
  { eapply task_step_trans; eapply grows_task_step; [apply (pa_grows _ _ _ _ _ _ P)|exact HG]. }
  split; [eapply task_ok_grows_nowhere; [exact HG|apply (pa_ok _ _ _ _ _ _ P)]|].
  split; [done|].
  split; [|by eapply alloc_ok_kdiff; [exact D2|exact A2| |exact HA']].
  intros x. unfold user_byte. rewrite (kd_trans _ _ _ _ _ D2) by by intros [].
  transitivity (user_byte k' (asp badge) x).
  { unfold user_byte. destruct (translate k' _ _); [|done]. simpl.
    by rewrite (kd_bytes _ _ _ _ _ D2) by by intros []. }
  pose proof (pages_added_user (asp badge) _ t a k _ x Hok P) as E. simpl in E. rewrite E.
  2:{ intros y ->%list_elem_of_singleton. done. }
  fold (user_byte k (asp badge) x). destruct (user_byte k (asp badge) x); [done|].
  apply decide_ext. rewrite list_elem_of_singleton. by apply down_eq_iff.
Qed.


(** ** Output *)

Lemma wp_sys_write `{L : Sel4Laws} `{MI : MessageInfoApi} `{ML : MemoryAddrLaws} `{KE : !KEnv}
    asp m s badge t fuel fd buf count :
  kt_ok page_seat asp s -> kt_tasks s !! badge = Some t -> fd = STDOUT_FD \/ fd = STDERR_FD ->
  0 <= count < 2 ^ 64 -> 0 <= buf -> buf + count < 2 ^ 64 -> range_mapped t buf count ->
  (process_fuel count <= fuel)%nat ->
  wp (sys_write fuel badge fd buf count)
     (fun res s' => res = Ok count /\ mem_step page_seat asp badge s s' /\
        (forall x, user_byte (kt_kernel s') (asp badge) x = user_byte (kt_kernel s) (asp badge) x) /\
        (exists bs, user_bytes (kt_kernel s) (asp badge) buf (Z.to_nat count) = Some bs /\
           kt_console s' = kt_console s ++ bs) /\
        (alloc_ok m (kt_ak s) -> alloc_ok m (kt_ak s'))) s.
Proof.
  intros HK Ht Hfd Hc Hb He Hm Hf. destruct (ko_task _ _ _ HK badge t Ht) as [Hok Hv].
  destruct (wp_task_write page_seat (asp badge) t (kt_ak s).1 (kt_kernel s) fuel fd buf count
              (kt_console s)) as (r & [con k'] & E & -> & HW & bs & Hbs & Hcon); try done.
  { split; [done|apply (ko_seat _ _ _ HK)|done]. }
  simpl in Hcon. subst con. exists (Ok count), (set_console (kt_console s ++ bs) (set_kernel k' s)).
  split.
  - unfold sys_write, get_task, on_console, mbind, M_bind, zoom. rewrite Ht. simpl. by rewrite E.
  - split; [done|]. split; [by eapply mem_step_window|]. pose proof (window_same_user _ _ HW) as [HT HB].
    split; [|split; [eauto|]].
    + intros x. unfold user_byte. simpl in *. rewrite HT.
      destruct (translate (kt_kernel s) _ _); simpl; by rewrite ?HB.
    + destruct HW as (D & HSA & _). intros HA. simpl.
      apply (alloc_ok_kdiff m (kt_ak s).1 (kt_kernel s) k' _ _ _ D HSA).
      * intros c ->. apply (so_zero_slot _ _ _ (ko_seat _ _ _ HK)).
      * unfold kt_kernel. by destruct (kt_ak s).
Qed.

(** ** Witnesses *)

Lemma ref_kt_ok n : @kt_ok ref_sel4 ref_view 0x7000 (fun _ => 5) (ref_kt n).
Proof.
  pose proof (ref_umem_ok n 50 1024 26 ltac:(lia)) as [T S V]. split.
  - intros b t. cbn. intros [<- <-]%lookup_singleton_Some. split; [exact T|exact V].
  - intros b b' [t Ht] [t' Ht']. cbn in Ht, Ht'.
    apply lookup_singleton_Some in Ht as [<- _], Ht' as [<- _]. done.
  - exact S.
Qed.

Lemma ref_kt_alloc n m : (m <= n)%nat -> (n <= 900)%nat ->
  @alloc_ok ref_sel4 ref_view m (@kt_ak ref_sel4 (ref_kt (2 * n))).
Proof.
  intros Hm Hn. eapply alloc_ok_le; [exact Hm|]. apply ref_user_alloc_ok; lia.
Qed.

(** 16 bytes at a fixed address that crosses no mapped page. *)
Lemma mmap_maps_range_witness :
  wp (@sys_mmap ref_sel4 ref_memory_addr ref_bitflags 1 0x9010 16 3 0x32 0 0)
     (fun res s' => res = Ok 0x9010 /\
        @zero_fill ref_sel4 ref_view 5 0x9000 0xa000 (@kt_kernel ref_sel4 (ref_kt 80))
          (@kt_kernel ref_sel4 s'))
     (ref_kt 80).
Proof.
  eapply wp_mono.
  - apply (@mmap_maps_range ref_sel4 ref_view ref_laws ref_memory_addr ref_memory_addr_laws
      ref_bitflags 0x7000 (fun _ => 5) (ref_kt 80) 1 ref_user_task 0x9010 16 3 0x32 0 0
      0x32 3 0x9010);
      [apply ref_kt_ok|reflexivity|reflexivity|reflexivity|reflexivity|lia|lia
      |vm_compute; discriminate|apply (ref_kt_alloc 40); vm_compute; lia].
  - intros res s' (H1 & _ & H2). split; [exact H1|exact H2].
Defined.

Lemma mmap_area_is_new_witness :
  wp (@sys_mmap ref_sel4 ref_memory_addr ref_bitflags 1 0x5000 16 3 0x22 0 0)
     (fun res s' => exists r, res = Ok r /\ USPACE_BASE <= r /\
        forall x, r <= x < r + 16 ->
          @user_byte ref_sel4 ref_view (@kt_kernel ref_sel4 (ref_kt 80)) 5 x = None /\
          @user_byte ref_sel4 ref_view (@kt_kernel ref_sel4 s') 5 x = Some 0)
     (ref_kt 80).
Proof.
  apply (@mmap_area_is_new ref_sel4 ref_view ref_laws ref_memory_addr ref_memory_addr_laws
      ref_bitflags 0x7000 (fun _ => 5) (ref_kt 80) 1 ref_user_task 0x5000 16 3 0x22 0 0
      0x22 3);
    [apply ref_kt_ok|reflexivity|reflexivity|reflexivity|reflexivity|lia|lia|lia| |].
  - intros va c. cbn. intros [<- <-]%lookup_singleton_Some. lia.
  - apply (ref_kt_alloc 40); vm_compute; lia.
Defined.

Lemma munmap_unmaps_range_witness :
  wp (@sys_unmap ref_sel4 ref_memory_addr 1 0x5ff0 1)
     (fun res s' => res = Ok 0 /\
        @user_byte ref_sel4 ref_view (@kt_kernel ref_sel4 s') 5 0x5000 = None)
     (ref_kt 0).
Proof.
  eapply wp_mono.
  - apply (@munmap_unmaps_range ref_sel4 ref_view ref_laws ref_memory_addr ref_memory_addr_laws
      0x7000 (fun _ => 5) (ref_kt 0) 1 ref_user_task 0x5ff0 1);
      [apply ref_kt_ok|reflexivity|lia|lia|vm_compute; discriminate].
  - intros res s' (H1 & _ & H2). split; [exact H1|]. rewrite H2. reflexivity.
Defined.

(** The task of [ref_kt] with its break at the start of the heap window. *)
Definition ref_kt_heap (h : Z) : @KT ref_sel4 :=
  set_tasks {[1 := set_heap h ref_user_task]} (ref_kt 80).

Lemma ref_kt_heap_ok h : @kt_ok ref_sel4 ref_view 0x7000 (fun _ => 5) (ref_kt_heap h).
Proof.
  destruct (ref_kt_ok 80) as [K1 K2 K3]. split.
  - intros b t. cbn. intros [<- <-]%lookup_singleton_Some.
    destruct (K1 1 ref_user_task eq_refl) as [T V]. split; [|exact V].
    by apply task_ok_set_heap.
  - intros b b' [t Ht] [t' Ht']. cbn in Ht, Ht'.
    apply lookup_singleton_Some in Ht as [<- _], Ht' as [<- _]. done.
  - exact K3.
Qed.

Lemma brk_grows_heap_witness :
  wp (@sys_brk ref_sel4 1 0x100000010)
     (fun res s' => res = Ok 0 /\
        @zero_fill ref_sel4 ref_view 5 0x100000000 0x100001000
          (@kt_kernel ref_sel4 (ref_kt_heap 0x100000000)) (@kt_kernel ref_sel4 s'))
     (ref_kt_heap 0x100000000).
Proof.
  eapply wp_mono.
  - apply (@brk_grows_heap ref_sel4 ref_view ref_laws 0x7000 (fun _ => 5)
      (ref_kt_heap 0x100000000) 1 0x100000010 (set_heap 0x100000000 ref_user_task));
      [apply ref_kt_heap_ok|reflexivity|vm_compute; intuition discriminate
      |vm_compute; intuition discriminate|reflexivity| |].
    + intros va Hva. cbn in *. apply lookup_singleton_ne. lia.
    + apply (ref_kt_alloc 40); vm_compute; lia.
  - intros res s' (H1 & _ & _ & H2). split; [exact H1|exact H2].
Defined.

Lemma first_brk_maps_nothing_witness :
  exists s', @sys_brk ref_sel4 1 0x100080000 (ref_kt 0) = Ret (Ok 0, s') /\
    @kt_kernel ref_sel4 s' = @kt_kernel ref_sel4 (ref_kt 0).
Proof.
  eexists. split.
  - apply (@first_brk_maps_nothing ref_sel4 (ref_kt 0) 1 0x100080000 ref_user_task);
      [reflexivity|reflexivity|vm_compute; intuition discriminate].
  - reflexivity.
Defined.

Lemma brk_unaligned_growth_panics_witness :
  @sys_brk ref_sel4 1 0x100002000 (ref_kt_heap 0x100000100) = Panic PAssert.
Proof.
  apply (@brk_unaligned_growth_panics ref_sel4 ref_view ref_laws (ref_kt_heap 0x100000100) 1
    0x100002000 (set_heap 0x100000100 ref_user_task));
    [reflexivity|vm_compute; intuition discriminate|reflexivity|vm_compute; discriminate|].
  apply (ref_kt_alloc 40); lia.
Defined.

Lemma ref_resumable tcb : @resumable ref_sel4 ref_view tcb.
Proof.
  intros k. eexists. split; [reflexivity|]. cbn. case_match; (split; [done|]); [by split|apply kdiff_refl].
Qed.

