(* ===== verification/Clone.v ===== *)
(** * Copying an address space ([clone_vspace] of [sys_clone])

    A clone without [CLONE_VM] gets a copy of the parent's memory in frames of
    its own. *)

From S2P Require Import Prelude Words Consts Sel4 Sel4Laws RefKernel Externs Reference Messages Uspace ObjAllocator KTask FrameMem UserMem Exec ImageMap KThread NetClient Syscalls KInv.

Section clone.
Context `{L : Sel4Laws} `{MI : MessageInfoApi} `{KE : !KEnv}.

(** The two windows are different free pages of the thread. *)
Record windows_ok (a : ObjectAllocator) (k : kstate) : Prop := {
  wo_seat : seat_ok page_seat a k;
  wo_ext : seat_free ext_page_seat k;
  wo_ne : ext_page_seat <> page_seat;
}.

(** Allocation, slot 0 and the pages of [vs] may change, and frames that were
    new. *)
Definition copies (vs : VS) (a a' : ObjectAllocator) (k k' : kstate) : Prop :=
  (exists j, a' = bump_by j a) /\ slot_empty k' 0 = true /\
  kdiff (fun c => alloc_range a c \/ c = 0) (fun v _ => v = vs) (fresh_bytes a k) k k'.

Lemma copies_refl vs a k : slot_empty k 0 = true -> copies vs a a k k.
Proof.
  intros He. split; [exists 0%nat; by rewrite bump_by_0|]. split; [done|apply kdiff_refl].
Qed.

Lemma copies_trans vs a1 a2 a3 k1 k2 k3 :
  slot_empty k1 0 = true ->
  copies vs a1 a2 k1 k2 -> copies vs a2 a3 k2 k3 -> copies vs a1 a3 k1 k3.
Proof.
  intros He ([i ->] & _ & D1) ([j ->] & E2 & D2).
  split; [eexists; apply bump_by_bump_by|]. split; [done|].
  eapply kdiff_trans; [exact D1|]. eapply kdiff_weaken, D2.
  - intros c [Hc| ->]; [left; by eapply alloc_range_bump|by right].
  - done.
  - intros f o HF c Hc Hf. destruct (decide (c = 0)) as [->|Hne].
    + apply frame_not_empty in Hf. congruence.
    + rewrite <- (kd_frame _ _ _ _ _ D1) in Hf by naive_solver.
      apply (HF c); [by intros ?%alloc_range_bump|done].
Qed.

(** Another task, and the windows, survive. *)
Lemma copies_other vs vs' t a a' k k' :
  vs' <> vs -> slot_empty k 0 = true -> copies vs a a' k k' ->
  task_ok vs' t a k -> task_ok vs' t a' k'.
Proof.
  intros Hne He ([j ->] & _ & D) [H1 H2 H3 H4].
  assert (forall c f, cap_frame k c = Some f -> c <> 0) as Hf0.
  { intros c f Hf ->. apply frame_not_empty in Hf. congruence. }
  split.
  - rewrite (kd_vs _ _ _ _ _ D); [done|]. intros [?|E]; [done|].
    rewrite E in H1. apply vs_not_empty in H1. congruence.
  - by intros ?%alloc_range_bump.
  - intros va c Hc. destruct (H3 va c Hc) as (Ha & Hb & Hr & Hm & f & Hf & Ht).
    pose proof (Hf0 c f Hf).
    rewrite (kd_mapping _ _ _ _ _ D), (kd_frame _ _ _ _ _ D), (kd_trans _ _ _ _ _ D)
      by naive_solver.
    refine (conj Ha (conj Hb (conj _ (conj Hm _)))); [by intros ?%alloc_range_bump|eauto].
  - intros va Hva. rewrite (kd_trans _ _ _ _ _ D) by done. auto.
Qed.

(** The same without a claim about memory contents. *)
Definition own_step (vs : VS) (a a' : ObjectAllocator) (k k' : kstate) : Prop :=
  (exists j, a' = bump_by j a) /\ slot_empty k' 0 = true /\
  kdiff (fun c => alloc_range a c \/ c = 0) (fun v _ => v = vs) (fun _ _ => True) k k'.

Lemma copies_own vs a a' k k' : copies vs a a' k k' -> own_step vs a a' k k'.
Proof. intros (HB & He & D). split; [done|]. split; [done|]. by eapply kdiff_weaken, D. Qed.

Lemma own_step_trans vs a1 a2 a3 k1 k2 k3 :
  own_step vs a1 a2 k1 k2 -> own_step vs a2 a3 k2 k3 -> own_step vs a1 a3 k1 k3.
Proof.
  intros ([i ->] & _ & D1) ([j ->] & E2 & D2). split; [|split; [done|eapply kdiff_trans; [exact D1|]]].
  - exists (i + j)%nat. unfold bump_by. simpl. f_equal. lia.
  - eapply kdiff_weaken, D2; [|done|done]. intros c [?%alloc_range_bump|?]; [by left|by right].
Qed.

Lemma own_step_windows vs a a' k k' :
  vs <> own_vs -> own_step vs a a' k k' -> windows_ok a k -> windows_ok a' k'.
Proof.
  intros Hne ([j ->] & He & D) [[S1 S2 S3 S4] W1 W2].
  assert (~ (alloc_range a SLOT_VSPACE \/ SLOT_VSPACE = 0)) as Hv.
  { intros [?|E]; [done|]. pose proof (so_vs _ _ S1) as Hv. rewrite E in Hv.
    apply vs_not_empty in Hv. congruence. }
  assert (forall va, translate k' own_vs va = translate k own_vs va) as HT
    by (intros va; apply (kd_trans _ _ _ _ _ D); congruence).
  split; [split| |]; try done.
  - eapply (seat_free_kdiff _ _ _ _ _ _ S1 D); [done|]. rewrite HT. apply S1.
  - by intros ?%alloc_range_bump.
  - by intros ?%alloc_range_bump.
  - eapply (seat_free_kdiff _ _ _ _ _ _ W1 D); [done|]. rewrite HT. apply W1.
Qed.

Lemma copies_windows vs a a' k k' :
  vs <> own_vs -> copies vs a a' k k' -> windows_ok a k -> windows_ok a' k'.
Proof. intros Hne HC. by apply (own_step_windows vs), copies_own. Qed.

(** Slots in use are not touched. *)
Lemma own_step_used vs a a' k k' c :
  own_step vs a a' k k' -> slot_empty k 0 = true -> slot_used a k c -> slot_used a' k' c.
Proof.
  intros ([j ->] & _ & D) Hz [Hc Hr]. split; [|by intros ?%alloc_range_bump].
  rewrite (kd_empty _ _ _ _ _ D); [done|]. intros [?| ->]; [done|congruence].
Qed.

(** The frame of [p] becomes a copy of the frame of [pc]. *)
Lemma wp_copy_page a k p g pc f :
  windows_ok a k -> cap_frame k p = Some g -> cap_mapping k p = None ->
  cap_frame k pc = Some f -> f <> g -> pc <> p ->
  wp (copy_page p pc) (fun _ k' =>
    cap_frame k' p = Some g /\ cap_mapping k' p = None /\ same_alloc k k' /\
    slot_empty k' 0 = true /\
    kdiff (fun c => c = p \/ c = 0) nowhere (fun h _ => h = g) k k' /\
    forall o, 0 <= o < 4096 -> fbyte k' g o = fbyte k f o) k.
Proof.
  intros [[S1 S2 S3 S4] W1 W2] Hp Hm Hpc Hfg Hne.
  assert (p <> 0) as Hp0 by (intros ->; apply frame_not_empty in Hp; congruence).
  assert (SLOT_VSPACE <> p) as Hvp.
  { intros <-. apply frame_not_vs in Hp. pose proof (so_vs _ _ S1). congruence. }
  unfold copy_page. wp_step. apply (wp_seat_map ext_page_seat k p g); try done.
  intros k1 T1 F1 M1 E1 A1 D1.
  assert (seat_ok page_seat a k1) as HS1.
  { split; try done; [|rewrite (kd_empty _ _ _ _ _ D1); [done|unfold only; congruence]].
    eapply (seat_free_kdiff _ _ _ _ _ _ S1 D1); [done|].
    rewrite (kd_trans _ _ _ _ _ D1) by (intros [_ ?]; congruence). apply S1. }
  wp_step. destruct (wp_with_seat_copy (C := unit) page_seat (fun h _ => h = g) pc
    (u_kernel (bs ← load_bytes page_seat (Z.to_nat GRANULE_SIZE); store_bytes ext_page_seat bs))
    a k1 f tt (fun _ s => window (fun h _ => h = g) k1 s.2 /\
       forall o, 0 <= o < 4096 -> fbyte s.2 g o = fbyte k f o))
    as ([] & [[] k2] & Erun & W & Hbytes); [done|by rewrite (kd_frame _ _ _ _ _ D1)| |].
  { intros k1' T1' B1' X1'. apply wp_u_kernel. wp_step.
    rewrite <- (Z.add_0_r page_seat). apply (wp_load_bytes k1' f); try done; [apply S1|].
    rewrite <- (Z.add_0_r ext_page_seat). apply (wp_store_bytes k1' g); [apply W1| |done| |].
    { rewrite X1'; [done|]. intros [_ ?]. congruence. }
    { by rewrite length_frame_bytes. }
    intros k2 Hb HS D. rewrite length_frame_bytes in *. simpl.
    split; [eapply kdiff_weaken, D; naive_solver|]. split; [done|].
    intros k3 B3 W3. split; [done|]. intros o Ho. rewrite B3.
    pose proof (frame_bytes_lookup k2 g 0 (Z.to_nat GRANULE_SIZE) o ltac:(done)) as Hl.
    rewrite Hb, (frame_bytes_lookup k1' f), Z.add_0_l in Hl by done. injection Hl as Hl.
    rewrite <- Hl, B1', (kd_bytes _ _ _ _ _ D1) by by intros []. done. }
  simpl in W, Hbytes. exists tt, k2. split; [by unfold no_state; rewrite Erun|].
  destruct W as (DW & AW & EW).
  apply (wp_seat_unmap ext_page_seat k2 p g).
  { by rewrite (kd_frame _ _ _ _ _ DW). }
  { by rewrite (kd_mapping _ _ _ _ _ DW). }
  intros k3 T3 F3 M3 E3 A3 D3. split_and!; try done.
  - eapply same_alloc_trans; [exact A1|]. by eapply same_alloc_trans.
  - rewrite (kd_empty _ _ _ _ _ D3); [done|unfold only; congruence].
  - apply (kdiff_restore _ _ _ own_vs ext_page_seat); [|rewrite T3; symmetry; apply W1].
    apply (kdiff_trans _ _ _ _ k1); [|apply (kdiff_trans _ _ _ _ k2)].
    + eapply kdiff_weaken, D1; [by left|by right|by intros ? ? []].
    + eapply kdiff_weaken, DW; [by right|by intros ? ? []|done].
    + eapply kdiff_weaken, D3; [by left|by right|by intros ? ? []].
  - intros o Ho. rewrite (kd_bytes _ _ _ _ _ D3) by by intros []. auto.
Qed.

Lemma task_ok_copied vs t a k k' p g B :
  task_ok vs t a k -> cap_frame k p = Some g -> cap_mapping k p = None ->
  slot_empty k 0 = true -> kdiff (fun c => c = p \/ c = 0) nowhere B k k' -> task_ok vs t a k'.
Proof.
  intros [H1 H2 H3 H4] Hp Hm He D. split; try done.
  - rewrite (kd_vs _ _ _ _ _ D); [done|]. intros [E|E]; rewrite E in H1.
    + apply frame_not_vs in Hp. congruence.
    + apply vs_not_empty in H1. congruence.
  - intros va c Hc. destruct (H3 va c Hc) as (Ha & Hb & Hr & Hmc & f & Hf & Ht).
    assert (c <> p) by congruence.
    assert (c <> 0) by (intros ->; apply frame_not_empty in Hf; congruence).
    rewrite (kd_mapping _ _ _ _ _ D), (kd_frame _ _ _ _ _ D), (kd_trans _ _ _ _ _ D);
      [eauto 10|by intros []|by intros []|by intros []].
  - intros va Hva. rewrite (kd_trans _ _ _ _ _ D) by by intros []. auto.
Qed.

(** The difference after a page was allocated ([k1]), filled ([k2]), its tables
    added ([k3]) and mapped. *)
Lemma copies_intro vs va a a' k k1 k2 k3 k' g :
  slots_start a < slots_end a -> slot_empty k 0 = true -> slot_empty k2 0 = true ->
  ~ alloc_range a 0 -> (forall c, cap_frame k c <> Some g) ->
  grows vs nowhere1 a (bump a) k k1 ->
  kdiff (fun c => c = slots_start a \/ c = 0) nowhere (fun h _ => h = g) k1 k2 ->
  grows vs nowhere1 (bump a) a' k2 k3 ->
  kdiff (only (slots_start a)) (only2 vs va) nowhere k3 k' ->
  copies vs a a' k k'.
Proof.
  intros Hlt He He2 H0 Hg [_ D1] D2 [[j ->] D3] D4.
  assert (alloc_range a (slots_start a)) as Hp by (unfold alloc_range; lia).
  split; [exists (S j); by rewrite <- bump_by_bump|]. split.
  - rewrite (kd_empty _ _ _ _ _ D4), (kd_empty _ _ _ _ _ D3); [done| |].
    + by intros ?%(alloc_range_bump 1).
    + intros E. unfold only in E. apply H0. by rewrite E.
  - apply (kdiff_trans _ _ _ _ k1); [|apply (kdiff_trans _ _ _ _ k2);
      [|apply (kdiff_trans _ _ _ _ k3)]].
    + eapply kdiff_weaken, D1; [by left|by intros ? ? [_ []]|done].
    + eapply kdiff_weaken, D2; [intros c [-> | ->]; [by left|by right]|by intros ? ? []|].
      intros f o -> c _. apply Hg.
    + eapply kdiff_weaken, D3; [intros c Hc; left; by apply (alloc_range_bump 1)|by intros ? ? [_ []]|].
      intros f o HF c Hc Hf. destruct (decide (c = 0)) as [->|Hc0].
      { apply frame_not_empty in Hf. congruence. }
      apply (HF c); [by intros ?%(alloc_range_bump 1)|].
      assert (c <> slots_start a) by (intros ->; done).
      rewrite (kd_frame _ _ _ _ _ D2), (kd_frame _ _ _ _ _ D1); [done|done|by intros []].
    + eapply kdiff_weaken, D4; [intros c ->; by left|by intros ? ? []|by intros ? ? []].
Qed.

(** The outcome of cloning one page. *)
Definition page_cloned (vs : VS) (va : Z) (f : Frame) (dst : Sel4Task) (a : ObjectAllocator)
    (k : kstate) (s' : TK) : Prop :=
  copies vs a s'.2.1 k s'.2.2 /\ task_ok vs s'.1 s'.2.1 s'.2.2 /\
  exists c g, t_mapped_page s'.1 = <[va := c]> (t_mapped_page dst) /\
    cap_frame s'.2.2 c = Some g /\ (forall c', cap_frame k c' <> Some g) /\
    forall o, 0 <= o < 4096 -> fbyte s'.2.2 g o = fbyte k f o.

Lemma wp_clone_page vs m dst a k va pc f :
  task_ok vs dst a k -> windows_ok a k -> vs <> own_vs ->
  page_aligned va -> 0 <= va < 2 ^ 48 -> t_mapped_page dst !! va = None ->
  cap_frame k pc = Some f -> ~ alloc_range a pc ->
  alloc_ok (Z.to_nat NUM_LEVELS + m) (a, k) ->
  wp (clone_page va pc)
     (fun _ s' => page_cloned vs va f dst a k s' /\ alloc_ok m s'.2) (dst, (a, k)).
Proof.
  intros Hok HW Hvs Hal Hva Hnew Hf Hpc HA. pose proof (levels_range k vs va) as HL.
  pose proof (wo_seat _ _ HW) as [S1 S2 S3 S4].
  replace (Z.to_nat NUM_LEVELS + m)%nat with (S (Z.to_nat NUM_LEVELS - 1 + m))%nat in HA by lia.
  pose proof (ao_range _ _ HA) as [_ Hr]. simpl in Hr.
  assert (slots_start a < slots_end a) as Hlt by lia.
  unfold clone_page. wp_step. unfold t_alloc. wp_step. simpl.
  apply (wp_allocate _ _ _ _ _ HA). intros k1 HA1 HR _ _. simpl.
  pose proof (retyped_grows vs _ _ _ _ Hlt HR) as HG1. pose proof HG1 as [_ D1].
  destruct HR as (g & Hg & Hm & Hfresh & _ & _ & _). set (p := slots_start a) in *.
  assert (~ alloc_range (bump a) p) as Hp by (unfold alloc_range; simpl; lia).
  assert (alloc_range a p) as Hp' by (unfold alloc_range; lia).
  assert (slot_empty k1 0 = true) as He1 by by rewrite (kd_empty _ _ _ _ _ D1).
  assert (windows_ok (bump a) k1) as HW1.
  { eapply (copies_windows vs a); [done| |done]. split; [by exists 1%nat|]. split; [done|].
    eapply kdiff_weaken, D1; [by left|naive_solver|done]. }
  wp_step. unfold t_kernel. wp_step. simpl. eapply wp_mono.
  { apply (wp_copy_page (bump a) k1 p g pc f); try done.
    - by rewrite (kd_frame _ _ _ _ _ D1).
    - intros ->. by apply (Hfresh pc).
    - intros ->. done. }
  intros [] k2 (F2 & M2 & A2 & E2 & D2 & B2). eapply wp_mono.
  { apply (wp_map_page vs m _ _ _ _ _ g); try done.
    - eapply (task_ok_copied vs dst (bump a) k1 k2 p g); try done.
      by apply (task_ok_grows_nowhere _ _ a _ k).
    - eapply alloc_ok_kdiff; [exact D2|done| |exact HA1].
      intros c [-> | ->]; [done|]. by intros ?%(alloc_range_bump 1). }
  intros [] s' PM. pose proof PM as (pts & k3 & E & HG3 & D4 & Hok' & HA' & Ht).
  split; [|done]. split; [by eapply (copies_intro vs va a _ k k1 k2 k3)|]. split; [done|].
  exists p, g. split; [by rewrite E|].
  destruct (to_page _ _ _ _ Hok' va p) as (_ & _ & _ & _ & g' & Hg' & Ht');
    [rewrite E; apply lookup_insert_eq|]. assert (g' = g) as -> by congruence.
  split; [done|]. split; [done|]. intros o Ho.
  rewrite (page_mapped_bytes _ _ _ _ _ _ _ _ _ _ PM F2 Hp), B2 by done.
  apply (kd_bytes _ _ _ _ _ D1). intros HF. by apply (HF pc).
Qed.

(** The pages [dn] of the source have been copied since the state [(a, k)]. *)
Record cloned_inv (vs vs_s : VS) (src : Sel4Task) (n : nat) (a : ObjectAllocator) (k : kstate)
    (dn : list (Z * CPtr)) (s : TK) : Prop := {
  ci_copies : copies vs a s.2.1 k s.2.2;
  ci_dst : task_ok vs s.1 s.2.1 s.2.2;
  ci_src : task_ok vs_s src s.2.1 s.2.2;
  ci_windows : windows_ok s.2.1 s.2.2;
  ci_alloc : alloc_ok (n - length dn * Z.to_nat NUM_LEVELS) s.2;
  ci_dom va : is_Some (t_mapped_page s.1 !! va) <-> va ∈ dn.*1;
  ci_page va c : (va, c) ∈ dn -> exists c' g f,
    t_mapped_page s.1 !! va = Some c' /\ cap_frame s.2.2 c' = Some g /\
    cap_frame k c = Some f /\ (forall c0, ~ alloc_range a c0 -> cap_frame k c0 <> Some g) /\
    forall o, 0 <= o < 4096 -> fbyte s.2.2 g o = fbyte k f o;
}.

Lemma copies_frame vs a a' k k' c f :
  copies vs a a' k k' -> slot_empty k 0 = true -> ~ alloc_range a c -> cap_frame k c = Some f ->
  cap_frame k' c = Some f /\ forall o, fbyte k' f o = fbyte k f o.
Proof.
  intros (_ & _ & D) He Hc Hf.
  assert (c <> 0) by (intros ->; apply frame_not_empty in Hf; congruence).
  split; [rewrite (kd_frame _ _ _ _ _ D); [done|by intros []]|].
  intros o. apply (kd_bytes _ _ _ _ _ D). intros HF. by apply (HF c).
Qed.

Lemma cloned_step vs vs_s src n a k dn s va c s' f :
  vs <> vs_s -> vs <> own_vs -> slot_empty k 0 = true -> task_ok vs_s src a k ->
  cloned_inv vs vs_s src n a k dn s ->
  t_mapped_page src !! va = Some c -> va ∉ dn.*1 -> cap_frame s.2.2 c = Some f ->
  page_cloned vs va f s.1 s.2.1 s.2.2 s' ->
  alloc_ok (n - length (dn ++ [(va, c)]) * Z.to_nat NUM_LEVELS) s'.2 ->
  cloned_inv vs vs_s src n a k (dn ++ [(va, c)]) s'.
Proof.
  intros Hvs Hown He Hsrc [C1 C2 C3 C4 C5 C6 C7] Hc Hnin Hf (HC & Hok' & c' & g & Em & Hg & Hfr & HB) HA'.
  pose proof (so_zero _ _ _ (wo_seat _ _ C4)) as He1.
  destruct (to_page _ _ _ _ Hsrc va c Hc) as (_ & _ & Hcr & _ & f0 & Hf0 & _).
  destruct (copies_frame _ _ _ _ _ _ _ C1 He Hcr Hf0) as [Hf1 Hb1].
  assert (f0 = f) as -> by congruence.
  split; try done.
  - by eapply copies_trans.
  - by eapply (copies_other vs).
  - by eapply copies_windows.
  - intros x. rewrite Em, lookup_insert_is_Some', C6, fmap_app, elem_of_app.
    simpl. rewrite list_elem_of_singleton. naive_solver.
  - intros x cx [Hin|[= -> ->]%list_elem_of_singleton]%elem_of_app.
    + destruct (C7 x cx Hin) as (c1 & g1 & f1 & Hm1 & Hg1 & Hf1' & Hfr1 & HB1).
      exists c1, g1, f1. destruct (to_page _ _ _ _ C2 x c1 Hm1) as (_ & _ & Hr1 & _).
      destruct (copies_frame _ _ _ _ _ _ _ HC He1 Hr1 Hg1) as [Hg1' Hb1'].
      split_and!; try done.
      * rewrite Em, lookup_insert_ne; [done|]. intros <-. apply Hnin.
        apply list_elem_of_fmap. by exists (va, cx).
      * intros o Ho. by rewrite Hb1', HB1.
    + exists c', g, f. split_and!; try done.
      * rewrite Em. apply lookup_insert_eq.
      * intros c0 Hc0 E0. destruct (copies_frame _ _ _ _ _ _ _ C1 He Hc0 E0) as [E1 _].
        by apply (Hfr c0).
      * intros o Ho. by rewrite HB, Hb1.
Qed.

Lemma wp_clone_vspace vs vs_s src dst m a k :
  task_ok vs dst a k -> t_mapped_page dst = ∅ -> task_ok vs_s src a k ->
  vs <> vs_s -> vs <> own_vs -> windows_ok a k ->
  alloc_ok (size (t_mapped_page src) * Z.to_nat NUM_LEVELS + m) (a, k) ->
  wp (clone_vspace src)
     (fun _ s' => cloned_inv vs vs_s src (size (t_mapped_page src) * Z.to_nat NUM_LEVELS + m)
        a k (btree_iter (t_mapped_page src)) s') (dst, (a, k)).
Proof.
  intros Hdst Hempty Hsrc Hvs Hown HW HA. set (n := (size _ * _ + m)%nat) in *.
  pose proof (so_zero _ _ _ (wo_seat _ _ HW)) as He.
  unfold clone_vspace. apply (wp_for_each _ (cloned_inv vs vs_s src n a k)).
  { split; simpl; try done.
    - by apply copies_refl.
    - by rewrite Nat.sub_0_r.
    - intros va. rewrite Hempty, lookup_empty. split; [by intros []|by intros ?%not_elem_of_nil].
    - by intros ? ? ?%not_elem_of_nil. }
  intros dn [va c] [t1 [a1 k1]] [rest El] HI. simpl.
  assert (t_mapped_page src !! va = Some c) as Hc.
  { apply elem_of_btree_iter. rewrite El. set_solver. }
  assert (NoDup (dn ++ (va, c) :: rest).*1) as Hnd.
  { rewrite <- El. rewrite btree_iter_perm. apply NoDup_fst_map_to_list. }
  rewrite fmap_app, fmap_cons in Hnd. apply NoDup_app in Hnd as (_ & Hnin & _).
  assert (va ∉ dn.*1) as Hva by (intros Hin; apply (Hnin va Hin); left).
  pose proof HI as [C1 C2 C3 C4 C5 C6 C7]. simpl in *.
  destruct (to_page _ _ _ _ C3 va c Hc) as (Hal & Hr & Hcr & _ & f & Hf & _).
  assert (length dn * Z.to_nat NUM_LEVELS + Z.to_nat NUM_LEVELS <= n)%nat as Hle.
  { unfold n. rewrite <- (length_map_to_list (t_mapped_page src)).
    rewrite <- (Permutation_length (btree_iter_perm (t_mapped_page src))), El, length_app. simpl. lia. }
  eapply wp_mono.
  - apply (wp_clone_page vs (n - (length dn * Z.to_nat NUM_LEVELS + Z.to_nat NUM_LEVELS))
      t1 a1 k1 va c f); try done.
    + destruct (t_mapped_page t1 !! va) eqn:E; [|done].
      exfalso. apply Hva, C6. eauto.
    + eapply alloc_ok_le, C5. lia.
  - intros [] s' [HP HA']. eapply (cloned_step vs vs_s src n a k dn (t1, (a1, k1))); try done.
    rewrite length_app. simpl. eapply alloc_ok_le, HA'. lia.
Qed.
End clone.

(** What the two tasks see once all pages are copied. *)
Definition memory_cloned `{Sel4View} (vs vs_s : VS) (k k' : kstate) : Prop :=
  (forall x, user_byte k' vs x = user_byte k vs_s x) /\
  (forall x, user_byte k' vs_s x = user_byte k vs_s x) /\
  (forall va va' f, translate k' vs va = Some f -> translate k' vs_s va' <> Some f).

Lemma cloned_memory `{L : Sel4Laws} `{MI : MessageInfoApi} `{KE : !KEnv} vs vs_s src n a k s' :
  task_ok vs_s src a k -> windows_ok a k ->
  cloned_inv vs vs_s src n a k (btree_iter (t_mapped_page src)) s' -> memory_cloned vs vs_s k s'.2.2.
Proof.
  intros Hsrc Hwin [C1 C2 C3 C4 C5 C6 C7]. pose proof (so_zero _ _ _ (wo_seat _ _ Hwin)) as He.
  assert (forall va c f, t_mapped_page src !! va = Some c -> cap_frame k c = Some f ->
    cap_frame s'.2.2 c = Some f /\ forall o, fbyte s'.2.2 f o = fbyte k f o) as Hkeep.
  { intros va c f Hc Hf. destruct (to_page _ _ _ _ Hsrc va c Hc) as (_ & _ & Hr & _).
    by apply (copies_frame vs a s'.2.1). }
  split_and!.
  - intros x. unfold user_byte. destruct (t_mapped_page src !! down 4096 x) as [c|] eqn:Ec.
    + destruct (C7 _ _ (proj2 (elem_of_btree_iter _ _ _) Ec)) as (c' & g & f & Hm & Hg & Hf & _ & HB).
      destruct (to_page _ _ _ _ C2 _ _ Hm) as (_ & _ & _ & _ & g' & Hg' & ->).
      destruct (to_page _ _ _ _ Hsrc _ _ Ec) as (_ & _ & _ & _ & f' & Hf' & ->).
      simplify_eq. simpl. rewrite HB; [done|]. apply Z.mod_pos_bound. lia.
    + rewrite (to_unmapped _ _ _ _ Hsrc _ Ec). rewrite (to_unmapped _ _ _ _ C2); [done|].
      apply eq_None_not_Some. intros (c & Hin)%C6%list_elem_of_fmap.
      destruct c as [va c]. destruct Hin as [E Hin%elem_of_btree_iter]. simpl in *. congruence.
  - intros x. unfold user_byte. destruct (t_mapped_page src !! down 4096 x) as [c|] eqn:Ec.
    + destruct (to_page _ _ _ _ Hsrc _ _ Ec) as (_ & _ & _ & _ & f & Hf & ->).
      destruct (to_page _ _ _ _ C3 _ _ Ec) as (_ & _ & _ & _ & f' & Hf' & ->).
      destruct (Hkeep _ _ _ Ec Hf) as [Hf2 Hb]. simplify_eq. simpl. by rewrite Hb.
    + by rewrite (to_unmapped _ _ _ _ Hsrc _ Ec), (to_unmapped _ _ _ _ C3 _ Ec).
  - intros va va' f H1 H2.
    destruct (t_mapped_page s'.1 !! va) as [c1|] eqn:E1;
      [|by rewrite (to_unmapped _ _ _ _ C2 _ E1) in H1].
    destruct (t_mapped_page src !! va') as [c2|] eqn:E2;
      [|by rewrite (to_unmapped _ _ _ _ C3 _ E2) in H2].
    assert (va ∈ (btree_iter (t_mapped_page src)).*1) as ([v c] & -> & Hin)%list_elem_of_fmap
      by (apply C6; eauto). simpl in *.
    destruct (C7 _ _ Hin) as (c' & g & fc & Hm & Hg & _ & Hfr & _).
    destruct (to_page _ _ _ _ C2 _ _ Hm) as (_ & _ & _ & _ & g' & Hg' & Ht').
    destruct (to_page _ _ _ _ Hsrc _ _ E2) as (_ & _ & Hr2 & _ & f2 & Hf2 & Ht2).
    destruct (to_page _ _ _ _ C3 _ _ E2) as (_ & _ & _ & _ & f2' & Hf2' & Ht2').
    destruct (Hkeep _ _ _ E2 Hf2) as [Hf3 _]. simplify_eq. by apply (Hfr c2 Hr2).
Qed.

(** C18: cloning an address space copies it.  After [clone_vspace] the new task
    sees exactly the bytes the source sees, at every address; it sees them in
    frames that the source does not have mapped, so later writes of one are
    not visible to the other; the source is unchanged; and both tasks are well
    formed. *)
Theorem clone_vspace_copies_memory `{L : Sel4Laws} `{MI : MessageInfoApi} `{KE : !KEnv}
    (vs vs_s : VS) (src dst : Sel4Task) (a : ObjectAllocator) (k : kstate)
    (Hdst : task_ok vs dst a k) (Hempty : t_mapped_page dst = ∅) (Hsrc : task_ok vs_s src a k)
    (Hvs : vs <> vs_s) (Hown : vs <> own_vs) (Hwin : windows_ok a k)
    (Halloc : alloc_ok (size (t_mapped_page src) * Z.to_nat NUM_LEVELS) (a, k)) :
  wp (clone_vspace src)
     (fun _ s' => (forall x, user_byte s'.2.2 vs x = user_byte k vs_s x) /\
        (forall x, user_byte s'.2.2 vs_s x = user_byte k vs_s x) /\
        (forall va va' f, translate s'.2.2 vs va = Some f -> translate s'.2.2 vs_s va' <> Some f) /\
        task_ok vs s'.1 s'.2.1 s'.2.2 /\ task_ok vs_s src s'.2.1 s'.2.2)
     (dst, (a, k)).
Proof.
  eapply wp_mono; [apply (wp_clone_vspace vs vs_s _ _ 0); try done; by rewrite Nat.add_0_r|].
  intros [] s' HC. destruct (cloned_memory _ _ _ _ _ _ _ Hsrc Hwin HC) as (? & ? & ?).
  destruct HC. done.
Qed.

(** ** Witness *)

#[local] Existing Instances ref_sel4 packed_message_info.

Definition ref_kenv : @KEnv ref_sel4 packed_message_info := {|
  page_seat := 0x7000;
  ext_page_seat := 0x8000;
  ke_call := ref_reply 0;
  ke_sockaddr_size := 32;
  ke_sockaddr_mem _ _ := 0;
  ke_stack_ptr := 0x9000;
  ke_heap_ptr := 0x9000;
  ke_heap_mem _ := 0;
  ke_libc_mem _ _ := 0;
  ke_clone_size := 56;
  ke_parse_clone_args _ := CloneArgs_default;
  shim_image := Some [MkSegment 0x200000 16 (Some [1; 2; 3]) (Some 5)];
  shim_elf := Some (MkElf 0x200000 [(0x200000, 0x100)] None);
  test_elf := Some (MkElf 0x200000 [(0x200000, 0x100)] None);
  test_phs := Some [MkPh true 0 0x200000 3 16];
  test_mem i := i;
|}.

Definition ref_clone_task : Sel4Task := MkTask 0 2 14 15 13 [] ∅ 0x200000000 None None.

Lemma clone_vspace_copies_memory_witness :
  wp (@clone_vspace ref_sel4 packed_message_info ref_kenv ref_user_task)
     (fun _ s' => forall x, @user_byte ref_sel4 ref_view s'.2.2 6 x =
        @user_byte ref_sel4 ref_view (ref_user 80) 5 x)
     (ref_clone_task, (MkAllocator 50 1024 26, ref_user 80)).
Proof.
  pose proof (ref_umem_ok 80 50 1024 26 ltac:(lia)) as [T S V].
  eapply wp_mono.
  - apply (@clone_vspace_copies_memory ref_sel4 ref_view ref_laws packed_message_info ref_kenv
      6 5 ref_user_task ref_clone_task (MkAllocator 50 1024 26) (ref_user 80)).
    + split; cbn.
      * reflexivity.
      * unfold alloc_range. simpl. lia.
      * by intros va c ?.
      * intros va _. by apply lookup_singleton_None.
    + reflexivity.
    + exact T.
    + discriminate.
    + vm_compute. discriminate.
    + split; [exact S| |vm_compute; discriminate].
      split; try (vm_compute; reflexivity). cbn. lia.
    + apply (ref_kt_alloc 40); vm_compute; lia.
  - intros [] s' (H1 & _). exact H1.
Defined.
