(* ===== verification/Threads.v ===== *)
(** * Threads and CSpaces as the kernel keeps them

    [sys_clone] and [sys_exec] work on TCBs, on the CNode of the new task and on
    the ASID pool.  This file states what [sel4] documents of these objects, and
    proves that the operations on memory leave them alone. *)

From S2P Require Import Prelude Words Consts Sel4 Sel4Laws RefKernel Externs Reference Messages Uspace ObjAllocator KTask FrameMem UserMem Exec ImageMap KThread NetClient Syscalls.

(** Memory, capabilities and allocation are as before. *)
Definition memory_same `{Sel4View} (k k' : kstate) : Prop :=
  same_alloc k k' /\ same_tables k k' /\ kdiff nowhere1 nowhere nowhere k k'.

(** The operations on memory and on the own CSpace that do not delete slot [c]. *)
Inductive memory_op `{Sel4} (c : CPtr) : (kstate -> result unit Error * kstate) -> Prop :=
  | mo_frame_map f v va r : memory_op c (frame_map f v va r)
  | mo_frame_unmap f : memory_op c (frame_unmap f)
  | mo_pt_map q v va : memory_op c (pt_map q v va)
  | mo_copy d s r : memory_op c (cnode_copy (relative SLOT_CNODE d) (relative SLOT_CNODE s) r)
  | mo_delete d : d <> c -> memory_op c (cnode_delete (relative SLOT_CNODE d)).

Class ThreadLaws `{V : Sel4View} := {
  (** the registers of the thread behind a TCB capability, and whether it may run *)
  tcb_state : kstate -> CPtr -> option (UserContext * bool);
  (** the capability designates a CNode in which this slot is free *)
  cslot_free : kstate -> CPtr -> Z -> bool;
  has_asid : kstate -> VS -> bool;
  asid_room : kstate -> nat;
  (** the highest priority the running thread may give to others *)
  own_mcp : Z;

  tcb_not_empty k c x : tcb_state k c = Some x -> slot_empty k c = false;

  (** New objects: a stopped thread, an empty CNode, an address space without an
      ASID. *)
  new_tcb k u c s k' :
    untyped_retype u BpTcb (relative_bits_with_depth SLOT_CNODE c 52) s 1 k = (Ok tt, k') ->
    exists ctx, tcb_state k' (c * 4096 + s) = Some (ctx, false);
  new_cnode k u bits c s k' i :
    untyped_retype u (BpCNode bits) (relative_bits_with_depth SLOT_CNODE c 52) s 1 k = (Ok tt, k') ->
    0 <= i < 2 ^ bits -> cslot_free k' (c * 4096 + s) i = true;
  new_vs k u c s k' vs :
    untyped_retype u BpVSpace (relative_bits_with_depth SLOT_CNODE c 52) s 1 k = (Ok tt, k') ->
    cap_vs k' (c * 4096 + s) = Some vs -> has_asid k' vs = false;
  retype_asid k u bp d s n r k' :
    untyped_retype u bp d s n k = (r, k') -> asid_room k' = asid_room k;

  (** Operations on memory and capabilities keep the threads and CNodes of the
      slots they do not touch; a slot in use is not overwritten. *)
  retype_tcb k u bp d s n r k' c x :
    untyped_retype u bp d s n k = (r, k') -> tcb_state k c = Some x -> tcb_state k' c = Some x;
  retype_cslot k u bp d s n r k' c i :
    untyped_retype u bp d s n k = (r, k') -> cslot_free k c i = true -> cslot_free k' c i = true;
  memory_tcb op k r k' c x :
    memory_op c op -> op k = (r, k') -> tcb_state k c = Some x -> tcb_state k' c = Some x;
  memory_cslot op k r k' c i :
    memory_op c op -> op k = (r, k') -> cslot_free k c i = true -> cslot_free k' c i = true;
  memory_asid op k r k' c : memory_op c op -> op k = (r, k') -> asid_room k' = asid_room k;
  store8_asid k a b k' : store8 a b k = Some k' -> asid_room k' = asid_room k;
  store8_tcb k a b k' c : store8 a b k = Some k' -> tcb_state k' c = tcb_state k c;
  store8_cslot k a b k' c i : store8 a b k = Some k' -> cslot_free k' c i = cslot_free k c i;

  asid_assign_ok k v vs n :
    cap_vs k v = Some vs -> has_asid k vs = false -> asid_room k = S n ->
    exists k', asid_pool_assign SLOT_ASID_POOL v k = (Ok tt, k') /\ memory_same k k' /\
      forall t, tcb_state k' t = tcb_state k t;

  (** Capabilities for a slot of another CNode. *)
  cslot_copy_ok k c i s r :
    c <> SLOT_CNODE -> cslot_free k c i = true -> slot_empty k s = false ->
    exists k', cnode_copy (relative_bits_with_depth c i CNODE_RADIX_BITS) (relative SLOT_CNODE s) r k
                 = (Ok tt, k') /\ memory_same k k' /\ (forall t, tcb_state k' t = tcb_state k t) /\
      forall j, j <> i -> cslot_free k' c j = cslot_free k c j;
  cslot_mint_ok k c i s r b :
    c <> SLOT_CNODE -> cslot_free k c i = true -> slot_empty k s = false ->
    exists k', cnode_mint (relative_bits_with_depth c i CNODE_RADIX_BITS) (relative SLOT_CNODE s) r b k
                 = (Ok tt, k') /\ memory_same k k' /\ (forall t, tcb_state k' t = tcb_state k t) /\
      forall j, j <> i -> cslot_free k' c j = cslot_free k c j;

  (** A copied capability of an address space designates the same address space. *)
  vs_copy_ok k d s r vs :
    slot_empty k d = true -> cap_vs k s = Some vs ->
    exists k', cnode_copy (relative SLOT_CNODE d) (relative SLOT_CNODE s) r k = (Ok tt, k') /\
      cap_vs k' d = Some vs /\ same_alloc k k' /\ kdiff (only d) nowhere nowhere k k';

  (** Invocations of a TCB. *)
  tcb_configure_ok k t x ep c i d v vs va b f :
    tcb_state k t = Some x -> cslot_free k c i = true -> cap_vs k v = Some vs ->
    cap_frame k b = Some f -> page_aligned va ->
    exists k', tcb_configure t ep c d v va b k = (Ok tt, k') /\ memory_same k k' /\
      forall t', tcb_state k' t' = tcb_state k t';
  tcb_sched_ok k t x mcp prio :
    tcb_state k t = Some x -> 0 <= mcp <= own_mcp -> 0 <= prio <= own_mcp ->
    exists k', tcb_set_sched_params t SLOT_TCB mcp prio k = (Ok tt, k') /\ memory_same k k' /\
      forall t', tcb_state k' t' = tcb_state k t';
  tcb_read_ok k t ctx run b :
    tcb_state k t = Some (ctx, run) -> tcb_read_all_registers t b k = (Ok ctx, k);
  tcb_write_ok k t ctx run resume ctx' :
    tcb_state k t = Some (ctx, run) ->
    exists k', tcb_write_all_registers t resume ctx' k = (Ok tt, k') /\ memory_same k k' /\
      tcb_state k' t = Some (ctx', run || resume);
  tcb_resume_ok k t ctx run :
    tcb_state k t = Some (ctx, run) ->
    exists k', tcb_resume t k = (Ok tt, k') /\ memory_same k k' /\ tcb_state k' t = Some (ctx, true);
}.

Lemma memory_same_refl `{Sel4View} k : memory_same k k.
Proof. split; [done|]. split; [done|apply kdiff_refl]. Qed.

Lemma memory_same_trans `{Sel4View} k1 k2 k3 :
  memory_same k1 k2 -> memory_same k2 k3 -> memory_same k1 k3.
Proof.
  intros (A1 & T1 & D1) (A2 & T2 & D2). split; [by eapply same_alloc_trans|].
  split; [intros vs va; by rewrite T2, T1|by eapply kdiff_trans].
Qed.

Lemma preserves_zoom {S T A} (get : S -> T) (put : T -> S -> S) (m : M T A) (I : T -> Prop) (J : S -> Prop) :
  (forall s, J s -> I (get s)) -> (forall s t, J s -> I t -> J (put t s)) ->
  preserves I m -> preserves J (zoom get put m).
Proof.
  intros HI HJ Hm s a s' Hs E. unfold zoom in E. destruct (m (get s)) as [[x t]| | |] eqn:Em; try done.
  injection E as <- <-. apply HJ; [done|]. eapply Hm; [|exact Em]. by apply HI.
Qed.

(** ** Memory operations keep a thread and a CNode *)

Section keep.
Context `{L : Sel4Laws} `{TH : !ThreadLaws} `{MA : MemoryAddr}.

(** What is kept about the capability [c], which is not the scratch slot. *)
Inductive thread_fact := FTcb (c : CPtr) (x : UserContext * bool) | FSlot (c : CPtr) (i : Z) | FAsid (n : nat).
Definition fact_cap (p : thread_fact) : CPtr := match p with FTcb c _ | FSlot c _ => c | FAsid _ => 1 end.
Definition fact_holds (p : thread_fact) (k : kstate) : Prop :=
  match p with
  | FTcb c x => tcb_state k c = Some x
  | FSlot c i => cslot_free k c i = true
  | FAsid n => asid_room k = n
  end.

Variable p : thread_fact.
Hypothesis Hp : fact_cap p <> 0.

Definition keeps {A} (m : M kstate A) : Prop := preserves (fact_holds p) m.

Lemma keeps_kcall {A} (op : kstate -> result A Error * kstate) :
  (forall k r k', op k = (r, k') -> fact_holds p k -> fact_holds p k') ->
  keeps (kcall op) /\ keeps (kcall_unwrap op).
Proof.
  intros Hop. assert (keeps (kcall op)) as Hk.
  { intros k r k' HI E. unfold kcall in E. destruct (op k) eqn:Eo. injection E as <- <-. by eapply Hop. }
  split; [done|]. apply preserves_bind; [done|]. intros [x|e]; [apply preserves_ret|by intros ? ? ? ? ?].
Qed.

Lemma keeps_retype u bp d s n : keeps (kcall_unwrap (untyped_retype u bp d s n)).
Proof.
  apply keeps_kcall. intros k r k' E.
  destruct p; simpl; [by eapply retype_tcb|by eapply retype_cslot|by rewrite (retype_asid _ _ _ _ _ _ _ _ E)].
Qed.

Lemma keeps_memory op : memory_op (fact_cap p) op -> keeps (kcall op) /\ keeps (kcall_unwrap op).
Proof.
  intros Hop. apply keeps_kcall. intros k r k' E.
  destruct p as [c x|c i|n]; simpl;
    [by eapply memory_tcb|by eapply memory_cslot|by rewrite (memory_asid _ _ _ _ _ Hop E)].
Qed.

Lemma keeps_frame_map f v va r : keeps (kcall (frame_map f v va r)) /\ keeps (kcall_unwrap (frame_map f v va r)).
Proof. apply keeps_memory. constructor. Qed.
Lemma keeps_frame_unmap f : keeps (kcall_unwrap (frame_unmap f)).
Proof. apply keeps_memory. constructor. Qed.
Lemma keeps_pt_map q v va : keeps (kcall_unwrap (pt_map q v va)).
Proof. apply keeps_memory. constructor. Qed.
Lemma keeps_copy d s r : keeps (kcall_unwrap (cnode_copy (relative SLOT_CNODE d) (relative SLOT_CNODE s) r)).
Proof. apply keeps_memory. constructor. Qed.
Lemma keeps_delete : keeps (kcall_unwrap (cnode_delete (relative SLOT_CNODE 0))).
Proof. apply keeps_memory. by constructor. Qed.

Lemma keeps_load_bytes n : forall a, keeps (load_bytes a n).
Proof.
  induction n as [|n IH]; intros a; simpl; [apply preserves_ret|].
  apply preserves_bind; [|intros b; apply preserves_bind; [apply IH|intros; apply preserves_ret]].
  intros k b k' HI E. unfold load in E. destruct (load8 a k); [|done]. by injection E as <- <-.
Qed.

Lemma keeps_store_bytes bs : forall a, keeps (store_bytes a bs).
Proof.
  induction bs as [|b bs IH]; intros a; simpl; [apply preserves_ret|].
  apply preserves_bind; [|intros []; apply IH].
  intros k [] k' HI E. unfold store in E. destruct (store8 a b k) as [k1|] eqn:Es; [|done].
  injection E as <-. destruct p; simpl in *; [by rewrite (store8_tcb _ _ _ _ _ Es)
    |by rewrite (store8_cslot _ _ _ _ _ _ Es)|by rewrite (store8_asid _ _ _ _ Es)].
Qed.

(** The same for the larger state types. *)
Definition keepsU {C A} (m : M (C * kstate) A) : Prop := preserves (fun s => fact_holds p s.2) m.
Definition keepsA {A} (m : M AK A) : Prop := preserves (fun s => fact_holds p s.2) m.
Definition keepsT {A} (m : M TK A) : Prop := preserves (fun s => fact_holds p s.2.2) m.

Lemma keepsU_kernel {C A} (m : M kstate A) : keeps m -> keepsU (C := C) (u_kernel m).
Proof. by apply preserves_zoom. Qed.
Lemma keepsA_kernel {A} (m : M kstate A) : keeps m -> keepsA (in_kernel m).
Proof. by apply preserves_zoom. Qed.
Lemma keepsT_kernel {A} (m : M kstate A) : keeps m -> keepsT (t_kernel m).
Proof. by apply preserves_zoom. Qed.
Lemma keepsT_alloc {A} (m : M AK A) : keepsA m -> keepsT (t_alloc m).
Proof. by apply preserves_zoom. Qed.
Lemma keepsT_modify f : keepsT (t_modify f).
Proof. intros s [] s' HI [= <-]. done. Qed.
Lemma keeps_lift {S A} (I : S -> Prop) (o : outcome A) : preserves I (lift o).
Proof. intros s a s' HI E. unfold lift in E. destruct o; try done. by injection E as <- <-. Qed.
Lemma keeps_modify_fst {C} (f : C * kstate -> C) : keepsU (modify (fun s => (f s, s.2))).
Proof. intros s [] s' HI [= <-]. done. Qed.

Lemma keeps_seat_copy {C A} seat cap (body : M (C * kstate) A) :
  keepsU body -> keepsU (with_seat_copy seat cap body).
Proof.
  intros Hb. unfold with_seat_copy.
  apply preserves_bind; [apply keepsU_kernel, keeps_copy|intros _].
  apply preserves_bind; [apply keepsU_kernel, keeps_frame_map|intros _].
  apply preserves_bind; [done|intros x].
  apply preserves_bind; [apply keepsU_kernel, keeps_frame_unmap|intros _].
  apply preserves_bind; [apply keepsU_kernel, keeps_delete|intros _]. apply preserves_ret.
Qed.

Lemma keeps_read_item seat size t addr : keeps (read_item seat size t addr).
Proof.
  assert (forall fuel f ad ba len, (forall x y z, keepsU (f x y z)) ->
            keepsU (C := list Z) (process_loop seat fuel t f ad ba len)) as HL.
  { induction fuel as [|fuel IH]; intros f ad ba len Hf; simpl; [by intros ? ? ? ? ?|].
    case_match; [|apply preserves_bind; [apply keeps_lift|intros; apply preserves_ret]].
    case_match; [|apply preserves_ret]. apply preserves_bind; [|intros; by apply IH].
    apply keeps_seat_copy. apply preserves_bind; [apply keeps_lift|intros x].
    apply preserves_bind; [apply Hf|intros _; apply keeps_lift]. }
  assert (keepsU (C := list Z) (process_item_list seat size t addr None (read_item_cb size))) as HP.
  { unfold process_item_list. case_match; [apply preserves_ret|]. apply HL. intros x y z.
    apply preserves_bind; [apply keepsU_kernel, keeps_load_bytes|intros; apply keeps_modify_fst]. }
  intros k r k' HI E. unfold read_item in E.
  destruct (process_item_list _ _ _ _ _ _ _) as [[[n|e] [item k1]]| | |] eqn:E1; try done;
    injection E as <- <-; by apply (HP _ _ _ (HI : fact_holds p (_, k).2) E1).
Qed.

Lemma keeps_no_state {A} (m : M (unit * kstate) A) : keepsU m -> keeps (no_state m).
Proof.
  intros Hm k x k' HI E. unfold no_state in E. destruct (m (tt, k)) as [[y [u k1]]| | |] eqn:Em; try done.
  injection E as <- <-. by apply (Hm _ _ _ (HI : fact_holds p (tt, k).2) Em).
Qed.

Lemma keepsA_allocate_slot : keepsA allocate_slot.
Proof.
  apply preserves_bind; [intros [a k] c s' HI (_ & _ & ->)%take_slot_inv; done|]. intros c.
  apply preserves_bind; [apply preserves_gets|]. intros u. apply preserves_bind; [|intros; apply preserves_ret].
  case_match; [apply keepsA_kernel, keeps_retype|apply preserves_ret].
Qed.

Lemma keepsA_allocate bp : keepsA (allocate_and_retype bp).
Proof.
  unfold allocate_and_retype. apply preserves_bind.
  - apply keepsA_allocate_slot.
  - intros [[si ci] raw]. apply preserves_bind; [apply preserves_gets|]. intros u.
    apply preserves_bind; [apply keepsA_kernel, keeps_retype|intros; apply preserves_ret].
Qed.

Lemma keepsT_map_page va page : keepsT (map_page va page).
Proof.
  unfold map_page. apply preserves_bind; [intros s [] s' HI E; unfold assert in E; case_match; [by injection E as <-|done]|].
  intros _. generalize (Z.to_nat NUM_LEVELS). intros n. induction n as [|n IH]; simpl; [apply preserves_ret|].
  apply preserves_bind; [apply preserves_gets|intros v].
  apply preserves_bind; [apply keepsT_kernel, keeps_frame_map|intros [[]|[]]]; try apply keepsT_modify;
    try (by intros ? ? ? ? ?).
  apply preserves_bind; [|intros _; apply IH]. unfold map_table.
  apply preserves_bind; [apply keepsT_alloc, keepsA_allocate|intros q].
  apply preserves_bind; [apply keepsT_kernel, keeps_pt_map|intros _]. apply keepsT_modify.
Qed.
End keep.

(** ** The reference kernel *)

(** Slots in use are not overwritten. *)
Lemma r_tcb_ext k k' c x :
  (forall y, rk_caps k !! c = Some y -> rk_caps k' !! c = Some y) ->
  (rk_caps k !! c <> None -> rk_tcbs k' !! c = rk_tcbs k !! c) ->
  r_tcb k c = Some x -> r_tcb k' c = Some x.
Proof.
  unfold r_tcb. intros Hc Ht. destruct (rk_caps k !! c) as [[]|] eqn:E; try done.
  by rewrite (Hc _ eq_refl), Ht.
Qed.

Ltac r_slot c :=
  intros; simplify_eq;
  match goal with
  | |- context [<[?a := _]> _ !! c] =>
      destruct (decide (a = c)) as [E|]; [rewrite E in *|]; rewrite ?lookup_insert_eq, ?lookup_insert_ne by done; congruence
  | |- context [delete ?a _ !! c] => by rewrite lookup_delete_ne by done
  end.

Lemma r_retype_tcb k u bp d s n r k' c x :
  r_retype u bp d s n k = (r, k') -> r_tcb k c = Some x -> r_tcb k' c = Some x.
Proof.
  unfold r_retype, r_err. intros E Hx. pose proof Hx as Hx'. unfold r_tcb in Hx'.
  destruct (rk_caps k !! c) as [[]|] eqn:Ec; try done. revert E Hx.
  repeat case_match; intros [= <- <-]; try done; apply r_tcb_ext; cbn; rewrite Ec; try done; r_slot c.
Qed.

Lemma r_memory_tcb (op : @kstate ref_sel4 -> result unit Error * @kstate ref_sel4) k r k' c x :
  @memory_op ref_sel4 c op -> op k = (r, k') -> r_tcb k c = Some x -> r_tcb k' c = Some x.
Proof.
  intros Hop E Hx. pose proof Hx as Hx'. unfold r_tcb in Hx'.
  destruct (rk_caps k !! c) as [[]|] eqn:Ec; try done. revert E Hx.
  destruct Hop; cbn; unfold r_frame_map, r_frame_unmap, r_pt_map, r_copy, r_delete, r_err; cbn;
    repeat case_match; intros [= <- <-]; try done; apply r_tcb_ext; cbn; rewrite Ec; try done;
    r_slot c.
Qed.

#[global] Instance ref_threads : @ThreadLaws ref_sel4 ref_view.
Proof.
  refine (@Build_ThreadLaws ref_sel4 ref_view r_tcb (fun _ _ _ => true) (fun _ _ => false) (fun _ => 1%nat) 255
            _ _ _ _ _ _ _ _ _ _ _ _ _ _ _ _ _ _ _ _ _ _); try done.
  - intros k c x. cbn. unfold r_tcb. by destruct (rk_caps k !! c) as [[]|].
  - intros k u c s k'. cbn. unfold r_retype, r_err. cbn. repeat case_match; try done. intros [= <-].
    eexists. unfold r_tcb. cbn. by rewrite !lookup_insert_eq.
  - intros k u bp d s n r k' c x. apply r_retype_tcb.
  - intros op k r k' c x. apply r_memory_tcb.
  - intros k a b k' c. cbn. case_match; [|done]. by intros [= <-].
  - intros k v vs n _ _ _. exists k. split; [done|]. split; [apply memory_same_refl|done].
  - intros k c i s r Hc _ _. cbn in *. unfold r_copy. cbn.
    rewrite (proj2 (Z.eqb_neq c 2)) by done. exists k. split; [done|]. split; [apply memory_same_refl|done].
  - intros k c i s r b Hc _ _. cbn in *. unfold r_copy. cbn.
    rewrite (proj2 (Z.eqb_neq c 2)) by done. exists k. split; [done|]. split; [apply memory_same_refl|done].
  - intros k d s r vs He Hs. cbn in *. unfold r_copy. cbn.
    destruct (rk_caps k !! d) eqn:Ed; [done|].
    destruct (rk_caps k !! s) as [[|v| |]|] eqn:Es; try done. injection Hs as ->.
    eexists. split; [reflexivity|]. cbn. rewrite lookup_insert_eq. split_and!; try done. r_kdiff.
  - intros k t x ep c i d v vs va b f _ _ _ _ _. exists k. split; [done|]. split; [apply memory_same_refl|done].
  - intros k t x mcp prio _ _ _. exists k. split; [done|]. split; [apply memory_same_refl|done].
  - intros k t ctx run b E. cbn. by rewrite E.
  - intros k t ctx run resume ctx' E. eexists. split; [reflexivity|]. unfold r_tcb in *.
    destruct (rk_caps k !! t) as [[]|] eqn:Ec; try done. cbn. rewrite E.
    split; [split; [done|]; split; [done|by split]|]. cbn. by rewrite Ec, lookup_insert_eq.
  - intros k t ctx run E. eexists. split; [reflexivity|]. unfold r_tcb in *.
    destruct (rk_caps k !! t) as [[]|] eqn:Ec; try done. cbn. rewrite E.
    split; [split; [done|]; split; [done|by split]|]. cbn. by rewrite Ec, lookup_insert_eq.
Defined.
