(* ===== verification/Fork.v ===== *)
(** * [sys_clone] as a whole

    A clone without [CLONE_VM] creates a task that is a copy of its parent:
    memory, registers and a place in the task map. *)

From S2P Require Import Prelude Words Consts Sel4 Sel4Laws RefKernel Externs Reference Messages Uspace ObjAllocator KTask FrameMem UserMem Exec ImageMap KThread NetClient Syscalls KInv Clone Threads.

(** ** New objects *)

Section objects.
Context `{L : Sel4Laws} `{TH : !ThreadLaws}.

(** The retype behind an allocation. *)
Definition retyped_by (bp : ObjectBlueprint) (a : ObjectAllocator) (k k' : kstate) : Prop :=
  exists k1, untyped_retype (ut a) bp (relative_bits_with_depth SLOT_CNODE (slots_start a / 4096) 52)
      (slots_start a mod 4096) 1 k1 = (Ok tt, k') /\ asid_room k1 = asid_room k /\
    forall c x, tcb_state k c = Some x -> tcb_state k1 c = Some x.

Lemma allocate_retyped bp a k p s' :
  0 <= slots_start a -> allocate_and_retype bp (a, k) = Ret (p, s') -> retyped_by bp a k s'.2.
Proof.
  intros H0 E. destruct (split_slot (slots_start a) H0) as (E1 & E2 & _).
  unfold allocate_and_retype in E. ibind E as [[si ci] raw] s1 Es. unfold allocate_slot in Es.
  ibind Es as c s2 Et. apply take_slot_inv in Et as (_ & -> & ->). rewrite E1, E2 in Es.
  ibind Es as u s3 Eu. injection Eu as <- <-. ibind Es as x s4 Ec. injection Es as <- <- <- <-.
  ibind E as u s5 Eu. injection Eu as <- <-. ibind E as [] s6 Er. injection E as <- <-.
  assert (s4.1 = bump a /\ asid_room s4.2 = asid_room k /\
    forall c x, tcb_state k c = Some x -> tcb_state s4.2 c = Some x) as (E4 & EA & ET).
  { destruct (slots_start a mod 4096 =? 0).
    - apply in_kernel_inv in Ec as (k' & -> & Ek%kcall_unwrap_inv). split; [done|].
      split; [by eapply retype_asid|]. intros c z. by eapply retype_tcb.
    - by injection Ec as <- <-. }
  destruct s4 as [a4 k4]. simpl in *. subst a4.
  apply in_kernel_inv in Er as (k' & -> & Ek%kcall_unwrap_inv). exists k4. split; [exact Ek|done].
Qed.

Lemma allocate_by n bp a k : alloc_ok (S n) (a, k) ->
  exists k', allocate_and_retype bp (a, k) = Ret (slots_start a, (bump a, k')) /\
    alloc_ok n (bump a, k') /\ retyped bp (slots_start a) k k' /\ retyped_by bp a k k'.
Proof.
  intros HA. destruct (wp_allocate n bp a k (fun p s => p = slots_start a /\ s.1 = bump a /\
      alloc_ok n s /\ retyped bp (slots_start a) k s.2)) as (p & [a' k'] & E & -> & Ea & HA' & HR).
  - done.
  - intros k' HA' HR _ _. done.
  - simpl in *. subst a'. exists k'. split_and!; try done.
    apply (allocate_retyped _ _ _ _ _ (proj1 (ao_range _ _ HA)) E).
Qed.

Lemma wp_allocate_by n bp a k (Q : CPtr -> AK -> Prop) :
  alloc_ok (S n) (a, k) ->
  (forall k', alloc_ok n (bump a, k') -> retyped bp (slots_start a) k k' -> retyped_by bp a k k' ->
     Q (slots_start a) (bump a, k')) ->
  wp (allocate_and_retype bp) Q (a, k).
Proof.
  intros HA HQ. destruct (allocate_by n bp a k HA) as (k' & E & HA' & HR & HB).
  exists (slots_start a), (bump a, k'). split; [done|by apply HQ].
Qed.

Lemma slot_parts (a : ObjectAllocator) : slots_start a / 4096 * 4096 + slots_start a mod 4096 = slots_start a.
Proof. pose proof (Z.div_mod (slots_start a) 4096). lia. Qed.

(** [Sel4Task::new]: the new address space is empty and nobody else's, the thread
    is stopped and its CNode is empty. *)
Record fresh_task (id : Z) (a : ObjectAllocator) (k : kstate) (t : Sel4Task) (vs : VS) (s' : AK) : Prop := {
  ft_task : t = MkTask 0 id (slots_start a + 1) (slots_start a + 2) (slots_start a) [] ∅ 0x200000000 None None;
  ft_ok : task_ok vs t s'.1 s'.2;
  ft_alloc : s'.1 = bump_by 3 a;
  ft_grows v : grows v nowhere1 a s'.1 k s'.2;
  ft_own : vs <> own_vs;
  ft_new c : cap_vs k c <> Some vs;
  ft_tcb : exists ctx, tcb_state s'.2 (t_tcb t) = Some (ctx, false);
  ft_keeps c x : tcb_state k c = Some x -> tcb_state s'.2 c = Some x;
  ft_cnode i : 0 <= i < 4096 -> cslot_free s'.2 (t_cnode t) i = true;
}.

Lemma memory_same_grows v a k k' : memory_same k k' -> grows v nowhere1 a a k k'.
Proof.
  intros (_ & _ & D). split; [exists 0%nat; by rewrite bump_by_0|].
  eapply kdiff_weaken, D; [by intros ? []|by intros ? ? []|by intros ? ? []].
Qed.

Lemma memory_same_alloc n a k k' : memory_same k k' -> alloc_ok n (a, k) -> alloc_ok n (a, k').
Proof. intros (HA & _ & D). eapply alloc_ok_kdiff; [exact D|exact HA|by intros ? []]. Qed.

Lemma wp_new_task id m a k :
  alloc_ok (3 + m) (a, k) -> asid_room k <> 0%nat ->
  wp (Sel4Task_new id) (fun r s' => r.2 = wrap64 (id + 1) /\ alloc_ok m s' /\
    exists vs, fresh_task id a k r.1 vs s') (a, k).
Proof.
  intros HA Hroom. pose proof (ao_range _ _ HA) as [H0 Hr]. simpl in H0, Hr.
  unfold Sel4Task_new. wp_step. apply (wp_allocate_by (2 + m) _ _ _ _ HA).
  intros k1 HA1 HR1 (k1' & E1 & R1 & T1). pose proof (fun v => retyped_grows v _ a k k1 ltac:(lia) HR1) as G1.
  destruct HR1 as (vs & Hvs & Hown & Hnew & Htr & _).
  rewrite <- (slot_parts a) in Hvs. pose proof (new_vs _ _ _ _ _ _ E1 Hvs) as Has. rewrite slot_parts in Hvs.
  destruct (asid_room k) as [|n] eqn:En; [done|].
  destruct (asid_assign_ok k1 (slots_start a) vs n) as (k2 & E2 & M2 & T2); [done|done| |].
  { rewrite (retype_asid _ _ _ _ _ _ _ _ E1). congruence. }
  wp_step. unfold in_kernel. wp_step. eapply wp_kcall_unwrap; [exact E2|]. simpl.
  pose proof (memory_same_alloc _ _ _ _ M2 HA1) as HA2. pose proof (fun v => memory_same_grows v (bump a) _ _ M2) as G2.
  wp_step. apply (wp_allocate_by (1 + m) _ _ _ _ HA2). intros k3 HA3 HR3 (k3' & E3 & _ & T3).
  pose proof (fun v => retyped_grows v _ (bump a) k2 k3 ltac:(simpl; lia) HR3) as G3.
  destruct (new_tcb _ _ _ _ _ E3) as [ctx Hctx]. rewrite slot_parts in Hctx.
  wp_step. apply (wp_allocate_by m _ _ _ _ HA3). intros k4 HA4 HR4 (k4' & E4 & _ & T4).
  pose proof (fun v => retyped_grows v _ (bump (bump a)) k3 k4 ltac:(simpl; lia) HR4) as G4.
  assert (forall v, grows v nowhere1 a (bump_by 3 a) k k4) as G.
  { intros v. eapply grows_trans; [exact (G1 v)|]. eapply grows_trans; [exact (G2 v)|].
    eapply grows_trans; [exact (G3 v)|].
    replace (bump_by 3 a) with (bump (bump (bump a))); [exact (G4 v)|]. unfold bump, bump_by. simpl. f_equal. lia. }
  assert (grows vs nowhere1 (bump a) (bump (bump (bump a))) k1 k4) as [_ D].
  { eapply grows_trans; [exact (G2 vs)|]. eapply grows_trans; [exact (G3 vs)|exact (G4 vs)]. }
  assert (~ alloc_range (bump a) (slots_start a)) as Hs by (unfold alloc_range; simpl; lia).
  wp_step. cbn [fst snd]. split; [done|]. split; [done|]. exists vs.
  assert (bump (bump (bump a)) = bump_by 3 a) as E3a by (unfold bump, bump_by; simpl; f_equal; lia).
  rewrite E3a in *. split; simpl; try done.
  - by rewrite <- !Z.add_assoc.
  - split; simpl; try done.
    + by rewrite (kd_vs _ _ _ _ _ D).
    + unfold alloc_range. simpl. lia.
    + intros va _. rewrite (kd_trans _ _ _ _ _ D) by (by intros [_ []]). apply Htr.
  - exists ctx. eapply retype_tcb; [exact E4|]. apply T4. exact Hctx.
  - intros c x Hx. eapply retype_tcb, T4, retype_tcb, T3; [exact E4|exact E3|]. rewrite T2.
    eapply retype_tcb, T1, Hx. exact E1.
  - intros i Hi. pose proof (new_cnode _ _ _ _ _ _ i E4 Hi) as Hc. rewrite slot_parts in Hc.
    replace (slots_start a + 2) with (slots_start (bump (bump a))) by (simpl; lia). exact Hc.
Qed.
End objects.

(** ** Steps that leave the memory alone *)

Section same.
Context `{L : Sel4Laws} `{TH : !ThreadLaws} `{MI : MessageInfoApi} `{KE : !KEnv}.

Lemma same_task vs t a k k' : memory_same k k' -> task_ok vs t a k -> task_ok vs t a k'.
Proof. intros HM. by apply (task_ok_grows_nowhere _ _ a a k k'), memory_same_grows. Qed.

Lemma same_user vs k k' x : memory_same k k' -> user_byte k' vs x = user_byte k vs x.
Proof.
  intros (_ & _ & D). unfold user_byte. rewrite (kd_trans _ _ _ _ _ D) by by intros [].
  destruct (translate k vs _); [|done]. simpl. by rewrite (kd_bytes _ _ _ _ _ D) by by intros [].
Qed.

Lemma same_empty k k' c : memory_same k k' -> slot_empty k' c = slot_empty k c.
Proof. intros (_ & _ & D). apply (kd_empty _ _ _ _ _ D). by intros []. Qed.

Lemma same_copies vs a k k' : memory_same k k' -> slot_empty k 0 = true -> copies vs a a k k'.
Proof.
  intros HM He. split; [exists 0%nat; by rewrite bump_by_0|]. split; [by rewrite (same_empty k k')|].
  destruct HM as (_ & _ & D). eapply kdiff_weaken, D; [by intros ? []|by intros ? ? []|by intros ? ? []].
Qed.

Lemma grows_copies vs P a a' k k' :
  grows vs P a a' k k' -> slot_empty k 0 = true -> ~ alloc_range a 0 -> copies vs a a' k k'.
Proof.
  intros [HB D] He H0. split; [done|]. split; [by rewrite (kd_empty _ _ _ _ _ D)|].
  eapply kdiff_weaken, D; [by left|naive_solver|done].
Qed.

(** The other tasks' bytes. *)
Lemma copies_user vs vs' t a a' k k' x :
  vs' <> vs -> slot_empty k 0 = true -> copies vs a a' k k' -> task_ok vs' t a k ->
  user_byte k' vs' x = user_byte k vs' x.
Proof.
  intros Hne He HC Hok. pose proof HC as (_ & _ & D). unfold user_byte.
  rewrite (kd_trans _ _ _ _ _ D) by done.
  destruct (t_mapped_page t !! down 4096 x) as [c|] eqn:E.
  - destruct (to_page _ _ _ _ Hok _ _ E) as (_ & _ & Hr & _ & f & Hf & ->). simpl.
    destruct (copies_frame _ _ _ _ _ _ _ HC He Hr Hf) as [_ Hb]. by rewrite Hb.
  - by rewrite (to_unmapped _ _ _ _ Hok _ E).
Qed.

Lemma keepsT_clone_vspace p src : fact_cap p <> 0 -> keepsT p (clone_vspace src).
Proof.
  intros Hp. apply preserves_for_each. intros [va c]. unfold clone_page.
  apply preserves_bind; [by apply keepsT_alloc, keepsA_allocate|intros n].
  apply preserves_bind; [|intros _; by apply keepsT_map_page]. apply keepsT_kernel. unfold copy_page.
  apply preserves_bind; [by apply keeps_frame_map|intros _].
  apply preserves_bind; [|intros _; by apply keeps_frame_unmap].
  apply keeps_no_state, keeps_seat_copy; [done|]. apply keepsU_kernel.
  apply preserves_bind; [by apply keeps_load_bytes|intros bs]. by apply keeps_store_bytes.
Qed.
End same.

(** The capabilities and the id of a task do not change with its pages. *)
Section ids.
Context `{L : Sel4Laws} `{MI : MessageInfoApi} `{KE : !KEnv}.

Definition same_ids (t : Sel4Task) (s : TK) : Prop :=
  t_tcb s.1 = t_tcb t /\ t_cnode s.1 = t_cnode t /\ t_vspace s.1 = t_vspace t /\ t_id s.1 = t_id t.

Lemma ids_zoom {T A} t (get : TK -> T) (put : T -> TK -> TK) (m : M T A) :
  (forall x s, (put x s).1 = s.1) -> preserves (same_ids t) (zoom get put m).
Proof.
  intros Hput. apply (preserves_zoom _ _ _ (fun _ => True)); [done| |by intros ? ? ? ? ?].
  intros s x Hs _. unfold same_ids. by rewrite Hput.
Qed.

Lemma ids_map_page t va page : preserves (same_ids t) (map_page va page).
Proof.
  unfold map_page. apply preserves_bind; [intros s [] s' HI E; unfold assert in E; case_match; [by injection E as <-|done]|].
  intros _. generalize (Z.to_nat NUM_LEVELS). intros n. induction n as [|n IH]; simpl; [apply preserves_ret|].
  apply preserves_bind; [apply preserves_gets|intros v].
  apply preserves_bind; [by apply ids_zoom|intros [[]|[]]]; try (by intros ? ? ? ? ?).
  - intros s [] s' HI [= <-]. exact HI.
  - apply preserves_bind; [|intros _; apply IH]. unfold map_table.
    apply preserves_bind; [by apply ids_zoom|intros q]. apply preserves_bind; [by apply ids_zoom|intros _].
    intros s [] s' HI [= <-]. exact HI.
Qed.

Lemma ids_clone_vspace t src : preserves (same_ids t) (clone_vspace src).
Proof.
  apply preserves_for_each. intros [va c]. unfold clone_page.
  apply preserves_bind; [by apply ids_zoom|intros n].
  apply preserves_bind; [by apply ids_zoom|intros _; apply ids_map_page].
Qed.
End ids.

(** Facts about several threads and CNodes at once. *)
Section facts.
Context `{L : Sel4Laws} `{TH : !ThreadLaws}.

Definition facts (ps : list thread_fact) (k : kstate) : Prop := Forall (fun p => fact_holds p k) ps.

Lemma keeps_facts {A} ps (m : M TK A) :
  Forall (fun p => keepsT p m) ps -> preserves (fun s => facts ps s.2.2) m.
Proof.
  intros Hps s x s' HF E. unfold facts in *. rewrite Forall_forall in Hps, HF |- *.
  intros p Hin. apply (Hps p Hin s x s'); [by apply HF|done].
Qed.

Lemma wp_new_page_keeps {B} ps vs m t a k va (rest : CPtr -> M TK B) (Q : B -> TK -> Prop) :
  task_ok vs t a k -> page_aligned va -> 0 <= va < 2 ^ 48 ->
  t_mapped_page t !! va = None -> alloc_ok (Z.to_nat NUM_LEVELS + m) (a, k) ->
  facts ps k -> Forall (fun p => fact_cap p <> 0) ps ->
  (forall c s', pages_added vs [va] t a k s' -> alloc_ok m s'.2 ->
     t_mapped_page s'.1 !! va = Some c -> facts ps s'.2.2 -> wp (rest c) Q s') ->
  wp (page_cap ← t_alloc (allocate_and_retyped_fixed_sized BpGranule);
      map_page va page_cap ;; rest page_cap) Q (t, (a, k)).
Proof.
  intros Hok Hal Hva Hnew HA HF Hps HQ.
  destruct (wp_new_page vs m t a k va mret (fun c s' => pages_added vs [va] t a k s' /\ alloc_ok m s'.2 /\
    t_mapped_page s'.1 !! va = Some c)) as (c & s' & E & HP & HA' & Hc); try done.
  { intros c s' HP HA' Hc. by apply wp_ret. }
  assert (facts ps s'.2.2) as HF'.
  { refine (keeps_facts ps _ _ (t, (a, k)) _ _ HF E). eapply Forall_impl; [exact Hps|]. intros p Hp.
    apply preserves_bind; [by apply keepsT_alloc, keepsA_allocate|intros q].
    apply preserves_bind; [by apply keepsT_map_page|intros _; apply preserves_ret]. }
  ibind E as q s1 E1. ibind E as [] s2 E2. injection E as <- <-.
  destruct (HQ q s2 HP HA' Hc HF') as (y & s3 & E3 & HQ3). exists y, s3. split; [|done].
  by rewrite (bind_Ret _ _ _ _ _ E1), (bind_Ret _ _ _ _ _ E2).
Qed.
End facts.

(** ** The new task *)

Section fork.
Context `{L : Sel4Laws} `{TH : !ThreadLaws} `{MI : MessageInfoApi} `{ML : MemoryAddrLaws}
  `{BF : Bitflags} `{KE : !KEnv}.

Definition in_ipc_page (x : Z) : Prop := down 4096 x = IPC_BUFFER_ADDR.
#[local] Instance in_ipc_page_dec x : Decision (in_ipc_page x).
Proof. unfold in_ipc_page. apply _. Defined.

(** The parent, and what it takes to clone it. *)
Record cloneable (vs_s : VS) (src : Sel4Task) (ctx : UserContext) (ep : CPtr) (a : ObjectAllocator)
    (k : kstate) : Prop := {
  cl_ok : task_ok vs_s src a k;
  cl_ipc : t_mapped_page src !! IPC_BUFFER_ADDR = None;
  cl_tcb : exists run, tcb_state k (t_tcb src) = Some (ctx, run);
  cl_ep : slot_used a k ep;
  cl_cnode : slot_used a k SLOT_CNODE;
  cl_windows : windows_ok a k;
}.

(** The new task before [clone_setup], and after. *)
Record blank (vs : VS) (t : Sel4Task) (a : ObjectAllocator) (k : kstate) : Prop := {
  bl_ok : task_ok vs t a k;
  bl_own : vs <> own_vs;
  bl_empty : t_mapped_page t = ∅;
  bl_tcb : exists ctx, tcb_state k (t_tcb t) = Some (ctx, false);
  bl_tcb_slot : ~ alloc_range a (t_tcb t);
  bl_slots i : 0 <= i < 4096 -> cslot_free k (t_cnode t) i = true;
  bl_cnode : t_cnode t <> SLOT_CNODE /\ t_cnode t <> 0;
}.

Record is_clone (vs vs_s : VS) (ctx : UserContext) (args : CloneArgs) (t t' : Sel4Task)
    (a a' : ObjectAllocator) (k k' : kstate) : Prop := {
  ic_copies : copies vs a a' k k';
  ic_ok : task_ok vs t' a' k';
  ic_tcb : t_tcb t' = t_tcb t;
  ic_regs : tcb_state k' (t_tcb t) = Some (clone_regs args ctx, true);
  ic_bytes x : user_byte k' vs x = if decide (in_ipc_page x) then Some 0 else user_byte k vs_s x;
}.

(** The last part: the thread is configured, gets its registers and starts. *)
Lemma launch_ok k t cctx ep c i d v vs va ipc f ctx :
  tcb_state k t = Some (cctx, false) -> cslot_free k c i = true -> cap_vs k v = Some vs ->
  cap_frame k ipc = Some f -> page_aligned va -> 255 <= own_mcp ->
  exists k1 k2 k3 k4, tcb_configure t ep c d v va ipc k = (Ok tt, k1) /\
    tcb_set_sched_params t SLOT_TCB 0 255 k1 = (Ok tt, k2) /\
    tcb_write_all_registers t false ctx k2 = (Ok tt, k3) /\ tcb_resume t k3 = (Ok tt, k4) /\
    memory_same k k4 /\ tcb_state k4 t = Some (ctx, true) /\
    forall t', tcb_state k2 t' = tcb_state k t'.
Proof.
  intros Ht Hc Hv Hf Hal Hm.
  destruct (tcb_configure_ok k t _ ep c i d v vs va ipc f Ht Hc Hv Hf) as (k1 & E1 & M1 & T1); [done|].
  destruct (tcb_sched_ok k1 t (cctx, false) 0 255) as (k2 & E2 & M2 & T2); [by rewrite T1|lia|lia|].
  rewrite <- T1, <- T2 in Ht.
  destruct (tcb_write_ok k2 t cctx false false ctx Ht) as (k3 & E3 & M3 & T3).
  destruct (tcb_resume_ok k3 _ _ _ T3) as (k4 & E4 & M4 & T4).
  exists k1, k2, k3, k4. split_and!; try done; [|intros t'; by rewrite T2, T1].
  do 3 (eapply memory_same_trans; [eassumption|]). done.
Qed.

Lemma wp_start_clone src t ep badge args a k ctx run cctx ipc f i vs :
  tcb_state k (t_tcb src) = Some (ctx, run) -> tcb_state k (t_tcb t) = Some (cctx, false) ->
  cslot_free k (t_cnode t) i = true -> cap_vs k (t_vspace t) = Some vs -> cap_frame k ipc = Some f ->
  255 <= own_mcp ->
  wp (or_drop (tcb_configure (t_tcb t) ep (t_cnode t)
             (cnode_cap_data 0 (SEL4_WORD_BITS - CNODE_RADIX_BITS)) (t_vspace t)
             IPC_BUFFER_ADDR ipc) (
      or_drop (tcb_set_sched_params (t_tcb t) SLOT_TCB 0 255) (
      regs ← t_kernel (kcall_unwrap (tcb_read_all_registers (t_tcb src) false));
      t_kernel (kcall_unwrap (tcb_write_all_registers (t_tcb t) false (clone_regs args regs))) ;;
      t_kernel (kcall_unwrap (tcb_resume (t_tcb t))) ;;
      mret (Ok badge))))
     (fun r s' => r = Ok badge /\ s'.1 = t /\ s'.2.1 = a /\ memory_same k s'.2.2 /\
        tcb_state s'.2.2 (t_tcb t) = Some (clone_regs args ctx, true)) (t, (a, k)).
Proof.
  intros Hs Ht Hc Hv Hf Hm.
  destruct (launch_ok k (t_tcb t) cctx ep (t_cnode t) i
    (cnode_cap_data 0 (SEL4_WORD_BITS - CNODE_RADIX_BITS)) (t_vspace t) vs IPC_BUFFER_ADDR ipc f
    (clone_regs args ctx) Ht Hc Hv Hf eq_refl Hm) as (k1 & k2 & k3 & k4 & E1 & E2 & E3 & E4 & HM & T4 & T2).
  rewrite <- T2 in Hs.
  unfold or_drop, t_kernel. wp_step. wp_step. simpl. apply wp_kcall. rewrite E1. simpl.
  wp_step. wp_step. simpl. apply wp_kcall. rewrite E2. simpl.
  wp_step. wp_step. simpl. eapply wp_kcall_unwrap; [by apply (tcb_read_ok k2 _ _ run)|]. simpl.
  wp_step. wp_step. simpl. eapply wp_kcall_unwrap; [exact E3|]. simpl.
  wp_step. wp_step. simpl. eapply wp_kcall_unwrap; [exact E4|]. simpl.
  by wp_step.
Qed.

(** The first part: the capabilities in the new CSpace. *)
Lemma wp_clone_caps vs src x t a k ep badge (rest : M TK (result Z Errno)) Q :
  blank vs t a k -> tcb_state k (t_tcb src) = Some x -> slot_empty k ep = false ->
  (forall k', memory_same k k' -> (forall c, tcb_state k' c = tcb_state k c) ->
     cslot_free k' (t_cnode t) 2 = true -> wp rest Q (t, (a, k'))) ->
  wp (cnode ← gets (fun s => t_cnode s.1);
      t_kernel (kcall_unwrap (cnode_copy (relative_bits_with_depth cnode 1 CNODE_RADIX_BITS)
        (relative SLOT_CNODE (t_tcb src)) rights_all)) ;;
      or_drop (cnode_mint (relative_bits_with_depth cnode DEFAULT_THREAD_FAULT_EP CNODE_RADIX_BITS)
                 (relative SLOT_CNODE ep) rights_all badge) rest) Q (t, (a, k)).
Proof.
  intros [B1 B2 B3 B4 B5 B6 [B7 B8]] Hx Hep HQ.
  wp_step. wp_step. cbn [fst snd]. wp_step. unfold t_kernel at 1. wp_step. cbn [fst snd].
  destruct (cslot_copy_ok k (t_cnode t) 1 (t_tcb src) rights_all) as (k1 & E1 & M1 & T1 & S1);
    [done|by apply B6|by eapply tcb_not_empty|].
  eapply wp_kcall_unwrap; [exact E1|]. simpl.
  destruct (cslot_mint_ok k1 (t_cnode t) DEFAULT_THREAD_FAULT_EP ep rights_all badge)
    as (k2 & E2 & M2 & T2 & S2); [done|by rewrite S1; [apply B6|]|by rewrite (same_empty _ _ _ M1)|].
  unfold or_drop. wp_step. unfold t_kernel. wp_step. cbn [fst snd]. apply wp_kcall. rewrite E2.
  cbn [fst snd]. apply HQ; [by eapply memory_same_trans|intros c; by rewrite T2, T1|].
  rewrite S2, S1 by done. by apply B6.
Qed.

Lemma wp_clone_setup vs vs_s src t a k ep badge flags args ctx m :
  cloneable vs_s src ctx ep a k -> blank vs t a k -> vs <> vs_s ->
  bf_contains flags CLONE_VM = false -> 255 <= own_mcp ->
  alloc_ok (size (t_mapped_page src) * Z.to_nat NUM_LEVELS + (Z.to_nat NUM_LEVELS + m)) (a, k) ->
  wp (clone_setup src ep badge flags args)
     (fun r s' => r = Ok badge /\ is_clone vs vs_s ctx args t s'.1 a s'.2.1 k s'.2.2 /\ alloc_ok m s'.2)
     (t, (a, k)).
Proof.
  intros [C1 C2 [run C3] [C4 _] C5 C6] HB Hvs Hfl Hmcp HA. pose proof HB as [B1 B2 B3 [cctx B4] B5 _ [B7 B8]].
  pose proof (so_zero _ _ _ (wo_seat _ _ C6)) as He.
  assert (forall c x, tcb_state k c = Some x -> c <> 0) as Hnz.
  { intros c x Hx%tcb_not_empty ->. congruence. }
  apply (wp_clone_caps vs src (ctx, run)); [done..|]. intros k2 M T2 B6'. rewrite Hfl. cbn [negb].
  rewrite <- T2 in C3, B4. pose proof (same_copies vs a k k2 M He) as K2. pose proof K2 as (_ & He2 & _).
  set (ps := [FTcb (t_tcb src) (ctx, run); FTcb (t_tcb t) (cctx, false); FSlot (t_cnode t) 2]).
  assert (Forall (fun p => fact_cap p <> 0) ps) as Hps by (repeat constructor; simpl; try done; eapply Hnz; rewrite <- T2; done).
  wp_step. eapply wp_mono.
  { apply (wp_preserves (same_ids t)); [apply ids_clone_vspace|done|].
    apply (wp_preserves (fun s => facts ps s.2.2)); [|by repeat constructor|].
    - apply keeps_facts. eapply Forall_impl; [exact Hps|]. intros p. apply keepsT_clone_vspace.
    - apply (wp_clone_vspace vs vs_s src t (Z.to_nat NUM_LEVELS + m) a k2); try done.
      + by eapply same_task.
      + by eapply same_task.
      + by eapply copies_windows.
      + by eapply memory_same_alloc. }
  intros [] [t3 [a3 k3]] [[HI HF3] (Et & Ec & _)].
  pose proof (cloned_memory _ _ _ _ _ _ _ (same_task _ _ _ _ _ M C1) (copies_windows _ _ _ _ _ B2 K2 C6) HI)
    as (Hmem & _ & _).
  destruct HI as [I1 I2 I3 I4 I5 I6 _]. cbn [fst snd] in *.
  apply (wp_new_page_keeps ps vs m); try done.
  { apply eq_None_not_Some. intros ([va c] & Ev & Hin%elem_of_btree_iter)%I6%list_elem_of_fmap.
    simpl in *. congruence. }
  { eapply alloc_ok_le, I5. rewrite (Permutation_length (btree_iter_perm _)), length_map_to_list. lia. }
  intros ipc [t4 [a4 k4]] PA HA4 Hipc HF4. wp_step. wp_step. cbn [fst snd] in *.
  destruct (pa_task _ _ _ _ _ _ PA) as (mp & pts & Et4). cbn [fst] in Et4.
  pose proof (pa_ok _ _ _ _ _ _ PA) as Hok4. cbn [fst snd] in Hok4.
  destruct (to_page _ _ _ _ Hok4 _ _ Hipc) as (_ & _ & _ & _ & f & Hf & _).
  assert (t_tcb t4 = t_tcb t /\ t_cnode t4 = t_cnode t) as [Et' Ec'] by (by subst t4).
  inversion_clear HF4 as [|? ? F1 HF4']. inversion_clear HF4' as [|? ? F2 HF4''].
  inversion_clear HF4'' as [|? ? F3 _]. simpl in F1, F2, F3.
  rewrite <- Et' in F2. rewrite <- Ec' in F3.
  eapply wp_mono; [apply (wp_start_clone src t4 ep badge args a4 k4 ctx run cctx ipc f 2 vs); try done; apply Hok4|].
  intros r [t5 [a5 k5]] (-> & E5 & Ea & M5 & Hregs). cbn [fst snd] in *. subst t5 a5.
  split; [done|]. split; [|by eapply memory_same_alloc].
  pose proof I1 as (_ & He3 & _).
  assert (copies vs a3 a4 k3 k4) as K4.
  { eapply grows_copies; [exact (pa_grows _ _ _ _ _ _ PA)|done|apply (so_zero_slot _ _ _ (wo_seat _ _ I4))]. }
  pose proof K4 as (_ & He4 & _).
  split; try done.
  - eapply copies_trans; [done|exact K2|]. eapply copies_trans; [done|exact I1|].
    eapply copies_trans; [done|exact K4|]. by apply same_copies.
  - by eapply same_task.
  - by rewrite <- Et'.
  - intros x. rewrite (same_user _ _ _ _ M5).
    pose proof (pages_added_user vs [IPC_BUFFER_ADDR] t3 a3 k3 (t4, (a4, k4)) x I2 PA) as Hu.
    cbn [snd] in Hu. rewrite Hu by (by intros y ->%list_elem_of_singleton). rewrite Hmem, (same_user _ _ _ _ M). unfold in_ipc_page.
    destruct (decide (down 4096 x = IPC_BUFFER_ADDR)) as [Ex|Ex].
    + assert (user_byte k vs_s x = None) as -> by (unfold user_byte; by rewrite Ex, (to_unmapped _ _ _ _ C1 _ C2)).
      by rewrite decide_True by (rewrite Ex; set_solver).
    + rewrite decide_False by set_solver. by destruct (user_byte k vs_s x).
Qed.

(** ** The system call *)

Lemma window_copies vs a k k' : window nowhere k k' -> copies vs a a k k'.
Proof.
  intros (D & _ & He). split; [exists 0%nat; by rewrite bump_by_0|]. split; [done|].
  eapply kdiff_weaken, D; [by right|by intros ? ? []|by intros ? ? []].
Qed.

Lemma wp_on_local {A} t (m : M TK A) (Q : A * Sel4Task -> KT -> Prop) s :
  wp m (fun x s' => Q (x, s'.1) (set_ak s'.2 s)) (t, kt_ak s) -> wp (on_local t m) Q s.
Proof.
  intros (x & [t' ak'] & E & HQ). eexists _, _. unfold on_local. rewrite E. split; [done|exact HQ].
Qed.

Lemma copies_used vs a a' k k' c :
  copies vs a a' k k' -> slot_empty k 0 = true -> slot_used a k c -> slot_used a' k' c.
Proof. intros HC. by apply (own_step_used vs), copies_own. Qed.

Lemma cloneable_copies vs vs_s src ctx ep a a' k k' :
  vs <> vs_s -> vs <> own_vs -> copies vs a a' k k' ->
  (forall c x, tcb_state k c = Some x -> tcb_state k' c = Some x) ->
  cloneable vs_s src ctx ep a k -> cloneable vs_s src ctx ep a' k'.
Proof.
  intros Hvs Hown HC HT [C1 C2 [run C3] C4 C5 C6].
  pose proof (so_zero _ _ _ (wo_seat _ _ C6)) as He. split; try done.
  - by eapply (copies_other vs).
  - exists run. by apply HT.
  - by eapply copies_used.
  - by eapply copies_used.
  - by eapply copies_windows.
Qed.

Lemma fresh_blank id a k t vs s' n :
  fresh_task id a k t vs s' -> alloc_ok n (a, k) -> (3 <= n)%nat -> slot_empty k SLOT_CNODE = false ->
  blank vs t s'.1 s'.2.
Proof.
  intros [F1 F2 F3 F4 F5 F6 F7 F8 F9] HA Hn Hcn. pose proof (ao_range _ _ HA) as [Hs Hr]. simpl in Hs, Hr.
  split; try done; subst t; simpl in *; try done.
  - rewrite F3. unfold alloc_range. simpl. lia.
  - split; [|lia]. intros E.
    pose proof (ao_empty _ _ HA (slots_start a + 2)) as He. simpl in He.
    rewrite E in He. rewrite He in Hcn; [done|lia].
Qed.

(** [asp] with the address space of a new task. *)
Definition asp_add (id : Z) (vs : VS) (asp : Z -> VS) (b : Z) : VS := if decide (b = id) then vs else asp b.

(** The registers of the child: it continues after the system call, or starts at
    the given function with its argument; a stack that is given is used. *)
Record child_context (args : CloneArgs) (ctx c : UserContext) : Prop := {
  cc_pc : ctx_pc c = if decide (ca_init_fn args = 0) then wrap64 (ctx_pc ctx + 4) else ca_init_fn args;
  cc_sp : ctx_sp c = if decide (ca_stack args = 0) then ctx_sp ctx else ca_stack args;
  cc_gpr i : ctx_gpr c !! i =
    if decide (ca_init_fn args <> 0 /\ i = 0) then Some (ca_init_argv args) else ctx_gpr ctx !! i;
  cc_tls : ctx_tpidr_el0 c = ctx_tpidr_el0 ctx;
}.

Lemma clone_regs_context args ctx : child_context args ctx (clone_regs args ctx).
Proof.
  unfold clone_regs. split; [| |intros i|];
    destruct (Z.eqb_spec (ca_init_fn args) 0) as [E|E], (Z.eqb_spec (ca_stack args) 0) as [F|F];
    cbn; repeat case_decide; try done; try naive_solver.
  1,3: destruct_and!; subst i; apply lookup_insert_eq.
  all: apply lookup_insert_ne; naive_solver.
Qed.

(** The state [s'] of the thread is [s] with a copy of the task [badge]: a new
    task with the next id, in an address space of its own, with the parent's
    bytes and a zeroed page for the IPC buffer, and running in a context made from
    the parent's. *)
Record forked (asp : Z -> VS) (badge : Z) (ctx : UserContext) (args : CloneArgs) (s s' : KT) (vs : VS)
    (t' : Sel4Task) : Prop := {
  fk_tasks : kt_tasks s' = <[kt_next_id s := t']> (kt_tasks s);
  fk_ok : kt_ok page_seat (asp_add (kt_next_id s) vs asp) s';
  fk_regs : exists c, tcb_state (kt_kernel s') (t_tcb t') = Some (c, true) /\ child_context args ctx c;
  fk_bytes x : user_byte (kt_kernel s') vs x =
    if decide (in_ipc_page x) then Some 0 else user_byte (kt_kernel s) (asp badge) x;
  fk_others b x : is_Some (kt_tasks s !! b) ->
    user_byte (kt_kernel s') (asp b) x = user_byte (kt_kernel s) (asp b) x;
  fk_next : kt_next_id s' = wrap64 (kt_next_id s + 1);
  fk_ipc : kt_ipc s' = kt_ipc s;
  fk_console : kt_console s' = kt_console s;
}.

(** A task is added in an address space that was nobody's. *)
Lemma kt_ok_insert asp s id vs t' a' k' :
  kt_ok page_seat asp s -> windows_ok (kt_ak s).1 (kt_ak s).2 -> vs <> own_vs ->
  (forall b, is_Some (kt_tasks s !! b) -> asp b <> vs) -> kt_tasks s !! id = None ->
  copies vs (kt_ak s).1 a' (kt_ak s).2 k' -> task_ok vs t' a' k' ->
  forall s', kt_tasks s' = <[id := t']> (kt_tasks s) -> kt_ak s' = (a', k') -> kt_ok page_seat (asp_add id vs asp) s'.
Proof.
  intros [K1 K2 K3] HW Hown Hnew Hid HC Hok s' Et Ea. pose proof (so_zero _ _ _ K3) as He.
  assert (forall b, is_Some (kt_tasks s !! b) -> asp_add id vs asp b = asp b) as Hold.
  { intros b [x Hb]. unfold asp_add. rewrite decide_False; [done|]. intros ->. congruence. }
  assert (asp_add id vs asp id = vs) as Hadd by (unfold asp_add; by rewrite decide_True).
  split; rewrite ?Et, ?Ea; simpl.
  - intros b t. destruct (decide (b = id)) as [->|Hne].
    + rewrite lookup_insert_eq, Hadd. by intros [= <-].
    + rewrite lookup_insert_ne by done. intros Hb. rewrite Hold by eauto. destruct (K1 b t Hb) as [Hb' Hv].
      split; [|done]. eapply (copies_other vs); [by apply Hnew; eauto|done|exact HC|done].
  - assert (forall b, is_Some (<[id := t']> (kt_tasks s) !! b) -> b <> id -> is_Some (kt_tasks s !! b)) as HI.
    { intros b. rewrite lookup_insert_is_Some'. naive_solver. }
    intros b b' Hb Hb' Hne.
    destruct (decide (b = id)) as [->|N1], (decide (b' = id)) as [->|N2]; [done|..].
    + rewrite Hadd, Hold by auto. intros E. by apply (Hnew b'); auto.
    + rewrite Hadd, Hold by auto. apply Hnew. auto.
    + rewrite !Hold by auto. by apply K2; auto.
  - by apply (wo_seat _ _ (copies_windows _ _ _ _ _ Hown HC HW)).
Qed.

(** The two calls before [clone_setup] as one step: what is known of the parent
    still holds, and the new task is blank. *)
Lemma wp_clone_prepare m badge asp s t ctx ep addr bs :
  kt_ok page_seat asp s -> kt_tasks s !! badge = Some t ->
  cloneable (asp badge) t ctx ep (kt_ak s).1 (kt_ak s).2 ->
  0 <= ke_clone_size -> 0 <= addr -> addr + ke_clone_size < 2 ^ 64 ->
  read_item_spec (kt_kernel s) (asp badge) addr ke_clone_size = Ok bs ->
  asid_room (kt_kernel s) <> 0%nat -> alloc_ok (3 + m) (kt_ak s) ->
  wp (r ← on_kernel (read_item page_seat ke_clone_size t addr); n ← new_task; mret (r, n))
     (fun r s1 => exists vs, r.1 = Ok bs /\ t_id r.2 = kt_next_id s /\
        s1 = set_next_id (wrap64 (kt_next_id s + 1)) (set_ak (kt_ak s1) s) /\
        (forall b, is_Some (kt_tasks s !! b) -> asp b <> vs) /\
        copies vs (kt_ak s).1 (kt_ak s1).1 (kt_ak s).2 (kt_ak s1).2 /\
        blank vs r.2 (kt_ak s1).1 (kt_ak s1).2 /\
        cloneable (asp badge) t ctx ep (kt_ak s1).1 (kt_ak s1).2 /\ alloc_ok m (kt_ak s1)) s.
Proof.
  intros HK Ht HC Hsz Ha He Hbs Hroom HA. destruct s as [tasks [a k] id ipc con sent].
  unfold kt_kernel in *. cbn [kt_tasks kt_ak kt_next_id fst snd] in *.
  destruct (ko_task _ _ _ HK badge t Ht) as [Hok Hown]. pose proof (ko_seat _ _ _ HK) as HS.
  cbn [kt_ak fst snd] in *. pose proof (so_zero _ _ _ HS) as Hz.
  destruct (wp_read_item page_seat (asp badge) t a k addr ke_clone_size) as (r & k1 & E1 & -> & W); try done.
  rewrite Hbs in E1.
  assert (forall c x, tcb_state k c = Some x -> tcb_state k1 c = Some x) as T1.
  { intros c x Hx. apply (keeps_read_item (FTcb c x)) in E1; [done| |done].
    simpl. intros ->. apply tcb_not_empty in Hx. congruence. }
  assert (asid_room k1 = asid_room k) as R1 by (by apply (keeps_read_item (FAsid (asid_room k))) in E1).
  assert (alloc_ok (3 + m) (a, k1)) as HA1.
  { destruct W as (D & S & _). eapply alloc_ok_kdiff; [exact D|exact S| |exact HA]. intros c ->. apply HS. }
  destruct (wp_new_task id m a k1 HA1) as ([n id'] & [a2 k2] & E2 & Eid & HA2 & vs & F); [by rewrite R1|].
  cbn [fst snd] in *. subst id'.
  assert (forall b, is_Some (tasks !! b) -> asp b <> vs) as Hnew.
  { intros b [tb Hb] <-. destruct (ko_task _ _ _ HK b tb Hb) as [[Hv _ _ _] _]. cbn [kt_ak fst snd] in Hv.
    apply (ft_new _ _ _ _ _ _ F (t_vspace tb)). destruct W as (D & _).
    rewrite (kd_vs _ _ _ _ _ D); [done|]. intros E. unfold only in E. rewrite E in Hv.
    apply vs_not_empty in Hv. congruence. }
  assert (copies vs a a2 k k2) as HCP.
  { eapply copies_trans; [done|by apply window_copies|]. destruct W as (_ & _ & Hz1).
    eapply grows_copies; [exact (ft_grows _ _ _ _ _ _ F vs)|done|apply HS]. }
  eexists _, _. split.
  { unfold on_kernel, new_task, on_alloc. unfold mbind, M_bind, zoom, gets, modify. cbn. rewrite E1. cbn.
    rewrite E2. cbn. reflexivity. }
  cbn [fst snd kt_ak kt_next_id]. exists vs. split_and!; try done.
  - by rewrite (ft_task _ _ _ _ _ _ F).
  - eapply fresh_blank; [exact F|exact HA1|lia|].
    apply (copies_used vs a a k k1); [by apply window_copies|done|apply HC].
  - eapply (cloneable_copies vs); [|apply F|exact HCP| |exact HC].
    + intros E. by apply (Hnew badge); eauto.
    + intros c x Hx. by apply (ft_keeps _ _ _ _ _ _ F), T1.
Qed.
(** [sys_clone] around [clone_setup], whatever this does. *)
Lemma wp_sys_clone_setup n asp badge t ctx ep clone_args size bs flags s
    (R : VS -> Sel4Task -> AK -> Sel4Task -> AK -> Prop) :
  kt_ok page_seat asp s -> kt_tasks s !! badge = Some t ->
  cloneable (asp badge) t ctx ep (kt_ak s).1 (kt_ak s).2 -> kt_tasks s !! kt_next_id s = None ->
  0 < clone_args -> 0 <= ke_clone_size -> clone_args + ke_clone_size < 2 ^ 64 ->
  read_item_spec (kt_kernel s) (asp badge) clone_args ke_clone_size = Ok bs ->
  bf_from_bits CloneFlags_all (ca_flags (ke_parse_clone_args bs)) = Some flags ->
  asid_room (kt_kernel s) <> 0%nat -> alloc_ok (3 + n) (kt_ak s) ->
  (forall vs t0 a k, vs <> asp badge -> blank vs t0 a k -> cloneable (asp badge) t ctx ep a k -> alloc_ok n (a, k) ->
     wp (clone_setup t ep (t_id t0) flags (ke_parse_clone_args bs))
        (fun r s' => r = Ok (t_id t0) /\ R vs t0 (a, k) s'.1 s'.2) (t0, (a, k))) ->
  wp (sys_clone badge ep clone_args size)
     (fun r s' => r = Ok (kt_next_id s) /\ exists vs t0 ak t',
        (forall b, is_Some (kt_tasks s !! b) -> asp b <> vs) /\
        copies vs (kt_ak s).1 ak.1 (kt_ak s).2 ak.2 /\ blank vs t0 ak.1 ak.2 /\
        cloneable (asp badge) t ctx ep ak.1 ak.2 /\ R vs t0 ak t' (kt_ak s') /\
        s' = set_tasks (<[kt_next_id s := t']> (kt_tasks s))
               (set_next_id (wrap64 (kt_next_id s + 1)) (set_ak (kt_ak s') s))) s.
Proof.
  intros Hinv Htask Hclone Hnew Hptr Hsize Hend Hread Hflags Hasid Halloc Hsetup.
  destruct (wp_clone_prepare _ badge asp s t ctx ep clone_args bs Hinv Htask Hclone Hsize (Z.lt_le_incl _ _ Hptr)
    Hend Hread Hasid Halloc) as ([r n0] & s2 & E & vs & Er & Eid & Es & Hvs & HC & HB & HCl & HA).
  cbn [fst snd] in *. subst r. ibind E as r s1 E1. ibind E as n' s2' E2. injection E as -> -> ->.
  unfold sys_clone. wp_step. exists t, s. split; [unfold get_task; by rewrite Htask|].
  rewrite (proj2 (Z.eqb_neq clone_args 0)) by lia. apply wp_bind. exists (Ok bs), s1. split; [exact E1|].
  cbn beta iota zeta. rewrite Hflags. apply wp_bind. exists n0, s2. split; [exact E2|].
  apply wp_bind, wp_on_local. rewrite (surjective_pairing (kt_ak s2)).
  eapply wp_mono; [apply (Hsetup vs); try done|].
  { intros E. apply (Hvs badge); [by eexists|by symmetry]. }
  { by rewrite <- surjective_pairing. }
  intros r [t' [a' k']] (-> & HR). cbn [fst snd] in *.
  assert (kt_tasks s2 = kt_tasks s) as Et by (by rewrite Es).
  wp_step. unfold insert_task. wp_step. wp_step. cbn. rewrite Et, Eid, Hnew. wp_step. wp_step. wp_step. wp_step.
  split; [done|]. rewrite <- surjective_pairing in HR. exists vs, n0, (kt_ak s2), t'. split_and!; try done.
  rewrite Es. by destruct s.
Qed.

Lemma wp_sys_clone m asp badge t ctx ep clone_args size bs flags s :
  kt_ok page_seat asp s -> kt_tasks s !! badge = Some t ->
  cloneable (asp badge) t ctx ep (kt_ak s).1 (kt_ak s).2 -> kt_tasks s !! kt_next_id s = None ->
  0 < clone_args -> 0 <= ke_clone_size -> clone_args + ke_clone_size < 2 ^ 64 ->
  read_item_spec (kt_kernel s) (asp badge) clone_args ke_clone_size = Ok bs ->
  bf_from_bits CloneFlags_all (ca_flags (ke_parse_clone_args bs)) = Some flags ->
  bf_contains flags CLONE_VM = false -> 255 <= own_mcp -> asid_room (kt_kernel s) <> 0%nat ->
  alloc_ok (3 + (base.size (t_mapped_page t) * Z.to_nat NUM_LEVELS + (Z.to_nat NUM_LEVELS + m))) (kt_ak s) ->
  wp (sys_clone badge ep clone_args size)
     (fun r s' => r = Ok (kt_next_id s) /\ alloc_ok m (kt_ak s') /\
        exists vs t', forked asp badge ctx (ke_parse_clone_args bs) s s' vs t') s.
Proof.
  intros Hinv Htask Hclone Hnew Hptr Hsize Hend Hread Hflags Hvm Hprio Hasid Halloc.
  eapply wp_mono; [apply (wp_sys_clone_setup _ asp badge t ctx ep clone_args size bs flags s (fun vs t0 ak t' ak' =>
    is_clone vs (asp badge) ctx (ke_parse_clone_args bs) t0 t' ak.1 ak'.1 ak.2 ak'.2 /\ alloc_ok m ak')
    Hinv Htask Hclone Hnew Hptr Hsize Hend Hread Hflags Hasid Halloc)|].
  { intros vs t0 a k Hvs HB HCl HA. by apply (wp_clone_setup vs (asp badge)). }
  intros r s' (-> & vs & t0 & ak & t' & Hvs & HC & HB & HCl & [IC HA'] & Es).
  split; [done|]. split; [done|]. exists vs, t'. pose proof (so_zero _ _ _ (ko_seat _ _ _ Hinv)) as Hz.
  assert (copies vs (kt_ak s).1 (kt_ak s').1 (kt_ak s).2 (kt_ak s').2) as HCC
    by (eapply copies_trans; [done|exact HC|apply IC]).
  assert (kt_tasks s' = <[kt_next_id s := t']> (kt_tasks s)) as Et by (by rewrite Es).
  split.
  - done.
  - eapply (kt_ok_insert asp s _ vs t' _ _); try done; [apply Hclone|apply HB|apply IC|apply surjective_pairing].
  - rewrite (ic_tcb _ _ _ _ _ _ _ _ _ _ IC). eexists. split; [apply IC|apply clone_regs_context].
  - intros x. unfold kt_kernel at 1. rewrite (ic_bytes _ _ _ _ _ _ _ _ _ _ IC). case_match; [done|].
    eapply (copies_user vs); [by apply Hvs; eexists|done|exact HC|apply Hclone].
  - intros b x [tb Hb]. eapply (copies_user vs); [by apply Hvs; eexists|done|exact HCC|].
    apply (ko_task _ _ _ Hinv b tb Hb).
  - by rewrite Es.
  - by rewrite Es.
  - by rewrite Es.
Qed.
End fork.


(** ** Witness *)

#[local] Existing Instances ref_sel4 packed_message_info ref_kenv.

