(* ===== verification/CloneVm.v ===== *)
(** * [sys_clone] with [CLONE_VM]

    A clone with [CLONE_VM] is a second thread in the parent's address space.  Its
    [Sel4Task] starts with an empty record of pages, although the pages are there. *)

From S2P Require Import Prelude Words Consts Sel4 Sel4Laws RefKernel Externs Reference Messages Uspace ObjAllocator KTask FrameMem UserMem Exec ImageMap KThread NetClient Syscalls KInv Clone Threads Fork.

(** [map_page] reads nothing of the record of pages and adds at most the page. *)
Lemma map_page_record `{K : Sel4} va page mp t ak u t' ak' :
  map_page va page (t, ak) = Ret (u, (t', ak')) ->
  exists mp', map_page va page (set_mapped_page mp t, ak) = Ret (u, (set_mapped_page mp' t', ak')) /\
    (t_mapped_page t' = t_mapped_page t \/ mp' = <[va := page]> mp).
Proof.
  unfold map_page. intros E. ibind E as x s1 E1. rewrite (bind_Ret _ _ _ x (set_mapped_page mp t, ak)).
  2: { unfold assert in *. case_match; [|done]. by injection E1 as <- <-. }
  assert (s1 = (t, ak)) as -> by (unfold assert in E1; case_match; [by injection E1 as _ <-|done]).
  clear E1. revert t ak E. generalize (Z.to_nat NUM_LEVELS). intros n.
  induction n as [|n IH]; intros t [a k] E; cbn [map_page_loop] in *.
  { injection E as <- <- <-. exists mp. split; [done|by left]. }
  unfold gets, t_kernel, zoom, kcall, mbind, M_bind in E |- *. cbn in E |- *.
  destruct (frame_map page (t_vspace t) va rights_all k) as [[[]|[]] k1]; try done.
  - injection E as <- <- <-. exists (<[va := page]> mp). split; [by destruct t|by right].
  - unfold map_table, t_alloc, zoom, t_modify, modify, mbind, M_bind in E |- *. cbn in E |- *.
    destruct (allocate_and_retyped_fixed_sized BpPT (a, k1)) as [[q [a2 k2]]| | |]; try done. cbn in E |- *.
    unfold t_kernel, zoom in E |- *. cbn in E |- *.
    destruct (kcall_unwrap (pt_map q (t_vspace t) va) k2) as [[[] k3]| | |]; try done. cbn in E |- *.
    destruct (IH (set_mapped_pt (t_mapped_pt t ++ [q]) t) (a2, k3) E) as (mp' & E' & Hmp).
    exists mp'. split; [|exact Hmp]. rewrite <- E'. by destruct t.
Qed.

Section clone_vm.
Context `{L : Sel4Laws} `{TH : !ThreadLaws} `{MI : MessageInfoApi} `{ML : MemoryAddrLaws}
  `{BF : Bitflags} `{KE : !KEnv}.

(** The capability of the parent's address space in a new slot. *)
Lemma wp_share_vspace ps n t a k v vs :
  cap_vs k v = Some vs -> facts ps k -> Forall (fun p => fact_cap p <> 0) ps -> alloc_ok (S n) (a, k) ->
  wp (slot ← t_alloc allocate_slot;
      t_kernel (kcall_unwrap (cnode_copy (relative SLOT_CNODE slot.2) (relative SLOT_CNODE v) rights_all)) ;;
      t_modify (set_vspace slot.2))
     (fun _ s' => s'.1 = set_vspace (slots_start a) t /\ s'.2.1 = bump a /\ alloc_ok n s'.2 /\
        cap_vs s'.2.2 (slots_start a) = Some vs /\ grows vs nowhere1 a (bump a) k s'.2.2 /\ facts ps s'.2.2) (t, (a, k)).
Proof.
  intros Hv HF Hps HA. pose proof (ao_range _ _ HA) as [Hs Hr]. cbn in Hs, Hr.
  assert (slot_empty k (slots_start a) = true) as He by (apply (ao_empty _ _ HA); cbn; lia).
  eapply wp_mono.
  { apply (wp_preserves (fun s => facts ps s.2.2)); [|done|].
    { apply keeps_facts. eapply Forall_impl; [exact Hps|]. intros p Hp.
      apply preserves_bind; [by apply keepsT_alloc, keepsA_allocate_slot|intros slot].
      apply preserves_bind; [by apply keepsT_kernel, keeps_copy|intros _; apply keepsT_modify]. }
    wp_step. unfold t_alloc. wp_step. cbn [fst snd]. apply (wp_allocate_slot n a k _ HA). intros k1 D1 _ C1 N1 R1.
    destruct (vs_copy_ok k1 (slots_start a) v rights_all vs) as (k2 & E2 & V2 & [R2 C2] & D2).
    { by rewrite (kd_empty _ _ _ _ _ D1) by by intros []. }
    { by rewrite (kd_vs _ _ _ _ _ D1) by by intros []. }
    wp_step. unfold t_kernel. wp_step. cbn [fst snd]. eapply wp_kcall_unwrap; [exact E2|].
    unfold t_modify. wp_step. cbn [fst snd].
    instantiate (1 := fun _ s' => s'.1 = set_vspace (slots_start a) t /\ s'.2.1 = bump a /\ alloc_ok n s'.2 /\
      cap_vs s'.2.2 (slots_start a) = Some vs /\ grows vs nowhere1 a (bump a) k s'.2.2).
    cbn [fst snd]. split; [done|]. split; [done|]. split; [|split; [done|]].
    - apply (alloc_ok_bump n a k k2 HA); [|rewrite R2; lia|by rewrite C2|intros c Hc; rewrite C2; by apply N1].
      intros c Hc. rewrite (kd_empty _ _ _ _ _ D2), (kd_empty _ _ _ _ _ D1); [done|by intros []|]. unfold only. lia.
    - split; [by exists 1%nat|]. eapply kdiff_trans; [eapply kdiff_weaken, D1|eapply kdiff_weaken, D2];
        try (by intros ? []); try (by intros ? ? []). intros c ->. unfold alloc_range. lia. }
  intros [] s' [(E1 & E2 & E3 & E4 & E5) HF']. by split_and!.
Qed.

(** A new page when the record of pages is empty and the address space is that of
    [src], which does not have the page. *)
Lemma wp_shared_page {B} ps vs src t m a k va (rest : CPtr -> M TK B) Q :
  task_ok vs (set_vspace (t_vspace t) src) a k -> t_mapped_page t = ∅ -> t_mapped_page src !! va = None ->
  page_aligned va -> 0 <= va < 2 ^ 48 -> alloc_ok (Z.to_nat NUM_LEVELS + m) (a, k) ->
  facts ps k -> Forall (fun p => fact_cap p <> 0) ps ->
  (forall c f t' a' k', (exists pts, t' = set_mapped_page {[va := c]} (set_mapped_pt pts t)) ->
     grows vs (only va) a a' k k' -> alloc_ok m (a', k') -> facts ps k' -> cap_frame k' c = Some f ->
     cap_vs k' (t_vspace t) = Some vs ->
     (forall x, user_byte k' vs x = if decide (down 4096 x = va) then Some 0 else user_byte k vs x) ->
     wp (rest c) Q (t', (a', k'))) ->
  wp (page_cap ← t_alloc (allocate_and_retyped_fixed_sized BpGranule);
      map_page va page_cap ;; rest page_cap) Q (t, (a, k)).
Proof.
  intros Hok Hemp Hnew Hal Hva HA HF Hps HQ.
  set (t0 := set_mapped_page (t_mapped_page src) t).
  assert (task_ok vs t0 a k) as Hok0 by (destruct Hok as [K1 K2 K3 K4]; by split).
  destruct (wp_new_page_keeps ps vs m t0 a k va mret (fun c s' => pages_added vs [va] t0 a k s' /\ alloc_ok m s'.2 /\
    t_mapped_page s'.1 !! va = Some c /\ facts ps s'.2.2)) as (c & [t1 [a1 k1]] & E & P & HA1 & Hc & HF1); try done.
  { intros c s' P HA' Hc HF'. by wp_step. }
  ibind E as c' s1 E1. ibind E as [] s2 E2. injection E as <- ->.
  assert (s1.1 = t0) as Es1.
  { unfold t_alloc, zoom in E1. cbn in E1.
    destruct (allocate_and_retyped_fixed_sized BpGranule (a, k)) as [[y ak]| | |]; try done. by injection E1 as _ <-. }
  destruct s1 as [t2 ak1]. cbn in Es1. subst t2.
  destruct (map_page_record va c' ∅ t0 ak1 tt t1 (a1, k1) E2) as (mp' & E3 & [Hmp| ->]).
  { cbn in Hc. rewrite Hmp in Hc. cbn in Hc. congruence. }
  assert (set_mapped_page ∅ t0 = t) as Et by (rewrite <- Hemp; by destruct t).
  rewrite Et in E3. destruct (pa_task _ _ _ _ _ _ P) as (mp & pts & E4). cbn in E4.
  destruct (to_page _ _ _ _ (pa_ok _ _ _ _ _ _ P) va c' Hc) as (_ & _ & _ & _ & f & Hf & _). cbn in Hf.
  pose proof (to_vs _ _ _ _ (pa_ok _ _ _ _ _ _ P)) as Hvs. rewrite E4 in Hvs. cbn in Hvs.
  apply wp_bind. exists c', (t, ak1). split.
  { unfold t_alloc, zoom in E1 |- *. cbn in E1 |- *.
    destruct (allocate_and_retyped_fixed_sized BpGranule (a, k)) as [[y ak]| | |]; try done. by injection E1 as -> ->. }
  apply wp_bind. eexists tt, _. split; [exact E3|]. eapply (HQ c' f); try done.
  - exists pts. rewrite E4. by destruct t.
  - eapply grows_weaken, (pa_grows _ _ _ _ _ _ P). intros y [->%list_elem_of_singleton _]. done.
  - intros x. pose proof (pages_added_user vs [va] t0 a k _ x Hok0 P) as Hu. cbn [snd] in Hu.
    rewrite Hu by (by intros y ->%list_elem_of_singleton).
    destruct (decide (down 4096 x = va)) as [<-|Hne].
    + assert (user_byte k vs x = None) as -> by (unfold user_byte; by rewrite (to_unmapped _ _ _ _ Hok0 _ Hnew)).
      by rewrite decide_True by left.
    + rewrite decide_False by (by rewrite list_elem_of_singleton). by destruct (user_byte k vs x).
Qed.

(** The new thread after [clone_setup]: it shares the address space [vs] of the
    parent, has a zeroed page for its IPC buffer there, and records this page
    only. *)
Record is_thread (vs : VS) (ctx : UserContext) (args : CloneArgs) (t t' : Sel4Task)
    (a a' : ObjectAllocator) (k k' : kstate) : Prop := {
  it_copies : copies vs a a' k k';
  it_vs : cap_vs k' (t_vspace t') = Some vs;
  it_tcb : t_tcb t' = t_tcb t;
  it_pages : exists ipc, t_mapped_page t' = {[IPC_BUFFER_ADDR := ipc]};
  it_regs : tcb_state k' (t_tcb t) = Some (clone_regs args ctx, true);
  it_bytes x : user_byte k' vs x = if decide (in_ipc_page x) then Some 0 else user_byte k vs x;
}.

Lemma grows_user vs t a a' k k' x :
  grows vs nowhere1 a a' k k' -> task_ok vs t a k -> user_byte k' vs x = user_byte k vs x.
Proof.
  intros HG Hok. unfold user_byte. pose proof HG as [_ D]. rewrite (kd_trans _ _ _ _ _ D) by (by intros [_ []]).
  destruct (t_mapped_page t !! down 4096 x) as [c|] eqn:E.
  - destruct (to_page _ _ _ _ Hok _ _ E) as (_ & _ & Hr & _ & f & Hf & ->). cbn. f_equal.
    apply (kd_bytes _ _ _ _ _ D). intros HB. by apply (HB c).
  - by rewrite (to_unmapped _ _ _ _ Hok _ E).
Qed.

Lemma wp_clone_vm_setup vs vs_s src t a k ep badge flags args ctx m :
  cloneable vs_s src ctx ep a k -> blank vs t a k -> bf_contains flags CLONE_VM = true -> 255 <= own_mcp ->
  alloc_ok (1 + (Z.to_nat NUM_LEVELS + m)) (a, k) ->
  wp (clone_setup src ep badge flags args)
     (fun r s' => r = Ok badge /\ is_thread vs_s ctx args t s'.1 a s'.2.1 k s'.2.2 /\ alloc_ok m s'.2) (t, (a, k)).
Proof.
  intros [C1 C2 [run C3] [C4 _] C5 C6] HB Hfl Hmcp HA. pose proof HB as [B1 B2 B3 [cctx B4] B5 _ [B7 B8]].
  destruct C6 as [[_ _ He Hz] _ _].
  assert (forall c x, tcb_state k c = Some x -> c <> 0) as Hnz.
  { intros c x Hx%tcb_not_empty ->. congruence. }
  apply (wp_clone_caps vs src (ctx, run)); [done..|]. intros k2 M T2 B6'. rewrite Hfl. cbn [negb].
  rewrite <- T2 in C3, B4. pose proof (same_copies vs_s a k k2 M He) as K2. pose proof K2 as (_ & He2 & _).
  set (ps := [FTcb (t_tcb src) (ctx, run); FTcb (t_tcb t) (cctx, false); FSlot (t_cnode t) 2]).
  assert (Forall (fun p => fact_cap p <> 0) ps) as Hps
    by (repeat constructor; simpl; try done; eapply Hnz; rewrite <- T2; done).
  pose proof (same_task _ _ _ _ _ M C1) as C1'.
  wp_step. eapply wp_mono.
  { apply (wp_share_vspace ps (Z.to_nat NUM_LEVELS + m) t a k2 (t_vspace src) vs_s); try done;
      [apply C1'|by repeat constructor|by eapply memory_same_alloc]. }
  intros [] [t3 [a3 k3]] (Et3 & Ea3 & HA3 & V3 & G3 & F3). cbn [fst snd] in *. subst t3 a3.
  pose proof (task_ok_grows_nowhere _ _ _ _ _ _ G3 C1') as C1''.
  apply (wp_shared_page ps vs_s src (set_vspace (slots_start a) t) m); try done.
  { destruct C1'' as [K1 K3 K4 K5]. split; cbn; try done. unfold alloc_range. cbn. lia. }
  intros c f t4 a4 k4 (pts & ->) G4 HA4 F4 Hf V4 U4. wp_step. wp_step. cbn [fst snd].
  inversion_clear F4 as [|? ? F1 HF4']. inversion_clear HF4' as [|? ? F2 HF4''].
  inversion_clear HF4'' as [|? ? F3' _]. simpl in F1, F2, F3'.
  eapply wp_mono; [by apply (wp_start_clone src _ ep badge args a4 k4 ctx run cctx c f 2 vs_s)|].
  intros r [t5 [a5 k5]] (-> & Et5 & Ea5 & M5 & Hregs). cbn [fst snd] in *. subst t5 a5.
  split; [done|]. split; [|by eapply memory_same_alloc].
  assert (copies vs_s a (bump a) k2 k3) as K3 by (by eapply grows_copies).
  pose proof K3 as (_ & He3 & _).
  assert (copies vs_s (bump a) a4 k3 k4) as K4.
  { eapply grows_copies; [exact G4|done|]. intros Hr. apply Hz. unfold alloc_range in *. cbn in *. lia. }
  pose proof K4 as (_ & He4 & _). split; try done.
  - do 3 (eapply copies_trans; [done|eassumption|]). by apply same_copies.
  - destruct M5 as (_ & _ & D5). rewrite (kd_vs _ _ _ _ _ D5) by by intros []. exact V4.
  - by exists c.
  - intros x. rewrite (same_user _ _ _ _ M5), U4. unfold in_ipc_page.
    rewrite (grows_user vs_s src a _ k2 k3 x G3 C1'). by rewrite (same_user _ _ _ _ M).
Qed.
End clone_vm.

(** A write of memory whose first page the task has not recorded never ends. *)
Lemma write_unrecorded_hangs `{K : Sel4} `{MA : MemoryAddr} seat t buf count out k :
  t_mapped_page t !! align_bits buf 12 = None -> 0 < count ->
  forall fuel, task_write seat fuel t STDOUT_FD buf count (out, k) = NoFuel.
Proof.
  intros Hn Hc fuel. unfold task_write, mbind, M_bind. simpl.
  assert (forall p, sys_write_loop seat fuel t buf count p (out, k) = NoFuel) as HL; [|by rewrite HL].
  induction fuel as [|fuel IH]; intros p; cbn [sys_write_loop]; [done|].
  rewrite Hn. destruct (Z.gtb_spec count 0); [|lia]. apply IH.
Qed.


(** The thread cannot write what it shares: for a buffer that does not begin in the
    page of its IPC buffer, mapped or not, [sys_write] never ends. *)
Lemma thread_write_hangs `{K : Sel4} `{MI : MessageInfoApi} `{MA : MemoryAddr} `{KE : !KEnv} s id t ipc buf count :
  kt_tasks s !! id = Some t -> t_mapped_page t = {[IPC_BUFFER_ADDR := ipc]} ->
  down 4096 buf <> IPC_BUFFER_ADDR -> 0 < count ->
  forall fuel, sys_write fuel id STDOUT_FD buf count s = NoFuel.
Proof.
  intros Ht Hp Hb Hc fuel. unfold sys_write, get_task, on_console, mbind, M_bind, zoom. rewrite Ht. simpl.
  rewrite write_unrecorded_hangs; [done| |done]. rewrite Hp, align_bits_12. by apply lookup_singleton_ne.
Qed.

(** ** Witness *)

(** The arguments of the shim: its thread function and a stack. *)
Definition ref_kenv_vm : @KEnv ref_sel4 packed_message_info :=
  @Build_KEnv ref_sel4 packed_message_info 0x7000 0x8000 (ref_reply 0) 32 (fun _ _ => 0) 0x9000 0x9000 (fun _ => 0)
    (fun _ _ => 0) 56 (fun _ => MkCloneArgs 0x5000 0x100 0 0 0 0x200040 0) None None None None (fun _ => 0).

