(* ===== verification/Child.v ===== *)
(** * The first task ([test_child] of [crates/kernel-thread/src/child_test.rs])

    The set-up of [test_child] puts the pieces together: a new task, a
    capability of its own thread and a badged endpoint in its CSpace, the ELF
    file, the stack, the IPC buffer, its registers, and a place in the task
    map. *)

From S2P Require Import Prelude Words Consts Sel4 Sel4Laws RefKernel Externs Reference Messages Uspace ObjAllocator KTask FrameMem UserMem Exec ElfLoad ImageMap KThread NetClient Syscalls KInv Clone Threads Fork.

(** ** Loading keeps threads and CNodes *)

Section keep.
Context `{L : Sel4Laws} `{TH : !ThreadLaws} (seat : Z) (p : thread_fact) (Hp : fact_cap p <> 0).

Lemma keeps_push_num sp n : keeps p (push_num seat sp n).
Proof.
  unfold push_num. apply preserves_bind; [by apply keeps_store_bytes|intros; apply preserves_ret].
Qed.

Lemma keeps_push_all nums : forall sp, keeps p (push_all seat nums sp).
Proof.
  induction nums as [|n nums IH]; intros sp; simpl; [apply preserves_ret|].
  apply preserves_bind; [apply keeps_push_num|apply IH].
Qed.

Lemma keeps_copy_args args : forall sp, keeps p (copy_args seat args sp).
Proof.
  induction args as [|arg args IH]; intros sp; simpl; [apply preserves_ret|].
  apply preserves_bind; [by apply keeps_store_bytes|intros _].
  apply preserves_bind; [apply IH|intros; apply preserves_ret].
Qed.

Lemma keeps_write_stack entry_point args sp : keeps p (write_stack seat entry_point args sp).
Proof.
  unfold write_stack. apply preserves_bind; [apply keeps_copy_args|intros [ptrs sp1]].
  apply preserves_bind; [apply keeps_lift|intros x].
  apply preserves_bind; [apply keeps_push_all|intros sp2].
  do 2 (apply preserves_bind; [apply keeps_push_num|intros ?]).
  apply preserves_bind; [apply keeps_push_all|intros ?; apply keeps_push_num].
Qed.

Lemma keepsT_map_stack entry_point start end_ args : keepsT p (map_stack seat entry_point start end_ args).
Proof.
  assert (forall pages sp, keepsT p (map_stack_loop seat pages end_ entry_point args sp)) as HL.
  { induction pages as [|va pages IH]; intros sp; cbn [map_stack_loop]; [apply preserves_ret|].
    apply preserves_bind; [by apply keepsT_alloc, keepsA_allocate|intros c].
    apply preserves_bind; [|intros sp'; apply preserves_bind; [by apply keepsT_map_page|intros _; apply IH]].
    case_match; [|apply preserves_ret]. apply keepsT_kernel.
    apply preserves_bind; [by apply keeps_frame_map|intros _].
    apply preserves_bind; [apply keeps_write_stack|intros sp'].
    apply preserves_bind; [by apply keeps_frame_unmap|intros _; apply preserves_ret]. }
  unfold map_stack. do 2 (apply preserves_bind; [intros s [] s' HI E; unfold assert in E; case_match; [by injection E as <-|done]|intros _]).
  apply HL.
Qed.

Lemma keepsT_load_elf elf parsed : keepsT p (load_elf seat elf parsed).
Proof.
  assert (forall fuel e ve o v local, keepsT p (load_segment_loop seat fuel elf e ve o v local)) as HL.
  { induction fuel as [|fuel IH]; intros e ve o v local; cbn [load_segment_loop]; [by intros ? ? ? ? ?|].
    case_match; [|apply preserves_ret]. apply preserves_bind; [|intros c].
    { case_match; [|by apply keepsT_alloc, keepsA_allocate].
      apply preserves_bind; [by apply keepsT_kernel, keeps_frame_unmap|intros _; apply preserves_ret]. }
    apply preserves_bind; [|intros o'; apply preserves_bind; [by apply keepsT_map_page|intros _; apply IH]].
    case_match; [|apply preserves_ret].
    apply preserves_bind; [apply keepsT_kernel|intros _; apply preserves_ret].
    apply preserves_bind; [by apply keeps_frame_map|intros _].
    apply preserves_bind; [by apply keeps_store_bytes|intros _]. by apply keeps_frame_unmap. }
  unfold load_elf. apply preserves_bind; [intros s x s' HI [_ ->]%unwrap_inv; done|intros phs].
  generalize (filter (fun ph => ph_load ph = true) phs) (∅ : gmap Z CPtr). intros l.
  induction l as [|ph l IH]; intros local; simpl; [apply preserves_ret|].
  apply preserves_bind; [apply HL|apply IH].
Qed.
End keep.

(** ** The memory of the new task *)

Definition CHILD_STACK_START : Z := USPACE_STACK_TOP - 16 * PAGE_SIZE.
Definition in_child_stack (x : Z) : Prop := CHILD_STACK_START <= x < USPACE_STACK_TOP.
#[global] Instance in_child_stack_dec x : Decision (in_child_stack x).
Proof. unfold in_child_stack. apply _. Defined.

(** What [map_stack] writes for the child: its words and strings. *)
Definition child_stack_image : list Z :=
  let lay := args_layout CHILD_ARGS 4096 [] in
  word_bytes (stack_words 0 ((fun p => USPACE_STACK_TOP - 4096 + p) <$> lay.1.1)) ++ lay.2.
Definition child_sp : Z := USPACE_STACK_TOP - Z.of_nat (length child_stack_image).

Lemma child_args_fit : stack_fits CHILD_ARGS.
Proof. vm_compute. discriminate. Qed.

Lemma child_sp_eq : child_sp =
  USPACE_STACK_TOP - 4096 + ((args_layout CHILD_ARGS 4096 []).1.2 - 8 * Z.of_nat (19 + length CHILD_ARGS)).
Proof. vm_compute. reflexivity. Qed.

Section child.
Context `{L : Sel4Laws} `{TH : !ThreadLaws} `{MI : MessageInfoApi} `{KE : !KEnv}.

(** The image of the embedded program. *)
Definition child_image (phs : list ProgramHeader) : Z -> option Z :=
  elf_byte test_mem (filter is_load phs) None.

(** The byte of the child at [x]: the IPC buffer, the stack, the program. *)
Definition child_byte (phs : list ProgramHeader) (file : ElfInfo) (x : Z) : option Z :=
  if decide (down 4096 x = ipc_buffer_addr_of file) then Some 0
  else if decide (in_child_stack x) then
    if decide (x < child_sp) then Some 0 else child_stack_image !! Z.to_nat (x - child_sp)
  else child_image phs x.

(** The embedded program leaves room for the stack and for the IPC buffer. *)
Record child_fits (phs : list ProgramHeader) (file : ElfInfo) : Prop := {
  cf_phs : test_phs = Some phs;
  cf_file : test_elf = Some file;
  cf_headers : Forall ph_ok (filter is_load phs);
  cf_stack x : in_child_stack x -> child_image phs x = None;
  cf_ipc : child_image phs (ipc_buffer_addr_of file) = None;
  cf_ipc_range : 0 <= ipc_buffer_addr_of file < 2 ^ 48;
  cf_ipc_stack : ~ in_child_stack (ipc_buffer_addr_of file);
}.

Lemma ipc_buffer_aligned file : page_aligned (ipc_buffer_addr_of file).
Proof. unfold ipc_buffer_addr_of, page_aligned. apply Z.mod_mul. lia. Qed.

(** The number of allocations of the program and the stack. *)
Definition child_pages (phs : list ProgramHeader) : nat :=
  (elf_pages (filter is_load phs) + length (step_range 4096 CHILD_STACK_START USPACE_STACK_TOP))%nat.

(** The program and the stack are in place. *)
Record child_loaded (ps : list thread_fact) (phs : list ProgramHeader) (vs : VS) (t : Sel4Task)
    (a : ObjectAllocator) (k : kstate) (m : nat) (s' : TK) : Prop := {
  cd_task : exists mp pts, s'.1 = set_mapped_page mp (set_mapped_pt pts t);
  cd_grows : grows vs (fun _ => True) a s'.2.1 k s'.2.2;
  cd_ok : task_ok vs s'.1 s'.2.1 s'.2.2;
  cd_alloc : alloc_ok m s'.2;
  cd_facts : facts ps s'.2.2;
  cd_bytes x : user_byte s'.2.2 vs x =
    if decide (in_child_stack x) then
      if decide (x < child_sp) then Some 0 else child_stack_image !! Z.to_nat (x - child_sp)
    else child_image phs x;
}.

Lemma wp_child_memory {B} ps phs file vs t a k m (rest : ElfInfo -> Z -> M TK B) Q :
  child_fits phs file -> task_ok vs t a k -> vs <> own_vs -> t_mapped_page t = ∅ ->
  seat_free page_seat k -> ~ alloc_range a SLOT_VSPACE ->
  facts ps k -> Forall (fun p => fact_cap p <> 0) ps ->
  alloc_ok (child_pages phs * Z.to_nat NUM_LEVELS + m) (a, k) ->
  (forall s', child_loaded ps phs vs t a k m s' -> wp (rest file child_sp) Q s') ->
  wp (load_elf page_seat test_mem test_phs ;;
      file ← unwrap test_elf;
      sp ← map_stack page_seat 0 (USPACE_STACK_TOP - 16 * PAGE_SIZE) USPACE_STACK_TOP CHILD_ARGS;
      rest file sp) Q (t, (a, k)).
Proof.
  intros [F1 F2 F3 F4 F5 F6 F7] Hok Hown Hempty HS Hslot HF Hps HA HQ.
  set (n2 := (length (step_range 4096 CHILD_STACK_START USPACE_STACK_TOP) * Z.to_nat NUM_LEVELS + m)%nat).
  rewrite F1, F2. wp_step. eapply wp_mono.
  { apply (wp_preserves (fun s => facts ps s.2.2)); [|done|].
    - apply keeps_facts. eapply Forall_impl; [exact Hps|]. intros p Hp. by apply keepsT_load_elf.
    - apply (wp_load_elf page_seat vs t a k Hown Hslot test_mem phs n2); try done.
      eapply alloc_ok_le, HA. unfold n2, child_pages. lia. }
  intros [] [t1 [a1 k1]] [(local & HE & HA1) HF1]. cbn [fst snd] in *.
  wp_step. apply wp_unwrap. wp_step.
  pose proof (elf_vspace_slot _ _ _ _ _ Hslot _ _ _ _ _ HE) as Hslot1.
  destruct HE as [(pts & E1) E2 E3 E4 E5 E6 E7 E8].
  change (USPACE_STACK_TOP - 16 * PAGE_SIZE) with CHILD_STACK_START.
  eapply wp_mono.
  { apply (wp_preserves (fun s => facts ps s.2.2)); [|done|].
    - apply keeps_facts. eapply Forall_impl; [exact Hps|]. intros p Hp. by apply keepsT_map_stack.
    - apply (wp_map_stack page_seat USPACE_STACK_TOP eq_refl ltac:(vm_compute; intuition discriminate)
        vs 0 CHILD_ARGS CHILD_STACK_START m t1 a1 k1); try done.
      intros va Hva. destruct (t_mapped_page t1 !! va) as [c|] eqn:Ec; [|done].
      destruct (to_page _ _ _ _ E2 va c Ec) as (Hal & _ & _ & _ & f & _ & Ht).
      pose proof (E8 va) as Hb. unfold user_byte in Hb. rewrite (down_aligned 4096 va Hal), Ht in Hb.
      simpl in Hb. pose proof (F4 va Hva) as Hn. unfold child_image in Hn. congruence. }
  intros sp s' [(Esp & R) HF2]. rewrite <- child_sp_eq in Esp. subst sp.
  change (stack_ready vs t1 a1 k1 CHILD_STACK_START USPACE_STACK_TOP child_stack_image m child_sp s') in R.
  apply HQ. destruct R as [R1 (mp & pts' & R2) R3 R4 R5 R6 R7]. split; try done.
  - rewrite R2, E1. by eexists _, _.
  - eapply grows_trans; [exact E3|]. eapply grows_weaken, R3. done.
  - intros x. rewrite R7, E8. done.
Qed.

(** ** The set-up *)

(** The context the child starts in. *)
Definition child_ctx (ep : CPtr) (file : ElfInfo) : UserContext :=
  MkCtx (elf_entry file) child_sp {[0 := ep]} (default 0 (elf_tbss file)).

(** The child after [child_setup]. *)
Record child_running (ep : CPtr) (phs : list ProgramHeader) (file : ElfInfo) (vs : VS) (t t' : Sel4Task)
    (a a' : ObjectAllocator) (k k' : kstate) : Prop := {
  cr_copies : copies vs a a' k k';
  cr_ok : task_ok vs t' a' k';
  cr_tcb : t_tcb t' = t_tcb t;
  cr_regs : tcb_state k' (t_tcb t) = Some (child_ctx ep file, true);
  cr_bytes x : user_byte k' vs x = child_byte phs file x;
}.

(** The last part: configure, registers, resume. *)
Lemma wp_start_thread t ep a k cctx ipc f va vs ctx i :
  tcb_state k (t_tcb t) = Some (cctx, false) -> cslot_free k (t_cnode t) i = true ->
  cap_vs k (t_vspace t) = Some vs -> cap_frame k ipc = Some f -> page_aligned va -> 255 <= own_mcp ->
  wp (or_drop_err (tcb_configure (t_tcb t) ep (t_cnode t)
        (cnode_cap_data 0 (SEL4_WORD_BITS - CNODE_RADIX_BITS)) (t_vspace t) va ipc) (
      or_drop_err (tcb_set_sched_params (t_tcb t) SLOT_TCB 0 255) (
      t_kernel (kcall_unwrap (tcb_write_all_registers (t_tcb t) false ctx)) ;;
      t_kernel (kcall_unwrap (tcb_resume (t_tcb t))) ;;
      mret (Ok tt))))
     (fun r s' => r = Ok tt /\ s'.1 = t /\ s'.2.1 = a /\ memory_same k s'.2.2 /\
        tcb_state s'.2.2 (t_tcb t) = Some (ctx, true)) (t, (a, k)).
Proof.
  intros Ht Hc Hv Hf Hal Hm.
  destruct (launch_ok k (t_tcb t) cctx ep (t_cnode t) i
    (cnode_cap_data 0 (SEL4_WORD_BITS - CNODE_RADIX_BITS)) (t_vspace t) vs va ipc f ctx
    Ht Hc Hv Hf Hal Hm) as (k1 & k2 & k3 & k4 & E1 & E2 & E3 & E4 & HM & T4 & _).
  unfold or_drop_err, t_kernel. wp_step. wp_step. simpl. apply wp_kcall. rewrite E1. simpl.
  wp_step. wp_step. simpl. apply wp_kcall. rewrite E2. simpl.
  wp_step. wp_step. simpl. eapply wp_kcall_unwrap; [exact E3|]. simpl.
  wp_step. wp_step. simpl. eapply wp_kcall_unwrap; [exact E4|]. simpl. by wp_step.
Qed.

(** The capabilities in the child's CSpace, and what follows. *)
Lemma wp_child_caps vs t a k ep (rest : M TK (result unit Error)) Q :
  blank vs t a k -> slot_empty k ep = false ->
  (forall k', memory_same k k' -> (forall c, tcb_state k' c = tcb_state k c) ->
     cslot_free k' (t_cnode t) 2 = true -> wp rest Q (t, (a, k'))) ->
  wp (t_kernel (kcall_unwrap (cnode_copy (relative_bits_with_depth (t_cnode t) 1 CNODE_RADIX_BITS)
        (relative SLOT_CNODE (t_tcb t)) rights_all)) ;;
      or_drop_err (cnode_mint
        (relative_bits_with_depth (t_cnode t) DEFAULT_THREAD_FAULT_EP CNODE_RADIX_BITS)
        (relative SLOT_CNODE ep) rights_all (t_id t)) rest) Q (t, (a, k)).
Proof.
  intros [B1 B2 B3 [cctx B4] B5 B6 [B7 B8]] Hep HQ.
  destruct (cslot_copy_ok k (t_cnode t) 1 (t_tcb t) rights_all) as (k1 & E1 & M1 & T1 & S1);
    [done|by apply B6|by eapply tcb_not_empty|].
  destruct (cslot_mint_ok k1 (t_cnode t) DEFAULT_THREAD_FAULT_EP ep rights_all (t_id t))
    as (k2 & E2 & M2 & T2 & S2); [done|by rewrite S1; [apply B6|]|by rewrite (same_empty _ _ _ M1)|].
  wp_step. unfold t_kernel at 1. wp_step. simpl. eapply wp_kcall_unwrap; [exact E1|]. simpl.
  unfold or_drop_err, t_kernel. wp_step. wp_step. simpl. apply wp_kcall. rewrite E2. simpl.
  apply HQ; [by eapply memory_same_trans|intros c; by rewrite T2, T1|].
  rewrite S2, S1 by done. by apply B6.
Qed.

Lemma wp_child_setup ep phs file vs t a k m :
  child_fits phs file -> blank vs t a k -> slot_empty k ep = false ->
  seat_ok page_seat a k -> 255 <= own_mcp ->
  alloc_ok (child_pages phs * Z.to_nat NUM_LEVELS + (Z.to_nat NUM_LEVELS + m)) (a, k) ->
  wp (child_setup ep) (fun r s' => r = Ok tt /\ alloc_ok m s'.2 /\
    child_running ep phs file vs t s'.1 a s'.2.1 k s'.2.2) (t, (a, k)).
Proof.
  intros HF HB Hep HS Hmcp HA. pose proof HB as [B1 B2 B3 [cctx B4] B5 B6 [B7 B8]].
  destruct HS as [HS1 HS2 He HS4]. pose proof HF as [_ _ _ _ F5 F6 F7].
  assert (t_tcb t <> 0) as Hnz by (intros E; rewrite E in B4; apply tcb_not_empty in B4; congruence).
  unfold child_setup. wp_step. wp_step. cbn [fst snd].
  apply (wp_child_caps vs); [done|done|]. intros k2 M2 T2 S2.
  set (ps := [FTcb (t_tcb t) (cctx, false); FSlot (t_cnode t) 2]).
  apply (wp_child_memory ps phs file vs t a k2 (Z.to_nat NUM_LEVELS + m)); try done.
  { by eapply same_task. }
  { destruct M2 as (_ & _ & D). eapply seat_free_kdiff; [exact HS1|exact D|by intros []|].
    rewrite (kd_trans _ _ _ _ _ D) by by intros []. apply HS1. }
  { repeat constructor; simpl; [by rewrite T2|done]. }
  { by repeat constructor. }
  { by eapply memory_same_alloc. }
  intros [t3 [a3 k3]] [(mp & pts & C1) C2 C3 C4 C5 C6]. cbn [fst snd] in *.
  pose proof (ipc_buffer_aligned file) as Hal.
  apply (wp_new_page_keeps ps vs m); try done; [|by repeat constructor|].
  { destruct (t_mapped_page t3 !! _) as [c|] eqn:Ec; [|done].
    destruct (to_page _ _ _ _ C3 _ c Ec) as (_ & _ & _ & _ & f & _ & Ht).
    specialize (C6 (ipc_buffer_addr_of file)). unfold user_byte in C6.
    rewrite (down_aligned _ _ Hal), Ht, decide_False, F5 in C6 by done. done. }
  intros ipc [t4 [a4 k4]] PA HA4 Hipc HF4. cbn [fst snd] in *.
  pose proof (pa_ok _ _ _ _ _ _ PA) as Hok4. cbn [fst snd] in Hok4.
  destruct (to_page _ _ _ _ Hok4 _ _ Hipc) as (_ & _ & _ & _ & f & Hf & _).
  destruct (pa_task _ _ _ _ _ _ PA) as (mp' & pts' & Et4). cbn [fst] in Et4.
  assert (t_tcb t4 = t_tcb t /\ t_cnode t4 = t_cnode t /\ t_vspace t4 = t_vspace t) as (Et & Ec & Ev)
    by (by subst t4 t3).
  inversion_clear HF4 as [|? ? F1 HF4']. inversion_clear HF4' as [|? ? F2 _]. simpl in F1, F2.
  rewrite <- Et in F1 |- *. rewrite <- Ec in F2 |- *. rewrite <- Ev.
  eapply wp_mono.
  { apply (wp_start_thread t4 ep a4 k4 cctx ipc f (ipc_buffer_addr_of file) vs (child_ctx ep file) 2);
      try done. apply Hok4. }
  intros r [t5 [a5 k5]] (-> & E5 & Ea & M5 & Hregs). cbn [fst snd] in *. subst t5 a5.
  split; [done|]. split; [by eapply memory_same_alloc|].
  assert (copies vs a a4 k k4) as K4.
  { eapply copies_trans; [done|by apply same_copies|].
    eapply grows_copies; [|by rewrite (same_empty _ _ _ M2)|done].
    eapply grows_trans; [exact C2|]. eapply grows_weaken, (pa_grows _ _ _ _ _ _ PA). done. }
  pose proof K4 as (_ & He4 & _). split; try done.
  - eapply copies_trans; [done|exact K4|]. by apply same_copies.
  - by eapply same_task.
  - by rewrite Et in Hregs.
  - intros x. rewrite (same_user _ _ _ _ M5).
    pose proof (pages_added_user vs [ipc_buffer_addr_of file] t3 a3 k3 (t4, (a4, k4)) x C3 PA) as Hu.
    cbn [snd] in Hu. rewrite Hu by (by intros y ->%list_elem_of_singleton). unfold child_byte.
    destruct (decide (down 4096 x = ipc_buffer_addr_of file)) as [Ex|Ex].
    + rewrite (decide_True (P := _ ∈ _)) by (rewrite Ex; left).
      assert (user_byte k3 vs x = None) as ->; [|done].
      specialize (C6 (ipc_buffer_addr_of file)). unfold user_byte in *.
      rewrite (down_aligned _ _ Hal), decide_False, F5 in C6 by done. rewrite Ex.
      by destruct (translate k3 vs (ipc_buffer_addr_of file)).
    + rewrite (decide_False (P := _ ∈ _)) by (by rewrite list_elem_of_singleton). rewrite C6.
      by repeat case_match.
Qed.

(** [s'] is [s] with the child: a new task with the next id in an address space
    of its own that holds the embedded program, the stack with the arguments and
    the IPC buffer; its thread runs from the entry point. *)
Record child_started (asp : Z -> VS) (ep : CPtr) (phs : list ProgramHeader) (file : ElfInfo) (s s' : KT)
    (vs : VS) (t' : Sel4Task) : Prop := {
  cs_tasks : kt_tasks s' = <[kt_next_id s := t']> (kt_tasks s);
  cs_ok : kt_ok page_seat (asp_add (kt_next_id s) vs asp) s';
  cs_regs : tcb_state (kt_kernel s') (t_tcb t') = Some (child_ctx ep file, true);
  cs_bytes x : user_byte (kt_kernel s') vs x = child_byte phs file x;
  cs_others b x : is_Some (kt_tasks s !! b) ->
    user_byte (kt_kernel s') (asp b) x = user_byte (kt_kernel s) (asp b) x;
  cs_next : kt_next_id s' = wrap64 (kt_next_id s + 1);
  cs_ipc : kt_ipc s' = kt_ipc s;
  cs_console : kt_console s' = kt_console s;
}.

(** [new_task] in the state of the kernel thread. *)
Lemma wp_kt_new_task m asp s :
  kt_ok page_seat asp s -> asid_room (kt_kernel s) <> 0%nat -> alloc_ok (3 + m) (kt_ak s) ->
  slot_empty (kt_kernel s) SLOT_CNODE = false ->
  wp new_task (fun t s1 => exists vs, t_id t = kt_next_id s /\
     s1 = set_next_id (wrap64 (kt_next_id s + 1)) (set_ak (kt_ak s1) s) /\
     (forall b, is_Some (kt_tasks s !! b) -> asp b <> vs) /\
     copies vs (kt_ak s).1 (kt_ak s1).1 (kt_ak s).2 (kt_ak s1).2 /\
     blank vs t (kt_ak s1).1 (kt_ak s1).2 /\ alloc_ok m (kt_ak s1)) s.
Proof.
  intros HK Hroom HA Hcn. destruct s as [tasks [a k] id ipc con sent].
  unfold kt_kernel in *. cbn [kt_tasks kt_ak kt_next_id fst snd] in *.
  destruct (ko_seat _ _ _ HK) as [_ _ Hz Hz']. cbn [kt_ak fst snd] in *.
  destruct (wp_new_task id m a k HA Hroom) as ([n id'] & [a2 k2] & E2 & Eid & HA2 & vs & F).
  cbn [fst snd] in *. subst id'. eexists _, _. split.
  { unfold new_task, on_alloc, mbind, M_bind, zoom, gets, modify. cbn. rewrite E2. cbn. reflexivity. }
  cbn [fst snd kt_ak kt_next_id kt_tasks]. exists vs. split_and!; try done.
  - by rewrite (ft_task _ _ _ _ _ _ F).
  - intros b [tb Hb] <-. destruct (ko_task _ _ _ HK b tb Hb) as [[Hv _ _ _] _].
    by apply (ft_new _ _ _ _ _ _ F (t_vspace tb)).
  - by eapply grows_copies; [exact (ft_grows _ _ _ _ _ _ F vs)|..].
  - eapply fresh_blank; [exact F|exact HA|lia|done].
Qed.
Lemma wp_start_child m asp ep phs file s :
  kt_ok page_seat asp s -> windows_ok (kt_ak s).1 (kt_ak s).2 -> child_fits phs file ->
  kt_tasks s !! kt_next_id s = None -> slot_used (kt_ak s).1 (kt_kernel s) ep ->
  slot_empty (kt_kernel s) SLOT_CNODE = false -> 255 <= own_mcp -> asid_room (kt_kernel s) <> 0%nat ->
  alloc_ok (3 + (child_pages phs * Z.to_nat NUM_LEVELS + (Z.to_nat NUM_LEVELS + m))) (kt_ak s) ->
  wp (start_child ep)
     (fun r s' => r = Ok tt /\ alloc_ok m (kt_ak s') /\
        exists vs t', child_started asp ep phs file s s' vs t') s.
Proof.
  intros Hinv Hwin Hfits Hnew Hep Hcnode Hprio Hasid Halloc.
  pose proof (so_zero _ _ _ (ko_seat _ _ _ Hinv)) as Hz.
  unfold start_child. wp_step.
  eapply wp_mono; [apply (wp_kt_new_task _ asp s Hinv Hasid Halloc Hcnode)|].
  intros n s2 (vs & Eid & Es & Hvs & HC & HB & HA).
  wp_step. apply wp_on_local. rewrite (surjective_pairing (kt_ak s2)).
  eapply wp_mono; [apply (wp_child_setup ep phs file vs n _ _ m Hfits HB); try done|].
  { by apply (copies_used vs _ _ _ _ _ HC Hz). }
  { apply (wo_seat _ _ (copies_windows _ _ _ _ _ (bl_own _ _ _ _ HB) HC Hwin)). }
  { by rewrite <- surjective_pairing. }
  intros r [t' [a' k']] (-> & HA' & [C1 C2 C3 C4 C5]). cbn [fst snd] in *.
  assert (kt_tasks s2 = kt_tasks s) as Et by (by rewrite Es).
  wp_step. unfold insert_task. wp_step. wp_step. cbn. rewrite Et, Eid, Hnew.
  wp_step. wp_step. wp_step. wp_step. split; [done|]. split; [done|]. exists vs, t'.
  assert (copies vs (kt_ak s).1 a' (kt_ak s).2 k') as HCC by (eapply copies_trans; [done|exact HC|done]).
  split; cbn.
  - by rewrite Et.
  - eapply (kt_ok_insert asp s _ vs t' a' k'); try done; [apply HB|cbn; by rewrite Et].
  - by rewrite C3.
  - done.
  - intros b x [tb Hb]. eapply (copies_user vs); [by apply Hvs; eexists|done|exact HCC|].
    apply (ko_task _ _ _ Hinv b tb Hb).
  - by rewrite Es.
  - by rewrite Es.
  - by rewrite Es.
Qed.

End child.


(** ** Witness *)

#[local] Existing Instances ref_sel4 packed_message_info ref_kenv.

Definition ref_child_phs : list ProgramHeader := [MkPh true 0 0x200000 3 16].
Definition ref_child_elf : ElfInfo := MkElf 0x200000 [(0x200000, 0x100)] None.

Lemma ref_child_fits : @child_fits ref_sel4 packed_message_info ref_kenv ref_child_phs ref_child_elf.
Proof.
  assert (forall x, in_child_stack x \/ x = 0x201000 ->
    @child_image ref_sel4 packed_message_info ref_kenv ref_child_phs x = None) as HN.
  { intros x Hx. unfold child_image, elf_byte, ph_byte, segment_byte, on_pages. simpl.
    assert (0x201000 <= x) as Hge.
    { destruct Hx as [[Hx _]| ->]; [|lia]. unfold CHILD_STACK_START, USPACE_STACK_TOP in Hx.
      rewrite PAGE_SIZE_eq in Hx. lia. }
    change (up 4096 (0x200000 + 16)) with 0x201000.
    repeat match goal with |- context [x <? ?b] => rewrite (proj2 (Z.ltb_ge x b)) by lia end.
    by rewrite !andb_false_r. }
  split; try reflexivity; auto.
  - repeat constructor; vm_compute; intuition discriminate.
  - vm_compute. intuition discriminate.
  - intros [H1 _]. vm_compute in H1. done.
Qed.

