(* ===== verification/Typing.v ===== *)
(** * Machine types of the kernel thread's state

    The model keeps [u64], [usize], [i32] and byte values as integers.  This
    file shows that the service loop respects their widths: started in a state
    whose fields are values of their Rust types, on messages of machine words,
    it ends in such a state and replies with machine words.  The external crates
    and the kernel return values of the types they declare. *)

From S2P Require Import Prelude Words Consts Sel4 Sel4Laws RefKernel Externs Reference Messages Uspace ObjAllocator KTask UserMem Exec ImageMap KThread NetClient Syscalls KInv Clone.

(** ** Computations that respect an invariant *)

(** Whenever [m] returns, from a state in [I], the state is in [I] again and the
    result in [P]. *)
Definition returns {S A} (I : S -> Prop) (P : A -> Prop) (m : M S A) : Prop :=
  forall s x s', I s -> m s = Ret (x, s') -> I s' /\ P x.

Notation any := (fun _ => True).

Section returns.
Context {S : Type} (I : S -> Prop).

Lemma returns_ret {A} (P : A -> Prop) x : P x -> returns I P (mret x).
Proof. intros HP s y s' HI [= <- <-]. done. Qed.

Lemma returns_bind {A B} (P : A -> Prop) (Q : B -> Prop) (m : M S A) (f : A -> M S B) :
  returns I P m -> (forall x, P x -> returns I Q (f x)) -> returns I Q (mbind f m).
Proof.
  intros Hm Hf s y s' HI (x & s1 & E1 & E2)%bind_inv.
  destruct (Hm _ _ _ HI E1) as [HI1 HP]. by eapply Hf.
Qed.

Lemma returns_panic {A} (P : A -> Prop) p : returns I P (panic_with p).
Proof. by intros s x s' _ ?. Qed.

Lemma returns_fuel {A} (P : A -> Prop) : returns I P out_of_fuel.
Proof. by intros s x s' _ ?. Qed.

Lemma returns_lift {A} (P : A -> Prop) (o : outcome A) :
  (forall x, o = Ret x -> P x) -> returns I P (lift o).
Proof. intros HP s x s' HI. unfold lift. destruct o; try done. intros [= -> ->]. auto. Qed.

Lemma returns_gets {A} (P : A -> Prop) (f : S -> A) :
  (forall s, I s -> P (f s)) -> returns I P (gets f).
Proof. intros HP s x s' HI [= <- <-]. auto. Qed.

Lemma returns_modify (f : S -> S) : (forall s, I s -> I (f s)) -> returns I any (modify f).
Proof. intros HP s x s' HI [= <- <-]. auto. Qed.

Lemma returns_unwrap {A} (P : A -> Prop) (o : option A) :
  (forall x, o = Some x -> P x) -> returns I P (unwrap o).
Proof. intros HP s x s' HI [-> ->]%unwrap_inv. auto. Qed.

Lemma returns_assert b : returns I any (assert b).
Proof. intros s [] s' HI E. unfold assert in E. destruct b; [by injection E as <-|done]. Qed.

Lemma returns_mono {A} (P Q : A -> Prop) (m : M S A) :
  returns I P m -> (forall x, P x -> Q x) -> returns I Q m.
Proof. intros Hm HPQ s x s' HI E. destruct (Hm _ _ _ HI E). auto. Qed.

Lemma returns_for_each {A} (P : A -> Prop) (f : A -> M S unit) l :
  Forall P l -> (forall x, P x -> returns I any (f x)) -> returns I any (for_each f l).
Proof.
  intros Hl Hf. induction l as [|x l IH]; simpl; [by apply returns_ret|].
  apply Forall_cons in Hl as [Hx Hl].
  eapply returns_bind; [by apply Hf|intros _ _; by apply IH].
Qed.

Lemma returns_zoom {T A} (J : T -> Prop) (P : A -> Prop) (get : S -> T) (put : T -> S -> S) (m : M T A) :
  (forall s, I s -> J (get s)) -> (forall s t, I s -> J t -> I (put t s)) ->
  returns J P m -> returns I P (zoom get put m).
Proof.
  intros Hg Hput Hm s x s' HI E. unfold zoom in E.
  destruct (m (get s)) as [[y t]| | |] eqn:Em; try done. injection E as <- <-.
  destruct (Hm _ _ _ (Hg _ HI) Em). auto.
Qed.
End returns.

Lemma returns_any {S A} (m : M S A) : returns any any m.
Proof. by intros s x s'. Qed.

(** A step of the computation, with the result's type given. *)
Tactic Notation "tbind" uconstr(P) "as" simple_intropattern(x) simple_intropattern(H) :=
  apply (returns_bind _ P); [|intros x H].
(** A list of values of a type. *)
Ltac typed_list := repeat (apply Forall_cons_2; [assumption|]); apply Forall_nil_2.

Tactic Notation "tskip" := apply (returns_bind _ any); [|intros ? _].

(** ** Types of the state *)

Definition is_i32 (z : Z) : Prop := - 2 ^ 31 <= z < 2 ^ 31.

Lemma as_i32_range z : is_i32 (as_i32 z).
Proof.
  unfold is_i32, as_i32. pose proof (Z.mod_pos_bound z (2 ^ 32) ltac:(lia)).
  destruct (Z.ltb_spec (z mod 2 ^ 32) (2 ^ 31)); lia.
Qed.

Definition ok_u64 (r : result Z Errno) : Prop := match r with Ok v => is_u64 v | Err _ => True end.

Record task_typed (t : Sel4Task) : Prop := {
  tt_pid : is_u64 (t_pid t);
  tt_id : is_u64 (t_id t);
  tt_caps : is_u64 (t_tcb t) /\ is_u64 (t_cnode t) /\ is_u64 (t_vspace t);
  tt_pts : Forall is_u64 (t_mapped_pt t);
  tt_pages : map_Forall (fun va c => is_u64 va /\ is_u64 c) (t_mapped_page t);
  tt_heap : is_u64 (t_heap t);
  tt_exit e : t_exit t = Some e -> is_i32 e;
  tt_tid c : t_clear_child_tid t = Some c -> is_u64 c;
}.

(** The slots of the range are indices of a [usize]. *)
Record alloc_typed (a : ObjectAllocator) : Prop := {
  at_start : 0 <= slots_start a;
  at_end : slots_end a <= 2 ^ 64;
  at_ut : is_u64 (ut a);
}.

Record ipc_typed (b : IpcBuffer) : Prop := {
  it_wf : ipc_wf b;
  it_regs : Forall is_u64 (msg_regs b);
  it_caps : Forall is_u64 (caps_or_badges b);
}.

Record kt_typed `{Sel4} (s : KT) : Prop := {
  ks_tasks : map_Forall (fun b t => is_u64 b /\ task_typed t) (kt_tasks s);
  ks_alloc : alloc_typed (kt_ak s).1;
  ks_next : is_u64 (kt_next_id s);
  ks_ipc : ipc_typed (kt_ipc s);
}.

(** What the declared types of the environment say. *)
Class EnvTyped `{K : Sel4} `{MI : MessageInfoApi} `{MA : MemoryAddr} `{KE : !KEnv} : Prop := {
  et_va_add a n r : va_add a n = Ret r -> is_u64 r;
  et_va_sub a b r : va_sub a b = Ret r -> is_u64 r;
  et_align_down a : is_u64 a -> is_u64 (align_down_4k a);
  et_align_up a : is_u64 a -> is_u64 (align_up_4k a);
  et_page_iter a b l : is_u64 a -> is_u64 b -> page_iter_4k a b = Some l -> Forall is_u64 l;
  et_call ep mi b k : ipc_typed b -> ipc_typed (ke_call ep mi b k).1;
  et_stack_ptr : is_u64 ke_stack_ptr;
  et_heap_ptr : is_u64 ke_heap_ptr;
}.

Lemma is_u64_const z : (0 <=? z) && (z <? 2 ^ 64) = true -> is_u64 z.
Proof. intros [H1 H2]%andb_true_iff. unfold is_u64. lia. Qed.

(** ** Allocation and the kernel *)

Section typing.
Context `{K : Sel4} `{MI : MessageInfoApi} `{MA : MemoryAddr} `{AX : AxErrno}
  `{BF : Bitflags} `{SC : SyscallsCrate} `{KE : !KEnv} `{ET : !EnvTyped}.

Definition ak_typed (s : AK) : Prop := alloc_typed s.1.
Definition tk_typed (s : TK) : Prop := task_typed s.1 /\ alloc_typed s.2.1.

Lemma ret_in_kernel {A} (m : M kstate A) : returns ak_typed any (in_kernel m).
Proof. apply (returns_zoom _ any); [done|done|apply returns_any]. Qed.

Lemma ret_take_slot : returns ak_typed is_u64 take_slot.
Proof.
  intros [a k] c s' [H1 H2 H3] (Hlt & -> & ->)%take_slot_inv. simpl in *.
  split; [split; simpl; [lia|done|done]|unfold is_u64; lia].
Qed.

Lemma ret_allocate_slot : returns ak_typed (fun s => is_u64 s.2) allocate_slot.
Proof.
  unfold allocate_slot. tbind is_u64 as c Hc; [apply ret_take_slot|].
  tskip; [by apply returns_gets|]. tskip; [case_match; [apply ret_in_kernel|by apply returns_ret]|].
  by apply returns_ret.
Qed.

Lemma ret_allocate bp : returns ak_typed is_u64 (allocate_and_retype bp).
Proof.
  unfold allocate_and_retype. tbind (fun s => is_u64 s.2) as [[si ci] raw] Hc; [apply ret_allocate_slot|].
  tskip; [by apply returns_gets|]. tskip; [apply ret_in_kernel|]. by apply returns_ret.
Qed.

Lemma ret_t_kernel {A} (m : M kstate A) : returns tk_typed any (t_kernel m).
Proof. apply (returns_zoom _ any); [done|done|apply returns_any]. Qed.

Lemma ret_t_alloc {A} (P : A -> Prop) (m : M AK A) : returns ak_typed P m -> returns tk_typed P (t_alloc m).
Proof. apply returns_zoom; [by intros s []|intros s t [] ?; by split]. Qed.

Lemma ret_t_modify f : (forall t, task_typed t -> task_typed (f t)) -> returns tk_typed any (t_modify f).
Proof. intros Hf. apply returns_modify. intros s [H1 H2]. split; simpl; auto. Qed.

Lemma ret_on_kernel {A} (m : M kstate A) : returns kt_typed any (on_kernel m).
Proof.
  apply (returns_zoom _ any); [done| |apply returns_any]. by intros s k [H1 H2 H3 H4] _.
Qed.

Lemma ret_on_alloc {A} (P : A -> Prop) (m : M AK A) : returns ak_typed P m -> returns kt_typed P (on_alloc m).
Proof. apply returns_zoom; [by intros s []|]. by intros s k [H1 H2 H3 H4] ?. Qed.

Lemma ret_on_ipc {A} (P : A -> Prop) (m : M IpcBuffer A) : returns ipc_typed P m -> returns kt_typed P (on_ipc m).
Proof. apply returns_zoom; [by intros s []|]. by intros s k [H1 H2 H3 H4] ?. Qed.

(** ** Tasks *)

Lemma typed_set_heap h t : is_u64 h -> task_typed t -> task_typed (set_heap h t).
Proof. intros Hh [T1 T2 T3 T4 T5 T6 T7 T8]. by split. Qed.
Lemma typed_set_exit e t : is_i32 e -> task_typed t -> task_typed (set_exit (Some e) t).
Proof. intros Hh [T1 T2 T3 T4 T5 T6 T7 T8]. split; try done. by intros e' [= <-]. Qed.
Lemma typed_set_tid c t : is_u64 c -> task_typed t -> task_typed (set_clear_child_tid (Some c) t).
Proof. intros Hh [T1 T2 T3 T4 T5 T6 T7 T8]. split; try done. by intros e' [= <-]. Qed.
Lemma typed_set_vspace c t : is_u64 c -> task_typed t -> task_typed (set_vspace c t).
Proof. intros Hh [T1 T2 (? & ? & ?) T4 T5 T6 T7 T8]. by split. Qed.
Lemma typed_set_pages m t :
  map_Forall (fun va c => is_u64 va /\ is_u64 c) m -> task_typed t -> task_typed (set_mapped_page m t).
Proof. intros Hh [T1 T2 T3 T4 T5 T6 T7 T8]. by split. Qed.
Lemma typed_set_pts l t : Forall is_u64 l -> task_typed t -> task_typed (set_mapped_pt l t).
Proof. intros Hh [T1 T2 T3 T4 T5 T6 T7 T8]. by split. Qed.

Lemma ret_map_page va page : is_u64 va -> is_u64 page -> returns tk_typed any (map_page va page).
Proof.
  intros Hv Hp. unfold map_page. tskip; [apply returns_assert|].
  generalize (Z.to_nat NUM_LEVELS). intros n. induction n as [|n IH]; simpl; [by apply returns_ret|].
  tskip; [by apply returns_gets|]. tskip; [apply ret_t_kernel|].
  case_match; [|case_match; try apply returns_panic].
  - apply ret_t_modify. intros t Ht. apply typed_set_pages; [|done].
    apply map_Forall_insert_2; [done|apply Ht].
  - tskip; [|apply IH]. unfold map_table.
    tbind is_u64 as c Hc; [by apply ret_t_alloc, ret_allocate|]. tskip; [apply ret_t_kernel|].
    apply ret_t_modify. intros t Ht. apply typed_set_pts; [|done].
    apply Forall_app. split; [apply Ht|by constructor].
Qed.

Lemma ret_alloc_and_map va : is_u64 va -> returns tk_typed any (alloc_and_map va).
Proof.
  intros Hv. unfold alloc_and_map. tbind is_u64 as c Hc; [by apply ret_t_alloc, ret_allocate|].
  by apply ret_map_page.
Qed.

Lemma ret_unmap_page va page : returns tk_typed any (unmap_page va page).
Proof.
  unfold unmap_page. tskip; [apply returns_assert|]. tskip; [apply ret_t_kernel|].
  case_match; [|apply returns_panic]. apply ret_t_modify. intros t Ht.
  apply typed_set_pages; [|done]. apply map_Forall_delete, Ht.
Qed.

(** ** Memory system calls *)

Lemma step_range_typed a b : is_u64 a -> is_u64 b -> Forall is_u64 (step_range PAGE_SIZE a b).
Proof.
  intros Ha Hb. apply Forall_forall. intros x [Hx _]%elem_of_step_range; [|rewrite PAGE_SIZE_eq; lia].
  unfold is_u64 in *. lia.
Qed.

Lemma ret_task_brk addr : is_u64 addr -> returns tk_typed ok_u64 (task_brk addr).
Proof.
  intros Ha. unfold task_brk. case_match; [by apply returns_ret|].
  tbind is_u64 as h Hh; [apply returns_gets; intros s [Ht _]; apply Ht|]. tskip.
  - case_match; [|by apply returns_ret]. tskip; [|by apply returns_ret]. unfold Sel4Task_brk.
    case_match; [by apply returns_gets|].
    tbind is_u64 as h' Hh'; [apply returns_gets; intros s [Ht _]; apply Ht|].
    tskip; [|by apply returns_ret].
    eapply returns_for_each; [by apply step_range_typed|]. intros x. apply ret_alloc_and_map.
  - tskip; [apply ret_t_modify; intros t; by apply typed_set_heap|].
    apply returns_ret. by apply is_u64_const.
Qed.

Lemma find_free_area_u64 t start size r :
  is_u64 start -> find_free_area t start size = Some r -> is_u64 r.
Proof.
  intros Hs. unfold find_free_area.
  assert (is_u64 (Z.max USPACE_BASE start)) as Hm.
  { unfold is_u64, USPACE_BASE in *. lia. }
  generalize (btree_iter (t_mapped_page t)) as l. revert Hm. generalize (Z.max USPACE_BASE start).
  intros last Hlast l. revert last Hlast. induction l as [|[va c] l IH]; intros last Hlast; simpl.
  - by intros [= <-].
  - case_match; [by intros [= <-]|]. apply IH, wrap64_range.
Qed.

Lemma ret_pages_of start len :
  is_u64 start -> returns tk_typed (Forall is_u64) (pages_of start len).
Proof.
  intros Hs. unfold pages_of. tbind is_u64 as e He; [apply returns_lift; intros r; apply et_va_add|].
  apply returns_unwrap. intros l. apply et_page_iter; [by apply et_align_down|by apply et_align_up].
Qed.

Lemma ret_task_mmap addr len prot flags : is_u64 addr -> returns tk_typed ok_u64 (task_mmap addr len prot flags).
Proof.
  intros Ha. unfold task_mmap. case_match; [|by apply returns_ret]. case_match; [|by apply returns_ret].
  tbind is_u64 as start Hst.
  { case_match; [by apply returns_ret|]. tskip; [by apply returns_gets|].
    apply returns_unwrap. intros r. by apply find_free_area_u64. }
  tbind (Forall is_u64) as pages Hp; [by apply ret_pages_of|].
  tskip; [|by apply returns_ret]. eapply returns_for_each; [exact Hp|]. intros x Hx.
  unfold mmap_page. tskip; [by apply returns_gets|].
  case_match; [by apply returns_ret|by apply ret_alloc_and_map].
Qed.

Lemma ret_task_unmap addr len : is_u64 addr -> returns tk_typed ok_u64 (task_unmap addr len).
Proof.
  intros Ha. unfold task_unmap. tbind (Forall is_u64) as pages Hp; [by apply ret_pages_of|].
  tskip; [|apply returns_ret; by apply is_u64_const]. eapply returns_for_each; [exact Hp|]. intros x Hx.
  unfold unmap_page_if. tskip; [by apply returns_gets|].
  case_match; [apply ret_unmap_page|by apply returns_ret].
Qed.

Lemma ret_task_exit c : is_i32 c -> returns tk_typed ok_u64 (task_exit c).
Proof.
  intros Hc. unfold task_exit. tskip; [apply ret_t_modify; intros t; by apply typed_set_exit|].
  tskip; [by apply returns_gets|]. tskip; [apply ret_t_kernel|]. apply returns_ret. by apply is_u64_const.
Qed.

(** ** Program images *)

Lemma ret_map_stack entry_point start end_ args :
  is_u64 start -> is_u64 end_ -> returns tk_typed any (map_stack page_seat entry_point start end_ args).
Proof.
  intros Hs He. unfold map_stack. tskip; [apply returns_assert|]. tskip; [apply returns_assert|].
  generalize end_ at 3. intros sp. revert sp.
  induction (step_range_typed start end_ Hs He) as [|va l Hva _ IH]; intros sp; cbn [map_stack_loop];
    [by apply returns_ret|].
  tbind is_u64 as c Hc; [by apply ret_t_alloc, ret_allocate|].
  tskip; [case_match; [apply ret_t_kernel|by apply returns_ret]|].
  tskip; [by apply ret_map_page|]. by apply IH.
Qed.

Definition pages_typed (ps : list (CPtr * CapRights)) : Prop := Forall (fun p => is_u64 p.1) ps.

Lemma widen_rights_typed flags n : forall ps from ps',
  pages_typed ps -> widen_rights flags ps from n = Ret ps' -> pages_typed ps'.
Proof.
  induction n as [|n IH]; intros ps from ps' Hps; simpl; [by intros [= <-]|].
  destruct (ps !! from) as [[c r]|] eqn:E; [|done].
  destruct (add_rights r flags) as [r'| | |]; simpl; try done. apply IH.
  apply Forall_insert; [done|]. by apply (Forall_lookup_1 _ _ _ _ Hps E).
Qed.

Lemma ret_map_segments fp segs : forall ps, pages_typed ps ->
  returns ak_typed pages_typed (map_segments false fp SLOT_VSPACE page_seat ps segs).
Proof.
  induction segs as [|seg segs IH]; intros ps Hps; cbn [map_segments]; [by apply returns_ret|].
  tbind pages_typed as ps' Hps'; [|by apply IH]. unfold map_segment.
  do 2 (tskip; [by apply returns_lift|]). tskip; [by apply returns_unwrap|].
  do 4 (tskip; [by apply returns_lift|]).
  tbind pages_typed as ps1 H1; [apply returns_lift; intros r; by apply widen_rights_typed|].
  tskip; [by apply returns_lift|]. tskip; [apply ret_in_kernel|]. by apply returns_ret.
Qed.

Lemma ret_map_image mp vspace fp segs :
  map_Forall (fun va c => is_u64 va /\ is_u64 c) mp ->
  returns ak_typed (map_Forall (fun va c => is_u64 va /\ is_u64 c))
    (map_image false mp vspace fp segs SLOT_VSPACE page_seat).
Proof.
  intros Hmp. unfold map_image. tbind pages_typed as ps Hps.
  { generalize (Z.to_nat (range_len fp / GRANULE_SIZE)). intros n.
    induction n as [|n IH]; cbn [alloc_pages]; [by apply returns_ret, Forall_nil_2|].
    tbind is_u64 as c Hc; [apply ret_allocate|].
    tbind pages_typed as ps Hps; [exact IH|]. apply returns_ret. by constructor. }
  tbind pages_typed as ps' Hps'; [by apply ret_map_segments|].
  generalize 0 as i. revert mp Hmp. induction Hps' as [|[c r] ps' Hc _ IH]; intros mp Hmp i;
    cbn [map_pages_at]; [by apply returns_ret|].
  tskip; [by apply returns_lift|].
  tbind is_u64 as va Hva; [apply returns_lift; intros w [= <-]; apply wrap64_range|].
  tskip; [apply ret_in_kernel|]. apply IH. by apply map_Forall_insert_2.
Qed.

Lemma ret_task_exec ep : returns tk_typed ok_u64 (task_exec ep).
Proof.
  unfold task_exec.
  tskip; [apply ret_t_modify; intros t Ht; apply typed_set_pts; [done|]; by apply typed_set_pages; [apply map_Forall_empty|]|].
  tskip; [by apply returns_unwrap|]. tskip; [by apply returns_lift|]. tskip; [by apply returns_gets|].
  tbind (map_Forall (fun va c => is_u64 va /\ is_u64 c)) as mp Hmp;
    [apply returns_gets; intros s [Ht _]; apply Ht|].
  tbind (map_Forall (fun va c => is_u64 va /\ is_u64 c)) as mp' Hmp'; [by apply ret_t_alloc, ret_map_image|].
  tskip; [apply ret_t_modify; intros t; by apply typed_set_pages|].
  tskip; [apply ret_map_stack; by apply is_u64_const|].
  tbind any as file Hfile; [by apply returns_unwrap|].
  tbind is_u64 as c Hc; [by apply ret_t_alloc, ret_allocate|].
  tskip; [apply ret_map_page; [|done]|].
  { unfold ipc_buffer_addr_of. cbv zeta. pose proof (wrap64_range
      (foldl (fun acc y => Z.max acc (wrap64 (y.1 + y.2))) 0 (elf_sections file) + 4096 - 1)) as Hw.
    set (w := wrap64 _) in *. clearbody w. unfold is_u64 in *. dlia. }
  tskip; [by apply returns_gets|]. do 3 (tskip; [apply ret_t_kernel|]).
  tskip; [apply ret_t_modify; intros t; apply typed_set_exit; unfold is_i32; lia|].
  tskip; [apply ret_t_kernel|]. apply returns_ret. by apply is_u64_const.
Qed.

(** ** Computations on the task map *)

Lemma ret_with_task {A} (P : A -> Prop) badge (m : M TK A) :
  returns tk_typed P m -> returns kt_typed P (with_task badge m).
Proof.
  intros Hm s x s' [H1 H2 H3 H4] (t & t' & ak' & Ht & E & ->)%with_task_inv.
  destruct (H1 badge t Ht) as [Hb Htt].
  destruct (Hm (t, kt_ak s) x (t', ak') (conj Htt H2) E) as [[Ht' Ha'] HP].
  split; [|done]. split; try done. by apply map_Forall_insert_2.
Qed.

Lemma ret_on_local {A} (P : A -> Prop) t (m : M TK A) :
  task_typed t -> returns tk_typed P m ->
  returns kt_typed (fun r => P r.1 /\ task_typed r.2) (on_local t m).
Proof.
  intros Ht Hm s [x t'] s' [H1 H2 H3 H4] E. unfold on_local in E.
  destruct (m (t, kt_ak s)) as [[y [t1 ak1]]| | |] eqn:Em; try done. injection E as <- <- <-.
  destruct (Hm (t, kt_ak s) y (t1, ak1) (conj Ht H2) Em) as [[Ht1 Ha1] HP]. by split.
Qed.

Lemma ret_get_task badge : returns kt_typed task_typed (get_task badge).
Proof.
  intros s t s' HI E. unfold get_task in E. destruct (kt_tasks s !! badge) as [t1|] eqn:Et; [|done].
  injection E as <- <-. split; [done|]. apply (ks_tasks _ HI badge t1 Et).
Qed.

Lemma ret_msg_reg i : returns kt_typed is_u64 (msg_reg i).
Proof.
  intros s v s' HI E. unfold msg_reg in E.
  destruct (index (msg_regs (kt_ipc s)) i) as [w| | |] eqn:Ei; try done. injection E as <- <-.
  split; [done|]. unfold index in Ei. case_decide; [|done].
  destruct (msg_regs (kt_ipc s) !! Z.to_nat i) eqn:El; [|done]. injection Ei as ->.
  apply (Forall_lookup_1 _ _ _ _ (it_regs _ (ks_ipc _ HI)) El).
Qed.

(** ** [sys_clone] *)

Lemma ret_drop t : returns tk_typed any (t_kernel (Sel4Task_drop t)).
Proof. apply ret_t_kernel. Qed.

Lemma ret_or_drop op m : returns tk_typed ok_u64 m -> returns tk_typed ok_u64 (or_drop op m).
Proof.
  intros Hm. unfold or_drop. tskip; [apply ret_t_kernel|]. case_match; [done|].
  tskip; [by apply returns_gets|]. tskip; [apply ret_t_kernel|]. by apply returns_ret.
Qed.

Lemma btree_iter_typed (m : gmap Z CPtr) :
  map_Forall (fun va c => is_u64 va /\ is_u64 c) m -> Forall (fun e => is_u64 e.1) (btree_iter m).
Proof.
  intros Hm. apply Forall_forall. intros [va c] Hin%elem_of_btree_iter. by apply (Hm va c).
Qed.

Lemma ret_clone_setup task ep badge flags args :
  task_typed task -> is_u64 badge -> returns tk_typed ok_u64 (clone_setup task ep badge flags args).
Proof.
  intros Ht Hb. unfold clone_setup. tskip; [by apply returns_gets|]. tskip; [apply ret_t_kernel|].
  apply ret_or_drop. tskip.
  { case_match.
    - unfold clone_vspace. eapply returns_for_each; [apply btree_iter_typed, Ht|].
      intros [va c] Hva. unfold clone_page.
      tbind is_u64 as n Hn; [by apply ret_t_alloc, ret_allocate|].
      tskip; [apply ret_t_kernel|]. by apply ret_map_page.
    - tbind (fun s => is_u64 s.2) as slot Hs; [by apply ret_t_alloc, ret_allocate_slot|].
      tskip; [apply ret_t_kernel|]. apply ret_t_modify. intros t. by apply typed_set_vspace. }
  tbind is_u64 as c Hc; [by apply ret_t_alloc, ret_allocate|].
  tskip; [apply ret_map_page; [by apply is_u64_const|done]|]. tskip; [by apply returns_gets|].
  do 2 apply ret_or_drop. do 3 (tskip; [apply ret_t_kernel|]). by apply returns_ret.
Qed.

Lemma ret_new_task : returns kt_typed task_typed new_task.
Proof.
  unfold new_task. tbind is_u64 as id Hid; [apply returns_gets; intros s Hs; apply Hs|].
  tbind (fun r => task_typed r.1 /\ is_u64 r.2) as r [Ht Hn].
  { apply ret_on_alloc. unfold Sel4Task_new. tbind is_u64 as v Hv; [apply ret_allocate|].
    tskip; [apply ret_in_kernel|]. tbind is_u64 as t Ht; [apply ret_allocate|].
    tbind is_u64 as c Hc; [apply ret_allocate|]. apply returns_ret. split; [|apply wrap64_range].
    split; simpl; try done; by apply is_u64_const. }
  tskip; [|by apply returns_ret]. apply returns_modify. by intros s [H1 H2 H3 H4].
Qed.

Lemma ret_insert_task id t : is_u64 id -> task_typed t -> returns kt_typed any (insert_task id t).
Proof.
  intros Hid Ht. unfold insert_task. tskip; [by apply returns_gets|].
  tskip; [|case_match; [apply ret_on_kernel|by apply returns_ret]].
  apply returns_modify. intros s [H1 H2 H3 H4]. split; try done. by apply map_Forall_insert_2.
Qed.

Lemma ret_sys_clone badge ep args size : returns kt_typed ok_u64 (sys_clone badge ep args size).
Proof.
  unfold sys_clone. tbind task_typed as task Htask; [apply ret_get_task|].
  case_match; [by apply returns_ret|]. unfold bind_r. tskip; [apply ret_on_kernel|].
  case_match; [|by apply returns_ret]. case_match; [|by apply returns_ret].
  tbind task_typed as t Ht; [apply ret_new_task|]. pose proof (tt_id _ Ht) as Hid.
  eapply returns_bind; [apply (ret_on_local ok_u64); [done|by apply ret_clone_setup]|].
  intros [r t'] [Hr Ht']. simpl in *. destruct r; [|by apply returns_ret].
  tskip; [by apply ret_insert_task|by apply returns_ret].
Qed.

(** ** Output *)

Lemma ret_sys_write fuel badge fd buf count : returns kt_typed ok_u64 (sys_write fuel badge fd buf count).
Proof.
  unfold sys_write. tskip; [eapply returns_mono; [apply ret_get_task|done]|].
  apply (returns_zoom _ any); [done|by intros s ck [H1 H2 H3 H4] _|].
  unfold task_write. case_match; [by apply returns_ret|].
  tbind is_u64 as n Hn; [|by apply returns_ret].
  assert (is_u64 0) as H0 by (by apply is_u64_const). revert buf count H0. generalize 0 as p.
  induction fuel as [|fuel IH]; intros p buf count Hp; simpl; [apply returns_fuel|].
  case_match; [|by apply returns_ret]. case_match; [|by apply IH].
  tskip; [apply returns_any|apply IH, wrap64_range].
Qed.

(** ** Requests to the net thread *)

Definition net_typed (l : NetRequsetabel) : Prop :=
  match l with
  | NRL_New => True
  | NRL_IsNonBlocking a | NRL_Listen a | NRL_Accept a | NRL_Shutdown a | NRL_Close a => is_u64 a
  | NRL_SetNonBlocking a b | NRL_Bind a b | NRL_Connect a b => is_u64 a /\ is_u64 b
  | NRL_Send a b c | NRL_Recv a b c => is_u64 a /\ is_u64 b /\ is_u64 c
  | NRL_RecvTimeout a b c d => is_u64 a /\ is_u64 b /\ is_u64 c /\ is_u64 d
  end.

Lemma index_set_typed (l l' : list Z) i v :
  Forall is_u64 l -> is_u64 v -> index_set l i v = Ret l' -> Forall is_u64 l' /\ length l' = length l.
Proof.
  intros Hl Hv E. unfold index_set in E. case_decide; [|done]. injection E as <-.
  split; [by apply Forall_insert|apply length_insert].
Qed.

Lemma ret_write_reg i v : is_u64 v -> returns ipc_typed any (write_reg i v).
Proof.
  intros Hv b [] b' [[H1 H2] H3 H4] E. unfold write_reg, zoom in E.
  destruct (index_set (msg_regs b) i v) as [l| | |] eqn:El; try done. injection E as <-.
  destruct (index_set_typed _ _ _ _ H3 Hv El). split; [|done]. split; try done. split; simpl; congruence.
Qed.

Lemma ret_write_cap i v : is_u64 v -> returns ipc_typed any (write_cap i v).
Proof.
  intros Hv b [] b' [[H1 H2] H3 H4] E. unfold write_cap, zoom in E.
  destruct (index_set (caps_or_badges b) i v) as [l| | |] eqn:El; try done. injection E as <-.
  destruct (index_set_typed _ _ _ _ H4 Hv El). split; [|done]. split; try done. split; simpl; congruence.
Qed.

Lemma ret_net_build l : net_typed l -> returns ipc_typed any (NetRequsetabel_build l).
Proof.
  intros Hl. unfold NetRequsetabel_build. tskip; [|by apply returns_ret].
  destruct l; simpl in Hl; destruct_and?;
    repeat (tskip; [by apply ret_write_reg|]); by apply returns_ret.
Qed.

Definition cap_typed (c : option CPtr) : Prop := match c with Some c => is_u64 c | None => True end.

Lemma ret_send_net l cap : net_typed l -> cap_typed cap ->
  returns kt_typed any (send_net_ipc ke_call l cap).
Proof.
  intros Hl Hc. unfold send_net_ipc.
  tskip; [destruct cap; [by apply ret_on_ipc, ret_write_cap|by apply returns_ret]|].
  tbind any as mi Hmi; [by apply ret_on_ipc, ret_net_build|].
  apply returns_modify. intros s [H1 H2 H3 H4].
  pose proof (et_call (DEFAULT_CUSTOM_SLOT + 2) mi (kt_ipc s) (kt_kernel s) H4) as H6.
  destruct (ke_call _ _ _ _) as [b k]. by split.
Qed.

Lemma ret_gen_cap size mem num : returns kt_typed is_u64 (gen_cap page_seat size mem num).
Proof.
  unfold gen_cap. tbind is_u64 as c Hc; [by apply ret_on_alloc, ret_allocate|].
  tskip; [apply ret_on_kernel|]. tskip; [case_match; [apply returns_panic|by apply returns_ret]|].
  tskip; [apply ret_on_kernel|]. by apply returns_ret.
Qed.

Definition ax_typed (r : result Z AxError) : Prop := match r with Ok v => is_u64 v | Err _ => True end.

Lemma ret_handle_axresult v : is_u64 v -> returns kt_typed ax_typed (handle_axresult v).
Proof.
  intros Hv. unfold handle_axresult. case_match; [by apply returns_ret|].
  tskip; [by apply returns_unwrap|]. by apply returns_ret.
Qed.

(** A request and its answer in the first register. *)
Lemma ret_send_handle {B} (Q : B -> Prop) l cap (f : result Z AxError -> M KT B) :
  net_typed l -> cap_typed cap -> (forall r, ax_typed r -> returns kt_typed Q (f r)) ->
  returns kt_typed Q (send_net_ipc ke_call l cap ;; v ← msg_reg 0; r ← handle_axresult v; f r).
Proof.
  intros Hl Hc Hf. tskip; [by apply ret_send_net|]. tbind is_u64 as v Hv; [apply ret_msg_reg|].
  tbind ax_typed as r Hr; [by apply ret_handle_axresult|]. by apply Hf.
Qed.

Lemma ret_einval {A} (P : A -> Prop) (r : result A AxError) f :
  match r with Ok x => P x | Err _ => True end ->
  (forall x, P x -> returns kt_typed ok_u64 (f x)) -> returns kt_typed ok_u64 (einval_or_panic r f).
Proof.
  intros Hr Hf. unfold einval_or_panic. destruct r; [by apply Hf|].
  case_match; [by apply returns_ret|apply returns_panic].
Qed.

Lemma ret_read_item badge size addr : returns kt_typed any (k_read_item page_seat badge size addr).
Proof. unfold k_read_item. tskip; [eapply returns_mono; [apply ret_get_task|done]|apply ret_on_kernel]. Qed.

Lemma fd_id_u64 fd : is_u64 (fd_id fd).
Proof. apply wrap64_range. Qed.
#[local] Hint Resolve fd_id_u64 : core.

Lemma is_u64_0 : is_u64 0.
Proof. by apply is_u64_const. Qed.
#[local] Hint Resolve is_u64_0 : core.

Lemma ret_sys_socket badge a b c : returns kt_typed ok_u64 (sys_socket ke_call badge a b c).
Proof.
  unfold sys_socket, tcp_new. tbind is_u64 as id Hid; [|by apply returns_ret].
  tskip; [by apply ret_send_net|apply ret_msg_reg].
Qed.

Lemma ret_sys_bind badge fd addr len :
  returns kt_typed ok_u64 (sys_bind page_seat ke_call ke_sockaddr_size ke_sockaddr_mem ke_stack_ptr badge fd addr len).
Proof.
  unfold sys_bind, bind_r, tcp_bind. tskip; [apply ret_read_item|]. case_match; [|by apply returns_ret].
  tskip; [by apply returns_lift|]. tskip.
  - tbind is_u64 as c Hc; [apply ret_gen_cap|]. apply ret_send_handle; [|done|].
    + split; [done|apply et_stack_ptr].
    + intros r Hr. by apply returns_ret.
  - case_match; [by apply returns_ret|]. case_match; [by apply returns_ret|apply returns_panic].
Qed.

Lemma ret_sys_connect badge fd addr len :
  returns kt_typed ok_u64 (sys_connect page_seat ke_call ke_sockaddr_size ke_sockaddr_mem badge fd addr len).
Proof.
  unfold sys_connect, bind_r, tcp_connect. tskip; [apply ret_read_item|]. case_match; [|by apply returns_ret].
  tskip; [by apply returns_lift|]. tskip.
  - tbind is_u64 as c Hc; [apply ret_gen_cap|]. apply ret_send_handle; [done|done|].
    intros r Hr. by apply returns_ret.
  - apply (ret_einval any); [by case_match|]. intros _ _. by apply returns_ret.
Qed.

Lemma ret_sys_listen badge fd : returns kt_typed ok_u64 (sys_listen ke_call badge fd).
Proof.
  unfold sys_listen, tcp_listen. tskip.
  - apply ret_send_handle; [apply fd_id_u64|done|]. intros r Hr. by apply returns_ret.
  - apply (ret_einval any); [by case_match|]. intros _ _. by apply returns_ret.
Qed.

Lemma ret_sys_shutdown badge fd how : returns kt_typed ok_u64 (sys_shutdown ke_call badge fd how).
Proof.
  unfold sys_shutdown, tcp_shutdown. tskip.
  - apply ret_send_handle; [apply fd_id_u64|done|]. intros r Hr. by apply returns_ret.
  - apply (ret_einval any); [by case_match|]. intros _ _. by apply returns_ret.
Qed.

Lemma index_typed (l : list Z) i v : Forall is_u64 l -> index l i = Ret v -> is_u64 v.
Proof.
  intros Hl. unfold index. case_decide; [|done]. destruct (l !! _) eqn:E; [|done].
  intros [= <-]. by eapply Forall_lookup_1.
Qed.

Lemma ret_sys_accept badge fd addr len :
  returns kt_typed ok_u64 (sys_accept page_seat ke_call ke_libc_mem badge fd addr len).
Proof.
  unfold sys_accept, tcp_accept. tskip; [eapply returns_mono; [apply ret_get_task|done]|].
  tbind (fun r => match r with Ok l => Forall is_u64 l | Err _ => True end) as r Hr.
  - tskip; [apply ret_send_net; [apply fd_id_u64|done]|]. tbind is_u64 as r0 H0; [apply ret_msg_reg|].
    case_match; [tskip; [by apply returns_unwrap|by apply returns_ret]|].
    tbind is_u64 as r1 H1; [apply ret_msg_reg|]. tbind is_u64 as r2 H2; [apply ret_msg_reg|].
    tbind is_u64 as r3 H3; [apply ret_msg_reg|]. tbind is_u64 as r4 H4; [apply ret_msg_reg|].
    apply returns_ret. by typed_list.
  - apply (ret_einval (Forall is_u64)); [done|]. intros l Hl.
    tbind is_u64 as id Hid; [apply returns_lift; intros v; by apply index_typed|].
    do 5 (tskip; [by apply returns_lift|]). tskip; [apply ret_on_kernel|]. by apply returns_ret.
Qed.

Lemma ret_sys_sendto badge fd buf len flags addr alen :
  returns kt_typed ok_u64 (sys_sendto page_seat ke_call ke_heap_ptr ke_heap_mem badge fd buf len flags addr alen).
Proof.
  unfold sys_sendto, bind_r, tcp_send. tskip; [apply ret_read_item|]. case_match; [|by apply returns_ret].
  tskip; [by apply returns_lift|]. tbind task_typed as t Ht; [apply ret_get_task|]. tskip.
  { intros s [] s' [H1 H2 H3 H4] E. destruct (read_item_list _ _ _ _ _ _) as [[y [c k]]| | |]; try done.
    injection E as <-. done. }
  tbind ax_typed as r Hr; [|by apply (ret_einval is_u64); [|intros v Hv; by apply returns_ret]].
  tskip; [case_match; [apply returns_panic|by apply returns_ret]|].
  tbind is_u64 as c Hc; [apply ret_gen_cap|]. tskip; [apply ret_on_kernel|].
  tskip; [apply ret_send_net; [|done]; split_and!; [done|apply et_heap_ptr|done]|].
  tbind is_u64 as v Hv; [apply ret_msg_reg|]. by apply ret_handle_axresult.
Qed.

(** The bytes copied to the user are counted with [VirtAddr] arithmetic. *)
Lemma process_loop_typed {C} t f addr fuel : forall ba len (s : C * kstate) r s',
  process_loop page_seat fuel t f addr ba len s = Ret (r, s') -> ok_u64 r.
Proof.
  induction fuel as [|fuel IH]; intros ba len s r s' E; simpl in E; [done|].
  case_match; [|ibind E as d s1 E1; injection E as <- <-].
  - case_match; [|by injection E as <- <-]. ibind E as ba' s1 E1. by eapply IH.
  - unfold lift in E1. destruct (va_sub ba addr) eqn:Ev; try done. injection E1 as <- <-.
    by eapply et_va_sub.
Qed.

Lemma write_item_list_typed size t addr num mem k r k' :
  write_item_list page_seat size t addr num mem k = Ret (r, k') -> ok_u64 r.
Proof.
  unfold write_item_list, no_state, process_item_list. intros E.
  destruct (_ && _); [by injection E as <- <-|].
  destruct (process_loop _ _ _ _ _ _ _ _) as [[x [[] k1]]| | |] eqn:E1; try done. injection E as <- <-.
  by eapply process_loop_typed.
Qed.

Lemma ret_sys_recvfrom badge fd buf len flags addr alen :
  returns kt_typed ok_u64 (sys_recvfrom page_seat ke_call ke_heap_ptr ke_heap_mem badge fd buf len flags addr alen).
Proof.
  unfold sys_recvfrom, tcp_recv. tbind task_typed as t Ht; [apply ret_get_task|].
  tbind (fun r => ax_typed r.2) as r Hr.
  - tskip; [case_match; [apply returns_panic|by apply returns_ret]|].
    tbind is_u64 as c Hc; [apply ret_gen_cap|].
    tskip; [apply ret_send_net; [|done]; split_and!; [done|apply et_heap_ptr|done]|].
    tbind is_u64 as v Hv; [apply ret_msg_reg|]. tskip; [apply ret_on_kernel|].
    tbind ax_typed as r Hr; [by apply ret_handle_axresult|]. by apply returns_ret.
  - apply (ret_einval is_u64); [done|]. intros v Hv.
    apply (returns_zoom _ any); [done|by intros s k [H1 H2 H3 H4] _|].
    intros k x k' _ E. split; [done|]. by eapply write_item_list_typed.
Qed.

(** ** The dispatcher and the service loop *)

Lemma ret_sys_get {A} (f : Sel4Task -> A) (P : A -> Prop) badge (m : A -> M KT (result Z Errno)) :
  (forall t, task_typed t -> P (f t)) -> (forall a, P a -> returns kt_typed ok_u64 (m a)) ->
  returns kt_typed ok_u64 (t ← get_task badge; m (f t)).
Proof. intros Hf Hm. tbind task_typed as t Ht; [apply ret_get_task|]. by apply Hm, Hf. Qed.

Lemma ret_handle_ipc_call fuel badge sys_id args ep :
  is_u64 badge -> Forall is_u64 args -> returns kt_typed ok_u64 (handle_ipc_call fuel badge sys_id args ep).
Proof.
  intros Hb Hargs. unfold handle_ipc_call. destruct (Sysno_new sys_id) as [no|]; [|by apply returns_ret].
  assert (forall i, returns kt_typed is_u64 (lift (index args i))) as Hi
    by (intros i; apply returns_lift; intros v; by apply index_typed).
  tbind is_u64 as a0 H0; [apply Hi|]. tbind is_u64 as a1 H1; [apply Hi|].
  tbind is_u64 as a2 H2; [apply Hi|]. tbind is_u64 as a3 H3; [apply Hi|].
  tbind is_u64 as a4 H4; [apply Hi|]. tbind is_u64 as a5 H5; [apply Hi|].
  destruct no; try (by apply returns_ret).
  - apply ret_sys_write.
  - by apply ret_with_task, ret_task_brk.
  - by apply ret_with_task, ret_task_mmap.
  - by apply ret_with_task, ret_task_unmap.
  - apply ret_with_task, ret_task_exit, as_i32_range.
  - apply ret_with_task, ret_task_exit, as_i32_range.
  - tbind task_typed as t Ht; [apply ret_get_task|]. apply returns_ret, Ht.
  - apply ret_with_task, ret_task_exec.
  - apply ret_sys_clone.
  - tbind task_typed as t Ht; [apply ret_get_task|]. apply returns_ret, Ht.
  - apply ret_with_task. tskip; [apply ret_t_modify; intros t; by apply typed_set_tid|by apply returns_ret].
  - tbind task_typed as t Ht; [apply ret_get_task|]. apply returns_ret, Ht.
  - tbind task_typed as t Ht; [apply ret_get_task|]. apply returns_ret, Ht.
  - apply ret_sys_socket.
  - apply ret_sys_accept.
  - apply ret_sys_bind.
  - apply ret_sys_connect.
  - apply ret_sys_listen.
  - apply ret_sys_sendto.
  - apply ret_sys_recvfrom.
  - apply ret_sys_shutdown.
Qed.

(** A message as the kernel delivers it. *)
Record incoming_typed (m : Incoming) : Prop := {
  nt_regs : Forall is_u64 (in_regs m) /\ length (in_regs m) = MSG_MAX_LENGTH;
  nt_badge : is_u64 (in_badge m);
  nt_fault a : in_fault m = VmFault a -> is_u64 a;
}.

Definition served_typed (r : served) : Prop :=
  match r with Replied _ regs => Forall is_u64 regs | _ => True end.

Lemma encode_result_u64 r : ok_u64 r -> is_u64 (encode_result r).
Proof. destruct r; [done|]. intros _. apply wrap64_range. Qed.

Lemma ret_reply_with regs : Forall is_u64 regs -> returns kt_typed any (reply_with regs).
Proof.
  intros Hr. unfold reply_with. tskip; [|by apply returns_ret]. apply ret_on_ipc. generalize 0 as i.
  induction Hr as [|r regs Hr _ IH]; intros i; simpl; [by apply returns_ret|].
  tskip; [by apply ret_write_reg|apply IH].
Qed.

Lemma ret_serve fuel ep m : incoming_typed m -> returns kt_typed served_typed (serve fuel ep m).
Proof.
  intros [[N1 N1'] N2 N3]. unfold serve. tskip.
  { apply returns_modify. intros s [H1 H2 H3 [[I1 I2] I3 I4]]. by split. }
  case_match.
  - tskip; [|by apply returns_ret]. unfold handle_fault. destruct (in_fault m) as [a|] eqn:Ef; [|by apply returns_ret].
    tbind is_u64 as c Hc; [by apply ret_on_alloc, ret_allocate|]. apply ret_with_task.
    tskip; [apply ret_map_page; [|done]|].
    { change PAGE_SIZE_BITS with 12. rewrite align_bits_12. specialize (N3 a eq_refl). unfold is_u64, down in *. dlia. }
    tskip; [by apply returns_gets|]. apply ret_t_kernel.
  - destruct (CustomMessageLabel_try_from (in_message m)) as [[]|]; try by apply returns_ret.
    + tskip; [by apply ret_reply_with|]. apply returns_ret. constructor.
    + tbind is_u64 as id Hid; [apply ret_msg_reg|].
      tbind (Forall is_u64) as args Hargs.
      { unfold syscall_args. tbind is_u64 as a1 H1; [apply ret_msg_reg|]. tbind is_u64 as a2 H2; [apply ret_msg_reg|].
        tbind is_u64 as a3 H3; [apply ret_msg_reg|]. tbind is_u64 as a4 H4; [apply ret_msg_reg|].
        tbind is_u64 as a5 H5; [apply ret_msg_reg|]. tbind is_u64 as a6 H6; [apply ret_msg_reg|].
        apply returns_ret. by typed_list. }
      tbind ok_u64 as r Hr; [by apply ret_handle_ipc_call|]. pose proof (encode_result_u64 r Hr).
      tskip; [apply ret_reply_with; by typed_list|]. apply returns_ret. by typed_list.
Qed.

Lemma ret_service_loop fuel ep msgs :
  Forall incoming_typed msgs -> returns kt_typed (Forall served_typed) (service_loop fuel ep msgs).
Proof.
  intros Hm. induction Hm as [|m msgs Hm _ IH]; simpl; [by apply returns_ret|].
  tbind served_typed as r Hr; [by apply ret_serve|].
  destruct r; [|..|apply returns_ret; by constructor];
    (tbind (Forall served_typed) as rs Hrs; [exact IH|]; apply returns_ret; by constructor).
Qed.
End typing.


(** ** Witness *)

#[local] Existing Instances ref_sel4 packed_message_info ref_memory_addr ref_kenv ref_axerrno
  ref_bitflags ref_syscalls.

Lemma ref_env_typed : EnvTyped.
Proof.
  split; cbn.
  - intros a n r [= <-]. apply wrap64_range.
  - intros a n r [= <-]. apply wrap64_range.
  - intros a Ha. unfold is_u64, down, PAGE_SIZE_4K in *. dlia.
  - intros a _. apply wrap64_range.
  - intros a b l Ha Hb. case_match; [|done]. intros [= <-]. by apply step_range_typed.
  - intros ep mi b k [[H1 H2] H3 H4]. split; [by split| |done]. cbn.
    repeat (apply Forall_cons_2; [by apply is_u64_const|]). apply Forall_nil_2.
  - by apply is_u64_const.
  - by apply is_u64_const.
Qed.

Lemma ref_kt_typed n : kt_typed (ref_kt n).
Proof.
  split; cbn.
  - apply map_Forall_singleton. split; [by apply is_u64_const|].
    split; cbn; try done; try (by apply is_u64_const).
    apply map_Forall_singleton. split; by apply is_u64_const.
  - split; cbn; [lia|lia|by apply is_u64_const].
  - by apply is_u64_const.
  - split; [apply blank_ipc_wf| |]; apply Forall_replicate; by apply is_u64_const.
Qed.

(** A request for the thread id and one for a larger heap. *)
Definition ref_requests : list Incoming :=
  [MkIncoming (mi_new 0x101 0 0 7) (178 :: replicate 119 0) OtherFault 1;
   MkIncoming (mi_new 0x101 0 0 7) (214 :: 0x100002000 :: replicate 118 0) OtherFault 1].

