(* ===== verification/Dispatch.v ===== *)
(** * Dispatch and replies

    How a system call finds its handler and how its result reaches the caller. *)

From S2P Require Import Prelude Words Consts Sel4 Sel4Laws RefKernel Externs Reference Messages Uspace ObjAllocator KTask FrameMem UserMem Exec ImageMap KThread NetClient Syscalls KInv Clone.

Section dispatch.
Context `{K : Sel4} `{MI : MessageInfoApi} `{MA : MemoryAddr} `{AX : AxErrno}
  `{BF : Bitflags} `{SC : SyscallsCrate} `{KE : !KEnv}.

(** Six message registers are always six arguments. *)
Lemma dispatch_args fuel badge sys_id a0 a1 a2 a3 a4 a5 ep n s :
  Sysno_new sys_id = Some n ->
  handle_ipc_call fuel badge sys_id [a0; a1; a2; a3; a4; a5] ep s =
  match n with
  | sys_no_write => sys_write fuel badge (as_i32 a0) a1 a2
  | sys_no_brk => sys_brk badge a0
  | sys_no_mmap => sys_mmap badge a0 a1 a2 a3 a4 a5
  | sys_no_munmap => sys_unmap badge a0 a1
  | sys_no_exit => sys_exit badge (as_i32 a0)
  | sys_no_exit_group => sys_exit_group badge (as_i32 a0)
  | sys_no_getpid => sys_getpid badge
  | sys_no_execve => sys_exec badge ep a0 a1 a2
  | sys_no_clone => sys_clone badge ep a0 a1
  | sys_no_gettid => sys_gettid badge
  | sys_no_sched_yield => sys_sched_yield
  | sys_no_getppid => sys_getppid badge
  | sys_no_set_tid_address => sys_set_tid_address badge a0
  | sys_no_getuid => sys_getuid badge
  | sys_no_geteuid => sys_geteuid badge
  | sys_no_socket => sys_socket ke_call badge a0 a1 a2
  | sys_no_accept => sys_accept page_seat ke_call ke_libc_mem badge a0 a1 a2
  | sys_no_bind => sys_bind page_seat ke_call ke_sockaddr_size ke_sockaddr_mem
                     ke_stack_ptr badge a0 a1 a2
  | sys_no_connect => sys_connect page_seat ke_call ke_sockaddr_size ke_sockaddr_mem
                        badge a0 a1 a2
  | sys_no_listen => sys_listen ke_call badge a0
  | sys_no_sendto => sys_sendto page_seat ke_call ke_heap_ptr ke_heap_mem
                       badge a0 a1 a2 a3 a4 a5
  | sys_no_recvfrom => sys_recvfrom page_seat ke_call ke_heap_ptr ke_heap_mem
                         badge a0 a1 a2 a3 a4 a5
  | sys_no_shutdown => sys_shutdown ke_call badge a0 a1
  | sys_other _ => mret (Err ENOSYS)
  end s.
Proof. intros E. unfold handle_ipc_call. rewrite E. reflexivity. Qed.

(** The registers of a message as the dispatcher reads them. *)
Lemma syscall_args_Ret s b r0 r1 r2 r3 r4 r5 r6 rest :
  kt_ipc s = b -> msg_regs b = r0 :: r1 :: r2 :: r3 :: r4 :: r5 :: r6 :: rest ->
  msg_reg 0 s = Ret (r0, s) /\ syscall_args s = Ret ([r1; r2; r3; r4; r5; r6], s).
Proof.
  intros E1 E2. assert (forall i v, 0 <= i ->
    (r0 :: r1 :: r2 :: r3 :: r4 :: r5 :: r6 :: rest) !! Z.to_nat i = Some v ->
    msg_reg i s = Ret (v, s)) as Hm.
  { intros i v Hi Hv. apply msg_reg_Ret; [done|]. by rewrite E1, E2. }
  split; [by apply Hm|]. unfold syscall_args.
  repeat (erewrite bind_Ret; [|apply Hm; [lia|reflexivity]]). reflexivity.
Qed.

(** A system call message: the handler runs, its result goes into register 0. *)
Lemma serve_syscall fuel ep m s r0 r1 r2 r3 r4 r5 r6 rest res s' :
  CustomMessageLabel_try_from (in_message m) = Some CML_SysCall -> 8 <= mi_label (in_message m) ->
  in_regs m = r0 :: r1 :: r2 :: r3 :: r4 :: r5 :: r6 :: rest ->
  handle_ipc_call fuel (in_badge m) r0 [r1; r2; r3; r4; r5; r6] ep
    (set_ipc (set_msg_regs (in_regs m) (kt_ipc s)) s) = Ret (res, s') ->
  ipc_wf (kt_ipc s') ->
  serve fuel ep m s =
    Ret (Replied (mi_new 0 0 0 8) [encode_result res],
         set_ipc (set_msg_regs (<[0%nat := encode_result res]> (msg_regs (kt_ipc s'))) (kt_ipc s')) s').
Proof.
  intros Hl H8 Hr Ec Hwf. set (s1 := set_ipc (set_msg_regs (in_regs m) (kt_ipc s)) s) in *.
  destruct (syscall_args_Ret s1 (kt_ipc s1) r0 r1 r2 r3 r4 r5 r6 rest) as [E0 E1]; [done|done|].
  unfold serve. rewrite (bind_Ret _ _ _ tt s1) by done.
  destruct (Z.ltb_spec (mi_label (in_message m)) 8); [lia|]. rewrite Hl.
  rewrite (bind_Ret _ _ _ _ _ E0), (bind_Ret _ _ _ _ _ E1), (bind_Ret _ _ _ _ _ Ec).
  destruct (write_reg_Ret 0 (encode_result res) (kt_ipc s') Hwf) as [Ew _]; [unfold MSG_MAX_LENGTH; lia|].
  change (Z.of_nat 0) with 0 in Ew. unfold reply_with. cbn [write_regs].
  unfold mbind, M_bind, on_ipc, zoom. by rewrite Ew.
Qed.
End dispatch.

(** A result that the reply word can carry: below the range of error words. *)
Definition fits_reply (r : result Z Errno) : Prop :=
  forall v, r = Ok v -> 0 <= v <= 2 ^ 64 - 4096.

(** The error for a number that names a system call the dispatcher does not
    serve, or none at all. *)
Definition unsupported `{SyscallsCrate} (number : Z) (e : Errno) : Prop :=
  (Sysno_new number = None /\ e = EINVAL) \/
  (exists id, Sysno_new number = Some (sys_other id)) /\ e = ENOSYS.

(** The value in the reply register tells the caller exactly what happened:
    an error is one of the 4095 largest words, so it is different from every
    result below that range, and different errors have different words. *)
Theorem reply_word_decodes `{SL : SyscallsLaws} (r r' : result Z Errno)
    (Hr : fits_reply r) (Hr' : fits_reply r')
    (Heq : encode_result r = encode_result r') :
  r = r'.
Proof.
  assert (forall e, encode_result (Err e) = 2 ^ 64 - Errno_into_raw e) as He.
  { intros e. pose proof (Errno_range e). unfold encode_result, wrap64.
    rewrite Z.mod_opp_l_nz; rewrite ?Z.mod_small; lia. }
  destruct r as [v|e], r' as [v'|e']; rewrite ?He in Heq.
  - cbn in Heq. by subst.
  - specialize (Hr v eq_refl). pose proof (Errno_range e'). cbn [encode_result] in Heq. lia.
  - specialize (Hr' v' eq_refl). pose proof (Errno_range e). cbn [encode_result] in Heq. lia.
  - f_equal. apply Errno_inj. lia.
Qed.

Lemma reply_word_decodes_witness :
  @encode_result ref_syscalls (Err EFAULT) = 2 ^ 64 - 14 /\
  (Err EFAULT : result Z Errno) = Err EFAULT.
Proof.
  split; [reflexivity|].
  apply (@reply_word_decodes ref_syscalls ref_syscalls_laws (Err EFAULT) (Err EFAULT));
    [done|done|reflexivity].
Defined.

(** C39: a system call whose number the dispatcher does not serve is answered, not
    dropped: the service loop replies with the word for [ENOSYS] for a number
    of another system call and with the word for [EINVAL] for a number that
    names none, and nothing but the IPC buffer changes. *)
Theorem unsupported_syscall_answered `{K : Sel4} `{MI : MessageInfoApi} `{MA : MemoryAddr}
    `{AX : AxErrno} `{BF : Bitflags} `{SC : SyscallsCrate} `{KE : !KEnv}
    (fuel : nat) (ep : CPtr) (m : Incoming) (r0 r1 r2 r3 r4 r5 r6 : Z) (rest : list Z) (e : Errno)
    (s : KT)
    (Hlabel : CustomMessageLabel_try_from (in_message m) = Some CML_SysCall)
    (Hfault : 8 <= mi_label (in_message m))
    (Hregs : in_regs m = r0 :: r1 :: r2 :: r3 :: r4 :: r5 :: r6 :: rest)
    (Hno : unsupported r0 e) :
  exists b', serve fuel ep m s =
      Ret (Replied (mi_new 0 0 0 8) [encode_result (Err e)], set_ipc b' s) /\
    msg_regs b' !! 0%nat = Some (encode_result (Err e)).
Proof.
  set (s1 := set_ipc (set_msg_regs (in_regs m) (kt_ipc s)) s).
  assert (handle_ipc_call fuel (in_badge m) r0 [r1; r2; r3; r4; r5; r6] ep s1 = Ret (Err e, s1)) as Hcall.
  { destruct Hno as [[Hn ->]|[[id Hn] ->]].
    - unfold handle_ipc_call. by rewrite Hn.
    - by rewrite (dispatch_args _ _ _ _ _ _ _ _ _ _ _ _ Hn). }
  destruct (syscall_args_Ret s1 (kt_ipc s1) r0 r1 r2 r3 r4 r5 r6 rest) as [E0 E1]; [done|done|].
  exists (set_msg_regs (encode_result (Err e) :: r1 :: r2 :: r3 :: r4 :: r5 :: r6 :: rest)
            (kt_ipc s)). split; [|done].
  unfold serve. rewrite (bind_Ret _ _ _ tt s1) by done.
  destruct (Z.ltb_spec (mi_label (in_message m)) 8); [lia|]. rewrite Hlabel.
  rewrite (bind_Ret _ _ _ _ _ E0), (bind_Ret _ _ _ _ _ E1), (bind_Ret _ _ _ _ _ Hcall).
  unfold reply_with, mbind, M_bind, on_ipc, zoom, write_regs, write_reg, index_set, mret, M_ret.
  simpl. rewrite Hregs. done.
Qed.

Lemma unsupported_syscall_answered_witness :
  exists b', @serve ref_sel4 packed_message_info ref_memory_addr ref_axerrno ref_bitflags
      ref_syscalls ref_kenv 1 20
      (@MkIncoming packed_message_info (@mi_new packed_message_info 0x101 0 0 7)
         [56; 0; 0; 0; 0; 0; 0] OtherFault 1) (ref_kt 0) =
      Ret (@Replied packed_message_info (@mi_new packed_message_info 0 0 0 8) [2 ^ 64 - 38],
           set_ipc b' (ref_kt 0)) /\
    msg_regs b' !! 0%nat = Some (2 ^ 64 - 38).
Proof.
  apply (@unsupported_syscall_answered ref_sel4 packed_message_info ref_memory_addr ref_axerrno
    ref_bitflags ref_syscalls ref_kenv 1 20
    (@MkIncoming packed_message_info (@mi_new packed_message_info 0x101 0 0 7)
         [56; 0; 0; 0; 0; 0; 0] OtherFault 1) 56 0 0 0 0 0 0 [] ENOSYS (ref_kt 0)).
  - reflexivity.
  - vm_compute. discriminate.
  - reflexivity.
  - right. split; [|reflexivity]. by exists 56.
Defined.
