(* ===== verification/NetDev.v ===== *)
(** * The devices under the TCP/IP stack
      ([net-thread/src/smoltcp_impl/mod.rs], [loopback.rs])

    The trait [smoltcp::phy::Device] is a class with two instances: the network
    card behind [DeviceWrapper], whose driver is a parameter and is shared by the
    tokens through a [RefCell], and the loopback device, a queue of packets. *)

From stdpp Require Import gmultiset.
From S2P Require Import Prelude Words.

(** ** The driver of the network card *)

(** A buffer of the driver's pool: its address and the packet in it. *)
Record NetBufPtr := MkBuf { nb_ptr : Z; nb_packet : list Z }.

(** [axdriver_net::NetDriverOps]. *)
Class NetDriver := {
  NetDevice : Type;
  DevError : Type;
  nd_can_transmit : NetDevice -> bool;
  nd_receive : NetDevice -> result NetBufPtr DevError * NetDevice;
  nd_recycle_rx_buffer : NetBufPtr -> NetDevice -> result unit DevError * NetDevice;
  nd_recycle_tx_buffers : NetDevice -> result unit DevError * NetDevice;
  nd_alloc_tx_buffer : Z -> NetDevice -> result NetBufPtr DevError * NetDevice;
  nd_transmit : NetBufPtr -> NetDevice -> result unit DevError * NetDevice;
}.

(** What the driver documents, seen through the packets that have arrived, the
    packets handed to the card, and the buffers of its pools that are out of its
    hands. *)
Class NetDriverLaws `{NetDriver} := {
  nd_pending : NetDevice -> list (list Z);
  nd_sent : NetDevice -> list (list Z);
  nd_rx_lent : NetDevice -> gmultiset Z;
  nd_tx_lent : NetDevice -> gmultiset Z;

  (** [receive] takes the oldest packet, in a buffer of the receive pool *)
  nd_receive_ok d p ps : nd_pending d = p :: ps ->
    exists b d', nd_receive d = (Ok (MkBuf b p), d') /\ nd_pending d' = ps /\ nd_sent d' = nd_sent d /\
      nd_rx_lent d' = nd_rx_lent d ⊎ {[+ b +]} /\ nd_tx_lent d' = nd_tx_lent d /\
      nd_can_transmit d' = nd_can_transmit d;
  nd_receive_empty d : nd_pending d = [] -> exists e, nd_receive d = (Err e, d);
  nd_recycle_rx_ok d b p : b ∈ nd_rx_lent d ->
    exists d', nd_recycle_rx_buffer (MkBuf b p) d = (Ok tt, d') /\ nd_pending d' = nd_pending d /\
      nd_sent d' = nd_sent d /\ nd_rx_lent d' = nd_rx_lent d ∖ {[+ b +]} /\ nd_tx_lent d' = nd_tx_lent d;
  (** buffers of finished transmissions come back without being seen *)
  nd_recycle_tx_view d r d' : nd_recycle_tx_buffers d = (r, d') ->
    nd_pending d' = nd_pending d /\ nd_sent d' = nd_sent d /\ nd_rx_lent d' = nd_rx_lent d /\
    nd_tx_lent d' = nd_tx_lent d;
  (** there is a buffer of the wanted length while packets can be sent *)
  nd_alloc_tx_ok d len : nd_can_transmit d = true -> 0 <= len <= 1514 ->
    exists b p d', nd_alloc_tx_buffer len d = (Ok (MkBuf b p), d') /\ Z.of_nat (length p) = len /\
      nd_pending d' = nd_pending d /\ nd_sent d' = nd_sent d /\ nd_rx_lent d' = nd_rx_lent d /\
      nd_tx_lent d' = nd_tx_lent d ⊎ {[+ b +]} /\ nd_can_transmit d' = true;
  nd_transmit_ok d b p : b ∈ nd_tx_lent d -> nd_can_transmit d = true ->
    exists d', nd_transmit (MkBuf b p) d = (Ok tt, d') /\ nd_pending d' = nd_pending d /\
      nd_sent d' = nd_sent d ++ [p] /\ nd_rx_lent d' = nd_rx_lent d /\
      nd_tx_lent d' = nd_tx_lent d ∖ {[+ b +]};
}.

(** ** The trait *)

Inductive Medium := Ethernet | Ip.
Record DeviceCapabilities := MkCaps {
  max_transmission_unit : Z;
  max_burst_size : option Z;
  medium : Medium;
}.

(** A device, its receive tokens and the two [consume]s.  A transmit token is a
    reference to the device.  The closure given to [consume] gets the packet and
    may change it; it may also own another token and so use the device. *)
Class Device (D Rx : Type) := {
  (** the changes to [DeviceCapabilities::default()] *)
  dev_capabilities : D -> DeviceCapabilities -> DeviceCapabilities;
  dev_receive : M D (option Rx);
  dev_transmit : M D bool;
  rx_consume : forall {R : Type}, Rx -> (list Z -> M D (R * list Z)) -> M D R;
  tx_consume : forall {R : Type}, Z -> (list Z -> M D (R * list Z)) -> M D R;
}.

(** ** The network card *)

Section eth.
Context `{ND : NetDriver}.

Record DeviceWrapper := MkDW { dw_inner : NetDevice; dw_borrowed : bool }.

Definition DeviceWrapper_new (inner : NetDevice) : DeviceWrapper := MkDW inner false.

(** [RefCell::borrow_mut] and the end of the borrow. *)
Definition borrow_mut : M DeviceWrapper unit := fun w =>
  if dw_borrowed w then Panic PBorrow else Ret (tt, MkDW (dw_inner w) true).
Definition end_borrow : M DeviceWrapper unit := modify (fun w => MkDW (dw_inner w) false).

Definition driver {A} (op : NetDevice -> result A DevError * NetDevice) : M DeviceWrapper (result A DevError) :=
  fun w => let '(r, d) := op (dw_inner w) in Ret (r, MkDW d (dw_borrowed w)).
Definition driver_unwrap {A} (op : NetDevice -> result A DevError * NetDevice) : M DeviceWrapper A :=
  r ← driver op; unwrap_r r.

Definition AxNetRxToken_consume {R} (rx_buf : NetBufPtr) (f : list Z -> M DeviceWrapper (R * list Z)) :
    M DeviceWrapper R :=
  result ← f (nb_packet rx_buf);
  borrow_mut ;;
  driver_unwrap (nd_recycle_rx_buffer (MkBuf (nb_ptr rx_buf) result.2)) ;;
  end_borrow ;;
  mret result.1.

Definition AxNetTxToken_consume {R} (len : Z) (f : list Z -> M DeviceWrapper (R * list Z)) :
    M DeviceWrapper R :=
  borrow_mut ;;
  tx_buf ← driver_unwrap (nd_alloc_tx_buffer len);
  ret ← f (nb_packet tx_buf);
  driver_unwrap (nd_transmit (MkBuf (nb_ptr tx_buf) ret.2)) ;;
  end_borrow ;;
  mret ret.1.

Definition DeviceWrapper_receive : M DeviceWrapper (option NetBufPtr) :=
  borrow_mut ;;
  r ← driver nd_recycle_tx_buffers;
  res ← match r with
        | Err _ => mret None
        | Ok _ =>
            can ← gets (fun w => nd_can_transmit (dw_inner w));
            if negb can then mret None
            else r ← driver nd_receive; mret match r with Ok buf => Some buf | Err _ => None end
        end;
  end_borrow ;;
  mret res.

Definition DeviceWrapper_transmit : M DeviceWrapper bool :=
  borrow_mut ;;
  r ← driver nd_recycle_tx_buffers;
  res ← match r with
        | Err _ => mret false
        | Ok _ => gets (fun w => nd_can_transmit (dw_inner w))
        end;
  end_borrow ;;
  mret res.

Definition DeviceWrapper_capabilities (caps : DeviceCapabilities) : DeviceCapabilities :=
  MkCaps 1514 None Ethernet.

#[global] Instance eth_device : Device DeviceWrapper NetBufPtr := {|
  dev_capabilities _ := DeviceWrapper_capabilities;
  dev_receive := DeviceWrapper_receive;
  dev_transmit := DeviceWrapper_transmit;
  rx_consume := @AxNetRxToken_consume;
  tx_consume := @AxNetTxToken_consume;
|}.
End eth.
Arguments DeviceWrapper {ND}.

(** ** The loopback device *)

Record LoopbackDev := MkLoopback { lo_queue : list (list Z); lo_medium : Medium }.

Definition LoopbackDev_new (m : Medium) : LoopbackDev := MkLoopback [] m.

Definition set_queue (q : list (list Z)) (l : LoopbackDev) : LoopbackDev := MkLoopback q (lo_medium l).

(** The receive token is the packet. *)
Definition RxTokenScoop : Type := list Z.

Definition RxTokenScoop_consume {R} (buffer : RxTokenScoop) (f : list Z -> M LoopbackDev (R * list Z)) :
    M LoopbackDev R :=
  x ← f buffer; mret x.1.

Definition TxToken_consume {R} (len : Z) (f : list Z -> M LoopbackDev (R * list Z)) : M LoopbackDev R :=
  x ← f (replicate (Z.to_nat len) 0);
  modify (fun l => set_queue (lo_queue l ++ [x.2]) l) ;;
  mret x.1.

Definition LoopbackDev_receive : M LoopbackDev (option RxTokenScoop) := fun l =>
  match lo_queue l with
  | [] => Ret (None, l)
  | buffer :: queue => Ret (Some buffer, set_queue queue l)
  end.

Definition LoopbackDev_transmit : M LoopbackDev bool := mret true.

Definition LoopbackDev_capabilities (l : LoopbackDev) (caps : DeviceCapabilities) : DeviceCapabilities :=
  MkCaps 65535 (max_burst_size caps) (lo_medium l).

#[global] Instance loopback_device : Device LoopbackDev RxTokenScoop := {|
  dev_capabilities := LoopbackDev_capabilities;
  dev_receive := LoopbackDev_receive;
  dev_transmit := LoopbackDev_transmit;
  rx_consume := @RxTokenScoop_consume;
  tx_consume := @TxToken_consume;
|}.

(** ** The stack's use of the tokens *)

(** A packet is answered while it is consumed: the closure given to the receive
    token sends with the transmit token that came with it. *)
Definition answer_packet `{Device D Rx} (answer : list Z -> option (list Z)) (rx : Rx) : M D unit :=
  rx_consume rx (fun p =>
    match answer p with
    | Some q => tx_consume (Z.of_nat (length q)) (fun _ => mret (tt, q)) ;; mret (tt, p)
    | None => mret (tt, p)
    end).

(** Packets are taken until there is none. *)
Fixpoint answer_all `{Device D Rx} (fuel : nat) (answer : list Z -> option (list Z)) : M D unit :=
  match fuel with
  | O => out_of_fuel
  | S fuel =>
      o ← dev_receive;
      match o with
      | Some rx => answer_packet answer rx ;; answer_all fuel answer
      | None => mret tt
      end
  end.

(** ** The card gets every packet answered and every buffer back *)

Section eth_laws.
Context `{NL : NetDriverLaws}.

(** The state of the wrapper between two calls. *)
Record dw_view (w : DeviceWrapper) (pending sent : list (list Z)) (rx tx : gmultiset Z) : Prop := {
  vw_free : dw_borrowed w = false;
  vw_pending : nd_pending (dw_inner w) = pending;
  vw_sent : nd_sent (dw_inner w) = sent;
  vw_rx : nd_rx_lent (dw_inner w) = rx;
  vw_tx : nd_tx_lent (dw_inner w) = tx;
}.

Lemma wp_driver {A} (op : NetDevice -> result A DevError * NetDevice) r d d' b (Q : _ -> _ -> Prop) :
  op d = (r, d') -> Q r (MkDW d' b) -> wp (driver op) Q (MkDW d b).
Proof. intros E HQ. exists r, (MkDW d' b). unfold driver. simpl. by rewrite E. Qed.

Lemma wp_driver_unwrap {A} (op : NetDevice -> result A DevError * NetDevice) x d d' b (Q : _ -> _ -> Prop) :
  op d = (Ok x, d') -> Q x (MkDW d' b) -> wp (driver_unwrap op) Q (MkDW d b).
Proof. intros E HQ. unfold driver_unwrap. wp_step. eapply wp_driver; [exact E|]. by wp_step. Qed.

Lemma wp_borrow d (Q : _ -> _ -> Prop) : Q tt (MkDW d true) -> wp borrow_mut Q (MkDW d false).
Proof. intros HQ. by exists tt, (MkDW d true). Qed.

Lemma wp_end_borrow d b (Q : _ -> _ -> Prop) : Q tt (MkDW d false) -> wp end_borrow Q (MkDW d b).
Proof. intros HQ. by exists tt, (MkDW d false). Qed.

Lemma wp_eth_receive w pending sent rx tx :
  dw_view w pending sent rx tx ->
  wp DeviceWrapper_receive (fun o w' =>
    match o with
    | Some buf => exists ps, pending = nb_packet buf :: ps /\ nd_can_transmit (dw_inner w') = true /\
        dw_view w' ps sent (rx ⊎ {[+ nb_ptr buf +]}) tx
    | None => dw_view w' pending sent rx tx /\
        (pending = [] \/ (nd_recycle_tx_buffers (dw_inner w)).1 <> Ok tt \/
         nd_can_transmit (nd_recycle_tx_buffers (dw_inner w)).2 = false)
    end) w.
Proof.
  intros [V1 V2 V3 V4 V5]. destruct w as [d b]. simpl in *. subst b.
  unfold DeviceWrapper_receive. wp_step. apply wp_borrow. wp_step.
  destruct (nd_recycle_tx_buffers d) as [r d1] eqn:Er. eapply wp_driver; [exact Er|].
  destruct (nd_recycle_tx_view _ _ _ Er) as (W1 & W2 & W3 & W4).
  assert (dw_view (MkDW d1 false) pending sent rx tx) as HV by (split; simpl; congruence).
  destruct r as [[]|e].
  - wp_step. wp_step. wp_step. simpl. destruct (nd_can_transmit d1) eqn:Ec; simpl.
    + wp_step. destruct pending as [|p ps].
      * destruct (nd_receive_empty d1) as [e Ee]; [congruence|]. eapply wp_driver; [exact Ee|]. wp_step.
        wp_step. apply wp_end_borrow. wp_step. split; [done|by left].
      * destruct (nd_receive_ok d1 p ps) as (bp & d2 & Ee & P1 & P2 & P3 & P4 & P5); [congruence|].
        eapply wp_driver; [exact Ee|]. wp_step. wp_step. apply wp_end_borrow. wp_step.
        exists ps. split; [done|]. split; [simpl; congruence|]. split; simpl; congruence.
    + wp_step. wp_step. apply wp_end_borrow. wp_step. split; [done|]. right. by right.
  - wp_step. wp_step. wp_step. apply wp_end_borrow. wp_step. split; [done|]. right. by left.
Qed.

Lemma wp_eth_transmit w pending sent rx tx :
  dw_view w pending sent rx tx ->
  wp DeviceWrapper_transmit (fun b w' => dw_view w' pending sent rx tx /\
    if b : bool then nd_can_transmit (dw_inner w') = true
    else (nd_recycle_tx_buffers (dw_inner w)).1 <> Ok tt \/
         nd_can_transmit (nd_recycle_tx_buffers (dw_inner w)).2 = false) w.
Proof.
  intros [V1 V2 V3 V4 V5]. destruct w as [d b]. simpl in *. subst b.
  unfold DeviceWrapper_transmit. wp_step. apply wp_borrow. wp_step.
  destruct (nd_recycle_tx_buffers d) as [r d1] eqn:Er. eapply wp_driver; [exact Er|].
  destruct (nd_recycle_tx_view _ _ _ Er) as (W1 & W2 & W3 & W4).
  assert (dw_view (MkDW d1 false) pending sent rx tx) as HV by (split; simpl; congruence).
  destruct r as [[]|e]; wp_step; wp_step; wp_step; apply wp_end_borrow; wp_step; (split; [done|]).
  - simpl. destruct (nd_can_transmit d1); [done|by right].
  - by left.
Qed.

(** The closure may compute the packet from the buffer it gets. *)
Lemma wp_eth_tx {R} w pending sent rx tx len (f : list Z -> M DeviceWrapper (R * list Z)) (r : R) q :
  dw_view w pending sent rx tx -> nd_can_transmit (dw_inner w) = true -> 0 <= len <= 1514 ->
  (forall p w, Z.of_nat (length p) = len -> f p w = Ret ((r, q), w)) ->
  wp (AxNetTxToken_consume len f) (fun x w' => x = r /\ dw_view w' pending (sent ++ [q]) rx tx) w.
Proof.
  intros [V1 V2 V3 V4 V5] Hc Hq Hf. destruct w as [d b]. simpl in *. subst b.
  unfold AxNetTxToken_consume. wp_step. apply wp_borrow.
  destruct (nd_alloc_tx_ok d len Hc Hq) as (bp & p & d1 & E1 & Hp & P1 & P2 & P3 & P4 & P5).
  wp_step. eapply wp_driver_unwrap; [exact E1|]. wp_step. eexists _, _. split; [by apply Hf|]. wp_step. simpl.
  destruct (nd_transmit_ok d1 bp q) as (d2 & E2 & R1 & R2 & R3 & R4); [rewrite P4; multiset_solver|done|].
  eapply wp_driver_unwrap; [exact E2|]. wp_step. apply wp_end_borrow. wp_step.
  split; [done|]. split; simpl; try congruence. rewrite R4, P4, V5. multiset_solver.
Qed.

(** The buffer of a consumed packet goes back to the driver. *)
Lemma wp_eth_rx {R} w ps sent sent' rx tx b p (f : list Z -> M DeviceWrapper (R * list Z)) (r : R) :
  dw_view w ps sent (rx ⊎ {[+ b +]}) tx ->
  wp (f p) (fun x w' => x.1 = r /\ dw_view w' ps sent' (rx ⊎ {[+ b +]}) tx) w ->
  wp (AxNetRxToken_consume (MkBuf b p) f) (fun x w' => x = r /\ dw_view w' ps sent' rx tx) w.
Proof.
  intros HV Hf. unfold AxNetRxToken_consume. wp_step. simpl. eapply wp_mono; [exact Hf|].
  intros [r' p'] [d b'] [Er [V1 V2 V3 V4 V5]]. simpl in *. subst r' b'.
  wp_step. apply wp_borrow. wp_step.
  destruct (nd_recycle_rx_ok d b p') as (d1 & E1 & P1 & P2 & P3 & P4); [rewrite V4; multiset_solver|].
  eapply wp_driver_unwrap; [exact E1|]. wp_step. apply wp_end_borrow. wp_step.
  split; [done|]. split; simpl; try congruence. rewrite P3, V4. multiset_solver.
Qed.

Lemma wp_eth_answer w ps sent rx tx (answer : list Z -> option (list Z)) b p :
  dw_view w ps sent (rx ⊎ {[+ b +]}) tx -> nd_can_transmit (dw_inner w) = true ->
  (forall q, answer p = Some q -> (length q <= 1514)%nat) ->
  wp (answer_packet answer (MkBuf b p)) (fun _ w' => dw_view w' ps (sent ++ option_list (answer p)) rx tx) w.
Proof.
  intros HV Hc Hlen. unfold answer_packet. simpl.
  eapply wp_mono; [apply (wp_eth_rx w ps sent (sent ++ option_list (answer p)) rx tx b p _ tt HV)|by intros [] ? []].
  destruct (answer p) as [q|]; simpl.
  - wp_step. specialize (Hlen q eq_refl). eapply wp_mono; [apply (wp_eth_tx w ps sent _ tx _ _ tt q HV Hc); [lia|done]|].
    intros [] w' [_ HV']. by wp_step.
  - wp_step. by rewrite app_nil_r.
Qed.
End eth_laws.


(** ** The loopback device is a queue *)

(** What a user of the device does, and the packets it receives. *)
Inductive lo_op := LSend (p : list Z) | LReceive.

Fixpoint lo_run (ops : list lo_op) : M LoopbackDev (list (list Z)) :=
  match ops with
  | [] => mret []
  | LSend p :: ops => tx_consume (Z.of_nat (length p)) (fun _ => mret (tt, p)) ;; lo_run ops
  | LReceive :: ops =>
      o ← dev_receive;
      match o with
      | Some rx => p ← rx_consume rx (fun p => mret (p, p)); ps ← lo_run ops; mret (p :: ps)
      | None => lo_run ops
      end
  end.

Definition lo_sent (ops : list lo_op) : list (list Z) :=
  omap (fun op => match op with LSend p => Some p | LReceive => None end) ops.

(** C37: the loopback device is a queue: whatever the order of sends and receives,
    the packets received, followed by those still in the device, are the packets
    that were in it followed by those sent, unchanged and in order. *)
Theorem loopback_fifo (ops : list lo_op) (l : LoopbackDev) :
  wp (lo_run ops) (fun received l' => received ++ lo_queue l' = lo_queue l ++ lo_sent ops /\
    lo_medium l' = lo_medium l) l.
Proof.
  revert l. induction ops as [|[p|] ops IH]; intros l; simpl.
  - wp_step. by rewrite app_nil_r.
  - unfold TxToken_consume. wp_step. wp_step. wp_step. wp_step. wp_step. wp_step. simpl.
    eapply wp_mono; [apply IH|]. intros ps l' [E Em]. simpl in *. split; [by rewrite E, <- app_assoc|done].
  - wp_step. unfold LoopbackDev_receive. destruct l as [[|q qs] m]; simpl.
    + eexists _, _. split; [reflexivity|]. apply IH.
    + eexists _, _. split; [reflexivity|]. unfold RxTokenScoop_consume. wp_step. wp_step. wp_step. wp_step.
      wp_step. simpl. eapply wp_mono; [apply IH|]. intros ps l' [E Em]. wp_step. simpl in *. by rewrite E.
Qed.

(** ** A reference driver *)

Record rnic := MkRnic {
  rn_pending : list (list Z); rn_sent : list (list Z); rn_rx : gmultiset Z; rn_tx : gmultiset Z; rn_next : Z;
}.

Definition ref_driver : NetDriver := {|
  NetDevice := rnic;
  DevError := unit;
  nd_can_transmit _ := true;
  nd_receive d :=
    match rn_pending d with
    | [] => (Err tt, d)
    | p :: ps => (Ok (MkBuf (rn_next d) p),
        MkRnic ps (rn_sent d) (rn_rx d ⊎ {[+ rn_next d +]}) (rn_tx d) (rn_next d + 1))
    end;
  nd_recycle_rx_buffer b d :=
    (Ok tt, MkRnic (rn_pending d) (rn_sent d) (rn_rx d ∖ {[+ nb_ptr b +]}) (rn_tx d) (rn_next d));
  nd_recycle_tx_buffers d := (Ok tt, d);
  nd_alloc_tx_buffer len d :=
    (Ok (MkBuf (rn_next d) (replicate (Z.to_nat len) 0)),
     MkRnic (rn_pending d) (rn_sent d) (rn_rx d) (rn_tx d ⊎ {[+ rn_next d +]}) (rn_next d + 1));
  nd_transmit b d :=
    (Ok tt, MkRnic (rn_pending d) (rn_sent d ++ [nb_packet b]) (rn_rx d) (rn_tx d ∖ {[+ nb_ptr b +]}) (rn_next d));
|}.

#[global] Instance ref_driver_laws : @NetDriverLaws ref_driver.
Proof.
  refine (@Build_NetDriverLaws ref_driver rn_pending rn_sent rn_rx rn_tx _ _ _ _ _ _); cbn.
  - intros d p ps ->. by eexists _, _.
  - intros d ->. by eexists.
  - intros d b p _. by eexists.
  - by intros d r d' [= _ <-].
  - intros d len _ Hl. eexists _, _, _. split; [reflexivity|]. rewrite length_replicate. split; [lia|done].
  - intros d b p _ _. by eexists.
Defined.

Definition ref_nic : rnic := MkRnic [] [] ∅ ∅ 0.

