(* ===== verification/Smoltcp.v ===== *)
(** * The TCP/IP stack under the net thread

    The fork of [smoltcp] the net thread links against is not part of the
    repository: [Smoltcp] lists the operations the thread calls, over abstract
    sockets, socket sets and interfaces, and [SmoltcpLaws] states their
    documented behaviour.  The file also holds the net thread's own data: the
    address conversions of [addr.rs] and the static variables of
    [smoltcp_impl]. *)

From S2P Require Import Prelude Words Externs Uspace NetDev.

(** ** Wire types *)

Inductive IpAddress := Ipv4 (o : list Z) | Ipv6 (o : list Z).

#[global] Instance IpAddress_eq_dec : EqDecision IpAddress.
Proof. solve_decision. Defined.

Record IpEndpoint := MkEp { ep_addr : IpAddress; ep_port : Z }.

#[global] Instance IpEndpoint_eq_dec : EqDecision IpEndpoint.
Proof. solve_decision. Defined.

(** [IpListenEndpoint]: no address means any address. *)
Record IpListenEndpoint := MkLep { lep_addr : option IpAddress; lep_port : Z }.

#[global] Instance IpListenEndpoint_eq_dec : EqDecision IpListenEndpoint.
Proof. solve_decision. Defined.

Definition as_bytes (ip : IpAddress) : list Z :=
  match ip with Ipv4 o => o | Ipv6 o => o end.

(** The states of [smoltcp::socket::tcp::State]. *)
Inductive State :=
  | Closed | Listen | SynSent | SynReceived | Established | FinWait1 | FinWait2
  | CloseWait | Closing | LastAck | TimeWait.

#[global] Instance State_eq_dec : EqDecision State.
Proof. solve_decision. Defined.

Inductive ConnectError := InvalidState | Unaddressable.

(** ** smoltcp *)

Abbreviation SocketHandle := Z (only parsing).

Class Smoltcp := {
  (** the driver of the network card *)
  #[global] smoltcp_driver :: NetDriver;
  (** [tcp::Socket], [SocketSet] and [Interface] *)
  TcpSock : Type; SocketSet : Type; Iface : Type;
  (** [tcp::Socket::new] with the lengths of its receive and send buffers *)
  sk_new : Z -> Z -> TcpSock;
  sk_state : TcpSock -> State;
  sk_local_endpoint : TcpSock -> option IpEndpoint;
  sk_remote_endpoint : TcpSock -> option IpEndpoint;
  sk_listen : IpListenEndpoint -> TcpSock -> result unit unit * TcpSock;
  sk_connect : IpEndpoint -> IpListenEndpoint -> Iface -> TcpSock ->
    result unit ConnectError * Iface * TcpSock;
  sk_close : TcpSock -> TcpSock;
  sk_bound_endpoint : TcpSock -> IpListenEndpoint;
  sk_set_bound_endpoint : IpListenEndpoint -> TcpSock -> TcpSock;
  sk_recv_queue : TcpSock -> Z;
  (** [recv_slice] into a buffer of the given length; [send_slice] *)
  sk_recv_slice : Z -> TcpSock -> result (list Z) unit * TcpSock;
  sk_send_slice : list Z -> TcpSock -> result Z unit * TcpSock;
  sk_is_active : TcpSock -> bool; sk_may_recv : TcpSock -> bool;
  sk_may_send : TcpSock -> bool; sk_can_recv : TcpSock -> bool;
  sk_can_send : TcpSock -> bool;
  sk_nagle_enabled : TcpSock -> bool;
  sk_set_nagle_enabled : bool -> TcpSock -> TcpSock;
  (** socket sets: [get] and [remove] of an unknown handle panic *)
  set_new : SocketSet;
  set_add : TcpSock -> SocketSet -> SocketHandle * SocketSet;
  set_get : SocketSet -> SocketHandle -> option TcpSock;
  set_put : SocketHandle -> TcpSock -> SocketSet -> SocketSet;
  set_remove : SocketHandle -> SocketSet -> option SocketSet;
  (** the TCP sockets of the set, and the addresses its UDP sockets are bound to *)
  set_tcp : SocketSet -> list (SocketHandle * TcpSock);
  set_udp_addrs : SocketSet -> list (option IpAddress);
  (** [Interface::poll] with a device: the [preprocess] of its receive token on the
      sockets (and on a state of the caller's), the time, the interface, the
      device and the sockets *)
  iface_poll : forall {T D Rx : Type} `{Device D Rx},
    (Rx -> T * SocketSet -> outcome (T * SocketSet)) ->
    Z -> Iface -> D -> T * SocketSet -> outcome (Iface * D * (T * SocketSet));
  (** checked parsing of an Ethernet frame, an IPv4 packet and a TCP packet:
      payload; protocol is TCP, source, destination and payload; source port,
      destination port, SYN and ACK *)
  ethernet_payload : list Z -> option (list Z);
  ipv4_fields : list Z -> option (bool * list Z * list Z * list Z);
  tcp_fields : list Z -> option (Z * Z * bool * bool);
}.

Class SmoltcpLaws `{Smoltcp} : Prop := {
  sk_state_new rx tx : sk_state (sk_new rx tx) = Closed;
  (** endpoints exist while there is a connection *)
  sk_endpoints sk : sk_state sk <> Closed -> sk_state sk <> Listen ->
    exists l r, sk_local_endpoint sk = Some l /\ sk_remote_endpoint sk = Some r;
  sk_listen_new lep rx tx : lep_port lep <> 0 ->
    exists sk, sk_listen lep (sk_new rx tx) = (Ok tt, sk) /\ sk_state sk = Listen;
  sk_connect_ok r l i sk i' sk' : sk_connect r l i sk = (Ok tt, i', sk') ->
    sk_state sk' = SynSent;
  sk_bound_set lep sk : sk_bound_endpoint (sk_set_bound_endpoint lep sk) = lep;
  (** a set is a finite map from handles to sockets; [add] picks a free handle *)
  set_get_add sk s h s' : set_add sk s = (h, s') ->
    set_get s h = None /\ forall h', set_get s' h' = if decide (h' = h) then Some sk else set_get s h';
  set_get_put h sk0 sk s : set_get s h = Some sk0 ->
    forall h', set_get (set_put h sk s) h' = if decide (h' = h) then Some sk else set_get s h';
  set_remove_ok h sk s : set_get s h = Some sk ->
    exists s', set_remove h s = Some s' /\
      forall h', set_get s' h' = if decide (h' = h) then None else set_get s h';
  set_tcp_ok s h sk : (h, sk) ∈ set_tcp s <-> set_get s h = Some sk;
  set_new_empty h : set_get set_new h = None;
  (** [poll] changes the sockets of the set but adds and removes none, and
      reaches the caller's state only through [preprocess] *)
  iface_poll_preserves {T D Rx} `{Device D Rx} (pre : Rx -> T * SocketSet -> outcome (T * SocketSet))
      now i (d : D) ts i' d' ts' (P : T * SocketSet -> Prop) :
    (forall p ts ts', P ts -> pre p ts = Ret ts' -> P ts') ->
    (forall t s s', (forall h, is_Some (set_get s h) <-> is_Some (set_get s' h)) ->
       P (t, s) -> P (t, s')) ->
    P ts -> iface_poll pre now i d ts = Ret (i', d', ts') -> P ts';
}.

(** ** Address conversions ([addr.rs]) *)

Definition from_core_ipaddr (ip : IpAddr) : IpAddress :=
  match ip with V4 o => Ipv4 o | V6 o => Ipv6 o end.

Definition into_core_ipaddr (ip : IpAddress) : IpAddr :=
  match ip with Ipv4 o => V4 o | Ipv6 o => V6 o end.

Definition from_core_sockaddr (a : SocketAddr) : IpEndpoint :=
  MkEp (from_core_ipaddr (sock_ip a)) (sock_port a).

Definition into_core_sockaddr (e : IpEndpoint) : SocketAddr :=
  MkSocketAddr (into_core_ipaddr (ep_addr e)) (ep_port e).

Definition is_unspecified (ip : IpAddress) : bool :=
  bool_decide (as_bytes ip = [0; 0; 0; 0]).

Definition UNSPECIFIED_IP : IpAddress := Ipv4 [0; 0; 0; 0].
Definition UNSPECIFIED_ENDPOINT : IpEndpoint := MkEp UNSPECIFIED_IP 0.

Lemma from_into_sockaddr e : from_core_sockaddr (into_core_sockaddr e) = e.
Proof. by destruct e as [[] ?]. Qed.

Lemma into_from_sockaddr a : into_core_sockaddr (from_core_sockaddr a) = a.
Proof. by destruct a as [[] ?]. Qed.

(** ** The net thread's static state *)

Definition TCP_RX_BUF_LEN : Z := 64 * 64.
Definition TCP_TX_BUF_LEN : Z := 64 * 64.
Definition LISTEN_QUEUE_SIZE : Z := 32.

Record ListenTableEntry := MkEntry {
  listen_endpoint : IpListenEndpoint;
  syn_queue : list SocketHandle;
}.

Abbreviation ListenTable := (list (option ListenTableEntry)) (only parsing).

(** [TIME_TICKS] read as a time in microseconds, after it is incremented. *)
Definition tick : M Z Z := fun ticks =>
  let t := wrap64 (ticks + 1) in Ret (as_i64 t, t).

Section net.
Context `{SM : Smoltcp}.

(** [SOCKET_SET], [LISTEN_TABLE], [LOOPBACK], [LOOPBACK_DEV], the interface and
    device of [ETH0], [TIME_TICKS], and the [CURR] of [get_ephemeral_port]. *)
Record Net := MkNet {
  n_set : SocketSet;
  n_table : ListenTable;
  n_loop : Iface;
  n_loopdev : LoopbackDev;
  n_eth : Iface;
  n_ethdev : DeviceWrapper;
  n_ticks : Z;
  n_curr : Z;
}.

Definition put_set (x : SocketSet) (n : Net) : Net :=
  MkNet x (n_table n) (n_loop n) (n_loopdev n) (n_eth n) (n_ethdev n) (n_ticks n) (n_curr n).
Definition put_table (x : ListenTable) (n : Net) : Net :=
  MkNet (n_set n) x (n_loop n) (n_loopdev n) (n_eth n) (n_ethdev n) (n_ticks n) (n_curr n).
Definition put_loop (i : Iface) (d : LoopbackDev) (n : Net) : Net :=
  MkNet (n_set n) (n_table n) i d (n_eth n) (n_ethdev n) (n_ticks n) (n_curr n).
Definition put_eth (i : Iface) (d : DeviceWrapper) (n : Net) : Net :=
  MkNet (n_set n) (n_table n) (n_loop n) (n_loopdev n) i d (n_ticks n) (n_curr n).
Definition put_ticks (x : Z) (n : Net) : Net :=
  MkNet (n_set n) (n_table n) (n_loop n) (n_loopdev n) (n_eth n) (n_ethdev n) x (n_curr n).
Definition put_curr (x : Z) (n : Net) : Net :=
  MkNet (n_set n) (n_table n) (n_loop n) (n_loopdev n) (n_eth n) (n_ethdev n) (n_ticks n) x.

(** ** [SocketSetWrapper] *)

Definition new_tcp_socket : TcpSock := sk_new TCP_RX_BUF_LEN TCP_TX_BUF_LEN.

Definition SocketSetWrapper_add (sk : TcpSock) : M Net SocketHandle := fun n =>
  let '(h, s) := set_add sk (n_set n) in Ret (h, put_set s n).

Definition with_socket {A} (handle : SocketHandle) (f : TcpSock -> A) : M Net A := fun n =>
  match set_get (n_set n) handle with
  | Some sk => Ret (f sk, n)
  | None => Panic PExplicit
  end.

Definition with_socket_mut {A} (handle : SocketHandle) (f : TcpSock -> A * TcpSock) : M Net A :=
  fun n =>
  match set_get (n_set n) handle with
  | Some sk => let '(a, sk') := f sk in Ret (a, put_set (set_put handle sk' (n_set n)) n)
  | None => Panic PExplicit
  end.

Definition SocketSetWrapper_remove (handle : SocketHandle) : M Net unit := fun n =>
  match set_remove handle (n_set n) with
  | Some s => Ret (tt, put_set s n)
  | None => Panic PExplicit
  end.

(** [bind_check] looks at the addresses only; the order in which it meets TCP
    and UDP sockets does not matter for its answer. *)
Definition bind_check `{AX : AxErrno} (addr : IpAddress) (_port : Z) :
    M Net (result unit AxError) := fun n =>
  if existsb (fun x => bool_decide (lep_addr (sk_bound_endpoint x.2) = Some addr))
       (set_tcp (n_set n))
  then Ret (Err AddrInUse, n)
  else if existsb (fun x => bool_decide (x = Some addr)) (set_udp_addrs (n_set n))
  then Ret (Err AddrInUse, n)
  else Ret (Ok tt, n).

(** [InterfaceWrapper::current_time]. *)
Definition current_time : M Net Z := zoom n_ticks put_ticks tick.
End net.
Arguments Net {SM}.
