(* ===== verification/RefSmoltcp.v ===== *)
(** * A reference instance of the TCP/IP stack

    Sockets are records, sets are finite maps, and [poll] takes at most one
    packet from the device.  The instance is used by the witnesses only; it
    shows that [SmoltcpLaws] can hold. *)

From S2P Require Import Prelude Words Externs Uspace NetDev Smoltcp.

Record rsock := MkRSock {
  r_state : State;
  r_local : option IpEndpoint;
  r_remote : option IpEndpoint;
  r_bound : IpListenEndpoint;
  r_rx : list Z;
  r_nagle : bool;
}.

Definition r_any : IpEndpoint := MkEp (Ipv4 [10; 0; 2; 15]) 1.

Definition rsock_new : rsock := MkRSock Closed None None (MkLep None 0) [] true.

(** A connection always has endpoints. *)
Definition rsock_ep (sk : rsock) (f : rsock -> option IpEndpoint) : option IpEndpoint :=
  match r_state sk with Closed | Listen => f sk | _ => Some (default r_any (f sk)) end.

Definition rset_next (m : gmap Z rsock) : Z := 1 + foldr Z.max 0 (map_to_list m).*1.

Lemma rset_next_fresh m : m !! rset_next m = None.
Proof.
  destruct (m !! rset_next m) as [sk|] eqn:E; [|done]. exfalso.
  assert (forall l (x : Z), x ∈ l -> x <= foldr Z.max 0 l) as Hmax.
  { induction l as [|y l IH]; intros x; simpl; [by intros ?%not_elem_of_nil|].
    intros [->|Hx]%elem_of_cons; [lia|]. specialize (IH x Hx). lia. }
  specialize (Hmax (map_to_list m).*1 (rset_next m)). unfold rset_next in *.
  enough (1 + foldr Z.max 0 (map_to_list m).*1 ∈ (map_to_list m).*1) as Hin
    by (specialize (Hmax Hin); lia).
  apply list_elem_of_fmap. eexists (_, sk). split; [done|]. by apply elem_of_map_to_list.
Qed.

Definition be16 (a b : Z) : Z := a * 256 + b.

Definition ref_smoltcp : Smoltcp := {|
  TcpSock := rsock; SocketSet := gmap Z rsock; Iface := list (IpAddress * Z) * option IpAddress;
  smoltcp_driver := ref_driver;
  sk_new _ _ := rsock_new;
  sk_state := r_state;
  sk_local_endpoint sk := rsock_ep sk r_local;
  sk_remote_endpoint sk := rsock_ep sk r_remote;
  sk_listen lep sk :=
    if bool_decide (lep_port lep = 0) then (Err tt, sk)
    else (Ok tt, MkRSock Listen None None lep (r_rx sk) (r_nagle sk));
  sk_connect r l i sk :=
    match r_state sk with
    | Closed => (Ok tt, i, MkRSock SynSent
        (Some (MkEp (default (Ipv4 [10; 0; 2; 15]) (lep_addr l)) (lep_port l))) (Some r)
        (r_bound sk) (r_rx sk) (r_nagle sk))
    | _ => (Err InvalidState, i, sk)
    end;
  sk_close sk := MkRSock Closed None None (r_bound sk) (r_rx sk) (r_nagle sk);
  sk_bound_endpoint := r_bound;
  sk_set_bound_endpoint lep sk :=
    MkRSock (r_state sk) (r_local sk) (r_remote sk) lep (r_rx sk) (r_nagle sk);
  sk_recv_queue sk := Z.of_nat (length (r_rx sk));
  sk_recv_slice n sk :=
    (Ok (take (Z.to_nat n) (r_rx sk)),
     MkRSock (r_state sk) (r_local sk) (r_remote sk) (r_bound sk)
       (drop (Z.to_nat n) (r_rx sk)) (r_nagle sk));
  sk_send_slice bs sk := (Ok (Z.of_nat (length bs)), sk);
  sk_is_active sk := negb (bool_decide (r_state sk = Closed));
  sk_may_recv sk := bool_decide (r_state sk = Established);
  sk_may_send sk := bool_decide (r_state sk = Established);
  sk_can_recv sk := bool_decide (r_rx sk <> []);
  sk_can_send sk := bool_decide (r_state sk = Established);
  sk_nagle_enabled := r_nagle;
  sk_set_nagle_enabled b sk :=
    MkRSock (r_state sk) (r_local sk) (r_remote sk) (r_bound sk) (r_rx sk) b;
  set_new := ∅;
  set_add sk m := (rset_next m, <[rset_next m := sk]> m);
  set_get m h := m !! h;
  set_put h sk m := <[h := sk]> m;
  set_remove h m := match m !! h with Some _ => Some (delete h m) | None => None end;
  set_tcp m := map_to_list m;
  set_udp_addrs _ := [];
  iface_poll T D Rx dev pre _ i d ts :=
    match dev_receive d with
    | Ret (Some p, d) =>
        ts ← pre p ts;
        match rx_consume p (fun bs => mret (tt, bs)) d with
        | Ret (_, d) => Ret (i, d, ts)
        | Panic p => Panic p | Deadlock => Deadlock | NoFuel => NoFuel
        end
    | Ret (None, d) => Ret (i, d, ts)
    | Panic p => Panic p | Deadlock => Deadlock | NoFuel => NoFuel
    end;
  ethernet_payload p := if decide (14 <= length p)%nat then Some (drop 14 p) else None;
  ipv4_fields p :=
    if decide (20 <= length p)%nat then
      Some (bool_decide (p !! 9%nat = Some 6), take 4 (drop 12 p), take 4 (drop 16 p), drop 20 p)
    else None;
  tcp_fields p :=
    match p with
    | s1 :: s0 :: d1 :: d0 :: _ :: _ :: _ :: _ :: _ :: _ :: _ :: _ :: _ :: flags :: _ =>
        Some (be16 s1 s0, be16 d1 d0, Z.testbit flags 1, Z.testbit flags 4)
    | _ => None
    end;
|}.

Lemma ref_smoltcp_laws : @SmoltcpLaws ref_smoltcp.
Proof.
  split; cbn.
  - done.
  - intros sk Hc Hl. unfold rsock_ep. destruct (r_state sk); naive_solver.
  - intros lep _ _ Hp. rewrite bool_decide_eq_false_2 by done. by eexists.
  - intros r l i sk i' sk'. destruct (r_state sk); by intros [= <- <-].
  - done.
  - intros sk s h s' [= <- <-]. split; [apply rset_next_fresh|].
    intros h'. case_decide; subst; by rewrite ?lookup_insert_eq, ?lookup_insert_ne.
  - intros h sk0 sk s _ h'. case_decide; subst; by rewrite ?lookup_insert_eq, ?lookup_insert_ne.
  - intros h sk s ->. eexists. split; [done|]. intros h'.
    case_decide; subst; by rewrite ?lookup_delete_eq, ?lookup_delete_ne.
  - intros s h sk. apply elem_of_map_to_list.
  - intros h. apply lookup_empty.
  - intros T D Rx dev pre _ i d ts i' d' ts' P Hpre _ HP.
    destruct (dev_receive d) as [[[p|] d1]| | |]; cbn; try done; [|by intros [= <- <- <-]].
    destruct (pre p ts) as [ts1| | |] eqn:E; cbn; try done.
    destruct (rx_consume _ _ _) as [[? ?]| | |]; try done. intros [= <- <- <-]. by eapply Hpre.
Qed.

(** A net thread state over given sockets and listen table. *)
Definition ref_net (m : gmap Z rsock) (t : list (option ListenTableEntry)) : @Net ref_smoltcp :=
  @MkNet ref_smoltcp m t ([], None) (LoopbackDev_new Ip) ([], None) (@DeviceWrapper_new ref_driver ref_nic) 0 0x1000.
