(* ===== verification/ListenTable.v ===== *)
(** * Passive connections ([crates/net-thread/src/smoltcp_impl/listen_table.rs]
      and the packet snooping of [mod.rs] and [loopback.rs])

    A SYN that arrives for a listening port gets a socket of its own, queued in
    the port's entry until [accept] takes it.  The component's invariant is
    that queued handles are live and belong to nobody else. *)

From S2P Require Import Prelude Words Externs Reference Uspace NetDev Smoltcp RefSmoltcp.

Definition PORT_NUM : Z := 0x2000.

Definition ListenTableEntry_new (listen_endpoint : IpListenEndpoint) : ListenTableEntry :=
  MkEntry listen_endpoint [].

Definition ListenTableEntry_can_accept (self : ListenTableEntry) (dst : IpAddress) : bool :=
  match lep_addr (listen_endpoint self) with
  | Some addr => bool_decide (addr = dst)
  | None => true
  end.

Definition ListenTable_new : ListenTable := replicate (Z.to_nat PORT_NUM) None.

(** [VecDeque::swap_remove_front]: the element at [idx] is exchanged with the
    front one and popped. *)
Definition swap_remove_front {A} (idx : nat) (q : list A) : option (A * list A) :=
  match q !! idx with
  | Some x =>
      match q with
      | [] => None
      | front :: _ => Some (x, tail (<[idx := front]> q))
      end
  | None => None
  end.

Section table.
Context `{SM : Smoltcp} `{AX : AxErrno}.

Definition is_connected (handle : SocketHandle) : M Net bool :=
  with_socket handle (fun socket =>
    match sk_state socket with Listen | SynReceived => false | _ => true end).

Definition is_closed (handle : SocketHandle) : M Net bool :=
  with_socket handle (fun socket =>
    match sk_state socket with Closed => true | _ => false end).

Definition get_addr_tuple (handle : SocketHandle) : M Net (IpEndpoint * IpEndpoint) :=
  lr ← with_socket handle (fun socket => (sk_local_endpoint socket, sk_remote_endpoint socket));
  l ← unwrap lr.1; r ← unwrap lr.2; mret (l, r).

(** [impl Drop for ListenTableEntry] *)
Definition ListenTableEntry_drop (self : ListenTableEntry) : M Net unit :=
  for_each SocketSetWrapper_remove (syn_queue self).

(** [self.tcp[port]] *)
Definition table_at (port : Z) : M Net (option ListenTableEntry) := fun n =>
  match index (n_table n) port with
  | Ret e => Ret (e, n) | Panic p => Panic p | Deadlock => Deadlock | NoFuel => NoFuel
  end.
Definition table_set (port : Z) (e : option ListenTableEntry) : M Net unit := fun n =>
  match index_set (n_table n) port e with
  | Ret t => Ret (tt, put_table t n)
  | Panic p => Panic p | Deadlock => Deadlock | NoFuel => NoFuel
  end.

Definition can_listen (port : Z) : M Net bool :=
  e ← table_at port; mret (match e with None => true | Some _ => false end).

Definition ListenTable_listen (listen_endpoint : IpListenEndpoint) : M Net (result unit AxError) :=
  let port := lep_port listen_endpoint in
  assert (negb (port =? 0)) ;;
  entry ← table_at port;
  match entry with
  | None => table_set port (Some (ListenTableEntry_new listen_endpoint)) ;; mret (Ok tt)
  | Some _ => mret (Err AddrInUse)
  end.

(** The assignment drops the old entry. *)
Definition unlisten (port : Z) : M Net unit :=
  e ← table_at port;
  match e with Some e => ListenTableEntry_drop e | None => mret tt end ;;
  table_set port None.

(** [syn_queue.iter().any(...)] *)
Fixpoint any_connected (q : list SocketHandle) : M Net bool :=
  match q with
  | [] => mret false
  | handle :: q => c ← is_connected handle; if c : bool then mret true else any_connected q
  end.

Definition ListenTable_can_accept (port : Z) : M Net (result bool AxError) :=
  e ← table_at port;
  match e with
  | Some entry => b ← any_connected (syn_queue entry); mret (Ok b)
  | None => mret (Err InvalidInput)
  end.

(** [enumerate().find_map(...)] *)
Fixpoint find_connected (idx : nat) (q : list SocketHandle) : M Net (option nat) :=
  match q with
  | [] => mret None
  | handle :: q =>
      c ← is_connected handle; if c : bool then mret (Some idx) else find_connected (S idx) q
  end.

Definition ListenTable_accept (port : Z) :
    M Net (result (SocketHandle * (IpEndpoint * IpEndpoint)) AxError) :=
  e ← table_at port;
  match e with
  | Some entry =>
      idx ← find_connected 0 (syn_queue entry);
      match idx with
      | None => mret (Err WouldBlock)
      | Some idx =>
          hq ← unwrap (swap_remove_front idx (syn_queue entry));
          table_set port (Some (MkEntry (listen_endpoint entry) hq.2)) ;;
          closed ← is_closed hq.1;
          if closed : bool then mret (Err ConnectionReset)
          else addrs ← get_addr_tuple hq.1; mret (Ok (hq.1, addrs))
      end
  | None => mret (Err InvalidInput)
  end.

(** [incoming_tcp_packet] works on the sockets the caller has already locked. *)
Definition incoming_tcp_packet (src dst : IpEndpoint) (ts : ListenTable * SocketSet) :
    outcome (ListenTable * SocketSet) :=
  let '(table, sockets) := ts in
  e ← index table (ep_port dst);
  match e with
  | None => Ret ts
  | Some entry =>
      if negb (ListenTableEntry_can_accept entry (ep_addr dst)) then Ret ts
      else if Z.of_nat (length (syn_queue entry)) >=? LISTEN_QUEUE_SIZE then Ret ts
      else
        match sk_listen (listen_endpoint entry) new_tcp_socket with
        | (Ok _, socket) =>
            let '(handle, sockets) := set_add socket sockets in
            table ← index_set table (ep_port dst)
                      (Some (MkEntry (listen_endpoint entry) (syn_queue entry ++ [handle])));
            Ret (table, sockets)
        | (Err _, _) => Ret ts
        end
  end.

(** ** Snooping on received packets *)

(** [snoop_tcp_from_ip]: the packet of a loopback device; the result of the
    function is ignored by its caller. *)
Definition snoop_tcp_from_ip (buffer : list Z) (ts : ListenTable * SocketSet) :
    outcome (ListenTable * SocketSet) :=
  match ipv4_fields buffer with
  | Some (is_tcp, src, dst, payload) =>
      if is_tcp : bool then
        match tcp_fields payload with
        | Some (src_port, dst_port, syn, ack) =>
            if syn && negb ack
            then incoming_tcp_packet (MkEp (Ipv4 src) src_port) (MkEp (Ipv4 dst) dst_port) ts
            else Ret ts
        | None => Ret ts
        end
      else Ret ts
  | None => Ret ts
  end.

(** [snoop_tcp_packet]: the same inside an Ethernet frame. *)
Definition snoop_tcp_packet (buf : list Z) (ts : ListenTable * SocketSet) :
    outcome (ListenTable * SocketSet) :=
  match ethernet_payload buf with
  | Some ip => snoop_tcp_from_ip ip ts
  | None => Ret ts
  end.

(** The [preprocess] of the two receive tokens. *)
Definition RxTokenScoop_preprocess (buffer : RxTokenScoop) (ts : ListenTable * SocketSet) :
    outcome (ListenTable * SocketSet) :=
  snoop_tcp_from_ip buffer ts.
Definition AxNetRxToken_preprocess (rx_buf : NetBufPtr) (ts : ListenTable * SocketSet) :
    outcome (ListenTable * SocketSet) :=
  snoop_tcp_packet (nb_packet rx_buf) ts.

(** [SocketSetWrapper::poll_interfaces], with [InterfaceWrapper::poll]. *)
Definition poll_loopback_at (now : Z) : M Net unit := fun n =>
    match iface_poll RxTokenScoop_preprocess now
            (n_loop n) (n_loopdev n) (n_table n, n_set n) with
    | Ret (i, d, (t, s)) => Ret (tt, put_loop i d (put_table t (put_set s n)))
    | Panic p => Panic p | Deadlock => Deadlock | NoFuel => NoFuel
    end.
Definition poll_eth_at (now : Z) : M Net unit := fun n =>
    match iface_poll AxNetRxToken_preprocess now
            (n_eth n) (n_ethdev n) (n_table n, n_set n) with
    | Ret (i, d, (t, s)) => Ret (tt, put_eth i d (put_table t (put_set s n)))
    | Panic p => Panic p | Deadlock => Deadlock | NoFuel => NoFuel
    end.
Definition InterfaceWrapper_poll : M Net unit := now ← current_time; poll_eth_at now.
Definition poll_interfaces : M Net unit :=
  (now ← current_time; poll_loopback_at now) ;; InterfaceWrapper_poll.

(** ** Ephemeral ports ([get_ephemeral_port] of [tcp.rs]) *)

Definition PORT_START : Z := 0x1000.
Definition PORT_END : Z := 0xffff.

Fixpoint ephemeral_loop (tries : nat) : M Net (result Z AxError) :=
  match tries with
  | O => mret (Err AddrInUse)
  | S tries =>
      port ← gets n_curr;
      modify (put_curr (if port =? PORT_END then PORT_START else port + 1)) ;;
      free ← can_listen port;
      if free : bool then mret (Ok port) else ephemeral_loop tries
  end.

(** The debug print queries port 6379 first. *)
Definition get_ephemeral_port : M Net (result Z AxError) :=
  can_listen 6379 ;; ephemeral_loop (Z.to_nat (PORT_END - PORT_START + 1)).
End table.

(** ** The invariant

    [others] are the handles owned by the net thread's [TcpSocket]s.  Together
    with the queued ones they are pairwise different and live; queues have at
    most [LISTEN_QUEUE_SIZE] elements; an entry listens on its own port. *)

Definition entry_handles (e : option ListenTableEntry) : list Z :=
  match e with Some e => syn_queue e | None => [] end.

Definition queue_handles (t : ListenTable) : list Z := t ≫= entry_handles.

Definition entry_ok (p : nat) (e : option ListenTableEntry) : Prop :=
  match e with
  | Some e => lep_port (listen_endpoint e) = Z.of_nat p /\ p <> 0%nat /\
              Z.of_nat (length (syn_queue e)) <= LISTEN_QUEUE_SIZE
  | None => True
  end.

Definition table_ok (t : ListenTable) : Prop :=
  Z.of_nat (length t) = PORT_NUM /\ forall p e, t !! p = Some e -> entry_ok p e.

Definition net_inv `{Smoltcp} (others : list Z) (ts : ListenTable * SocketSet) : Prop :=
  table_ok ts.1 /\ NoDup (others ++ queue_handles ts.1) /\
  forall h, h ∈ others ++ queue_handles ts.1 -> is_Some (set_get ts.2 h).

Definition net_ok `{Smoltcp} (others : list Z) (n : Net) : Prop :=
  net_inv others (n_table n, n_set n).

(** Replacing the entry of one port. *)
Lemma queue_handles_insert (t : ListenTable) (p : nat) old new :
  t !! p = Some old ->
  exists r, queue_handles t ≡ₚ entry_handles old ++ r /\
            queue_handles (<[p := new]> t) ≡ₚ entry_handles new ++ r.
Proof. apply bind_insert_Permutation. Qed.

Lemma table_ok_insert t (p : nat) e :
  table_ok t -> entry_ok p e -> table_ok (<[p := e]> t).
Proof.
  intros [Hlen Ht] He. split; [by rewrite length_insert|].
  intros q e' [(-> & <- & _)|[Hne Hq]]%list_lookup_insert_Some; [done|by apply Ht].
Qed.

Section invariant.
Context `{SM : Smoltcp} `{SL : !SmoltcpLaws} `{AX : AxErrno}.
Implicit Types n : Net.

Lemma net_inv_sockets others t s s' :
  (forall h, is_Some (set_get s h) <-> is_Some (set_get s' h)) ->
  net_inv others (t, s) -> net_inv others (t, s').
Proof. intros Hs (Ht & Hd & Hl). split_and!; try done. intros h Hh. by apply Hs, Hl. Qed.

(** The index of a valid port, and of an invalid one. *)
Lemma index_port t port :
  table_ok t -> 0 <= port < PORT_NUM ->
  exists e, index t port = Ret e /\ t !! Z.to_nat port = Some e /\ entry_ok (Z.to_nat port) e.
Proof.
  intros [Hlen Ht] Hp. destruct (lookup_lt_is_Some_2 t (Z.to_nat port)) as [e He]; [lia|].
  exists e. split_and!; auto. rewrite <- (Z2Nat.id port) by lia. by apply index_Ret.
Qed.

Lemma table_at_Ret others n port :
  net_ok others n -> 0 <= port < PORT_NUM ->
  exists e, table_at port n = Ret (e, n) /\ n_table n !! Z.to_nat port = Some e /\
            entry_ok (Z.to_nat port) e.
Proof.
  intros (Ht & _) Hp. destruct (index_port _ _ Ht Hp) as (e & E & He & Ho).
  exists e. unfold table_at. simpl in E. by rewrite E.
Qed.

Lemma table_at_inv port n e n' :
  table_at port n = Ret (e, n') ->
  n' = n /\ n_table n !! Z.to_nat port = Some e /\ 0 <= port.
Proof.
  unfold table_at, index. case_decide; [|done].
  destruct (n_table n !! Z.to_nat port) eqn:E; [|done]. by intros [= -> ->].
Qed.

Lemma table_set_Ret n port e :
  0 <= port < Z.of_nat (length (n_table n)) ->
  table_set port e n = Ret (tt, put_table (<[Z.to_nat port := e]> (n_table n)) n).
Proof. intros H. unfold table_set, index_set. by rewrite decide_True. Qed.

(** A new socket is live and unowned. *)
Lemma set_add_inv others t s sk h s' :
  net_inv others (t, s) -> set_add sk s = (h, s') -> net_inv (h :: others) (t, s').
Proof.
  intros (Ht & Hd & Hl) Ha. destruct (set_get_add _ _ _ _ Ha) as [Hnone Hget].
  assert (h ∉ others ++ queue_handles t) as Hh.
  { intros Hin. destruct (Hl _ Hin) as [x Hx]. simpl in Hx. congruence. }
  split_and!; [done|by constructor|].
  intros h' Hh'. simpl. rewrite Hget. destruct (decide (h' = h)); [by eexists|].
  apply Hl. set_solver.
Qed.

(** Ownership moves between the sockets and the queues. *)
Lemma net_inv_perm others others' t t' s :
  table_ok t' -> others ++ queue_handles t ≡ₚ others' ++ queue_handles t' ->
  net_inv others (t, s) -> net_inv others' (t', s).
Proof.
  intros Ht' HP (Ht & Hd & Hl). split_and!; [done| |].
  - simpl. by rewrite <- HP.
  - intros h Hh. apply Hl. simpl. by rewrite HP.
Qed.

(** Forgetting a handle, and removing it from the set. *)
Lemma net_inv_forget h others t s :
  net_inv (h :: others) (t, s) -> net_inv others (t, s).
Proof.
  intros (Ht & Hd & Hl). split_and!; [done|by inversion Hd|]. intros; apply Hl. set_solver.
Qed.

Lemma net_inv_remove h others t s :
  net_inv (h :: others) (t, s) ->
  exists s', set_remove h s = Some s' /\ net_inv others (t, s').
Proof.
  intros (Ht & Hd & Hl). destruct (Hl h) as [sk Hsk]; [set_solver|].
  destruct (set_remove_ok _ _ _ Hsk) as (s' & E & Hget). exists s'. split; [done|].
  simpl in Hd. inversion Hd as [|? ? Hh Hd']; subst.
  split_and!; [done|done|]. intros h' Hh'. simpl. rewrite Hget.
  rewrite decide_False by (intros ->; done). apply Hl. set_solver.
Qed.

(** ** Incoming packets keep it *)

Lemma incoming_preserves others src dst ts ts' :
  net_inv others ts -> incoming_tcp_packet src dst ts = Ret ts' -> net_inv others ts'.
Proof.
  destruct ts as [t s]. intros Hi. unfold incoming_tcp_packet, mbind, outcome_bind, index.
  case_decide as Hport; [|done].
  destruct (t !! Z.to_nat (ep_port dst)) as [[e|]|] eqn:He; [|by intros [= <-]|done].
  destruct (ListenTableEntry_can_accept e _); [|by intros [= <-]]. cbn [negb].
  destruct (Z.geb_spec (Z.of_nat (length (syn_queue e))) LISTEN_QUEUE_SIZE) as [|Hq];
    [by intros [= <-]|].
  destruct (sk_listen _ _) as [[[]|] sk]; [|by intros [= <-]].
  destruct (set_add sk s) as [h s'] eqn:Ha.
  unfold index_set. case_decide as Hlt; [|done]. intros [= <-].
  apply (set_add_inv _ _ _ _ _ _ Hi) in Ha. destruct Hi as ([Hlen Hent] & _ & _).
  pose proof (Hent _ _ He) as (Hp & Hp0 & _).
  destruct (queue_handles_insert t (Z.to_nat (ep_port dst)) (Some e)
    (Some (MkEntry (listen_endpoint e) (syn_queue e ++ [h]))) He) as (r & Hr & Hr').
  eapply net_inv_perm; [| |exact Ha].
  - apply table_ok_insert; [done|]. split_and!; [done|done|].
    simpl. rewrite length_app. simpl. lia.
  - rewrite Hr, Hr'. simpl. solve_Permutation.
Qed.

Lemma snoop_ip_preserves others p ts ts' :
  net_inv others ts -> snoop_tcp_from_ip p ts = Ret ts' -> net_inv others ts'.
Proof.
  intros Hi. unfold snoop_tcp_from_ip.
  repeat case_match; try (by intros [= <-]). by apply incoming_preserves.
Qed.

Lemma snoop_eth_preserves others p ts ts' :
  net_inv others ts -> snoop_tcp_packet p ts = Ret ts' -> net_inv others ts'.
Proof.
  intros Hi. unfold snoop_tcp_packet. case_match; [|by intros [= <-]].
  by apply snoop_ip_preserves.
Qed.

Lemma current_time_preserves others : preserves (net_ok others) current_time.
Proof. by intros n a n' Hn [= <- <-]. Qed.

Lemma poll_preserves others : preserves (net_ok others) poll_interfaces.
Proof.
  repeat (apply preserves_bind; [|intros ?]); try apply current_time_preserves;
    intros n x n' Hn; unfold poll_loopback_at, poll_eth_at;
    destruct (iface_poll _ _ _ _ _) as [[[i d] [t s]]| | |] eqn:E; try done;
    intros [= <- <-].
  - exact (iface_poll_preserves _ _ _ _ _ _ _ _ (net_inv others)
      (snoop_ip_preserves others) (net_inv_sockets others) Hn E).
  - exact (iface_poll_preserves _ _ _ _ _ _ _ _ (net_inv others)
      (fun b => snoop_eth_preserves others (nb_packet b)) (net_inv_sockets others) Hn E).
Qed.
End invariant.

(** ** The operations of the table *)

Lemma swap_remove_front_spec {A} (i : nat) (q : list A) x :
  q !! i = Some x -> exists q', swap_remove_front i q = Some (x, q') /\ q ≡ₚ x :: q'.
Proof.
  intros Hx. unfold swap_remove_front. rewrite Hx. destruct q as [|front rest]; [done|].
  eexists. split; [done|]. destruct i as [|j]; simpl in Hx; [by injection Hx as ->|].
  cbn. pose proof (take_drop_middle rest j x Hx) as Hr.
  rewrite (insert_take_drop _ _ _ (lookup_lt_Some _ _ _ Hx)).
  rewrite <- Hr at 1. solve_Permutation.
Qed.

(** What [is_connected] and [is_closed] see of a handle. *)
Definition connected `{Smoltcp} (s : SocketSet) (h : Z) : Prop :=
  exists sk, set_get s h = Some sk /\ sk_state sk <> Listen /\ sk_state sk <> SynReceived.
Definition closed_in `{Smoltcp} (s : SocketSet) (h : Z) : Prop :=
  exists sk, set_get s h = Some sk /\ sk_state sk = Closed.

Section operations.
Context `{SM : Smoltcp} `{SL : !SmoltcpLaws} `{AX : AxErrno}.
Implicit Types n : Net.

Lemma is_connected_spec n h :
  is_Some (set_get (n_set n) h) ->
  exists b : bool, is_connected h n = Ret (b, n) /\
    if b then connected (n_set n) h else ~ connected (n_set n) h.
Proof.
  intros [sk Hsk]. unfold is_connected, with_socket. rewrite Hsk.
  eexists. split; [done|]. unfold connected.
  destruct (sk_state sk) eqn:E;
    first [by (exists sk; rewrite E) | intros (sk' & ? & ? & ?); congruence].
Qed.

Lemma is_closed_spec n h :
  is_Some (set_get (n_set n) h) ->
  exists b : bool, is_closed h n = Ret (b, n) /\
    if b then closed_in (n_set n) h else ~ closed_in (n_set n) h.
Proof.
  intros [sk Hsk]. unfold is_closed, with_socket. rewrite Hsk.
  eexists. split; [done|]. unfold closed_in.
  destruct (sk_state sk) eqn:E;
    first [by (exists sk; rewrite E) | intros (sk' & ? & ?); congruence].
Qed.

(** [find_map] finds the first connected handle of the queue. *)
Lemma find_connected_spec n q idx :
  (forall h, h ∈ q -> is_Some (set_get (n_set n) h)) ->
  exists r, find_connected idx q n = Ret (r, n) /\
    match r with
    | None => forall h, h ∈ q -> ~ connected (n_set n) h
    | Some i => exists j h, i = (idx + j)%nat /\ q !! j = Some h /\ connected (n_set n) h /\
        forall j' h', (j' < j)%nat -> q !! j' = Some h' -> ~ connected (n_set n) h'
    end.
Proof.
  revert idx. induction q as [|h q IH]; intros idx Hl; simpl.
  { eexists. split; [done|]. intros h []%not_elem_of_nil. }
  destruct (is_connected_spec n h) as (b & E & Hb); [apply Hl; set_solver|].
  rewrite (bind_Ret _ _ _ _ _ E). destruct b.
  { eexists. split; [done|]. exists 0%nat, h. split_and!; [lia|done|done|lia]. }
  destruct (IH (S idx)) as (r & -> & Hr); [set_solver|]. exists r. split; [done|].
  destruct r as [i|].
  - destruct Hr as (j & h' & -> & Hj & Hc & Hbefore). exists (S j), h'.
    split_and!; [lia|done|done|]. intros [|j'] h'' Hlt Hq; simpl in Hq; [by simplify_eq|].
    apply (Hbefore j'); [lia|done].
  - intros h' [->|Hh']%elem_of_cons; [done|by apply Hr].
Qed.

Lemma get_addr_tuple_spec n h :
  connected (n_set n) h -> ~ closed_in (n_set n) h ->
  exists l r, get_addr_tuple h n = Ret ((l, r), n).
Proof.
  intros (sk & Hsk & Hl & Hs) Hc.
  destruct (sk_endpoints sk) as (l & r & E1 & E2); [intros E; apply Hc; by exists sk|done|].
  exists l, r. unfold get_addr_tuple, mbind, M_bind, with_socket. rewrite Hsk. simpl.
  by rewrite E1, E2.
Qed.

(** Taking a handle out of a queue. *)
Lemma net_ok_take others n (p : nat) e h q :
  net_ok others n -> n_table n !! p = Some (Some e) -> syn_queue e ≡ₚ h :: q ->
  net_ok (h :: others) (put_table (<[p := Some (MkEntry (listen_endpoint e) q)]> (n_table n)) n).
Proof.
  intros Hn Hp HP. destruct (queue_handles_insert _ p _
    (Some (MkEntry (listen_endpoint e) q)) Hp) as (r & Hr & Hr').
  eapply net_inv_perm; [| |exact Hn].
  - destruct Hn as ([Hlen Ht] & _). apply table_ok_insert; [done|].
    destruct (Ht _ _ Hp) as (? & ? & ?). split_and!; [done|done|].
    simpl in *. apply Permutation_length in HP. simpl in HP. lia.
  - simpl. rewrite Hr, Hr'. simpl. rewrite HP. solve_Permutation.
Qed.

Lemma accept_spec others n port e :
  net_ok others n -> 0 <= port < PORT_NUM -> n_table n !! Z.to_nat port = Some (Some e) ->
  ((forall h, h ∈ syn_queue e -> ~ connected (n_set n) h) /\
   ListenTable_accept port n = Ret (Err WouldBlock, n)) \/
  (exists i h q, syn_queue e !! i = Some h /\ connected (n_set n) h /\
     (forall j h', (j < i)%nat -> syn_queue e !! j = Some h' -> ~ connected (n_set n) h') /\
     syn_queue e ≡ₚ h :: q /\
     let n' := put_table (<[Z.to_nat port := Some (MkEntry (listen_endpoint e) q)]> (n_table n)) n in
     net_ok (h :: others) n' /\
     ((closed_in (n_set n) h /\ ListenTable_accept port n = Ret (Err ConnectionReset, n')) \/
      (~ closed_in (n_set n) h /\
       exists l r, ListenTable_accept port n = Ret (Ok (h, (l, r)), n')))).
Proof.
  intros Hn Hport He. pose proof Hn as ([Hlen Ht] & _ & Hlive). simpl in Hlen.
  destruct (table_at_Ret _ _ _ Hn Hport) as (e' & E & He' & _). simplify_eq.
  assert (forall h, h ∈ syn_queue e -> is_Some (set_get (n_set n) h)) as Hq.
  { intros h Hh. apply Hlive. apply elem_of_app. right. apply list_elem_of_bind.
    exists (Some e). split; [done|by eapply list_elem_of_lookup_2]. }
  unfold ListenTable_accept. rewrite (bind_Ret _ _ _ _ _ E).
  destruct (find_connected_spec n (syn_queue e) 0 Hq) as (r & Ef & Hr).
  rewrite (bind_Ret _ _ _ _ _ Ef). destruct r as [i|]; [right|by left].
  destruct Hr as (j & h & -> & Hj & Hc & Hbefore). simpl in *.
  destruct (swap_remove_front_spec j _ _ Hj) as (q & Hsw & HP).
  rewrite Hsw. exists j, h, q. split_and!; try done; [by eapply net_ok_take|].
  unfold unwrap. rewrite (bind_Ret (mret _) _ _ (h, q) n) by done. cbn [fst snd].
  rewrite (bind_Ret _ _ _ _ _ (table_set_Ret n port _ ltac:(lia))).
  set (n' := put_table _ n).
  destruct (is_closed_spec n' h) as (b & Eb & Hb).
  { apply Hq. by eapply list_elem_of_lookup_2. }
  rewrite (bind_Ret _ _ _ _ _ Eb).
  destruct b; [by left|right]. split; [done|].
  destruct (get_addr_tuple_spec n' h) as (l & r & Eg); [done|done|].
  exists l, r. by rewrite (bind_Ret _ _ _ _ _ Eg).
Qed.
End operations.

Lemma ListenTable_new_ok : table_ok ListenTable_new.
Proof.
  split; [unfold ListenTable_new; by rewrite length_replicate|].
  intros p e [-> _]%lookup_replicate_1. done.
Qed.

Lemma table_ok_listening (p : nat) (ep : option IpAddress) (q : list Z) :
  (0 < p)%nat -> (length q <= 32)%nat ->
  table_ok (<[p := Some (MkEntry (MkLep ep (Z.of_nat p)) q)]> ListenTable_new).
Proof.
  intros Hp Hq. apply table_ok_insert; [apply ListenTable_new_ok|].
  split_and!; [done|simpl; lia|]. unfold LISTEN_QUEUE_SIZE. simpl. lia.
Qed.

Lemma queue_handles_new : queue_handles ListenTable_new = [].
Proof.
  unfold queue_handles, ListenTable_new. by induction (Z.to_nat PORT_NUM).
Qed.

Lemma net_ok_new `{Smoltcp} n : n_table n = ListenTable_new -> net_ok [] n.
Proof.
  intros E. unfold net_ok, net_inv. rewrite E. cbn [fst snd app]. rewrite queue_handles_new.
  split_and!; [apply ListenTable_new_ok|constructor|by intros ? ?%not_elem_of_nil].
Qed.

Lemma ListenTable_new_lookup (p : nat) : Z.of_nat p < PORT_NUM -> ListenTable_new !! p = Some None.
Proof. intros Hp. apply lookup_replicate_2. unfold PORT_NUM in *. lia. Qed.

(** A table with one listening port queues exactly that port's handles. *)
Lemma queue_handles_listening (p : nat) e :
  Z.of_nat p < PORT_NUM ->
  queue_handles (<[p := Some e]> ListenTable_new) ≡ₚ syn_queue e.
Proof.
  intros Hp. destruct (queue_handles_insert _ p None (Some e) (ListenTable_new_lookup p Hp))
    as (r & Hr & ->). rewrite queue_handles_new in Hr.
  apply Permutation_nil in Hr. simpl in *. subst r. by rewrite app_nil_r.
Qed.

Section ports.
Context `{SM : Smoltcp} `{SL : !SmoltcpLaws} `{AX : AxErrno}.
Implicit Types n : Net.

(** Setting up and tearing down an entry keeps the invariant. *)
Lemma listen_preserves others lep :
  preserves (net_ok others) (ListenTable_listen lep).
Proof.
  intros n r n' Hn E. unfold ListenTable_listen in E.
  ibind E as u n1 E1. unfold assert in E1. destruct (Z.eqb_spec (lep_port lep) 0) as [|Hp0];
    [done|]. injection E1 as _ <-.
  ibind E as e n1 E1. apply table_at_inv in E1 as (-> & He & Hp).
  destruct e as [e|]; [by injection E as _ <-|].
  ibind E as u' n2 E2. injection E as _ <-. unfold table_set, index_set in E2.
  case_decide; [|done]. injection E2 as _ <-.
  destruct (queue_handles_insert _ _ _ (Some (ListenTableEntry_new lep)) He) as (r' & Hr & Hr').
  eapply net_inv_perm; [| |exact Hn].
  - destruct Hn as (Ht & _). apply table_ok_insert; [done|].
    split_and!; simpl; [lia|lia|unfold LISTEN_QUEUE_SIZE; lia].
  - simpl. by rewrite Hr, Hr'.
Qed.

Lemma entry_drop_spec q others t n :
  net_inv (q ++ others) (t, n_set n) ->
  exists s', for_each SocketSetWrapper_remove q n = Ret (tt, put_set s' n) /\
             net_inv others (t, s').
Proof.
  revert n. induction q as [|h q IH]; intros n Hn; simpl.
  { exists (n_set n). split; [by destruct n|done]. }
  destruct (net_inv_remove _ _ _ _ Hn) as (s1 & E & Hn1).
  assert (SocketSetWrapper_remove h n = Ret (tt, put_set s1 n)) as E'
    by (unfold SocketSetWrapper_remove; by rewrite E).
  rewrite (bind_Ret _ _ _ _ _ E'). by destruct (IH (put_set s1 n) Hn1) as (s' & -> & ?); eauto.
Qed.

Lemma unlisten_preserves others port : preserves (net_ok others) (unlisten port).
Proof.
  intros n [] n' Hn E. unfold unlisten in E.
  ibind E as e n1 E1. apply table_at_inv in E1 as (-> & He & Hp).
  destruct (queue_handles_insert _ _ _ None He) as (r & Hr & Hr').
  assert (net_inv (entry_handles e ++ others)
            (<[Z.to_nat port := None]> (n_table n), n_set n)) as Hn1.
  { eapply net_inv_perm; [| |exact Hn].
    - destruct Hn as (Ht & _). by apply table_ok_insert.
    - simpl. rewrite Hr, Hr'. simpl. solve_Permutation. }
  ibind E as u n2 E2.
  assert (exists s', n2 = put_set s' n /\
            net_inv others (<[Z.to_nat port := None]> (n_table n), s')) as (s' & -> & Hn2).
  { destruct e as [e|].
    - destruct (entry_drop_spec (syn_queue e) others _ n Hn1) as (s' & E3 & Hn2).
      unfold ListenTableEntry_drop in E2. rewrite E3 in E2. injection E2 as <-. eauto.
    - injection E2 as <-. exists (n_set n). split; [by destruct n|done]. }
  unfold table_set, index_set in E. case_decide; [|done]. by injection E as <-.
Qed.

(** The search for a free port, from the counter upwards. *)
Definition port_free (t : list (option ListenTableEntry)) (p : Z) : Prop :=
  t !! Z.to_nat p = Some None.

Lemma can_listen_spec n p :
  table_ok (n_table n) -> 0 <= p < PORT_NUM ->
  exists b : bool, can_listen p n = Ret (b, n) /\
    if b then port_free (n_table n) p else ~ port_free (n_table n) p.
Proof.
  intros Ht Hp. destruct (index_port _ _ Ht Hp) as (e & E & He & _).
  unfold can_listen, mbind, M_bind, table_at. rewrite E. eexists. split; [done|].
  unfold port_free. rewrite He. destruct e; [by intros ?|done].
Qed.

Lemma can_listen_oob n p :
  table_ok (n_table n) -> PORT_NUM <= p -> can_listen p n = Panic PIndex.
Proof.
  intros [Hlen _] Hp. unfold can_listen, mbind, M_bind, table_at.
  by rewrite index_oob by lia.
Qed.

Lemma ephemeral_loop_spec tries n :
  table_ok (n_table n) -> PORT_START <= n_curr n <= PORT_NUM ->
  PORT_NUM - n_curr n < Z.of_nat tries ->
  (exists p, n_curr n <= p < PORT_NUM /\ port_free (n_table n) p /\
     (forall q, n_curr n <= q < p -> ~ port_free (n_table n) q) /\
     ephemeral_loop tries n = Ret (Ok p, put_curr (p + 1) n)) \/
  ((forall q, n_curr n <= q < PORT_NUM -> ~ port_free (n_table n) q) /\
   ephemeral_loop tries n = Panic PIndex).
Proof.
  revert n. induction tries as [|tries IH]; intros n Ht Hc Hf; [unfold PORT_NUM in *; lia|].
  simpl. rewrite (bind_Ret _ _ _ _ _ (eq_refl : gets n_curr n = Ret (n_curr n, n))).
  destruct (Z.eqb_spec (n_curr n) PORT_END) as [Heq|_]; [unfold PORT_END, PORT_NUM in *; lia|].
  rewrite (bind_Ret (modify _) _ _ tt (put_curr (n_curr n + 1) n)) by done.
  set (n1 := put_curr _ n). destruct (decide (n_curr n = PORT_NUM)) as [Hend|Hne].
  { right. split; [intros; lia|]. apply bind_Panic, can_listen_oob; [done|lia]. }
  destruct (can_listen_spec n1 (n_curr n)) as (b & Eb & Hb);
    [done|unfold PORT_START in *; lia|].
  rewrite (bind_Ret _ _ _ _ _ Eb). destruct b.
  { left. exists (n_curr n). split_and!; [lia|lia|done|lia|done]. }
  assert (forall q, n_curr n <= q -> q < n_curr n + 1 -> ~ port_free (n_table n) q) as Hq.
  { intros q ? ?. by replace q with (n_curr n) by lia. }
  destruct (IH n1) as [(p & Hp & Hfree & Hbelow & E)|[Hnone E]]; simpl; try done; try lia.
  - left. exists p. split_and!; [simpl in *; lia..|done| |done].
    intros q Hq'. destruct (decide (q = n_curr n)); [apply Hq; lia|]. apply Hbelow. simpl. lia.
  - right. split; [|done]. intros q Hq'.
    destruct (decide (q = n_curr n)); [apply Hq; lia|]. apply Hnone. simpl. lia.
Qed.
End ports.

(** ** Properties *)


Definition ref_sock (st : State) : rsock := MkRSock st None None (MkLep None 80) [] true.

(** A listener on port 80 with a connection in progress and an established one. *)
Definition ref_queue_entry : ListenTableEntry := MkEntry (MkLep None 80) [1; 2].
Definition ref_queue_net : @Net ref_smoltcp :=
  ref_net (<[1 := ref_sock SynReceived]> (<[2 := ref_sock Established]> ∅))
    (<[80%nat := Some ref_queue_entry]> ListenTable_new).

Lemma ref_queue_lookup : n_table ref_queue_net !! 80%nat = Some (Some ref_queue_entry).
Proof. apply list_lookup_insert_eq. unfold ListenTable_new. rewrite length_replicate. vm_compute. lia. Qed.

Lemma ref_queue_net_ok : net_ok [] ref_queue_net.
Proof.
  assert (queue_handles (n_table ref_queue_net) ≡ₚ [1; 2]) as HP
    by (apply (queue_handles_listening 80 ref_queue_entry); done).
  split_and!.
  - apply (table_ok_listening 80 None [1; 2]); simpl; lia.
  - change (NoDup (queue_handles (n_table ref_queue_net))). rewrite HP.
    by apply (bool_decide_unpack _).
  - intros h Hh. change (h ∈ queue_handles (n_table ref_queue_net)) in Hh. rewrite HP in Hh.
    apply elem_of_cons in Hh as [->|[->|[]%not_elem_of_nil]%elem_of_cons]; by eexists.
Qed.


(** C36: [get_ephemeral_port] returns the first port from its counter upwards that
    nobody listens on -- but only while the counter is inside the listen table.
    The search runs to [PORT_END], the table ends at [PORT_NUM]: when the ports
    from the counter to the end of the table are taken, in particular once
    0x1000 ports have been handed out, the net thread panics instead of
    starting over at [PORT_START]. *)
Theorem ephemeral_port_search `{SM : Smoltcp} `{AX : AxErrno} (n : Net)
    (Htable : table_ok (n_table n)) (Hcurr : PORT_START <= n_curr n <= PORT_NUM) :
  (exists p, n_curr n <= p < PORT_NUM /\ port_free (n_table n) p /\
     (forall q, n_curr n <= q < p -> ~ port_free (n_table n) q) /\
     get_ephemeral_port n = Ret (Ok p, put_curr (p + 1) n)) \/
  ((forall q, n_curr n <= q < PORT_NUM -> ~ port_free (n_table n) q) /\
   get_ephemeral_port n = Panic PIndex).
Proof.
  destruct (can_listen_spec n 6379 Htable ltac:(unfold PORT_NUM; lia)) as (b & E & _).
  unfold get_ephemeral_port. rewrite (bind_Ret _ _ _ _ _ E).
  apply ephemeral_loop_spec; [done|done|]. unfold PORT_END, PORT_NUM, PORT_START in *. lia.
Qed.

Lemma ephemeral_port_search_witness :
  (exists p, 0x2000 <= p < PORT_NUM /\ port_free ListenTable_new p /\
     (forall q, 0x2000 <= q < p -> ~ port_free ListenTable_new q) /\
     @get_ephemeral_port ref_smoltcp ref_axerrno (put_curr 0x2000 (ref_net ∅ ListenTable_new))
       = Ret (Ok p, put_curr (p + 1) (ref_net ∅ ListenTable_new))) \/
  ((forall q, 0x2000 <= q < PORT_NUM -> ~ port_free ListenTable_new q) /\
   @get_ephemeral_port ref_smoltcp ref_axerrno (put_curr 0x2000 (ref_net ∅ ListenTable_new))
     = Panic PIndex).
Proof.
  apply (@ephemeral_port_search ref_smoltcp ref_axerrno
    (put_curr 0x2000 (ref_net ∅ ListenTable_new))).
  - apply ListenTable_new_ok.
  - cbn. unfold PORT_START, PORT_NUM. lia.
Defined.

(** Any host that can send a TCP SYN stops the net thread: a first packet for
    a port at or above [PORT_NUM], on either interface, is looked up in the
    listen table before anything is checked, and panics. *)
Theorem syn_to_high_port_panics `{SM : Smoltcp} (frame ip payload src dst : list Z)
    (src_port dst_port : Z) (t : list (option ListenTableEntry)) (s : SocketSet)
    (Htable : table_ok t)
    (Heth : ethernet_payload frame = Some ip)
    (Hip : ipv4_fields ip = Some (true, src, dst, payload))
    (Htcp : tcp_fields payload = Some (src_port, dst_port, true, false))
    (Hport : PORT_NUM <= dst_port) :
  snoop_tcp_packet frame (t, s) = Panic PIndex /\ snoop_tcp_from_ip ip (t, s) = Panic PIndex.
Proof.
  enough (snoop_tcp_from_ip ip (t, s) = Panic PIndex) as E
    by (unfold snoop_tcp_packet; by rewrite Heth).
  unfold snoop_tcp_from_ip. rewrite Hip, Htcp. cbn [andb negb].
  unfold incoming_tcp_packet, mbind, outcome_bind. cbn [ep_port].
  destruct Htable as [Hlen _]. by rewrite index_oob by lia.
Qed.

(** A SYN from 10.0.2.2 to port 8192. *)
Definition ref_syn_frame : list Z :=
  replicate 14 0 ++ replicate 9 0 ++ [6; 0; 0; 10; 0; 2; 2; 10; 0; 2; 15] ++
  [0xc0; 0; 0x20; 0] ++ replicate 9 0 ++ [2; 0; 0; 0; 0; 0; 0].

Lemma syn_to_high_port_panics_witness :
  @snoop_tcp_packet ref_smoltcp ref_syn_frame (ListenTable_new, ∅) = Panic PIndex /\
  @snoop_tcp_from_ip ref_smoltcp (drop 14 ref_syn_frame) (ListenTable_new, ∅) = Panic PIndex.
Proof.
  apply (@syn_to_high_port_panics ref_smoltcp ref_syn_frame (drop 14 ref_syn_frame)
    (drop 34 ref_syn_frame) [10; 0; 2; 2] [10; 0; 2; 15] 0xc000 0x2000 ListenTable_new ∅).
  - apply ListenTable_new_ok.
  - reflexivity.
  - reflexivity.
  - reflexivity.
  - reflexivity.
Defined.
