(* ===== verification/TcpSocket.v ===== *)
(** * TCP sockets ([crates/net-thread/src/smoltcp_impl/tcp.rs])

    A [TcpSocket] is a small state machine around a socket handle.  Its methods
    run on the socket and on the net thread's static state; the net thread has
    one thread of control, so [STATE_BUSY] is only seen inside a method.  The
    blocking loop of [block_on] is fuelled; [yield] lets other threads run and
    has no effect of its own. *)

From S2P Require Import Prelude Words Externs Reference Uspace NetDev Smoltcp RefSmoltcp ListenTable.

Definition STATE_CLOSED : Z := 0.
Definition STATE_BUSY : Z := 1.
Definition STATE_CONNECTING : Z := 2.
Definition STATE_CONNECTED : Z := 3.
Definition STATE_LISTENING : Z := 4.

Record TcpSocket := MkTcp {
  ts_state : Z;
  ts_handle : option SocketHandle;
  ts_local_addr : IpEndpoint;
  ts_peer_addr : IpEndpoint;
  ts_nonblock : bool;
  ts_reuse_addr : bool;
}.

Definition put_state (x : Z) (t : TcpSocket) : TcpSocket :=
  MkTcp x (ts_handle t) (ts_local_addr t) (ts_peer_addr t) (ts_nonblock t) (ts_reuse_addr t).
Definition put_handle (x : option SocketHandle) (t : TcpSocket) : TcpSocket :=
  MkTcp (ts_state t) x (ts_local_addr t) (ts_peer_addr t) (ts_nonblock t) (ts_reuse_addr t).
Definition put_local (x : IpEndpoint) (t : TcpSocket) : TcpSocket :=
  MkTcp (ts_state t) (ts_handle t) x (ts_peer_addr t) (ts_nonblock t) (ts_reuse_addr t).
Definition put_peer (x : IpEndpoint) (t : TcpSocket) : TcpSocket :=
  MkTcp (ts_state t) (ts_handle t) (ts_local_addr t) x (ts_nonblock t) (ts_reuse_addr t).

Record PollState := MkPoll { readable : bool; writable : bool }.

Notation AxResult A := (result A AxError).

Section socket.
Context `{SM : Smoltcp} `{AX : AxErrno}.

Definition TN : Type := TcpSocket * Net.

Definition on_net {A} (m : M Net A) : M TN A := zoom snd (fun n s => (s.1, n)) m.
Definition self {A} (f : TcpSocket -> A) : M TN A := gets (fun s => f s.1).
Definition update (f : TcpSocket -> TcpSocket) : M TN unit := modify (fun s => (f s.1, s.2)).

(** ** Construction *)

Definition TcpSocket_new : M Net TcpSocket :=
  socket_handle ← SocketSetWrapper_add new_tcp_socket;
  mret (MkTcp STATE_CLOSED (Some socket_handle) UNSPECIFIED_ENDPOINT UNSPECIFIED_ENDPOINT
          false false).

Definition new_connected (handle : SocketHandle) (local_addr peer_addr : IpEndpoint) : TcpSocket :=
  MkTcp STATE_CONNECTED (Some handle) local_addr peer_addr false false.

(** ** Accessors *)

Definition TcpSocket_local_addr (t : TcpSocket) : AxResult SocketAddr :=
  if (ts_state t =? STATE_CONNECTED) || (ts_state t =? STATE_LISTENING)
     || (ts_state t =? STATE_CLOSED)
  then Ok (into_core_sockaddr (ts_local_addr t))
  else Err NotConnected.

Definition TcpSocket_peer_addr (t : TcpSocket) : AxResult SocketAddr :=
  if (ts_state t =? STATE_CONNECTED) || (ts_state t =? STATE_LISTENING)
  then Ok (into_core_sockaddr (ts_peer_addr t))
  else Err NotConnected.

Definition is_nonblocking : M TN bool := self ts_nonblock.
Definition set_nonblocking (nonblocking : bool) : M TN unit :=
  update (fun t => MkTcp (ts_state t) (ts_handle t) (ts_local_addr t) (ts_peer_addr t)
                     nonblocking (ts_reuse_addr t)).
Definition is_reuse_addr : M TN bool := self ts_reuse_addr.
Definition set_reuse_addr (reuse_addr : bool) : M TN unit :=
  update (fun t => MkTcp (ts_state t) (ts_handle t) (ts_local_addr t) (ts_peer_addr t)
                     (ts_nonblock t) reuse_addr).

Definition get_state : M TN Z := self ts_state.
Definition set_state (state : Z) : M TN unit := update (put_state state).

Definition is_connecting : M TN bool := s ← get_state; mret (s =? STATE_CONNECTING).
Definition TcpSocket_is_connected : M TN bool := s ← get_state; mret (s =? STATE_CONNECTED).
Definition TcpSocket_is_closed : M TN bool := s ← get_state; mret (s =? STATE_CLOSED).
Definition is_listening : M TN bool := s ← get_state; mret (s =? STATE_LISTENING).

(** [update_state]: compare-and-exchange to [STATE_BUSY], run, publish. *)
Definition update_state {T} (expect new_ : Z) (f : M TN (AxResult T)) :
    M TN (result (AxResult T) Z) :=
  old ← get_state;
  if old =? expect then
    set_state STATE_BUSY ;;
    res ← f;
    match res with Ok _ => set_state new_ | Err _ => set_state expect end ;;
    mret (Ok res)
  else mret (Err old).

Definition bound_endpoint : M TN (AxResult IpListenEndpoint) :=
  local_addr ← self ts_local_addr;
  port <-? (if negb (ep_port local_addr =? 0) then mret (Ok (ep_port local_addr))
            else on_net get_ephemeral_port);
  assert (negb (port =? 0)) ;;
  let addr := if is_unspecified (ep_addr local_addr) then None else Some (ep_addr local_addr) in
  mret (Ok (MkLep addr port)).

(** [self.handle.get().read().unwrap()] and [.unwrap_or_else(|| SOCKET_SET.add(..))] *)
Definition the_handle : M TN SocketHandle := h ← self ts_handle; unwrap h.
Definition handle_or_add : M TN SocketHandle :=
  h ← self ts_handle;
  match h with
  | Some h => mret h
  | None => on_net (SocketSetWrapper_add new_tcp_socket)
  end.

(** ** Polling *)

(** The closure of [poll_connect] sets the socket's own state. *)
Definition poll_connect : M TN (AxResult PollState) :=
  handle ← the_handle;
  st ← on_net (with_socket handle (fun socket => (sk_state socket, sk_remote_endpoint socket)));
  w ← match st.1 with
      | SynSent => mret false
      | Established =>
          set_state STATE_CONNECTED ;; unwrap st.2 ;; mret true
      | _ =>
          update (put_local UNSPECIFIED_ENDPOINT) ;; update (put_peer UNSPECIFIED_ENDPOINT) ;;
          set_state STATE_CLOSED ;; mret true
      end;
  mret (Ok (MkPoll false w)).

Definition poll_stream : M TN (AxResult PollState) :=
  handle ← the_handle;
  p ← on_net (with_socket handle (fun socket =>
        MkPoll (negb (sk_may_recv socket) || sk_can_recv socket)
               (negb (sk_may_send socket) || sk_can_send socket)));
  mret (Ok p).

Definition poll_listener : M TN (AxResult PollState) :=
  local_addr ← self ts_local_addr;
  r <-? on_net (ListenTable_can_accept (ep_port local_addr));
  mret (Ok (MkPoll r false)).

Definition TcpSocket_poll : M TN (AxResult PollState) :=
  s ← get_state;
  if s =? STATE_CONNECTING then poll_connect
  else if s =? STATE_CONNECTED then poll_stream
  else if s =? STATE_LISTENING then poll_listener
  else mret (Ok (MkPoll false false)).

Fixpoint block_loop {T} (fuel : nat) (f : M TN (AxResult T)) : M TN (AxResult T) :=
  match fuel with
  | O => out_of_fuel
  | S fuel =>
      on_net poll_interfaces ;;
      r ← f;
      match r with
      | Ok t => mret (Ok t)
      | Err e => if AxError_eqb e WouldBlock then block_loop fuel f else mret (Err e)
      end
  end.

Definition block_on {T} (fuel : nat) (f : M TN (AxResult T)) : M TN (AxResult T) :=
  nb ← is_nonblocking; if nb : bool then f else block_loop fuel f.

(** ** Connecting *)

(** The socket operation inside [connect], on the interface it chose. *)
Definition connect_socket (handle : SocketHandle) (loopback : bool)
    (remote_endpoint : IpEndpoint) (bound : IpListenEndpoint) :
    M Net (AxResult (IpEndpoint * IpEndpoint)) := fun n =>
  match set_get (n_set n) handle with
  | None => Panic PExplicit
  | Some sk =>
      let '(r, i, sk') :=
        sk_connect remote_endpoint bound (if loopback then n_loop n else n_eth n) sk in
      let n1 := if loopback then put_loop i (n_loopdev n) n else put_eth i (n_ethdev n) n in
      let n2 := put_set (set_put handle sk' (n_set n)) n1 in
      match r with
      | Err InvalidState => Ret (Err BadState, n2)
      | Err Unaddressable => Ret (Err ConnectionRefused, n2)
      | Ok _ =>
          match sk_local_endpoint sk', sk_remote_endpoint sk' with
          | Some l, Some r => Ret (Ok (l, r), n2)
          | _, _ => Panic PUnwrap
          end
      end
  end.

Definition start_connect (remote_addr : SocketAddr) : M TN (AxResult unit) :=
  handle ← handle_or_add;
  let remote_endpoint := from_core_sockaddr remote_addr in
  bound <-? bound_endpoint;
  first ← lift (index (as_bytes (ep_addr remote_endpoint)) 0);
  eps <-? on_net (connect_socket handle (first =? 127) remote_endpoint bound);
  update (put_local eps.1) ;; update (put_peer eps.2) ;; update (put_handle (Some handle)) ;;
  mret (Ok tt).

(** The body of the blocking loop of [connect]. *)
Definition connect_progress : M TN (AxResult unit) :=
  p <-? poll_connect;
  if negb (writable p) then mret (Err WouldBlock)
  else s ← get_state;
       if s =? STATE_CONNECTED then mret (Ok tt) else mret (Err ConnectionRefused).

(** [.unwrap_or_else(|_| ax_err!(e))] and [.unwrap_or(Ok(()))] on [update_state] *)
Definition or_else {T} (d : AxResult T) (r : result (AxResult T) Z) : AxResult T :=
  match r with Ok r => r | Err _ => d end.

Definition connect (fuel : nat) (remote_addr : SocketAddr) : M TN (AxResult unit) :=
  r ← update_state STATE_CLOSED STATE_CONNECTING (start_connect remote_addr);
  _ <-? mret (or_else (Err AlreadyExists) r);
  nb ← is_nonblocking;
  if nb : bool then mret (Err WouldBlock) else block_on fuel connect_progress.

(** ** Binding and listening *)

Definition bind_body (local_addr : SocketAddr) : M TN (AxResult unit) :=
  port <-? (if sock_port local_addr =? 0 then on_net get_ephemeral_port
            else mret (Ok (sock_port local_addr)));
  let local_endpoint := from_core_sockaddr (MkSocketAddr (sock_ip local_addr) port) in
  old ← self ts_local_addr;
  if negb (bool_decide (old = UNSPECIFIED_ENDPOINT)) then mret (Err InvalidInput)
  else
    update (put_local local_endpoint) ;;
    reuse ← is_reuse_addr;
    _ <-? (if negb reuse then on_net (bind_check (ep_addr local_endpoint) (ep_port local_endpoint))
           else mret (Ok tt));
    bound <-? bound_endpoint;
    handle ← handle_or_add;
    on_net (with_socket_mut handle (fun socket => (tt, sk_set_bound_endpoint bound socket))) ;;
    mret (Ok tt).

Definition bind (local_addr : SocketAddr) : M TN (AxResult unit) :=
  r ← update_state STATE_CLOSED STATE_CLOSED (bind_body local_addr);
  mret (or_else (Err InvalidInput) r).

Definition listen : M TN (AxResult unit) :=
  r ← update_state STATE_CLOSED STATE_LISTENING (
        bound <-? bound_endpoint;
        update (fun t => put_local (MkEp (ep_addr (ts_local_addr t)) (lep_port bound)) t) ;;
        on_net (ListenTable_listen bound));
  mret (or_else (Ok tt) r).

Definition accept (fuel : nat) : M TN (AxResult TcpSocket) :=
  l ← is_listening;
  if negb l then mret (Err InvalidInput)
  else
    local_addr ← self ts_local_addr;
    block_on fuel (
      x <-? on_net (ListenTable_accept (ep_port local_addr));
      mret (Ok (new_connected x.1 x.2.1 x.2.2))).

(** ** Closing *)

Definition shutdown : M TN (AxResult unit) :=
  r ← update_state STATE_CONNECTED STATE_CLOSED (
        handle ← the_handle;
        on_net (with_socket_mut handle (fun socket => (tt, sk_close socket))) ;;
        update (put_local UNSPECIFIED_ENDPOINT) ;;
        on_net poll_interfaces ;;
        mret (Ok tt));
  _ <-? mret (or_else (Ok tt) r);
  r ← update_state STATE_LISTENING STATE_CLOSED (
        local_addr ← self ts_local_addr;
        update (put_local UNSPECIFIED_ENDPOINT) ;;
        on_net (unlisten (ep_port local_addr)) ;;
        on_net poll_interfaces ;;
        mret (Ok tt));
  _ <-? mret (or_else (Ok tt) r);
  mret (Ok tt).

Definition close : M TN unit :=
  h ← self ts_handle;
  match h with
  | None => mret tt
  | Some handle =>
      on_net (with_socket_mut handle (fun socket => (tt, sk_close socket))) ;;
      on_net poll_interfaces
  end.

(** [impl Drop for TcpSocket] *)
Definition TcpSocket_drop : M TN unit :=
  shutdown ;;
  h ← self ts_handle;
  match h with
  | Some handle => on_net (SocketSetWrapper_remove handle)
  | None => mret tt
  end.

(** ** Data transfer *)

(** The bytes received stand for the part of the buffer that was filled. *)
Definition recv_step (handle : SocketHandle) (buf_len : Z) : M Net (AxResult (list Z)) :=
  with_socket_mut handle (fun socket =>
    if sk_recv_queue socket >? 0 then
      match sk_recv_slice buf_len socket with
      | (Ok bs, socket) => (Ok bs, socket)
      | (Err _, socket) => (Err BadState, socket)
      end
    else if negb (sk_is_active socket) then (Err ConnectionRefused, socket)
    else if negb (sk_may_recv socket) then (Ok [], socket)
    else (Err WouldBlock, socket)).

Definition recv (fuel : nat) (buf_len : Z) : M TN (AxResult (list Z)) :=
  c ← is_connecting;
  if c : bool then mret (Err WouldBlock)
  else
    c ← TcpSocket_is_connected;
    if negb c then mret (Err NotConnected)
    else handle ← the_handle; block_on fuel (on_net (recv_step handle buf_len)).

Definition recv_timeout (_buf_len _ticks : Z) : M TN (AxResult (list Z)) := panic_with PTodo.

Definition send_step (handle : SocketHandle) (buf : list Z) : M Net (AxResult Z) :=
  with_socket_mut handle (fun socket =>
    if negb (sk_is_active socket) || negb (sk_may_send socket) then (Err ConnectionReset, socket)
    else if sk_can_send socket then
      match sk_send_slice buf socket with
      | (Ok len, socket) => (Ok len, socket)
      | (Err _, socket) => (Err BadState, socket)
      end
    else (Err WouldBlock, socket)).

Definition send (fuel : nat) (buf : list Z) : M TN (AxResult Z) :=
  c ← is_connecting;
  if c : bool then mret (Err WouldBlock)
  else
    c ← TcpSocket_is_connected;
    if negb c then mret (Err NotConnected)
    else handle ← the_handle; block_on fuel (on_net (send_step handle buf)).

Definition set_nagle_enabled (enabled : bool) : M TN (AxResult unit) :=
  h ← self ts_handle;
  match h with
  | None => mret (Err NotConnected)
  | Some handle =>
      on_net (with_socket_mut handle (fun socket => (tt, sk_set_nagle_enabled enabled socket))) ;;
      mret (Ok tt)
  end.

Definition nagle_enabled : M TN bool :=
  h ← self ts_handle;
  match h with
  | Some handle => on_net (with_socket handle sk_nagle_enabled)
  | None => mret true
  end.

(** [with_socket] and [with_socket_mut] of a [TcpSocket]: without a handle the
    function runs on nothing. *)
Definition TcpSocket_with_socket {R} (f : option TcpSock -> R) : M TN R :=
  h ← self ts_handle;
  match h with
  | Some handle => on_net (with_socket handle (fun socket => f (Some socket)))
  | None => mret (f None)
  end.
Definition TcpSocket_with_socket_mut {R} (f : option TcpSock -> R * option TcpSock) : M TN R :=
  h ← self ts_handle;
  match h with
  | Some handle =>
      on_net (with_socket_mut handle (fun socket =>
        let '(r, socket') := f (Some socket) in (r, default socket socket')))
  | None => mret (f None).1
  end.
End socket.

(** ** Ownership

    [owns h others s]: the socket's handle is [h], and [h], the handles
    [others] of the other sockets and the queued ones are live and pairwise
    different.  Every method keeps it. *)

Definition owns `{Smoltcp} (h : Z) (others : list Z) (s : TN) : Prop :=
  ts_handle s.1 = Some h /\ net_ok (h :: others) s.2.

Lemma preserves_bind_r {S A B E} (I : S -> Prop) (m : M S (result A E))
    (f : A -> M S (result B E)) :
  preserves I m -> (forall a, preserves I (f a)) -> preserves I (bind_r m f).
Proof.
  intros Hm Hf. apply preserves_bind; [done|]. intros [a|e]; [apply Hf|apply preserves_ret].
Qed.

Lemma preserves_unwrap {S A} (I : S -> Prop) (o : option A) : preserves I (unwrap o).
Proof. destruct o; [apply preserves_ret|apply preserves_panic]. Qed.

Lemma preserves_assert {S} (I : S -> Prop) b : preserves I (assert b).
Proof. destruct b; [apply preserves_ret|apply preserves_panic]. Qed.

Lemma preserves_lift {S A} (I : S -> Prop) (o : outcome A) : preserves I (lift o).
Proof. intros s a s' HI. destruct o; simpl; try done. by intros [= <- <-]. Qed.

(** Only the handles of a network state matter. *)
Section net_preserves.
Context `{SM : Smoltcp} `{SL : !SmoltcpLaws} `{AX : AxErrno}.

Lemma with_socket_preserves {A} o h (f : TcpSock -> A) : preserves (net_ok o) (with_socket h f).
Proof.
  intros n a n' Hn. unfold with_socket. destruct (set_get _ _); [|done]. by intros [= <- <-].
Qed.

Lemma with_socket_mut_preserves {A} o h (f : TcpSock -> A * TcpSock) :
  preserves (net_ok o) (with_socket_mut h f).
Proof.
  intros n a n' Hn. unfold with_socket_mut. destruct (set_get _ _) as [sk|] eqn:E; [|done].
  destruct (f sk) as [a' sk']. intros [= <- <-]. eapply net_inv_sockets; [|exact Hn].
  intros h'. simpl. rewrite (set_get_put _ _ _ _ E). case_decide; [subst|tauto].
  rewrite E. split; by eexists.
Qed.

Lemma connect_socket_preserves o h lo r b :
  preserves (net_ok o) (connect_socket h lo r b).
Proof.
  intros n a n' Hn. unfold connect_socket. destruct (set_get _ _) as [sk|] eqn:E; [|done].
  destruct (sk_connect _ _ _ _) as [[x i] sk'].
  assert (forall m, n_table m = n_table n -> n_set m = set_put h sk' (n_set n) ->
            net_ok o m) as Hok.
  { intros m Hm1 Hm2. unfold net_ok. rewrite Hm1, Hm2. eapply net_inv_sockets; [|exact Hn].
    intros h'. simpl. rewrite (set_get_put _ _ _ _ E). case_decide; [subst|tauto].
    rewrite E. split; by eexists. }
  repeat case_match; try done; intros [= <- <-]; by apply Hok.
Qed.

Lemma curr_preserves o x : preserves (net_ok o) (modify (put_curr x)).
Proof. intros n a n' Hn [= <- <-]. done. Qed.

Lemma table_at_preserves o p : preserves (net_ok o) (table_at p).
Proof. by intros n e n' Hn (-> & _)%table_at_inv. Qed.

Lemma can_listen_preserves o p : preserves (net_ok o) (can_listen p).
Proof. apply preserves_bind; [apply table_at_preserves|intros ?; apply preserves_ret]. Qed.

Lemma ephemeral_preserves o : preserves (net_ok o) get_ephemeral_port.
Proof.
  apply preserves_bind; [apply can_listen_preserves|]. intros _.
  induction (Z.to_nat _) as [|tries IH]; simpl; [apply preserves_ret|].
  apply preserves_bind; [apply preserves_gets|]. intros p.
  apply preserves_bind; [apply curr_preserves|]. intros _.
  apply preserves_bind; [apply can_listen_preserves|]. intros []; [apply preserves_ret|done].
Qed.

Lemma bind_check_preserves o a p : preserves (net_ok o) (bind_check a p).
Proof. intros n r n' Hn. unfold bind_check. repeat case_match; by intros [= <- <-]. Qed.

Lemma any_connected_preserves o q : preserves (net_ok o) (any_connected q).
Proof.
  induction q as [|h q IH]; simpl; [apply preserves_ret|].
  apply preserves_bind; [apply with_socket_preserves|]. intros []; [apply preserves_ret|done].
Qed.

Lemma can_accept_preserves o p : preserves (net_ok o) (ListenTable_can_accept p).
Proof.
  apply preserves_bind; [apply table_at_preserves|]. intros [e|]; [|apply preserves_ret].
  apply preserves_bind; [apply any_connected_preserves|]. intros; apply preserves_ret.
Qed.

(** [accept] may leave a reset connection without an owner. *)
Lemma accept_owner o p n r n' :
  net_ok o n -> ListenTable_accept p n = Ret (r, n') ->
  match r with Ok (h, _) => net_ok (h :: o) n' | Err _ => net_ok o n' end.
Proof.
  intros Hn E. assert (exists e, n_table n !! Z.to_nat p = Some e /\ 0 <= p < PORT_NUM) as (e & He & Hp).
  { unfold ListenTable_accept in E. ibind E as e n1 E1.
    apply table_at_inv in E1 as (_ & He & Hp). exists e. split; [done|].
    destruct Hn as ([Hlen _] & _). apply lookup_lt_Some in He. simpl in Hlen. lia. }
  destruct e as [e|].
  - destruct (accept_spec o n p e Hn Hp He) as
      [[_ E']|(i & h & q & _ & _ & _ & _ & Hn' & [[_ E']|(_ & l & r' & E')])];
      rewrite E' in E; simplify_eq; [done| |done].
    by eapply net_inv_forget.
  - destruct (table_at_Ret _ _ _ Hn Hp) as (e' & E' & He' & _). simplify_eq.
    unfold ListenTable_accept in E. rewrite (bind_Ret _ _ _ _ _ E') in E. by injection E as <- <-.
Qed.
End net_preserves.

#[export] Hint Resolve preserves_bind_r preserves_unwrap preserves_assert preserves_lift
  with_socket_preserves with_socket_mut_preserves connect_socket_preserves curr_preserves
  can_listen_preserves ephemeral_preserves bind_check_preserves can_accept_preserves
  poll_preserves listen_preserves unlisten_preserves : monad.

Section ownership.
Context `{SM : Smoltcp} `{SL : !SmoltcpLaws} `{AX : AxErrno}.
Implicit Types s : TN.

Lemma owns_on_net {A} h o (m : M Net A) :
  (forall o', preserves (net_ok o') m) -> preserves (owns h o) (on_net m).
Proof.
  intros Hm [t n] a s' [Ht Hn]. unfold on_net, zoom. simpl.
  destruct (m n) as [[a' n']| | |] eqn:E; try done. intros [= <- <-].
  split; [done|]. by eapply Hm.
Qed.

Lemma owns_update h o f :
  (forall t, ts_handle (f t) = ts_handle t) -> preserves (owns h o) (update f).
Proof. intros Hf s a s' [Ht Hn] [= <- <-]. split; [by simpl; rewrite Hf|done]. Qed.

Lemma owns_self {A} h o (f : TcpSocket -> A) : preserves (owns h o) (self f).
Proof. apply preserves_gets. Qed.

Lemma owns_set_state h o x : preserves (owns h o) (set_state x).
Proof. by apply owns_update. Qed.

Lemma handle_or_add_own h o s x s' :
  owns h o s -> handle_or_add s = Ret (x, s') -> x = h /\ s' = s.
Proof.
  intros [Ht _]. unfold handle_or_add, self, gets, mbind, M_bind. rewrite Ht. by intros [= <- <-].
Qed.

Lemma owns_handle_or_add h o : preserves (owns h o) handle_or_add.
Proof. intros s x s' Hs E. by destruct (handle_or_add_own _ _ _ _ _ Hs E) as [_ ->]. Qed.
End ownership.

(** One step of an ownership proof of a method. *)
Ltac own_step :=
  lazymatch goal with
  | |- preserves _ (mret _) => apply preserves_ret
  | |- preserves _ (bind_r _ _) => apply preserves_bind_r; [|intros ?]
  | |- preserves _ (mbind _ _) => apply preserves_bind; [|intros ?]
  | |- preserves _ (unwrap _) => apply preserves_unwrap
  | |- preserves _ (assert _) => apply preserves_assert
  | |- preserves _ (lift _) => apply preserves_lift
  | |- preserves _ (panic_with _) => apply preserves_panic
  | |- preserves _ (self _) => apply owns_self
  | |- preserves _ (set_state _) => apply owns_set_state
  | |- preserves _ (update _) => apply owns_update; by intros []
  | |- preserves _ handle_or_add => apply owns_handle_or_add
  | |- preserves _ (on_net _) => apply owns_on_net; intros ?; eauto with monad
  | |- preserves _ (if ?b then _ else _) => destruct b
  | |- preserves _ (match ?x with _ => _ end) => destruct x
  end.
Ltac own := repeat own_step.

Section methods_own.
Context `{SM : Smoltcp} `{SL : !SmoltcpLaws} `{AX : AxErrno}.
Implicit Types s : TN.

Lemma owns_update_state {T} h o e e' (f : M TN (AxResult T)) :
  preserves (owns h o) f -> preserves (owns h o) (update_state e e' f).
Proof. intros Hf. unfold update_state, get_state. own. done. Qed.

Lemma owns_bound_endpoint h o : preserves (owns h o) bound_endpoint.
Proof. unfold bound_endpoint. own. Qed.

Lemma owns_poll_connect h o : preserves (owns h o) poll_connect.
Proof. unfold poll_connect, the_handle. own. Qed.

Lemma owns_poll h o : preserves (owns h o) TcpSocket_poll.
Proof.
  unfold TcpSocket_poll, get_state, poll_stream, poll_listener, the_handle.
  own. apply owns_poll_connect.
Qed.

Lemma owns_block_on {T} fuel h o (f : M TN (AxResult T)) :
  preserves (owns h o) f -> preserves (owns h o) (block_on fuel f).
Proof.
  intros Hf. unfold block_on, is_nonblocking. own; [done|].
  induction fuel as [|fuel IH]; simpl; [by intros ???|]. own; done.
Qed.

Lemma owns_start_connect h o a : preserves (owns h o) (start_connect a).
Proof.
  intros s r s' Hs E. unfold start_connect in E. ibind E as x s1 E1.
  destruct (handle_or_add_own _ _ _ _ _ Hs E1) as [-> ->]. revert s r s' Hs E E1.
  enough (preserves (owns h o) (
    bound <-? bound_endpoint;
    first ← lift (index (as_bytes (ep_addr (from_core_sockaddr a))) 0);
    eps <-? on_net (connect_socket h (first =? 127) (from_core_sockaddr a) bound);
    update (put_local eps.1) ;; update (put_peer eps.2) ;; update (put_handle (Some h)) ;;
    mret (Ok tt))) as Hp.
  { intros s r s' Hs E _. by eapply Hp. }
  own; [apply owns_bound_endpoint|]. intros s x s' [Ht Hn] [= <- <-]. done.
Qed.

Lemma owns_connect fuel h o a : preserves (owns h o) (connect fuel a).
Proof.
  unfold connect, is_nonblocking. own.
  - apply owns_update_state, owns_start_connect.
  - apply owns_block_on. unfold connect_progress, get_state. own. apply owns_poll_connect.
Qed.

Lemma owns_bind h o a : preserves (owns h o) (bind a).
Proof.
  unfold bind. own. apply owns_update_state. unfold bind_body, is_reuse_addr.
  own; apply owns_bound_endpoint.
Qed.

Lemma owns_listen h o : preserves (owns h o) listen.
Proof.
  unfold listen. own. apply owns_update_state. own. apply owns_bound_endpoint.
Qed.

Lemma owns_shutdown h o : preserves (owns h o) shutdown.
Proof. unfold shutdown, the_handle. own; apply owns_update_state; own. Qed.

Lemma owns_close h o : preserves (owns h o) close.
Proof. unfold close. own. Qed.

Lemma owns_recv fuel h o n : preserves (owns h o) (recv fuel n).
Proof.
  unfold recv, is_connecting, TcpSocket_is_connected, get_state, the_handle. own.
  apply owns_block_on. unfold recv_step. own.
Qed.

Lemma owns_send fuel h o bs : preserves (owns h o) (send fuel bs).
Proof.
  unfold send, is_connecting, TcpSocket_is_connected, get_state, the_handle. own.
  apply owns_block_on. unfold send_step. own.
Qed.
End methods_own.

Section accept_drop.
Context `{SM : Smoltcp} `{SL : !SmoltcpLaws} `{AX : AxErrno} `{AL : !AxErrnoLaws}.
Implicit Types s : TN.

(** The loop of [block_on] returns what its body returned last. *)
Lemma block_on_post {T} fuel (I : TN -> Prop) (Q : AxResult T -> TN -> Prop) (f : M TN (AxResult T)) :
  preserves I (on_net poll_interfaces) ->
  (forall s r s', I s -> f s = Ret (r, s') -> Q r s' /\ (r = Err WouldBlock -> I s')) ->
  forall s r s', I s -> block_on fuel f s = Ret (r, s') ->
    Q r s' /\ (ts_nonblock s.1 = true \/ r <> Err WouldBlock).
Proof.
  intros Hpoll Hf s r s' Hs E. unfold block_on in E. ibind E as nb s1 E1.
  injection E1 as <- <-. destruct (ts_nonblock s.1).
  { split; [by eapply Hf|by left]. }
  enough (Q r s' /\ r <> Err WouldBlock) by tauto.
  revert s Hs E. induction fuel as [|fuel IH]; intros s Hs E; [done|]. simpl in E.
  ibind E as u s1 E1. ibind E as r1 s2 E2.
  pose proof (Hpoll _ _ _ Hs E1) as Hs1. destruct (Hf _ _ _ Hs1 E2) as [HQ HI].
  destruct r1 as [x|e]; [by injection E as <- <-|].
  destruct (AxError_eqb e WouldBlock) eqn:Ee.
  - apply AxError_eqb_eq in Ee. subst e. by apply (IH s2); auto.
  - injection E as <- <-. split; [done|]. intros [= ->].
    assert (AxError_eqb WouldBlock WouldBlock = true) by by apply AxError_eqb_eq. congruence.
Qed.

Lemma accept_own fuel h o s r s' :
  owns h o s -> accept fuel s = Ret (r, s') ->
  ts_handle s'.1 = Some h /\
  match r with
  | Ok t => exists h', ts_handle t = Some h' /\ net_ok (h' :: h :: o) s'.2
  | Err _ => net_ok (h :: o) s'.2
  end.
Proof.
  intros Hs E. unfold accept in E. ibind E as l s1 E1. injection E1 as <- <-.
  destruct (negb _); [by injection E as <- <-|].
  ibind E as a s1 E1. injection E1 as <- <-.
  refine (proj1 (block_on_post fuel (owns h o)
    (fun r s' => ts_handle s'.1 = Some h /\
       match r with
       | Ok t => exists h', ts_handle t = Some h' /\ net_ok (h' :: h :: o) s'.2
       | Err _ => net_ok (h :: o) s'.2
       end) _ _ _ s r s' Hs E)).
  - apply owns_on_net. intros. apply poll_preserves.
  - intros [t n] r0 s0 [Ht Hn] E0. unfold bind_r in E0. ibind E0 as x s2 E2.
    unfold on_net, zoom in E2. cbn [snd fst] in E2.
    destruct (ListenTable_accept _ n) as [[x' n']| | |] eqn:E3; try done.
    injection E2 as <- <-. pose proof (accept_owner _ _ _ _ _ Hn E3) as Ho.
    destruct x' as [[h' [l r']]|e]; injection E0 as <- <-; simpl; split; try done.
    split; [done|]. by exists h'.
Qed.

Lemma drop_own h o s u s' :
  owns h o s -> TcpSocket_drop s = Ret (u, s') -> net_ok o s'.2.
Proof.
  intros Hs E. unfold TcpSocket_drop in E. ibind E as r s1 E1.
  apply (owns_shutdown h o _ _ _ Hs) in E1 as [Ht Hn].
  ibind E as x s2 E2. injection E2 as <- <-. rewrite Ht in E.
  unfold on_net, zoom, SocketSetWrapper_remove in E.
  destruct (net_inv_remove _ _ _ _ Hn) as (s0 & E3 & Hn').
  rewrite E3 in E. by injection E as <- <-.
Qed.

Lemma new_own o n t n' :
  net_ok o n -> TcpSocket_new n = Ret (t, n') ->
  exists h, ts_handle t = Some h /\ net_ok (h :: o) n'.
Proof.
  intros Hn E. unfold TcpSocket_new in E. ibind E as h n1 E1. injection E as <- <-.
  exists h. split; [done|]. unfold SocketSetWrapper_add in E1.
  destruct (set_add _ _) as [h' s'] eqn:Ea. injection E1 as <- <-. by eapply set_add_inv.
Qed.
End accept_drop.

(** ** The state machine *)

Section machine.
Context `{SM : Smoltcp} `{AX : AxErrno}.
Implicit Types s : TN.

Lemma update_state_inv {T} e e' (f : M TN (AxResult T)) s r s' :
  update_state e e' f s = Ret (r, s') ->
  (ts_state s.1 = e /\ exists res s1, f (put_state STATE_BUSY s.1, s.2) = Ret (res, s1) /\
     r = Ok res /\
     s' = (put_state (match res with Ok _ => e' | Err _ => e end) s1.1, s1.2)) \/
  (ts_state s.1 <> e /\ r = Err (ts_state s.1) /\ s' = s).
Proof.
  intros E. unfold update_state in E. ibind E as old s1 E1. injection E1 as <- <-.
  destruct (Z.eqb_spec (ts_state s.1) e) as [->|Hne]; [|right; by injection E as <- <-].
  left. split; [done|]. ibind E as u s1 E1. injection E1 as _ <-.
  ibind E as res s2 E2. exists res, s2. ibind E as v s3 E3. injection E as <- <-.
  split_and!; [done|done|]. by destruct res; injection E3 as _ <-.
Qed.

Lemma update_state_other {T} e e' (f : M TN (AxResult T)) s :
  ts_state s.1 <> e -> update_state e e' f s = Ret (Err (ts_state s.1), s).
Proof.
  intros Hne. unfold update_state, get_state, self, gets, mbind, M_bind.
  destruct (Z.eqb_spec (ts_state s.1) e); [done|]. done.
Qed.

(** A view of the socket that a method does not change. *)
Lemma view_on_net {A B} (v : TcpSocket -> B) b (m : M Net A) :
  preserves (fun s => v s.1 = b) (on_net m).
Proof.
  intros [t n] a s' Hs. unfold on_net, zoom. simpl.
  destruct (m n) as [[a' n']| | |]; try done. by intros [= <- <-].
Qed.

Lemma view_update {B} (v : TcpSocket -> B) b f :
  (forall t, v (f t) = v t) -> preserves (fun s => v s.1 = b) (update f).
Proof. intros Hf s a s' Hs [= <- <-]. simpl. by rewrite Hf. Qed.

Lemma view_self {A B} (v : TcpSocket -> B) b (f : TcpSocket -> A) :
  preserves (fun s => v s.1 = b) (self f).
Proof. apply preserves_gets. Qed.
End machine.

Ltac view_step :=
  lazymatch goal with
  | |- preserves _ (mret _) => apply preserves_ret
  | |- preserves _ (bind_r _ _) => apply preserves_bind_r; [|intros ?]
  | |- preserves _ (mbind _ _) => apply preserves_bind; [|intros ?]
  | |- preserves _ (unwrap _) => apply preserves_unwrap
  | |- preserves _ (assert _) => apply preserves_assert
  | |- preserves _ (lift _) => apply preserves_lift
  | |- preserves _ (panic_with _) => apply preserves_panic
  | |- preserves _ (self _) => apply view_self
  | |- preserves _ (update _) => apply view_update; by intros []
  | |- preserves _ (on_net _) => apply view_on_net
  | |- preserves _ (if ?b then _ else _) => destruct b
  | |- preserves _ (match ?x with _ => _ end) => destruct x
  end.
Ltac view := repeat view_step.

Section machine_methods.
Context `{SM : Smoltcp} `{AX : AxErrno} `{AL : !AxErrnoLaws}.
Implicit Types s : TN.

Lemma view_bound_endpoint {B} (v : TcpSocket -> B) b :
  preserves (fun s => v s.1 = b) bound_endpoint.
Proof. unfold bound_endpoint. view. Qed.

Lemma view_start_connect a b :
  preserves (fun s => ts_nonblock s.1 = b) (start_connect a).
Proof. unfold start_connect, handle_or_add. view. apply view_bound_endpoint. Qed.

Lemma view_block_on {T B} fuel (v : TcpSocket -> B) b (f : M TN (AxResult T)) :
  preserves (fun s => v s.1 = b) f -> preserves (fun s => v s.1 = b) (block_on fuel f).
Proof.
  intros Hf. unfold block_on, is_nonblocking. view; [done|].
  induction fuel as [|fuel IH]; simpl; [by intros ???|]. view; done.
Qed.

(** The methods that never touch the socket's own fields. *)
Lemma inert_methods fuel t :
  preserves (fun s => s.1 = t) (accept fuel) /\ preserves (fun s => s.1 = t) close /\
  (forall n, preserves (fun s => s.1 = t) (recv fuel n)) /\
  (forall bs, preserves (fun s => s.1 = t) (send fuel bs)).
Proof.
  assert (forall T (f : M TN (AxResult T)), preserves (fun s => s.1 = t) f ->
            preserves (fun s => s.1 = t) (block_on fuel f)) as Hb
    by (intros T f Hf; by apply (view_block_on fuel (fun x => x))).
  unfold accept, close, recv, send, is_listening, is_connecting, TcpSocket_is_connected,
    get_state, the_handle.
  split_and!; intros;
    repeat first [apply (view_self (fun x => x)) | apply (view_on_net (fun x => x))
                 | apply Hb | view_step].
Qed.

Lemma poll_connect_state s r s' :
  poll_connect s = Ret (r, s') -> ts_state s.1 = STATE_CONNECTING ->
  exists w, r = Ok (MkPoll false w) /\ ts_nonblock s'.1 = ts_nonblock s.1 /\
    if w : bool then ts_state s'.1 = STATE_CONNECTED \/ ts_state s'.1 = STATE_CLOSED
    else s' = s.
Proof.
  intros E Hs. unfold poll_connect in E. ibind E as h s1 E1.
  assert (s1 = s) as ->.
  { unfold the_handle in E1. ibind E1 as x s2 E2. injection E2 as <- <-.
    destruct (ts_handle s.1); [by injection E1 as <- <-|done]. }
  ibind E as st s2 E2. assert (s2 = s) as ->.
  { destruct s as [t n]. unfold on_net, zoom, with_socket in E2. cbn [snd fst] in E2.
    destruct (set_get _ _); [|done]. by injection E2 as <- <-. }
  ibind E as w s3 E3. injection E as <- <-. exists w. split; [done|].
  destruct st as [st re].
  destruct (decide (st = SynSent)) as [->|]; [by injection E3 as <- <-|].
  destruct (decide (st = Established)) as [->|]; cycle 1.
  { assert (w = true /\ s3 = (put_state STATE_CLOSED (put_peer UNSPECIFIED_ENDPOINT
      (put_local UNSPECIFIED_ENDPOINT s.1)), s.2)) as [-> ->]
      by (destruct st; try done; by injection E3 as <- <-).
    split; [done|by right]. }
  - ibind E3 as u s4 E4. injection E4 as _ <-. ibind E3 as x s5 E5.
    destruct re; [|done]. injection E5 as _ <-. injection E3 as <- <-. split; [done|by left].
Qed.

Lemma connect_progress_state s r s' :
  connect_progress s = Ret (r, s') -> ts_state s.1 = STATE_CONNECTING ->
  match r with
  | Ok _ => ts_state s'.1 = STATE_CONNECTED
  | Err e => (e = WouldBlock /\ s' = s) \/
             (e = ConnectionRefused /\ ts_state s'.1 = STATE_CLOSED)
  end /\ ts_nonblock s'.1 = ts_nonblock s.1.
Proof.
  intros E Hs. unfold connect_progress, bind_r in E. ibind E as p s1 E1.
  destruct (poll_connect_state _ _ _ E1 Hs) as (w & -> & Hnb & Hw).
  destruct w; cbn [writable negb] in E.
  - ibind E as st s2 E2. injection E2 as <- <-.
    destruct (Z.eqb_spec (ts_state s1.1) STATE_CONNECTED) as [Hc|Hc]; injection E as <- <-;
      [done|]. split; [right; tauto|done].
  - injection E as <- <-. subst. split; [by left|done].
Qed.

Lemma refused_not_blocked : ConnectionRefused <> WouldBlock.
Proof.
  intros Heq. pose proof ax_named_distinct as Hd.
  by pose proof (NoDup_lookup _ 3 7 ConnectionRefused Hd eq_refl (f_equal Some (eq_sym Heq))).
Qed.

Lemma connect_transition fuel a s r s' :
  connect fuel a s = Ret (r, s') ->
  if ts_state s.1 =? STATE_CLOSED then
    match r with
    | Ok _ => ts_state s'.1 = STATE_CONNECTED
    | Err e => ts_state s'.1 = STATE_CLOSED \/
               (ts_state s'.1 = STATE_CONNECTING /\ e = WouldBlock /\ ts_nonblock s.1 = true)
    end
  else r = Err AlreadyExists /\ s' = s.
Proof.
  intros E. unfold connect in E. ibind E as r0 s1 E1.
  apply update_state_inv in E1 as [(Hs & res & s2 & Ef & -> & ->)|(Hs & -> & ->)].
  2: { destruct (Z.eqb_spec (ts_state s.1) STATE_CLOSED); [done|]. by injection E as <- <-. }
  rewrite Hs. cbn [Z.eqb STATE_CLOSED]. simpl.
  destruct res as [[]|e]; [|injection E as <- <-; by left].
  pose proof (view_start_connect a (ts_nonblock s.1)
    (put_state STATE_BUSY s.1, s.2) _ _ eq_refl Ef) as Hnb.
  unfold bind_r in E. ibind E as x s3 E3. injection E3 as <- <-.
  ibind E as nb s4 E4. injection E4 as <- <-. cbn [fst put_state ts_nonblock] in E.
  destruct (ts_nonblock s2.1) eqn:Eb; [injection E as <- <-; right; by rewrite <- Hnb|].
  destruct (block_on_post fuel
    (fun s => ts_state s.1 = STATE_CONNECTING /\ ts_nonblock s.1 = false)
    (fun r s' => match r with
       | Ok _ => ts_state s'.1 = STATE_CONNECTED
       | Err e => (e = WouldBlock /\ ts_state s'.1 = STATE_CONNECTING) \/
                  ts_state s'.1 = STATE_CLOSED
       end) connect_progress) with (s := (put_state STATE_CONNECTING s2.1, s2.2)) (r := r) (s' := s')
    as [HQ Hwb]; [| |done|done|].
  - intros s5 u s6 [H1 H2] E5.
    split; [by apply (view_on_net ts_state _ _ _ _ _ H1 E5)
           |by apply (view_on_net ts_nonblock _ _ _ _ _ H2 E5)].
  - intros s5 r5 s6 [H1 H2] E5. destruct (connect_progress_state _ _ _ E5 H1) as [Hr Hn].
    destruct r5 as [x|e]; [by split|]. split.
    + destruct Hr as [[-> ->]|[_ Hr]]; [by left|by right].
    + intros [= ->]. destruct Hr as [[_ ->]|[Hr _]]; [done|]. by destruct refused_not_blocked.
  - simpl in Hwb. rewrite Eb in Hwb. destruct Hwb as [|Hwb]; [done|].
    destruct r as [x|e]; [done|]. destruct HQ as [[-> _]|HQ]; [done|by left].
Qed.

Lemma listen_transition s r s' :
  listen s = Ret (r, s') ->
  if ts_state s.1 =? STATE_CLOSED then
    ts_state s'.1 = match r with Ok _ => STATE_LISTENING | Err _ => STATE_CLOSED end
  else r = Ok tt /\ s' = s.
Proof.
  intros E. unfold listen in E. ibind E as r0 s1 E1. injection E as <- <-.
  apply update_state_inv in E1 as [(Hs & res & s2 & Ef & -> & ->)|(Hs & -> & ->)].
  - by rewrite Hs.
  - by destruct (Z.eqb_spec (ts_state s.1) STATE_CLOSED).
Qed.

Lemma bind_transition a s r s' : bind a s = Ret (r, s') -> ts_state s'.1 = ts_state s.1.
Proof.
  intros E. unfold bind in E. ibind E as r0 s1 E1. injection E as <- <-.
  apply update_state_inv in E1 as [(Hs & res & s2 & Ef & -> & ->)|(Hs & -> & ->)]; [|done].
  rewrite Hs. by destruct res.
Qed.

(** The two halves of [shutdown]. *)
Lemma shutdown_transition s r s' :
  shutdown s = Ret (r, s') -> r = Ok tt /\
  if (ts_state s.1 =? STATE_CONNECTED) || (ts_state s.1 =? STATE_LISTENING)
  then ts_state s'.1 = STATE_CLOSED /\ ts_local_addr s'.1 = UNSPECIFIED_ENDPOINT
  else s' = s.
Proof.
  intros E. unfold shutdown in E. ibind E as r0 s1 E1.
  apply update_state_inv in E1 as [(Hs & res & s2 & Ef & -> & ->)|(Hs & -> & ->)].
  - assert (res = Ok tt /\ ts_local_addr s2.1 = UNSPECIFIED_ENDPOINT) as [-> Hl].
    { ibind Ef as h s3 E3. ibind Ef as u s4 E4. ibind Ef as u' s5 E5. injection E5 as _ <-.
      ibind Ef as u'' s6 E6. injection Ef as <- <-. split; [done|].
      by apply (view_on_net ts_local_addr _ _ _ _ _ eq_refl E6). }
    rewrite Hs. cbn [orb Z.eqb]. unfold bind_r in E. cbn [or_else] in E.
    ibind E as x s3 E3. injection E3 as <- <-. ibind E as r1 s4 E4.
    rewrite update_state_other in E4 by done. injection E4 as <- <-.
    ibind E as y s5 E5. injection E5 as <- <-. by injection E as <- <-.
  - cbn [or_else] in E. unfold bind_r in E. ibind E as x s3 E3. injection E3 as <- <-.
    ibind E as r1 s4 E4. destruct (Z.eqb_spec (ts_state s.1) STATE_CONNECTED); [done|].
    apply update_state_inv in E4 as [(Hl & res & s2 & Ef & -> & ->)|(Hl & -> & ->)].
    + rewrite Hl. cbn [orb Z.eqb].
      assert (res = Ok tt /\ ts_local_addr s2.1 = UNSPECIFIED_ENDPOINT) as [-> Hloc].
      { ibind Ef as h s3 E3. ibind Ef as u s4 E4. injection E4 as _ <-. ibind Ef as u' s5 E5.
        ibind Ef as u'' s6 E6. injection Ef as <- <-. split; [done|].
        refine (view_on_net ts_local_addr UNSPECIFIED_ENDPOINT _ _ _ _ _ E6).
        by refine (view_on_net ts_local_addr UNSPECIFIED_ENDPOINT _ _ _ _ _ E5). }
      cbn [or_else] in E. ibind E as y s5 E5. injection E5 as <- <-. by injection E as <- <-.
    + destruct (Z.eqb_spec (ts_state s.1) STATE_LISTENING); [done|].
      cbn [or_else] in E. ibind E as y s5 E5. injection E5 as <- <-. by injection E as <- <-.
Qed.
End machine_methods.

(** [bind] and [listen] on a closed socket, branch by branch. *)
Section bind_listen.
Context `{SM : Smoltcp} `{SL : !SmoltcpLaws} `{AX : AxErrno}.
Implicit Types s : TN.

Lemma update_state_closed {T} e' (f : M TN (AxResult T)) s :
  ts_state s.1 = STATE_CLOSED ->
  update_state STATE_CLOSED e' f s =
    (res ← f; (match res with Ok _ => set_state e' | Err _ => set_state STATE_CLOSED end ;;
               mret (Ok res))) (put_state STATE_BUSY s.1, s.2).
Proof.
  intros Hs. unfold update_state, get_state, self, gets, mbind, M_bind. by rewrite Hs.
Qed.

Lemma put_state_twice t x : ts_state t = STATE_CLOSED -> put_state STATE_CLOSED (put_state x t) = t.
Proof. destruct t. by intros [= ->]. Qed.

Lemma bind_check_in_use n h sk addr port :
  set_get (n_set n) h = Some sk -> lep_addr (sk_bound_endpoint sk) = Some addr ->
  bind_check addr port n = Ret (Err AddrInUse, n).
Proof.
  intros Hh Hb. unfold bind_check.
  assert (existsb (fun x => bool_decide (lep_addr (sk_bound_endpoint x.2) = Some addr))
            (set_tcp (n_set n)) = true) as ->; [|done].
  apply existsb_exists. exists (h, sk). split; [|by apply bool_decide_eq_true_2].
  apply list_elem_of_In. by apply set_tcp_ok.
Qed.

Lemma bind_refused s a h sk :
  ts_state s.1 = STATE_CLOSED -> ts_local_addr s.1 = UNSPECIFIED_ENDPOINT ->
  ts_reuse_addr s.1 = false -> sock_port a <> 0 ->
  set_get (n_set s.2) h = Some sk ->
  lep_addr (sk_bound_endpoint sk) = Some (from_core_ipaddr (sock_ip a)) ->
  bind a s = Ret (Err AddrInUse, (put_local (from_core_sockaddr a) s.1, s.2)).
Proof.
  intros Hs Hl Hre Hp Hh Hb. unfold bind, bind_body, bind_r.
  unfold mbind at 1, M_bind at 1. rewrite update_state_closed by done.
  destruct (Z.eqb_spec (sock_port a) 0); [done|].
  unfold mbind, M_bind, is_reuse_addr, self, gets, update, modify, mret, M_ret.
  cbn [fst snd put_state ts_local_addr put_local ts_reuse_addr]. rewrite Hl.
  rewrite bool_decide_eq_true_2 by done. cbn [negb fst snd put_state ts_reuse_addr].
  rewrite Hre. cbn [negb].
  unfold on_net, zoom. cbn [snd]. rewrite (bind_check_in_use s.2 h sk) by done.
  destruct s as [[] ?], a. simpl in *. by subst.
Qed.

Lemma bind_already s b :
  ts_state s.1 = STATE_CLOSED -> ts_local_addr s.1 <> UNSPECIFIED_ENDPOINT -> sock_port b <> 0 ->
  bind b s = Ret (Err InvalidInput, s).
Proof.
  intros Hs Hl Hp. unfold bind, bind_body, bind_r.
  unfold mbind at 1, M_bind at 1. rewrite update_state_closed by done.
  destruct (Z.eqb_spec (sock_port b) 0); [done|].
  unfold mbind, M_bind, self, gets, mret, M_ret. cbn [fst snd put_state ts_local_addr].
  rewrite bool_decide_eq_false_2 by done. cbn.
  destruct s as [[] ?]. simpl in *. by subst.
Qed.

Lemma ListenTable_listen_free n lep :
  table_ok (n_table n) -> 0 < lep_port lep < PORT_NUM -> port_free (n_table n) (lep_port lep) ->
  ListenTable_listen lep n =
    Ret (Ok tt, put_table (<[Z.to_nat (lep_port lep) := Some (ListenTableEntry_new lep)]>
                             (n_table n)) n).
Proof.
  intros Ht Hp Hf. unfold ListenTable_listen, assert.
  destruct (Z.eqb_spec (lep_port lep) 0); [lia|].
  cbn [negb]. rewrite (bind_Ret (mret tt) _ _ tt n) by done.
  assert (table_at (lep_port lep) n = Ret (None, n)) as Et.
  { destruct (index_port _ (lep_port lep) Ht ltac:(lia)) as (e & E & He & _).
    unfold table_at. rewrite E. unfold port_free in Hf. congruence. }
  rewrite (bind_Ret _ _ _ _ _ Et). destruct Ht as [Hlen _].
  by rewrite (bind_Ret _ _ _ _ _ (table_set_Ret n (lep_port lep) _ ltac:(lia))).
Qed.

Lemma listen_bound s :
  ts_state s.1 = STATE_CLOSED -> 0 < ep_port (ts_local_addr s.1) < PORT_NUM ->
  table_ok (n_table s.2) -> port_free (n_table s.2) (ep_port (ts_local_addr s.1)) ->
  exists s' e, listen s = Ret (Ok tt, s') /\ ts_state s'.1 = STATE_LISTENING /\
    n_table s'.2 !! Z.to_nat (ep_port (ts_local_addr s.1)) = Some (Some e) /\
    lep_port (listen_endpoint e) = ep_port (ts_local_addr s.1).
Proof.
  intros Hs Hp Ht Hf. destruct s as [t n]. simpl in *.
  set (lep := MkLep (if is_unspecified (ep_addr (ts_local_addr t)) then None
                     else Some (ep_addr (ts_local_addr t))) (ep_port (ts_local_addr t))).
  set (s1 := (put_state STATE_BUSY t, n)).
  assert (bound_endpoint s1 = Ret (Ok lep, s1)) as Eb.
  { unfold bound_endpoint, bind_r, self, gets, mbind, M_bind. cbn [fst put_state ts_local_addr s1].
    destruct (Z.eqb_spec (ep_port (ts_local_addr t)) 0) as [|Hne]; [lia|]. cbn [negb].
    unfold mret, M_ret, assert. by rewrite (proj2 (Z.eqb_neq _ _) Hne). }
  unfold listen. unfold mbind at 1, M_bind at 1. rewrite update_state_closed by done.
  change ((put_state STATE_BUSY (t, n).1, (t, n).2)) with s1.
  unfold bind_r, mbind, M_bind. rewrite Eb. unfold update, modify, on_net, zoom.
  cbn [fst snd s1]. rewrite (ListenTable_listen_free n lep) by done.
  eexists _, (ListenTableEntry_new lep). split_and!; [done|done| |done]. simpl.
  apply list_lookup_insert_eq. destruct Ht as [Hlen _]. lia.
Qed.
End bind_listen.

(** ** Properties *)


(** A closed, non-blocking socket with handle 1. *)
Definition ref_tcp (st : Z) (nonblock : bool) : TcpSocket :=
  MkTcp st (Some 1) UNSPECIFIED_ENDPOINT UNSPECIFIED_ENDPOINT nonblock false.
Definition ref_peer : SocketAddr := MkSocketAddr (V4 [10; 0; 2; 2]) 6379.
Definition ref_tn (st : Z) (nonblock : bool) : @TN ref_smoltcp :=
  (ref_tcp st nonblock, ref_net {[1 := rsock_new]} ListenTable_new).


(** A non-blocking [connect] is never completed by the operations the net
    thread's clients can reach.  On a connecting socket every one of them
    returns at once and changes nothing, whatever the network has done
    meanwhile: [recv] and [send] answer [WouldBlock], [connect]
    [AlreadyExists], [bind] and [accept] [InvalidInput], while [listen] and
    [shutdown] report success without listening or closing.  Only [poll], which
    no request of the IPC protocol calls, leaves the state. *)
Theorem connecting_is_stuck `{SM : Smoltcp} `{AX : AxErrno} (fuel : nat) (s : TN)
    (Hs : ts_state s.1 = STATE_CONNECTING) :
  (forall n, recv fuel n s = Ret (Err WouldBlock, s)) /\
  (forall bs, send fuel bs s = Ret (Err WouldBlock, s)) /\
  (forall a, connect fuel a s = Ret (Err AlreadyExists, s)) /\
  (forall a, bind a s = Ret (Err InvalidInput, s)) /\
  accept fuel s = Ret (Err InvalidInput, s) /\
  listen s = Ret (Ok tt, s) /\ shutdown s = Ret (Ok tt, s).
Proof.
  assert (ts_state s.1 <> STATE_CLOSED) as H0 by by rewrite Hs.
  assert (ts_state s.1 <> STATE_CONNECTED) as H3 by by rewrite Hs.
  assert (ts_state s.1 <> STATE_LISTENING) as H4 by by rewrite Hs.
  split_and!; intros.
  - unfold recv, is_connecting, get_state, self, gets, mbind, M_bind, mret, M_ret. by rewrite Hs.
  - unfold send, is_connecting, get_state, self, gets, mbind, M_bind, mret, M_ret. by rewrite Hs.
  - unfold connect. by rewrite (bind_Ret _ _ _ _ _ (update_state_other _ _ _ s H0)).
  - unfold bind. by rewrite (bind_Ret _ _ _ _ _ (update_state_other _ _ _ s H0)).
  - unfold accept, is_listening, get_state, self, gets, mbind, M_bind, mret, M_ret. by rewrite Hs.
  - unfold listen. by rewrite (bind_Ret _ _ _ _ _ (update_state_other _ _ _ s H0)).
  - unfold shutdown, bind_r. rewrite (bind_Ret _ _ _ _ _ (update_state_other _ _ _ s H3)).
    rewrite (bind_Ret (mret _) _ _ (Ok tt) s) by done.
    by rewrite (bind_Ret _ _ _ _ _ (update_state_other _ _ _ s H4)).
Qed.

(** The peer has answered, the stack's socket is established, the socket still waits. *)
Definition ref_tn_established : @TN ref_smoltcp :=
  (ref_tcp STATE_CONNECTING true, ref_net {[1 := ref_sock Established]} ListenTable_new).

Lemma connecting_is_stuck_witness :
  @recv ref_smoltcp ref_axerrno 1 64 ref_tn_established = Ret (Err RWouldBlock, ref_tn_established).
Proof.
  exact (proj1 (@connecting_is_stuck ref_smoltcp ref_axerrno 1 ref_tn_established eq_refl) 64).
Defined.

(** [bind] refuses an address as soon as any socket is bound to the same IP
    address, whatever the ports; and a refused [bind] is not undone.  The socket
    keeps the refused address: every later [bind] fails with [InvalidInput] as
    already bound, and [listen] succeeds on the address that was refused. *)
Theorem refused_bind_sticks `{SM : Smoltcp} `{SL : !SmoltcpLaws} `{AX : AxErrno}
    (s : TN) (a : SocketAddr) (h : Z) (sk : TcpSock)
    (Hs : ts_state s.1 = STATE_CLOSED) (Hlocal : ts_local_addr s.1 = UNSPECIFIED_ENDPOINT)
    (Hreuse : ts_reuse_addr s.1 = false)
    (Hport : 0 < sock_port a < PORT_NUM)
    (Hother : set_get (n_set s.2) h = Some sk)
    (Hbound : lep_addr (sk_bound_endpoint sk) = Some (from_core_ipaddr (sock_ip a)))
    (Htable : table_ok (n_table s.2)) (Hfree : port_free (n_table s.2) (sock_port a)) :
  let s' := (put_local (from_core_sockaddr a) s.1, s.2) in
  bind a s = Ret (Err AddrInUse, s') /\
  (forall b, sock_port b <> 0 -> bind b s' = Ret (Err InvalidInput, s')) /\
  exists s'' e, listen s' = Ret (Ok tt, s'') /\ ts_state s''.1 = STATE_LISTENING /\
    n_table s''.2 !! Z.to_nat (sock_port a) = Some (Some e) /\
    lep_port (listen_endpoint e) = sock_port a.
Proof.
  assert (from_core_sockaddr a <> UNSPECIFIED_ENDPOINT) as Ha.
  { intros E. apply (f_equal ep_port) in E. simpl in E. lia. }
  split_and!.
  - by eapply bind_refused; [..|lia|exact Hother|exact Hbound].
  - intros b Hb. by apply bind_already.
  - by eapply (listen_bound (put_local (from_core_sockaddr a) s.1, s.2)).
Qed.

(** Another socket is bound to 10.0.2.15:80; this one asks for 10.0.2.15:6379. *)
Definition ref_bind_addr : SocketAddr := MkSocketAddr (V4 [10; 0; 2; 15]) 6379.
Definition ref_bound_sock : rsock :=
  MkRSock Closed None None (MkLep (Some (Ipv4 [10; 0; 2; 15])) 80) [] true.
Definition ref_bind_tn : @TN ref_smoltcp :=
  (ref_tcp STATE_CLOSED false,
   ref_net (<[1 := rsock_new]> {[2 := ref_bound_sock]}) ListenTable_new).

Definition ref_refused_tn : @TN ref_smoltcp :=
  (put_local (from_core_sockaddr ref_bind_addr) ref_bind_tn.1, ref_bind_tn.2).

Lemma refused_bind_sticks_witness :
  @bind ref_smoltcp ref_axerrno ref_bind_addr ref_bind_tn = Ret (Err RAddrInUse, ref_refused_tn) /\
  (forall b, sock_port b <> 0 ->
     @bind ref_smoltcp ref_axerrno b ref_refused_tn = Ret (Err RInvalidInput, ref_refused_tn)) /\
  exists s'' e, @listen ref_smoltcp ref_axerrno ref_refused_tn = Ret (Ok tt, s'') /\
    ts_state s''.1 = STATE_LISTENING /\
    n_table s''.2 !! Z.to_nat 6379 = Some (Some e) /\ lep_port (listen_endpoint e) = 6379.
Proof.
  apply (@refused_bind_sticks ref_smoltcp ref_smoltcp_laws ref_axerrno ref_bind_tn ref_bind_addr
    2 ref_bound_sock).
  - reflexivity.
  - reflexivity.
  - reflexivity.
  - cbn. unfold PORT_NUM. lia.
  - reflexivity.
  - reflexivity.
  - apply ListenTable_new_ok.
  - apply ListenTable_new_lookup. reflexivity.
Defined.
