(* ===== verification/NetTest.v ===== *)
(** * The test programs of the net thread
      ([net-thread/src/smoltcp_impl/test.rs])

    A client that fetches a page, and a server that answers every connection
    with a fixed one.  Strings are lists of bytes. *)

From stdpp Require Import strings pretty.
From Stdlib Require Import Ascii.
From S2P Require Import Prelude Words Externs Reference Uspace NetDev Smoltcp RefSmoltcp ListenTable TcpSocket.

(** ** Text *)

Fixpoint bytes_of (s : string) : list Z :=
  match s with EmptyString => [] | String c s => Z.of_nat (nat_of_ascii c) :: bytes_of s end.

Definition CRLF : list Z := [13; 10].
Definition NL : list Z := [10].
Definition QUOTE : list Z := [34].

(** [core::str::from_utf8] accepts exactly the well-formed UTF-8 sequences. *)
Definition tail_byte (b : Z) : bool := (0x80 <=? b) && (b <=? 0xbf).
Fixpoint is_utf8 (bs : list Z) : bool :=
  match bs with
  | [] => true
  | b0 :: bs =>
      if b0 <? 0x80 then is_utf8 bs
      else match bs with
      | [] => false
      | b1 :: bs =>
          if (0xc2 <=? b0) && (b0 <=? 0xdf) then tail_byte b1 && is_utf8 bs
          else match bs with
          | [] => false
          | b2 :: bs =>
              if (0xe0 <=? b0) && (b0 <=? 0xef) then
                (if b0 =? 0xe0 then 0xa0 <=? b1 else true) && (if b0 =? 0xed then b1 <=? 0x9f else true) &&
                tail_byte b1 && tail_byte b2 && is_utf8 bs
              else match bs with
              | [] => false
              | b3 :: bs =>
                  (0xf0 <=? b0) && (b0 <=? 0xf4) &&
                  (if b0 =? 0xf0 then 0x90 <=? b1 else true) && (if b0 =? 0xf4 then b1 <=? 0x8f else true) &&
                  tail_byte b1 && tail_byte b2 && tail_byte b3 && is_utf8 bs
              end
          end
      end
  end.

Definition REQUEST : list Z :=
  bytes_of "GET / HTTP/1.1" ++ CRLF ++ bytes_of "Host: ident.me" ++ CRLF ++
  bytes_of "Accept: */*" ++ CRLF ++ CRLF.

Definition CONTENT : list Z :=
  bytes_of "<html>" ++ NL ++
  bytes_of "    <head>" ++ NL ++
  bytes_of "      <title>Hello, ArceOS</title>" ++ NL ++
  bytes_of "    </head>" ++ NL ++
  bytes_of "    <body>" ++ NL ++
  bytes_of "      <center>" ++ NL ++
  bytes_of "        <h1>Hello, <a href=" ++ QUOTE ++ bytes_of "https://github.com/rcore-os/arceos" ++ QUOTE ++
    bytes_of ">ArceOS</a></h1>" ++ NL ++
  bytes_of "      </center>" ++ NL ++
  bytes_of "      <hr>" ++ NL ++
  bytes_of "      <center>" ++ NL ++
  bytes_of "        <i>Powered by <a href=" ++ QUOTE ++
    bytes_of "https://github.com/rcore-os/arceos/tree/main/apps/net/httpserver" ++ QUOTE ++
    bytes_of ">ArceOS example HTTP server</a> v0.1.0</i>" ++ NL ++
  bytes_of "      </center>" ++ NL ++
  bytes_of "    </body>" ++ NL ++
  bytes_of "    </html>" ++ NL ++
  bytes_of "    ".

(** [format!(header!(), content.len(), content)] *)
Definition http_response (content : list Z) : list Z :=
  bytes_of "HTTP/1.1 200 OK" ++ CRLF ++
  bytes_of "Content-Type: text/html" ++ CRLF ++
  bytes_of "Content-Length: " ++ bytes_of (pretty (N.of_nat (length content))) ++ CRLF ++
  bytes_of "Connection: close" ++ CRLF ++
  CRLF ++ content.

(** ** The programs *)

Section programs.
Context `{SM : Smoltcp} `{AX : AxErrno}.

(** A computation on another socket. *)
Definition on_stream {A} (t : TcpSocket) (m : M TN A) : M TN A :=
  zoom (fun s => (t, s.2)) (fun tn s => (s.1, tn.2)) m.

Definition unwrap_ok {A} (r : AxResult A) : M TN A :=
  match r with Ok a => mret a | Err _ => panic_with PUnwrap end.

(** The client; the socket is dropped at the end. *)
Definition client_body (fuel : nat) : M TN (list Z) :=
  r ← connect fuel (MkSocketAddr (V4 [49; 12; 234; 183]) 80);
  unwrap_ok r ;;
  r ← send fuel REQUEST;
  unwrap_ok r ;;
  r ← recv fuel 256;
  response ← unwrap_ok r;
  (if is_utf8 response then mret tt else panic_with PUnwrap) ;;
  TcpSocket_drop ;;
  mret response.

(** A program on a new socket: its result and the socket. *)
Definition on_new_socket {A} (m : M TN A) : M Net (A * TcpSocket) := fun n =>
  match TcpSocket_new n with
  | Ret tn => match m tn with
              | Ret (x, s) => Ret ((x, s.1), s.2)
              | Panic p => Panic p | Deadlock => Deadlock | NoFuel => NoFuel
              end
  | Panic p => Panic p | Deadlock => Deadlock | NoFuel => NoFuel
  end.

Definition test_client (fuel : nat) : M Net (list Z) :=
  r ← on_new_socket (client_body fuel);
  mret r.1.

(** [http_server] owns the stream and drops it when it returns. *)
Definition http_server (fuel : nat) : M TN unit :=
  r ← recv fuel 256;
  unwrap_ok r ;;
  r ← send fuel (http_response CONTENT);
  unwrap_ok r ;;
  TcpSocket_drop.

(** [n] rounds of the server's loop. *)
Fixpoint serve_clients (fuel n : nat) : M TN unit :=
  match n with
  | O => mret tt
  | S n =>
      r ← accept fuel;
      match r with
      | Ok socket => on_stream socket (http_server fuel)
      | Err _ => mret tt
      end ;;
      serve_clients fuel n
  end.

Definition SERVER_ADDR : SocketAddr := MkSocketAddr (V4 [0; 0; 0; 0]) 6379.

(** The socket of the server, listening. *)
Definition server_setup : M TN unit :=
  r ← bind SERVER_ADDR;
  unwrap_ok r ;;
  r ← listen;
  unwrap_ok r.

Definition run_server (fuel n : nat) : M Net (unit * TcpSocket) :=
  on_new_socket (server_setup ;; serve_clients fuel n).
End programs.

(** ** Properties *)

Section laws.
Context `{SM : Smoltcp} `{SL : !SmoltcpLaws} `{AX : AxErrno} `{AL : !AxErrnoLaws}.

Lemma unwrap_ok_inv {A} (r : AxResult A) s x s' : unwrap_ok r s = Ret (x, s') -> r = Ok x /\ s' = s.
Proof. destruct r; [|done]. by intros [= -> ->]. Qed.

Lemma owns_unwrap {A} h o (r : AxResult A) : preserves (owns h o) (unwrap_ok r).
Proof. by intros s x s' Hs [_ ->]%unwrap_ok_inv. Qed.

Lemma http_server_own fuel h o s u s' : owns h o s -> http_server fuel s = Ret (u, s') -> net_ok o s'.2.
Proof.
  intros Hs E. unfold http_server in E.
  ibind E as r s1 E1. apply (owns_recv fuel h o 256 _ _ _ Hs) in E1.
  ibind E as x s2 E2. apply (owns_unwrap h o _ _ _ _ E1) in E2.
  ibind E as r' s3 E3. apply (owns_send fuel h o _ _ _ _ E2) in E3.
  ibind E as x' s4 E4. apply (owns_unwrap h o _ _ _ _ E3) in E4. by eapply drop_own.
Qed.

(** The client gives its socket back. *)
Lemma test_client_own fuel o n r n' : net_ok o n -> test_client fuel n = Ret (r, n') -> net_ok o n'.
Proof.
  intros Hn E. unfold test_client in E. ibind E as x n1 E1. injection E as _ <-. unfold on_new_socket in E1.
  destruct (TcpSocket_new n) as [[t n0]| | |] eqn:E0; try done.
  destruct (new_own o n t n0 Hn E0) as (h & Hh & Hn0).
  destruct (client_body fuel (t, n0)) as [[y s]| | |] eqn:E2; try done. injection E1 as _ <-.
  unfold client_body in E2.
  ibind E2 as r1 s1 F1. apply (owns_connect fuel h o _ _ _ _ (conj Hh Hn0 : owns h o (t, n0))) in F1.
  ibind E2 as x1 s2 F2. apply (owns_unwrap h o _ _ _ _ F1) in F2.
  ibind E2 as r2 s3 F3. apply (owns_send fuel h o _ _ _ _ F2) in F3.
  ibind E2 as x2 s4 F4. apply (owns_unwrap h o _ _ _ _ F3) in F4.
  ibind E2 as r3 s5 F5. apply (owns_recv fuel h o 256 _ _ _ F4) in F5.
  ibind E2 as x3 s6 F6. apply (owns_unwrap h o _ _ _ _ F5) in F6.
  ibind E2 as u s7 F7. destruct (is_utf8 x3); [|done]. injection F7 as _ <-.
  ibind E2 as u2 s8 F8. injection E2 as _ <-. by eapply drop_own.
Qed.

(** The server gives every accepted socket back and keeps its own. *)
Lemma serve_clients_own fuel n : forall h o s u s',
  owns h o s -> serve_clients fuel n s = Ret (u, s') -> owns h o s' /\ s'.1 = s.1.
Proof.
  induction n as [|n IH]; intros h o s u s' Hs E; simpl in E; [by injection E as _ <-|].
  ibind E as r s1 E1. destruct (accept_own fuel h o s r s1 Hs E1) as [Ht Hr].
  pose proof (proj1 (inert_methods fuel s.1) s r s1 eq_refl E1) as Es.
  ibind E as x s2 E2. destruct r as [t|e].
  - destruct Hr as (h' & Ht' & Hn). unfold on_stream, zoom in E2.
    destruct (http_server fuel (t, s1.2)) as [[[] s3]| | |] eqn:E3; try done. injection E2 as _ <-.
    apply (http_server_own fuel h' (h :: o)) in E3; [|done].
    destruct (IH h o _ _ _ (conj Ht E3 : owns h o (s1.1, s3.2)) E) as [Ho Eq]. split; [done|]. by rewrite Eq.
  - injection E2 as <- <-. destruct (IH h o _ _ _ (conj Ht Hr) E) as [Ho Eq]. split; [done|]. by rewrite Eq.
Qed.

(** No socket is bound to the address. *)
Definition addr_unbound (addr : IpAddress) (n : Net) : Prop :=
  (forall h sk, set_get (n_set n) h = Some sk -> lep_addr (sk_bound_endpoint sk) <> Some addr) /\
  Some addr ∉ set_udp_addrs (n_set n).

Lemma bind_check_free n addr port : addr_unbound addr n -> bind_check addr port n = Ret (Ok tt, n).
Proof.
  intros [Ht Hu]. unfold bind_check.
  destruct (existsb _ (set_tcp (n_set n))) eqn:E1.
  { apply existsb_exists in E1 as ([h sk] & Hin & Hb). apply list_elem_of_In, set_tcp_ok in Hin.
    apply bool_decide_eq_true in Hb. by destruct (Ht h sk Hin). }
  destruct (existsb _ (set_udp_addrs (n_set n))) eqn:E2; [|done].
  apply existsb_exists in E2 as (x & Hin & ->%bool_decide_eq_true). by apply list_elem_of_In in Hin.
Qed.

(** [bind] to a free address. *)
Lemma bind_free (t : TcpSocket) n a h sk :
  ts_state t = STATE_CLOSED -> ts_local_addr t = UNSPECIFIED_ENDPOINT -> ts_handle t = Some h ->
  sock_port a <> 0 -> set_get (n_set n) h = Some sk -> addr_unbound (from_core_ipaddr (sock_ip a)) n ->
  exists n', bind a (t, n) = Ret (Ok tt, (put_local (from_core_sockaddr a) t, n')) /\ n_table n' = n_table n.
Proof.
  intros Hs Hl Hh Hp Hk Hu. destruct t as [st hd loc peer nb re], a as [ip port]. cbn in *. subst st hd loc.
  unfold bind, bind_body, bind_r. unfold mbind at 1, M_bind at 1. rewrite update_state_closed by done.
  cbn [sock_port sock_ip]. rewrite (proj2 (Z.eqb_neq _ _) Hp).
  assert (on_net (bind_check (from_core_ipaddr ip) port) (MkTcp STATE_BUSY (Some h)
    (MkEp (from_core_ipaddr ip) port) peer nb re, n) = Ret (Ok tt, (MkTcp STATE_BUSY (Some h)
    (MkEp (from_core_ipaddr ip) port) peer nb re, n))) as Eb.
  { unfold on_net, zoom. cbn [snd]. by rewrite bind_check_free. }
  assert (forall m, m = on_net (bind_check (from_core_ipaddr ip) port) \/ m = mret (Ok tt) ->
    m (MkTcp STATE_BUSY (Some h) (MkEp (from_core_ipaddr ip) port) peer nb re, n) =
    Ret (Ok tt, (MkTcp STATE_BUSY (Some h) (MkEp (from_core_ipaddr ip) port) peer nb re, n))) as Em
    by (by intros m [->| ->]).
  eexists. split.
  - unfold mbind, M_bind, is_reuse_addr, self, gets, update, modify, mret, M_ret. cbn.
    rewrite bool_decide_eq_true_2 by done. cbn [negb].
    rewrite Em by (destruct re; [by right|by left]). cbn.
    unfold bound_endpoint, bind_r, self, gets, mbind, M_bind, mret, M_ret. cbn.
    rewrite (proj2 (Z.eqb_neq _ _) Hp). cbn. unfold assert. rewrite (proj2 (Z.eqb_neq _ _) Hp). cbn.
    unfold handle_or_add, on_net, zoom, with_socket_mut, self, gets, mbind, M_bind. cbn. rewrite Hk. reflexivity.
  - done.
Qed.
End laws.


