(* ===== verification/NetInit.v ===== *)
(** * Start of the network stack and its benchmark
      ([net-thread/src/smoltcp_impl/mod.rs], [bench.rs])

    [init] configures the two interfaces and fills the static variables the rest
    of the net thread works with. *)

From stdpp Require Import strings pretty gmultiset.
From S2P Require Import Prelude Words Externs Uspace NetDev Smoltcp RefSmoltcp ListenTable.

(** ** Configuration of an interface *)

Inductive HardwareAddress := HwEthernet (addr : list Z) | HwIp.

(** The part of [smoltcp] that [init] uses: a new interface for a device with
    given capabilities, [update_ip_addrs] with a [push] of one address, and
    [routes_mut().add_default_ipv*_route]; both fail when their table is full. *)
Class IfaceConfig `{Smoltcp} := {
  caps_default : DeviceCapabilities;
  seed_default : Z;
  iface_new : HardwareAddress -> Z -> DeviceCapabilities -> Z -> Iface;
  iface_push_addr : IpAddress -> Z -> Iface -> option Iface;
  iface_default_route : IpAddress -> Iface -> option Iface;
  (** [str::parse::<IpAddress>] *)
  ip_parse : string -> option IpAddress;
}.

(** The dotted form of an address. *)
Definition dotted (a b c d : N) : string :=
  (pretty a +:+ "." +:+ pretty b +:+ "." +:+ pretty c +:+ "." +:+ pretty d)%string.

Class IfaceConfigLaws `{IfaceConfig} := {
  if_addrs : Iface -> list (IpAddress * Z);
  if_route : Iface -> option IpAddress;
  iface_new_empty hw seed caps now :
    if_addrs (iface_new hw seed caps now) = [] /\ if_route (iface_new hw seed caps now) = None;
  iface_push_first ip len i : if_addrs i = [] ->
    exists i', iface_push_addr ip len i = Some i' /\ if_addrs i' = [(ip, len)] /\ if_route i' = if_route i;
  iface_route_first ip i : if_route i = None ->
    exists i', iface_default_route ip i = Some i' /\ if_route i' = Some ip /\ if_addrs i' = if_addrs i;
  ip_parse_dotted a b c d : (a < 256)%N -> (b < 256)%N -> (c < 256)%N -> (d < 256)%N ->
    ip_parse (dotted a b c d) = Some (Ipv4 [Z.of_N a; Z.of_N b; Z.of_N c; Z.of_N d]);
}.

Section init.
Context `{SM : Smoltcp} `{IC : !IfaceConfig}.

Definition IP : string := "10.0.2.15".
Definition GATEWAY : string := "10.0.2.2".
Definition IP_PREFIX : Z := 24.
Definition RANDOM_SEED : Z := 0xA2CE05A2CE05A2CE.

Record InterfaceWrapper := MkIface {
  iw_name : string;
  iw_ether_addr : list Z;
  iw_dev : DeviceWrapper;
  iw_iface : Iface;
}.

(** The lazily initialised statics, and [TIME_TICKS]. *)
Record Statics := MkStatics {
  st_eth0 : option InterfaceWrapper;
  st_socket_set : option SocketSet;
  st_listen_table : option ListenTable;
  st_loopback : option Iface;
  st_loopback_dev : option LoopbackDev;
  st_ticks : Z;
}.

Definition st_tick : M Statics Z :=
  zoom st_ticks (fun t s => MkStatics (st_eth0 s) (st_socket_set s) (st_listen_table s) (st_loopback s)
                              (st_loopback_dev s) t) tick.

Definition InterfaceWrapper_new (name : string) (dev : NetDevice) (ether_addr : list Z) :
    M Statics InterfaceWrapper :=
  let dev := DeviceWrapper_new dev in
  now ← st_tick;
  mret (MkIface name ether_addr dev
          (iface_new (HwEthernet ether_addr) RANDOM_SEED (dev_capabilities dev caps_default) now)).

Definition InterfaceWrapper_name (w : InterfaceWrapper) : string := iw_name w.
Definition ethernet_address (w : InterfaceWrapper) : list Z := iw_ether_addr w.

Definition with_iface (f : Iface -> option Iface) (w : InterfaceWrapper) : M Statics InterfaceWrapper :=
  i ← unwrap (f (iw_iface w));
  mret (MkIface (iw_name w) (iw_ether_addr w) (iw_dev w) i).

Definition setup_ip_addr (ip : IpAddress) (prefix_len : Z) : InterfaceWrapper -> M Statics InterfaceWrapper :=
  with_iface (iface_push_addr ip prefix_len).
Definition setup_gateway (gateway : IpAddress) : InterfaceWrapper -> M Statics InterfaceWrapper :=
  with_iface (iface_default_route gateway).

(** [LazyInit::init_once] panics when there is a value. *)
Definition init_once {A} (get : Statics -> option A) (put : A -> Statics -> Statics) (a : A) : M Statics unit :=
  old ← gets get;
  match old with
  | Some _ => panic_with PExplicit
  | None => modify (put a)
  end.

Definition init_eth0 : InterfaceWrapper -> M Statics unit :=
  init_once st_eth0 (fun x s => MkStatics (Some x) (st_socket_set s) (st_listen_table s) (st_loopback s)
                                  (st_loopback_dev s) (st_ticks s)).
Definition init_socket_set : SocketSet -> M Statics unit :=
  init_once st_socket_set (fun x s => MkStatics (st_eth0 s) (Some x) (st_listen_table s) (st_loopback s)
                                  (st_loopback_dev s) (st_ticks s)).
Definition init_listen_table : ListenTable -> M Statics unit :=
  init_once st_listen_table (fun x s => MkStatics (st_eth0 s) (st_socket_set s) (Some x) (st_loopback s)
                                  (st_loopback_dev s) (st_ticks s)).
Definition init_loopback : Iface -> M Statics unit :=
  init_once st_loopback (fun x s => MkStatics (st_eth0 s) (st_socket_set s) (st_listen_table s) (Some x)
                                  (st_loopback_dev s) (st_ticks s)).
Definition init_loopback_dev : LoopbackDev -> M Statics unit :=
  init_once st_loopback_dev (fun x s => MkStatics (st_eth0 s) (st_socket_set s) (st_listen_table s)
                                  (st_loopback s) (Some x) (st_ticks s)).

(** The first part of [init]: the interface of the card. *)
Definition make_eth0 (net_dev : NetDevice) : M Statics InterfaceWrapper :=
  eth0 ← InterfaceWrapper_new "eth0" net_dev [0x52; 0x54; 0x00; 0x12; 0x34; 0x56];
  ip ← unwrap (ip_parse IP);
  gateway ← unwrap (ip_parse GATEWAY);
  eth0 ← setup_ip_addr ip IP_PREFIX eth0;
  setup_gateway gateway eth0.

Definition init (net_dev : NetDevice) : M Statics unit :=
  eth0 ← make_eth0 net_dev;
  init_eth0 eth0 ;;
  init_socket_set set_new ;;
  init_listen_table ListenTable_new ;;
  let loopback_device := LoopbackDev_new Ip in
  now ← st_tick;
  let iface := iface_new HwIp seed_default (dev_capabilities loopback_device caps_default) now in
  iface ← unwrap (iface_push_addr (Ipv4 [127; 0; 0; 1]) 8 iface);
  init_loopback iface ;;
  init_loopback_dev loopback_device.

(** The statics as the rest of the thread sees them; [CURR] of
    [get_ephemeral_port] starts at [PORT_START]. *)
Definition net_of (s : Statics) : option Net :=
  match st_eth0 s, st_socket_set s, st_listen_table s, st_loopback s, st_loopback_dev s with
  | Some e, Some set, Some table, Some lo, Some lodev =>
      Some (MkNet set table lo lodev (iw_iface e) (iw_dev e) (st_ticks s) PORT_START)
  | _, _, _, _, _ => None
  end.
End init.
Arguments Statics {SM}.
Arguments InterfaceWrapper {SM}.

Definition uninitialized `{Smoltcp} : Statics := MkStatics None None None None None 0.

(** What the thread finds after the start. *)
Record net_started `{IL : IfaceConfigLaws} (dev : NetDevice) (n : Net) : Prop := {
  ns_inv : net_ok [] n;
  ns_sockets h : set_get (n_set n) h = None;
  ns_ports p : 0 <= p < PORT_NUM -> port_free (n_table n) p;
  ns_eth : if_addrs (n_eth n) = [(Ipv4 [10; 0; 2; 15], 24)] /\ if_route (n_eth n) = Some (Ipv4 [10; 0; 2; 2]);
  ns_loop : if_addrs (n_loop n) = [(Ipv4 [127; 0; 0; 1], 8)] /\ lo_queue (n_loopdev n) = [];
  ns_dev : n_ethdev n = DeviceWrapper_new dev;
}.

(** The configured card, from any statics. *)
Lemma wp_make_eth0 `{IL : IfaceConfigLaws} dev s (Q : InterfaceWrapper -> Statics -> Prop) :
  (forall w, if_addrs (iw_iface w) = [(Ipv4 [10; 0; 2; 15], 24)] ->
     if_route (iw_iface w) = Some (Ipv4 [10; 0; 2; 2]) -> iw_dev w = DeviceWrapper_new dev ->
     forall t, Q w (MkStatics (st_eth0 s) (st_socket_set s) (st_listen_table s) (st_loopback s)
                      (st_loopback_dev s) t)) ->
  wp (make_eth0 dev) Q s.
Proof.
  intros HQ.
  assert (ip_parse IP = Some (Ipv4 [10; 0; 2; 15])) as E1.
  { change IP with (dotted 10 0 2 15). by rewrite ip_parse_dotted. }
  assert (ip_parse GATEWAY = Some (Ipv4 [10; 0; 2; 2])) as E2.
  { change GATEWAY with (dotted 10 0 2 2). by rewrite ip_parse_dotted. }
  unfold make_eth0, InterfaceWrapper_new, st_tick. wp_step. wp_step. wp_step. unfold tick. eexists _, _.
  split; [reflexivity|]. simpl. wp_step. rewrite E1, E2. wp_step. wp_step. wp_step. wp_step. wp_step.
  unfold setup_ip_addr, setup_gateway, with_iface. simpl.
  match goal with |- context [iface_new ?hw ?sd ?c ?now] => set (i0 := iface_new hw sd c now) end.
  destruct (iface_new_empty (HwEthernet [82; 84; 0; 18; 52; 86]) RANDOM_SEED
    (DeviceWrapper_capabilities caps_default) (as_i64 (wrap64 (st_ticks s + 1)))) as [N1 N2].
  destruct (iface_push_first (Ipv4 [10; 0; 2; 15]) IP_PREFIX i0 N1) as (i1 & P1 & P2 & P3).
  destruct (iface_route_first (Ipv4 [10; 0; 2; 2]) i1) as (i2 & R1 & R2 & R3); [by rewrite P3|].
  rewrite P1. wp_step. wp_step. wp_step. simpl. rewrite R1. wp_step. wp_step. wp_step.
  apply HQ; simpl; [by rewrite R3, P2|congruence|done].
Qed.

Lemma wp_init_once `{Smoltcp} {A} (get : Statics -> option A) put a s (Q : unit -> Statics -> Prop) :
  get s = None -> Q tt (put a s) -> wp (init_once get put a) Q s.
Proof. intros E HQ. unfold init_once. wp_step. wp_step. rewrite E. by wp_step. Qed.

Lemma init_again `{IL : IfaceConfigLaws} dev s : is_Some (st_eth0 s) -> init dev s = Panic PExplicit.
Proof.
  intros Hs. destruct (wp_make_eth0 dev s (fun _ s' => is_Some (st_eth0 s'))) as (w & s' & E & [x Hx]); [done|].
  unfold init. rewrite (bind_Ret _ _ _ _ _ E). apply bind_Panic. unfold init_eth0, init_once.
  unfold mbind, M_bind, gets. by rewrite Hx.
Qed.

Lemma wp_init `{SM : Smoltcp} `{SL : !SmoltcpLaws} `{IC : !IfaceConfig} `{IL : !IfaceConfigLaws}
    (dev : NetDevice) :
  wp (init dev) (fun _ s => (exists n, net_of s = Some n /\ net_started dev n) /\
    forall dev', init dev' s = Panic PExplicit) uninitialized.
Proof.
  unfold init. wp_step. apply wp_make_eth0. intros w A1 A2 A3 t.
  do 3 (wp_step; eapply wp_init_once; [reflexivity|simpl]).
  wp_step. eexists _, _. split; [reflexivity|]. simpl.
  destruct (iface_new_empty HwIp seed_default (LoopbackDev_capabilities (LoopbackDev_new Ip) caps_default)
    (as_i64 (wrap64 (t + 1)))) as [N1 _].
  destruct (iface_push_first (Ipv4 [127; 0; 0; 1]) 8 _ N1) as (i1 & P1 & P2 & _). rewrite P1. wp_step. wp_step.
  wp_step. eapply wp_init_once; [reflexivity|]. simpl. eapply wp_init_once; [reflexivity|]. simpl. split.
  - eexists. split; [reflexivity|]. split; cbn [n_set n_table n_eth n_loop n_loopdev n_ethdev]; try done.
    + by apply net_ok_new.
    + apply set_new_empty.
    + intros p Hp. apply ListenTable_new_lookup. lia.
  - intros dev'. apply init_again. by eexists.
Qed.

(** [init] returns, and fills every static variable: no socket exists, every
    port of the listen table is free, the card has its address and gateway and
    the loopback interface 127.0.0.1, and the invariant the server preserves
    holds.  A second [init] panics. *)
Theorem init_starts_net `{SM : Smoltcp} `{SL : !SmoltcpLaws} `{IC : !IfaceConfig} `{IL : !IfaceConfigLaws}
    (dev : NetDevice) :
  wp (init dev) (fun _ s => (exists n, net_of s = Some n /\ net_started dev n) /\
    forall dev', init dev' s = Panic PExplicit) uninitialized.
Proof. apply wp_init. Qed.

(** ** Witness *)

(** A parser for dotted addresses: an octet ends at a dot or at the end. *)
Fixpoint read_octet (acc : N) (s : string) : option (N * string) :=
  match s with
  | EmptyString => Some (acc, s)
  | String c s =>
      let n := Ascii.N_of_ascii c in
      if decide (n = 46%N) then Some (acc, s)
      else if decide (48 <= n < 58)%N then read_octet (10 * acc + (n - 48)) s else None
  end.

Definition ref_ip_parse (s : string) : option IpAddress :=
  a ← read_octet 0 s; b ← read_octet 0 a.2; c ← read_octet 0 b.2; d ← read_octet 0 c.2;
  if decide (d.2 = EmptyString) then Some (Ipv4 (Z.of_N <$> [a.1; b.1; c.1; d.1])) else None.

Lemma read_octet_pretty n : (n < 256)%N ->
  (forall rest, read_octet 0 (pretty n +:+ "." +:+ rest) = Some (n, rest)) /\
  read_octet 0 (pretty n) = Some (n, EmptyString).
Proof.
  set (P := fun n => (forall rest, read_octet 0 (pretty n +:+ "." +:+ rest) = Some (n, rest)) /\
    read_octet 0 (pretty n) = Some (n, EmptyString)).
  intros Hn. change (P n).
  assert (Forall P (N.of_nat <$> seq 0 256)) as HF.
  { let l := eval vm_compute in (N.of_nat <$> seq 0 256) in change (Forall P l).
    repeat (constructor; [split; [intros rest|]; vm_compute; reflexivity|]). constructor. }
  rewrite Forall_forall in HF. apply HF. apply list_elem_of_fmap. exists (N.to_nat n).
  split; [lia|]. apply elem_of_seq. lia.
Qed.

#[local] Existing Instance ref_smoltcp.

Definition ref_config : @IfaceConfig ref_smoltcp := {|
  caps_default := MkCaps 0 None Ethernet;
  seed_default := 0;
  iface_new _ _ _ _ := ([], None);
  iface_push_addr ip len i := if decide (length i.1 < 2)%nat then Some (i.1 ++ [(ip, len)], i.2) else None;
  iface_default_route ip i := Some (i.1, Some ip);
  ip_parse := ref_ip_parse;
|}.

Definition ref_config_laws : @IfaceConfigLaws ref_smoltcp ref_config.
Proof.
  refine (@Build_IfaceConfigLaws ref_smoltcp ref_config fst snd _ _ _ _); cbn.
  - done.
  - intros ip len [l r] El. cbn in *. subst l. by eexists.
  - intros ip [l r] _. by eexists.
  - intros a b c d Ha Hb Hc Hd. unfold ref_ip_parse, dotted.
    rewrite (proj1 (read_octet_pretty a Ha)). cbn [mbind option_bind snd].
    rewrite (proj1 (read_octet_pretty b Hb)). cbn [mbind option_bind snd].
    rewrite (proj1 (read_octet_pretty c Hc)). cbn [mbind option_bind snd].
    rewrite (proj2 (read_octet_pretty d Hd)). reflexivity.
Defined.

Lemma init_starts_net_witness :
  wp (@init ref_smoltcp ref_config ref_nic)
     (fun _ s => exists n, @net_of ref_smoltcp s = Some n /\ @net_ok ref_smoltcp [] n) (@uninitialized ref_smoltcp).
Proof.
  eapply wp_mono; [apply (@init_starts_net ref_smoltcp ref_smoltcp_laws ref_config ref_config_laws ref_nic)|].
  intros [] s [(n & E & HS) _]. exists n. split; [exact E|]. apply (ns_inv _ _ HS).
Defined.
