(* ===== verification/NetBench.v ===== *)
(** * The benchmarks of the network card ([net-thread/src/smoltcp_impl/bench.rs])

    Both loops run until ten gigabytes have gone through the card and report the
    bandwidth about once a second. *)

From stdpp Require Import gmultiset.
From S2P Require Import Prelude Words Externs Uspace NetDev Smoltcp RefSmoltcp.

Definition KB : Z := 1000.
Definition MB : Z := 1000 * KB.
Definition GB : Z := 1000 * MB.
Definition STANDARD_MTU : Z := 1500.
Definition MAX_SEND_BYTES : Z := 10 * GB.
Definition MAX_RECEIVE_BYTES : Z := 10 * GB.

(** [(a - b).secs()] on two [smoltcp::time::Instant]s. *)
Class InstantApi := secs_between : Z -> Z -> Z.

Section bench.
Context `{ND : NetDriver} `{IA : InstantApi} (chk : bool).

(** The locked device and [TIME_TICKS]. *)
Definition BS : Type := DeviceWrapper * Z.
Definition on_dev {A} (m : M DeviceWrapper A) : M BS A := zoom fst (fun w s => (w, s.2)) m.
Definition bench_time : M BS Z := zoom snd (fun t s => (s.1, t)) tick.

(** One line of the report: whole and fractional gigabytes, and gigabits, of the
    [bytes] since the last line. *)
Record Report := MkReport { rp_gib : Z; rp_mib : Z; rp_gb : Z; rp_mb : Z }.

Definition report (bytes past_bytes : Z) : M BS Report :=
  d ← lift (sub_chk chk bytes past_bytes);
  bits ← lift (mul_chk chk d 8);
  mret (MkReport (d / GB) (d mod GB / MB) (bits / GB) (bits mod GB / MB)).

(** What a round of either loop does last: the log, the bytes and the time of the
    last line. *)
Definition bench_report (bytes : Z) (past : Z * Z) (log : list Report) : M BS (Z * Z * list Report) :=
  current_time ← bench_time;
  if secs_between current_time past.2 =? 1
  then r ← report bytes past.1; mret (bytes, current_time, log ++ [r])
  else mret (past, log).

(** The frame: [tx_buf[0..12]], [tx_buf[12..14]] and [tx_buf[14..STANDARD_MTU]]. *)
Definition bench_frame (tx_buf : list Z) : outcome (list Z) :=
  if decide (Z.of_nat (length tx_buf) < STANDARD_MTU) then Panic PIndex
  else Ret (replicate 12 1 ++ [0x08; 0x00] ++ replicate (Z.to_nat (STANDARD_MTU - 14)) 1 ++
            drop (Z.to_nat STANDARD_MTU) tx_buf).

Fixpoint transmit_loop (fuel : nat) (send_bytes : Z) (past : Z * Z) (log : list Report) : M BS (list Report) :=
  match fuel with
  | O => out_of_fuel
  | S fuel =>
      if negb (send_bytes <? MAX_SEND_BYTES) then mret log
      else
        _ ← bench_time;
        token ← on_dev dev_transmit;
        send_bytes ←
          (if token : bool then
             on_dev (tx_consume STANDARD_MTU (fun tx_buf => b ← lift (bench_frame tx_buf); mret (tt, b))) ;;
             lift (add_chk chk send_bytes STANDARD_MTU)
           else mret send_bytes);
        x ← bench_report send_bytes past log;
        transmit_loop fuel send_bytes x.1 x.2
  end.

Definition bench_transmit_bandwidth (fuel : nat) : M BS (list Report) :=
  past_time ← bench_time;
  transmit_loop fuel 0 (0, past_time) [].

Fixpoint receive_loop (fuel : nat) (receive_bytes : Z) (past : Z * Z) (log : list Report) : M BS (list Report) :=
  match fuel with
  | O => out_of_fuel
  | S fuel =>
      if negb (receive_bytes <? MAX_RECEIVE_BYTES) then mret log
      else
        _ ← bench_time;
        o ← on_dev dev_receive;
        receive_bytes ←
          match o with
          | Some rx =>
              len ← on_dev (rx_consume rx (fun rx_buf => mret (Z.of_nat (length rx_buf), rx_buf)));
              lift (add_chk chk receive_bytes len)
          | None => mret receive_bytes
          end;
        x ← bench_report receive_bytes past log;
        receive_loop fuel receive_bytes x.1 x.2
  end.

Definition bench_receive_bandwidth (fuel : nat) : M BS (list Report) :=
  past_time ← bench_time;
  receive_loop fuel 0 (0, past_time) [].
End bench.

(** On the device of [ETH0]. *)
Section net_bench.
Context `{SM : Smoltcp} `{IA : InstantApi} (chk : bool).

Definition on_eth0 {A} : M BS A -> M Net A :=
  zoom (fun n => (n_ethdev n, n_ticks n)) (fun x n => put_ticks x.2 (put_eth (n_eth n) x.1 n)).

Definition bench_transmit (fuel : nat) : M Net (list Report) := on_eth0 (bench_transmit_bandwidth chk fuel).
Definition bench_receive (fuel : nat) : M Net (list Report) := on_eth0 (bench_receive_bandwidth chk fuel).
End net_bench.

(** ** The loops end and move what they say *)

Definition link_up `{NetDriver} : Prop :=
  forall d, (nd_recycle_tx_buffers d).1 = Ok tt /\ nd_can_transmit (nd_recycle_tx_buffers d).2 = true.

Definition frame_1500 : list Z := replicate 12 1 ++ [0x08; 0x00] ++ replicate 1486 1.

Section bench_laws.
Context `{NL : NetDriverLaws} `{IA : InstantApi} (chk : bool).

Lemma wp_bench_time s (Q : Z -> BS -> Prop) : (forall t x, Q x (s.1, t)) -> wp bench_time Q s.
Proof. intros HQ. eexists _, _. split; [reflexivity|]. simpl. apply HQ. Qed.

Lemma wp_on_dev {A} (m : M DeviceWrapper A) (Q : A -> BS -> Prop) w t :
  wp m (fun x w' => Q x (w', t)) w -> wp (on_dev m) Q (w, t).
Proof. intros Hm. unfold on_dev. by wp_step. Qed.

(** The reports never overflow. *)
Lemma wp_bench_report bytes past log w t (Q : Z * Z * list Report -> BS -> Prop) :
  0 <= past.1 <= bytes -> bytes < 2 ^ 60 ->
  (forall x t', 0 <= x.1.1 <= bytes -> Q x (w, t')) -> wp (bench_report chk bytes past log) Q (w, t).
Proof.
  intros Hp Hb HQ. unfold bench_report. wp_step. apply wp_bench_time. intros t1 now. simpl. case_match.
  - wp_step. unfold report. rewrite (sub_chk_small chk bytes past.1) by (unfold is_u64; lia).
    wp_step. eexists _, _. split; [reflexivity|]. rewrite (mul_chk_small chk) by (unfold is_u64; lia).
    wp_step. eexists _, _. split; [reflexivity|]. wp_step. wp_step. apply HQ. simpl. lia.
  - wp_step. apply HQ. simpl. lia.
Qed.

Lemma wp_transmit_loop pending rx tx k : forall fuel send past log sent w t,
  link_up -> dw_view w pending sent rx tx -> (k < fuel)%nat -> 0 <= past.1 <= send ->
  MAX_SEND_BYTES <= send + STANDARD_MTU * Z.of_nat k ->
  (k <> 0%nat -> send + STANDARD_MTU * (Z.of_nat k - 1) < MAX_SEND_BYTES) ->
  wp (transmit_loop chk fuel send past log)
     (fun _ s' => dw_view s'.1 pending (sent ++ replicate k frame_1500) rx tx) (w, t).
Proof.
  unfold STANDARD_MTU.
  induction k as [|k IH]; intros [|fuel] send past log sent w t Hup HV Hf Hp Hk Hk'; simpl in *; try lia.
  - destruct (Z.ltb_spec send MAX_SEND_BYTES); [lia|]. simpl. wp_step. simpl. by rewrite app_nil_r.
  - specialize (Hk' ltac:(lia)). destruct (Z.ltb_spec send MAX_SEND_BYTES); [|lia]. simpl.
    assert (MAX_SEND_BYTES = 10 ^ 10) as EM by reflexivity.
    wp_step. apply wp_bench_time. intros t1 _. simpl. wp_step. apply wp_on_dev.
    eapply wp_mono; [by apply wp_eth_transmit|]. intros b w1 [HV1 Hb].
    assert (b = true) as ->. { destruct b; [done|]. destruct (Hup (dw_inner w)) as [U1 U2]. destruct Hb; congruence. }
    wp_step. wp_step. apply wp_on_dev. eapply wp_mono.
    { apply (wp_eth_tx w1 pending sent rx tx 1500 _ tt frame_1500 HV1 Hb); [lia|]. intros p w' Hlen.
      unfold mbind, M_bind, lift, bench_frame. unfold STANDARD_MTU. rewrite decide_False by lia.
      rewrite (drop_ge p) by lia. by rewrite app_nil_r. }
    intros [] w2 [_ HV2]. change STANDARD_MTU with 1500.
    rewrite (add_chk_small chk send 1500) by (unfold is_u64; lia).
    eexists _, _. split; [reflexivity|]. wp_step. apply wp_bench_report; [lia|lia|]. intros x t2 Hx.
    eapply wp_mono; [apply (IH fuel _ _ _ _ _ _ Hup HV2); lia|].
    intros ? s' HV3. by rewrite <- app_assoc in HV3.
Qed.

(** Total length of some packets. *)
Definition total (ps : list (list Z)) : Z := foldr (fun p n => Z.of_nat (length p) + n) 0 ps.

Lemma wp_receive_loop ps rest sent rx tx : forall fuel got past log w t,
  link_up -> dw_view w (ps ++ rest) sent rx tx -> (length ps < fuel)%nat -> 0 <= past.1 <= got ->
  got + total ps < 2 ^ 60 ->
  MAX_RECEIVE_BYTES <= got + total ps ->
  (forall qs, qs `prefix_of` ps -> qs <> ps -> got + total qs < MAX_RECEIVE_BYTES) ->
  wp (receive_loop chk fuel got past log) (fun _ s' => dw_view s'.1 rest sent rx tx) (w, t).
Proof.
  induction ps as [|p ps IH]; intros [|fuel] got past log w t Hup HV Hf Hp Hmax Hk Hk'; simpl in *; try lia.
  - destruct (Z.ltb_spec got MAX_RECEIVE_BYTES); [lia|]. simpl. by wp_step.
  - assert (got < MAX_RECEIVE_BYTES) as Hg.
    { specialize (Hk' [] (prefix_nil _) ltac:(done)). simpl in Hk'. lia. }
    destruct (Z.ltb_spec got MAX_RECEIVE_BYTES); [|lia]. simpl.
    wp_step. apply wp_bench_time. intros t1 _. simpl. wp_step. apply wp_on_dev.
    eapply wp_mono; [by apply wp_eth_receive|]. intros [[b p']|] w1 HR.
    + destruct HR as (ps' & [= <- <-] & Hc & HV1). simpl in *.
      wp_step. wp_step. apply wp_on_dev. eapply wp_mono.
      { apply (wp_eth_rx w1 (ps ++ rest) sent sent rx tx b p _ (Z.of_nat (length p)) HV1). by wp_step. }
      intros _ w2 [-> HV2]. assert (0 <= total ps) as Ht by (clear; induction ps; simpl; lia).
      rewrite (add_chk_small chk got) by (unfold is_u64; lia).
      eexists _, _. split; [reflexivity|]. wp_step. apply wp_bench_report; [lia|lia|]. intros x t2 Hx.
      apply (IH fuel _ _ _ _ _ Hup HV2); try lia. intros qs Hq Hne.
      specialize (Hk' (p :: qs) (prefix_cons p _ _ Hq) ltac:(congruence)). simpl in Hk'. lia.
    + exfalso. destruct HR as [_ [?|[N|N]]]; [done|..]; destruct (Hup (dw_inner w)); congruence.
Qed.
End bench_laws.


(** The receive benchmark ends when the packets that have arrived reach ten
    gigabytes: it takes exactly the shortest such prefix of them, leaves the
    others, and gives every buffer back. *)
Lemma bench_receive_total `{NL : NetDriverLaws} `{IA : InstantApi} (chk : bool) (fuel : nat)
    (w : DeviceWrapper) (t : Z) (ps rest sent : list (list Z)) (rx tx : gmultiset Z)
    (Hup : link_up) (Hview : dw_view w (ps ++ rest) sent rx tx) (Hfuel : (length ps < fuel)%nat)
    (Hsmall : total ps < 2 ^ 60) (Hreach : MAX_RECEIVE_BYTES <= total ps)
    (Hleast : forall qs, qs `prefix_of` ps -> qs <> ps -> total qs < MAX_RECEIVE_BYTES) :
  wp (bench_receive_bandwidth chk fuel) (fun _ s' => dw_view s'.1 rest sent rx tx) (w, t).
Proof.
  unfold bench_receive_bandwidth. wp_step. apply wp_bench_time. intros t1 past. simpl.
  apply (wp_receive_loop chk ps); try done; simpl; lia.
Qed.

(** ** Witnesses *)

#[local] Existing Instance ref_driver.
Definition ref_instant : InstantApi := fun a b => Z.abs (a - b) / 1000000.

Lemma ref_link_up : @link_up ref_driver.
Proof. intros d. split; reflexivity. Qed.

