(* ===== verification/NetIpc.v ===== *)
(** * The net thread's IPC server ([crates/net-thread/src/ipc/mod.rs])

    [handle_ipc] receives one request, runs it on a socket of [SOCKET_VEC] and
    replies.  [SOCKET_VEC] is behind a spin lock: taking it while it is held by
    the same thread is a deadlock.  [run_ipc] repeats [handle_ipc] forever, so
    the server's behaviours are the sequences of [net_step]s. *)

From S2P Require Import Prelude Words Consts Sel4 Sel4Laws RefKernel Externs Reference Messages Uspace KTask NetClient Syscalls NetDev Smoltcp RefSmoltcp ListenTable TcpSocket.

(** What lies outside: the message the endpoint delivers (with the slot for a
    received capability), and the layout of [core::net::SocketAddr]. *)
Class NEnv `{Sel4} `{MessageInfoApi} := {
  ne_recv : CPtr -> AbsoluteCPtr -> IpcBuffer -> kstate ->
    MessageInfo * Z * IpcBuffer * kstate;
  ne_sockaddr_size : Z;
  ne_sockaddr_of : list Z -> SocketAddr;
}.

(** The capability of the shared page is received in [DEFAULT_CUSTOM_SLOT + 3]. *)
Definition net_cap : CPtr := DEFAULT_CUSTOM_SLOT + 3.
Definition net_ep : CPtr := DEFAULT_CUSTOM_SLOT + 2.
Definition net_page_seat_vaddr : Z := 0x100002000.

(** The words describing a socket address in the reply to [Accept]. *)
Definition accept_words (a : SocketAddr) : list Z :=
  let '(addr_low, addr_high) :=
    match sock_ip a with
    | V4 o => (from_be_bytes o, 0)
    | V6 o => (wrap64 (from_be_bytes o), wrap64 (Z.shiftr (from_be_bytes o) 32))
    end in
  [Z.b2z (match sock_ip a with V4 _ => true | V6 _ => false end); sock_port a;
   addr_low; addr_high].

Section server.
Context `{K : Sel4} `{MI : MessageInfoApi} `{MA : MemoryAddr} `{AX : AxErrno} `{SM : Smoltcp}
  `{NE : !NEnv}.

Record NT := MkNT {
  nt_net : Net;
  nt_vec : list (option TcpSocket);      (* SOCKET_VEC *)
  nt_held : bool;                        (* its lock *)
  nt_ipc : IpcBuffer;
  nt_k : kstate;
  nt_replies : list (MessageInfo * list Z);
}.

Definition nput_net (x : Net) (s : NT) : NT :=
  MkNT x (nt_vec s) (nt_held s) (nt_ipc s) (nt_k s) (nt_replies s).
Definition nput_vec (x : list (option TcpSocket)) (s : NT) : NT :=
  MkNT (nt_net s) x (nt_held s) (nt_ipc s) (nt_k s) (nt_replies s).
Definition nput_held (x : bool) (s : NT) : NT :=
  MkNT (nt_net s) (nt_vec s) x (nt_ipc s) (nt_k s) (nt_replies s).
Definition nput_ipc (x : IpcBuffer) (s : NT) : NT :=
  MkNT (nt_net s) (nt_vec s) (nt_held s) x (nt_k s) (nt_replies s).
Definition nput_k (x : kstate) (s : NT) : NT :=
  MkNT (nt_net s) (nt_vec s) (nt_held s) (nt_ipc s) x (nt_replies s).
Definition nput_replies (x : list (MessageInfo * list Z)) (s : NT) : NT :=
  MkNT (nt_net s) (nt_vec s) (nt_held s) (nt_ipc s) (nt_k s) x.

Definition nt_on_net {A} (m : M Net A) : M NT A := zoom nt_net nput_net m.
Definition nt_on_k {A} (m : M kstate A) : M NT A := zoom nt_k nput_k m.

Definition reply_with (regs : list Z) : M NT unit :=
  zoom nt_ipc nput_ipc (write_regs 0 regs) ;;
  modify (fun s => nput_replies
    (nt_replies s ++ [(mi_new 0 0 0 (8 * Z.of_nat (length regs)), regs)]) s).

(** [SOCKET_VEC.lock()] and the end of the guard. *)
Definition lock_vec : M NT unit := fun s =>
  if nt_held s then Deadlock else Ret (tt, nput_held true s).
Definition unlock_vec : M NT unit := modify (nput_held false).

(** [position(|x| x.is_none())] *)
Fixpoint first_none {A} (l : list (option A)) : option nat :=
  match l with
  | [] => None
  | None :: _ => Some 0%nat
  | Some _ :: l => option_map S (first_none l)
  end.

Definition alloc_socket_id : M NT Z :=
  lock_vec ;;
  sockets ← gets nt_vec;
  id ← match first_none sockets with
       | Some i => mret (Z.of_nat i)
       | None => modify (nput_vec (sockets ++ [None])) ;; mret (Z.of_nat (length sockets))
       end;
  unlock_vec ;;
  mret id.

(** Running a method on a socket value; dropping one. *)
Definition run_tcp {A} (t : TcpSocket) (m : M TN A) : M NT (A * TcpSocket) := fun s =>
  match m (t, nt_net s) with
  | Ret (a, (t', n)) => Ret ((a, t'), nput_net n s)
  | Panic p => Panic p | Deadlock => Deadlock | NoFuel => NoFuel
  end.
Definition drop_tcp (t : TcpSocket) : M NT unit := run_tcp t TcpSocket_drop ;; mret tt.

(** [socket_vec[id] = Some(socket)], dropping the old element. *)
Definition vec_set (id : Z) (x : option TcpSocket) : M NT unit :=
  v ← gets nt_vec;
  old ← lift (index v id);
  match old with Some t => drop_tcp t | None => mret tt end ;;
  v' ← lift (index_set v id x);
  modify (nput_vec v').

(** [socket_vec[id].as_mut().unwrap().m()] *)
Definition on_socket {A} (id : Z) (m : M TN A) : M NT A :=
  v ← gets nt_vec;
  o ← lift (index v id);
  t ← unwrap o;
  r ← run_tcp t m;
  v' ← lift (index_set v id (Some r.2));
  modify (nput_vec v') ;;
  mret r.1.

Definition map_page_seat : M NT unit :=
  nt_on_k (kcall_unwrap (frame_map net_cap SLOT_VSPACE net_page_seat_vaddr rights_all)).
Definition unmap_page_seat : M NT unit := nt_on_k (kcall_unwrap (frame_unmap net_cap)).

(** [read_item::<SocketAddr>] *)
Definition net_read_item (ptr : Z) : M NT SocketAddr :=
  map_page_seat ;;
  let off := align_offset_4k ptr in
  (if wrap64 (PAGE_SIZE_4K - off) <? ne_sockaddr_size then panic_with PExplicit else mret tt) ;;
  bs ← nt_on_k (load_bytes (net_page_seat_vaddr + off) (Z.to_nat ne_sockaddr_size));
  unmap_page_seat ;;
  mret (ne_sockaddr_of bs).

Definition code_of (res : AxResult unit) : Z :=
  match res with Ok _ => 0 | Err e => ax_code e end.

(** [socket_vec[id].as_mut().unwrap()] before the page is touched. *)
Definition check_socket (id : Z) : M NT unit := on_socket id (mret tt).

Definition check_buf (buf buf_len : Z) : M NT unit :=
  if wrap64 (align_offset_4k buf + buf_len) >? PAGE_SIZE_4K then panic_with PExplicit else mret tt.

(** The arms of [handle_ipc]. *)
Definition handle_request (fuel : nat) (req : NetRequsetabel) : M NT unit :=
  match req with
  | NRL_New =>
      socket ← nt_on_net TcpSocket_new;
      id ← alloc_socket_id;
      lock_vec ;; vec_set id (Some socket) ;; unlock_vec ;;
      reply_with [id]
  | NRL_IsNonBlocking id =>
      lock_vec ;;
      v ← gets nt_vec;
      o ← lift (index v id);
      reply_with [match o with Some t => Z.b2z (ts_nonblock t) | None => 0 end] ;;
      unlock_vec
  | NRL_Bind id local_addr =>
      lock_vec ;; check_socket id ;;
      a ← net_read_item local_addr;
      ans ← on_socket id (bind a);
      reply_with [code_of ans] ;;
      unmap_page_seat ;; unlock_vec
  | NRL_Send id buf buf_len =>
      lock_vec ;; check_socket id ;; map_page_seat ;; check_buf buf buf_len ;;
      bs ← nt_on_k (load_bytes net_page_seat_vaddr (Z.to_nat buf_len));
      ans ← on_socket id (send fuel bs);
      reply_with [match ans with Ok len => len | Err e => ax_code e end] ;;
      unmap_page_seat ;; unlock_vec
  | NRL_Recv id buf buf_len =>
      lock_vec ;; check_socket id ;; map_page_seat ;; check_buf buf buf_len ;;
      ans ← on_socket id (recv fuel buf_len);
      nt_on_k (store_bytes net_page_seat_vaddr (match ans with Ok bs => bs | Err _ => [] end)) ;;
      reply_with [match ans with Ok bs => Z.of_nat (length bs) | Err e => ax_code e end] ;;
      unmap_page_seat ;; unlock_vec
  | NRL_RecvTimeout id buf buf_len timeout =>
      lock_vec ;; check_socket id ;; map_page_seat ;; check_buf buf buf_len ;;
      ans ← on_socket id (recv_timeout buf_len timeout);
      nt_on_k (store_bytes net_page_seat_vaddr (match ans with Ok bs => bs | Err _ => [] end)) ;;
      reply_with [match ans with Ok bs => Z.of_nat (length bs) | Err e => ax_code e end] ;;
      unmap_page_seat ;; unlock_vec
  | NRL_Connect id remote_addr =>
      lock_vec ;; check_socket id ;;
      a ← net_read_item remote_addr;
      ans ← on_socket id (connect fuel a);
      reply_with [code_of ans] ;; unlock_vec
  | NRL_Listen id =>
      lock_vec ;; ans ← on_socket id listen; reply_with [code_of ans] ;; unlock_vec
  | NRL_Accept id =>
      lock_vec ;;
      r ← on_socket id (accept fuel);
      ans ← match r with
            | Ok new_socket =>
                new_id ← alloc_socket_id;
                socket_addr ← unwrap_r (TcpSocket_local_addr new_socket);
                vec_set new_id (Some new_socket) ;;
                mret (new_id :: accept_words socket_addr)
            | Err e => mret [ax_code e; 0; 0; 0; 0]
            end;
      reply_with ans ;; unlock_vec
  | NRL_Close id =>
      lock_vec ;;
      v ← gets nt_vec;
      o ← lift (index v id);
      v' ← lift (index_set v id None);
      modify (nput_vec v') ;;
      socket ← unwrap o;
      r ← run_tcp socket close;
      reply_with [] ;;
      drop_tcp r.2 ;; unlock_vec
  | NRL_SetNonBlocking id nb =>
      lock_vec ;; on_socket id (set_nonblocking (negb (nb =? 0))) ;;
      reply_with [] ;; unlock_vec
  | NRL_Shutdown id =>
      lock_vec ;; ans ← on_socket id shutdown; reply_with [code_of ans] ;; unlock_vec
  end.

Definition receive : M NT MessageInfo := fun s =>
  let '(mi, _badge, b, k) := ne_recv net_ep (relative SLOT_CNODE net_cap) (nt_ipc s) (nt_k s) in
  Ret (mi, nput_k k (nput_ipc b s)).

Definition handle_ipc (fuel : nat) : M NT unit :=
  message ← receive;
  (if mi_label message <? 8 then panic_with PTodo
   else
     b ← gets nt_ipc;
     req ← lift (NetRequsetabel_try_from message (msg_regs b));
     match req with
     | Some req => handle_request fuel req
     | None => mret tt
     end) ;;
  nt_on_k (kcall_unwrap (cnode_delete (relative SLOT_CNODE net_cap))).

(** [run_ipc]: the server starts without sockets and handles requests forever. *)
Definition net_step (s s' : NT) : Prop := exists fuel, handle_ipc fuel s = Ret (tt, s').
End server.
Arguments NT {K MI SM}.

(** ** The server's invariant

    Every socket of [SOCKET_VEC] has a handle and is not busy; the handles of
    the sockets and of all SYN queues are live in the socket set and pairwise
    different; and the listen table is well formed. *)

Definition socket_handles (o : option TcpSocket) : list Z :=
  match o with
  | Some t => match ts_handle t with Some h => [h] | None => [] end
  | None => []
  end.

Definition tcp_ok (t : TcpSocket) : Prop :=
  is_Some (ts_handle t) /\ ts_state t <> STATE_BUSY.

Definition vec_ok (v : list (option TcpSocket)) : Prop :=
  forall p t, v !! p = Some (Some t) -> tcp_ok t.

Definition nt_inv `{Smoltcp} (v : list (option TcpSocket)) (extra : list Z) (n : Net) : Prop :=
  vec_ok v /\ net_ok (extra ++ (v ≫= socket_handles)) n.

Definition nt_ok `{Sel4} `{MessageInfoApi} `{Smoltcp} (s : NT) : Prop :=
  nt_inv (nt_vec s) [] (nt_net s).

Lemma net_ok_perm `{Smoltcp} o o' n : o ≡ₚ o' -> net_ok o n -> net_ok o' n.
Proof.
  intros HP Hn. eapply net_inv_perm; [by destruct Hn| |exact Hn]. by rewrite HP.
Qed.

Lemma vec_ok_insert v p x :
  vec_ok v -> (forall t, x = Some t -> tcp_ok t) -> vec_ok (<[p := x]> v).
Proof.
  intros Hv Hx q t [(-> & -> & _)|[_ Hq]]%list_lookup_insert_Some; [by apply Hx|by eapply Hv].
Qed.

Section server_inv.
Context `{K : Sel4} `{MI : MessageInfoApi} `{MA : MemoryAddr} `{AX : AxErrno}
  `{AL : !AxErrnoLaws} `{SM : Smoltcp} `{SL : !SmoltcpLaws} `{NE : !NEnv}.
Implicit Types s : NT.

(** A method fit for the server: it keeps the handle and never ends busy. *)
Definition fit {A} (m : M TN A) : Prop :=
  (forall h o, preserves (owns h o) m) /\ preserves (fun s : TN => ts_state s.1 <> STATE_BUSY) m.

(** Taking a socket out of the vector. *)
Lemma nt_inv_take v p t n :
  nt_inv v [] n -> v !! p = Some (Some t) ->
  exists h r, ts_handle t = Some h /\ ts_state t <> STATE_BUSY /\
    v ≫= socket_handles ≡ₚ h :: r /\ owns h r (t, n) /\
    forall x, (forall t', x = Some t' -> tcp_ok t') -> forall n',
      net_ok (socket_handles x ++ r) n' -> nt_inv (<[p := x]> v) [] n'.
Proof.
  intros [Hv Hn] Hp. destruct (Hv _ _ Hp) as [[h Hh] Hb].
  destruct (bind_insert_Permutation socket_handles v p (Some t) None Hp) as (r & Hr & Hr').
  exists h, r. simpl in Hr. rewrite Hh in Hr. split_and!; [done|done|done| |].
  - split; [done|]. by eapply net_ok_perm; [|exact Hn].
  - intros x Hx n' Hn'. split; [by apply vec_ok_insert|].
    destruct (bind_insert_Permutation socket_handles v p (Some t) x Hp) as (r2 & Hr2 & Hr2').
    eapply net_ok_perm; [|exact Hn']. simpl in *. rewrite Hr2'.
    rewrite Hh in Hr2. simpl in Hr2. rewrite Hr in Hr2.
    apply (Permutation_cons_inv (a := h)) in Hr2. by rewrite Hr2.
Qed.

Lemma lift_index_inv {A} (l : list A) i s x s' :
  (lift (index l i) : M NT A) s = Ret (x, s') -> s' = s /\ l !! Z.to_nat i = Some x /\ 0 <= i.
Proof.
  unfold lift, index. case_decide; [|done]. destruct (l !! Z.to_nat i) eqn:E; [|done].
  by intros [= -> ->].
Qed.

Lemma lift_index_set_inv {A} (l : list A) i (x : A) s l' s' :
  (lift (index_set l i x) : M NT (list A)) s = Ret (l', s') -> s' = s /\ l' = <[Z.to_nat i := x]> l.
Proof. unfold lift, index_set. case_decide; [|done]. by intros [= <- ->]. Qed.

Lemma run_tcp_inv {A} t (m : M TN A) s r s' :
  run_tcp t m s = Ret (r, s') ->
  exists n, m (t, nt_net s) = Ret (r.1, (r.2, n)) /\ s' = nput_net n s.
Proof.
  unfold run_tcp. destruct (m (t, nt_net s)) as [[a [t' n]]| | |]; try done.
  intros [= <- <-]. by exists n.
Qed.

(** What [on_socket] did. *)
Lemma on_socket_inv {A} id (m : M TN A) s a s' :
  on_socket id m s = Ret (a, s') ->
  exists t t' n, nt_vec s !! Z.to_nat id = Some (Some t) /\
    m (t, nt_net s) = Ret (a, (t', n)) /\
    s' = nput_vec (<[Z.to_nat id := Some t']> (nt_vec s)) (nput_net n s).
Proof.
  intros E. unfold on_socket in E. ibind E as v s1 E1. injection E1 as <- <-.
  ibind E as o s1 E1. apply lift_index_inv in E1 as (-> & Ho & _).
  ibind E as t s1 E1. apply unwrap_inv in E1 as [-> ->].
  ibind E as r s1 E1. apply run_tcp_inv in E1 as (n & E1 & ->).
  ibind E as v' s1 E2. apply lift_index_set_inv in E2 as [-> ->].
  ibind E as u s2 E2. injection E2 as _ <-. injection E as <- <-.
  exists t, r.2, n. by destruct r.
Qed.

Lemma on_socket_ok {A} id (m : M TN A) : fit m -> preserves nt_ok (on_socket id m).
Proof.
  intros [Hown Hbusy] s a s' Hs E. apply on_socket_inv in E as (t & t' & n & Ht & E & ->).
  destruct (nt_inv_take _ _ _ _ Hs Ht) as (h & r & Hh & Hb & Hp & Ho & Hback).
  pose proof (Hown h r _ _ _ Ho E) as [Hh' Hn']. simpl in Hh', Hn'.
  pose proof (Hbusy (t, nt_net s) _ _ Hb E) as Hb'. apply Hback.
  - intros t0 [= <-]. split; [by rewrite Hh'|done].
  - simpl. by rewrite Hh'.
Qed.

(** The parts of a request that do not touch the sockets. *)
Definition same_sockets s s' : Prop := nt_vec s' = nt_vec s /\ nt_net s' = nt_net s.

Lemma ok_same s s' : same_sockets s s' -> nt_ok s -> nt_ok s'.
Proof. intros [Hv Hn]. unfold nt_ok. by rewrite Hv, Hn. Qed.

Lemma ok_of_same {A} (m : M NT A) :
  (forall s a s', m s = Ret (a, s') -> same_sockets s s') -> preserves nt_ok m.
Proof. intros Hm s a s' Hs E. eapply ok_same; [by eapply Hm|done]. Qed.

Lemma zoom_k_same {A} (m : M kstate A) s a s' : nt_on_k m s = Ret (a, s') -> same_sockets s s'.
Proof.
  unfold nt_on_k, zoom. destruct (m (nt_k s)) as [[x k]| | |]; try done. by intros [= <- <-].
Qed.

Lemma ok_on_k {A} (m : M kstate A) : preserves nt_ok (nt_on_k m).
Proof. apply ok_of_same. intros. by eapply zoom_k_same. Qed.

Lemma ok_lock : preserves nt_ok lock_vec.
Proof. intros s a s' Hs. unfold lock_vec. destruct (nt_held s); [done|]. by intros [= <- <-]. Qed.

Lemma ok_unlock : preserves nt_ok unlock_vec.
Proof. by intros s a s' Hs [= <- <-]. Qed.

Lemma ok_reply regs : preserves nt_ok (reply_with regs).
Proof.
  apply preserves_bind.
  - apply ok_of_same. intros s a s'. unfold zoom.
    destruct (write_regs 0 regs (nt_ipc s)) as [[x b]| | |]; try done. by intros [= <- <-].
  - intros _ s a s' Hs [= <- <-]. done.
Qed.

(** The methods the requests call are fit. *)
Lemma fit_ret {A} (a : A) : fit (mret a).
Proof. split; intros; apply preserves_ret. Qed.

Lemma fit_recv_timeout l t : fit (recv_timeout l t).
Proof. split; intros; apply preserves_panic. Qed.

Lemma fit_bind a : fit (bind a).
Proof.
  split; [intros; apply owns_bind|]. intros x r x' Hx E. by rewrite (bind_transition _ _ _ _ E).
Qed.

Lemma fit_send fuel bs : fit (send fuel bs).
Proof.
  split; [intros; apply owns_send|]. intros x r x' Hx E.
  destruct (inert_methods fuel x.1) as (_ & _ & _ & H4). by rewrite (H4 bs x r x' eq_refl E).
Qed.

Lemma fit_recv fuel n : fit (recv fuel n).
Proof.
  split; [intros; apply owns_recv|]. intros x r x' Hx E.
  destruct (inert_methods fuel x.1) as (_ & _ & H3 & _). by rewrite (H3 n x r x' eq_refl E).
Qed.

Lemma fit_connect fuel a : fit (connect fuel a).
Proof.
  split; [intros; apply owns_connect|]. intros x r x' Hx E.
  apply connect_transition in E. destruct (_ =? _); [|by destruct E as [_ ->]].
  destruct r; [by rewrite E|]. by destruct E as [->|[-> _]].
Qed.

Lemma fit_listen : fit listen.
Proof.
  split; [intros; apply owns_listen|]. intros x r x' Hx E.
  apply listen_transition in E. destruct (_ =? _); [|by destruct E as [_ ->]].
  rewrite E. by destruct r.
Qed.

Lemma fit_shutdown : fit shutdown.
Proof.
  split; [intros; apply owns_shutdown|]. intros x r x' Hx E.
  apply shutdown_transition in E as [_ E]. destruct (_ || _); [|by rewrite E].
  by destruct E as [-> _].
Qed.

Lemma fit_set_nonblocking b : fit (set_nonblocking b).
Proof. split; [intros; by apply owns_update|]. by intros x r x' Hx [= <- <-]. Qed.

(** ** The requests that change the vector *)

Lemma first_none_spec {A} (l : list (option A)) i : first_none l = Some i -> l !! i = Some None.
Proof.
  revert i. induction l as [|[a|] l IH]; intros i; simpl; [done| |by intros [= <-]].
  destruct (first_none l) as [j|]; [|done]. intros [= <-]. by apply IH.
Qed.

Lemma alloc_socket_id_inv s id s' :
  alloc_socket_id s = Ret (id, s') ->
  nt_held s = false /\ nt_vec s' !! Z.to_nat id = Some None /\
  (nt_vec s' = nt_vec s \/ nt_vec s' = nt_vec s ++ [None]) /\ nt_net s' = nt_net s.
Proof.
  intros E. unfold alloc_socket_id in E. ibind E as u s1 E1. unfold lock_vec in E1.
  destruct (nt_held s); [done|]. injection E1 as _ <-. split; [done|].
  ibind E as v s1 E1. injection E1 as <- <-. ibind E as i s1 E1.
  ibind E as u' s2 E2. injection E2 as _ <-. injection E as <- <-. simpl in *.
  destruct (first_none (nt_vec s)) as [j|] eqn:Ef.
  - injection E1 as <- <-. rewrite Nat2Z.id. split_and!; [by apply first_none_spec|by left|done].
  - injection E1 as <- <-. rewrite Nat2Z.id. simpl.
    split_and!; [by apply list_lookup_middle|by right|done].
Qed.

Lemma nt_inv_alloc v v' extra n :
  v' = v \/ v' = v ++ [None] -> nt_inv v extra n -> nt_inv v' extra n.
Proof.
  intros [->| ->]; [done|]. intros [Hv Hn]. split.
  - intros p t [Hp|[_ Hp]]%lookup_app_Some; [by eapply Hv|].
    by apply list_lookup_singleton_Some in Hp as [_ ?].
  - by rewrite bind_app, app_nil_r.
Qed.

(** Filling an empty element with a socket whose handle was set aside. *)
Lemma nt_inv_put v p t h n :
  nt_inv v [h] n -> v !! p = Some None -> ts_handle t = Some h -> ts_state t <> STATE_BUSY ->
  nt_inv (<[p := Some t]> v) [] n.
Proof.
  intros [Hv Hn] Hp Hh Hb. split.
  - apply vec_ok_insert; [done|]. intros ? [= <-]. split; [by rewrite Hh|done].
  - destruct (bind_insert_Permutation socket_handles v p None (Some t) Hp) as (r & Hr & Hr').
    eapply net_ok_perm; [|exact Hn]. simpl in *. rewrite Hr', Hr. simpl. by rewrite Hh.
Qed.

Lemma vec_set_none_inv id x s u s' :
  vec_set id x s = Ret (u, s') -> nt_vec s !! Z.to_nat id = Some None ->
  s' = nput_vec (<[Z.to_nat id := x]> (nt_vec s)) s.
Proof.
  intros E Hn. unfold vec_set in E. ibind E as v s1 E1. injection E1 as <- <-.
  ibind E as o s1 E1. apply lift_index_inv in E1 as (-> & Ho & _). simplify_eq.
  ibind E as w s1 E1. injection E1 as _ <-.
  ibind E as v' s1 E1. apply lift_index_set_inv in E1 as [-> ->]. by injection E as _ <-.
Qed.

Lemma ok_new fuel : preserves nt_ok (handle_request fuel NRL_New).
Proof.
  intros s u s' Hs E. simpl in E. ibind E as t s1 E1. unfold nt_on_net, zoom in E1.
  destruct (TcpSocket_new (nt_net s)) as [[t0 n]| | |] eqn:En; try done. injection E1 as <- <-.
  assert (ts_state t0 <> STATE_BUSY) as Hb.
  { clear E. unfold TcpSocket_new in En. ibind En as hh n0 E0. by injection En as <- _. }
  destruct Hs as [Hv Hn]. destruct (new_own _ _ _ _ Hn En) as (h & Hh & Hn1).
  ibind E as id s2 E2. apply alloc_socket_id_inv in E2 as (_ & Hnone & Hvec & Hnet).
  ibind E as w s3 E3. unfold lock_vec in E3. destruct (nt_held s2); [done|].
  injection E3 as _ <-. ibind E as w' s4 E4. apply vec_set_none_inv in E4; [|done]. subst s4.
  revert E. refine (preserves_bind _ _ _ ok_unlock (fun _ => ok_reply _) _ _ _ _).
  unfold nt_ok. simpl. rewrite Hnet. eapply nt_inv_put; [|done|exact Hh|done].
  eapply nt_inv_alloc; [exact Hvec|]. done.
Qed.

Lemma ok_close fuel id : preserves nt_ok (handle_request fuel (NRL_Close id)).
Proof.
  intros s u s' Hs E. simpl in E. ibind E as w s1 E1. unfold lock_vec in E1.
  destruct (nt_held s); [done|]. injection E1 as _ <-.
  ibind E as v s1 E1. injection E1 as <- <-.
  ibind E as o s1 E1. apply lift_index_inv in E1 as (-> & Ho & _).
  ibind E as v' s1 E1. apply lift_index_set_inv in E1 as [-> ->].
  ibind E as w2 s1 E1. injection E1 as _ <-.
  ibind E as t s1 E1. apply unwrap_inv in E1 as [-> ->]. simpl in Ho.
  destruct (nt_inv_take _ _ _ _ Hs Ho) as (h & r & Hh & Hb & Hp & Ht & Hback).
  ibind E as rt s1 E1. apply run_tcp_inv in E1 as (n & E1 & ->). simpl in E1.
  apply (owns_close h r _ _ _ Ht) in E1.
  ibind E as w3 s2 E2. assert (nt_net s2 = n /\ nt_vec s2 = <[Z.to_nat id := None]> (nt_vec s)) as [Hn2 Hv2].
  { unfold reply_with in E2. ibind E2 as w4 s3 E3. injection E3 as _ <-. by injection E2 as _ <-. }
  ibind E as w4 s3 E3. unfold drop_tcp in E3. ibind E3 as r2 s4 E4.
  apply run_tcp_inv in E4 as (n' & E4 & ->). injection E3 as _ <-. injection E as _ <-.
  rewrite Hn2 in E4. apply (drop_own h r _ _ _ E1) in E4.
  unfold nt_ok. simpl. rewrite Hv2. by apply (Hback None).
Qed.

(** [Accept] returns only when it failed; otherwise see below. *)
Lemma ok_accept fuel id : preserves nt_ok (handle_request fuel (NRL_Accept id)).
Proof.
  intros s u s' Hs E. simpl in E. ibind E as w s1 E1. unfold lock_vec in E1.
  destruct (nt_held s); [done|]. injection E1 as _ <-.
  ibind E as r s1 E1. apply on_socket_inv in E1 as (t & t' & n & Ht & E1 & ->). simpl in Ht, E1.
  destruct (nt_inv_take _ _ _ _ Hs Ht) as (h & o & Hh & Hb & Hp & Ho & Hback).
  destruct (inert_methods fuel t) as (Hinert & _).
  pose proof (Hinert (t, nt_net s) _ _ eq_refl E1) as Heq. simpl in Heq. subst t'.
  destruct (accept_own _ _ _ _ _ _ Ho E1) as [_ Hown].
  ibind E as ans s2 E2. destruct r as [nt|e].
  { ibind E2 as id' s3 E3. by apply alloc_socket_id_inv in E3 as [? _]. }
  injection E2 as <- <-. revert E.
  refine (preserves_bind _ _ _ (ok_reply _) (fun _ => ok_unlock) _ _ _ _).
  apply Hback; [intros ? [= <-]; by split; [rewrite Hh|]|]. simpl. by rewrite Hh.
Qed.

Lemma ok_read_item ptr : preserves nt_ok (net_read_item ptr).
Proof.
  unfold net_read_item, map_page_seat, unmap_page_seat.
  repeat first [apply preserves_bind; [|intros ?] | apply ok_on_k | apply preserves_ret
               | apply preserves_panic | case_match].
Qed.

Lemma ok_request fuel req : preserves nt_ok (handle_request fuel req).
Proof.
  destruct req; [apply ok_new|..|apply ok_close].
  all: try apply ok_accept.
  all: simpl; unfold check_socket, map_page_seat, unmap_page_seat, check_buf.
  all: repeat first
    [apply ok_lock | apply ok_unlock | apply ok_reply | apply ok_on_k | apply preserves_gets | apply preserves_lift | apply preserves_ret
    |apply preserves_panic | apply ok_read_item
    |apply on_socket_ok; first [apply fit_ret | apply fit_bind | apply fit_send | apply fit_recv
       | apply fit_recv_timeout | apply fit_connect | apply fit_listen | apply fit_shutdown
       | apply fit_set_nonblocking]
    |apply preserves_bind; [|intros ?] | case_match].
Qed.

Lemma net_step_ok s s' : nt_ok s -> net_step s s' -> nt_ok s'.
Proof.
  intros Hs [fuel E]. revert Hs E. unfold handle_ipc.
  refine (preserves_bind _ _ _ _ _ s tt s'); [|intros mi; apply preserves_bind; [|intros _; apply ok_on_k]].
  - apply ok_of_same. intros x a x'. unfold receive.
    destruct (ne_recv _ _ _ _) as [[[mi b] ipc] k]. by intros [= <- <-].
  - destruct (mi_label mi <? 8); [apply preserves_panic|].
    apply preserves_bind; [apply preserves_gets|]. intros b.
    apply preserves_bind; [apply preserves_lift|]. intros [req|]; [apply ok_request|apply preserves_ret].
Qed.
End server_inv.

(** ** The address in the reply to [Accept] *)

Lemma from_be_bytes_nonneg l : Forall is_u8 l -> 0 <= from_be_bytes l.
Proof.
  unfold from_be_bytes.
  enough (forall acc, 0 <= acc -> Forall is_u8 l ->
            0 <= foldl (fun acc b => acc * 2 ^ 8 + b) acc l) as Hgen by (intros; by apply Hgen).
  induction l as [|b l IH]; intros x Hx Hl; simpl; [done|].
  inversion Hl as [|? ? Hb Hl']; subst. apply IH; [|done]. unfold is_u8 in Hb. lia.
Qed.

(** The two words overlap: together they hold the low 96 bits. *)
Lemma accept_words_v6_bits x :
  0 <= x -> Z.lor (Z.shiftl (wrap64 (Z.shiftr x 32)) 32) (wrap64 x) = x mod 2 ^ 96.
Proof.
  intros Hx. unfold wrap64. apply Z.bits_inj'. intros i Hi.
  rewrite Z.lor_spec, Z.shiftl_spec by done.
  destruct (Z.ltb_spec i 32) as [H32|H32].
  - rewrite (Z.testbit_neg_r _ (i - 32)) by lia.
    rewrite !Z.mod_pow2_bits_low by lia. done.
  - destruct (Z.ltb_spec i 96) as [H96|H96].
    + rewrite Z.mod_pow2_bits_low, Z.shiftr_spec by lia.
      replace (i - 32 + 32) with i by lia. rewrite (Z.mod_pow2_bits_low x 96) by lia.
      destruct (Z.ltb_spec i 64); [rewrite Z.mod_pow2_bits_low by lia; apply orb_diag|].
      rewrite (Z.mod_pow2_bits_high x 64) by lia. apply orb_false_r.
    + rewrite !Z.mod_pow2_bits_high by lia. done.
Qed.

Lemma low_word_no_address x : 0 <= x < 2 ^ 32 -> take 4 (to_be_bytes 8 x) = [0; 0; 0; 0].
Proof.
  intros Hx. assert (forall k, 32 <= k -> (x / 2 ^ k) mod 2 ^ 8 = 0) as H0.
  { intros k Hk. rewrite Z.div_small; [done|].
    pose proof (Z.pow_le_mono_r 2 32 k ltac:(lia) Hk). lia. }
  change (take 4 (to_be_bytes 8 x)) with
    [(x / 2 ^ 56) mod 2 ^ 8; (x / 2 ^ 48) mod 2 ^ 8; (x / 2 ^ 40) mod 2 ^ 8; (x / 2 ^ 32) mod 2 ^ 8].
  by rewrite !H0 by lia.
Qed.

(** The address of an accepted connection does not survive the protocol.  The
    net thread sends an IPv4 address in the low half of a word and the kernel
    thread decodes the high half, so every accepted IPv4 connection appears to
    come from 0.0.0.0; of an IPv6 address the upper 32 bits are lost.  The port
    arrives. *)
Theorem accepted_address_lost (a : SocketAddr) (Hwf : SocketAddr_wf a) :
  exists v4 p lo hi, accept_words a = [v4; p; lo; hi] /\
    parse_ipaddr (negb (v4 =? 0)) lo hi (wrap16 p) =
      MkSocketAddr (match sock_ip a with
                    | V4 _ => V4 [0; 0; 0; 0]
                    | V6 o => V6 (to_be_bytes 16 (from_be_bytes o mod 2 ^ 96))
                    end) (sock_port a).
Proof.
  destruct a as [ip port], Hwf as [Hip Hp]. cbn [sock_port sock_ip] in *.
  unfold accept_words. cbn [sock_ip sock_port].
  destruct ip as [o|o]; eexists _, _, _, _; (split; [reflexivity|]);
    cbn [Z.b2z Z.eqb negb parse_ipaddr]; rewrite wrap16_small by done; destruct Hip as [Hlen Ho].
  - unfold parse_ipaddr. rewrite low_word_no_address; [done|].
    destruct o as [|b0 [|b1 [|b2 [|b3 [|]]]]]; try done.
    unfold is_u8 in Ho. rewrite !Forall_cons in Ho. unfold from_be_bytes. cbn [foldl]. lia.
  - unfold parse_ipaddr. by rewrite accept_words_v6_bits by by apply from_be_bytes_nonneg.
Qed.

Lemma accepted_address_lost_witness :
  exists v4 p lo hi, accept_words (MkSocketAddr (V4 [10; 0; 2; 2]) 6379) = [v4; p; lo; hi] /\
    parse_ipaddr (negb (v4 =? 0)) lo hi (wrap16 p) = MkSocketAddr (V4 [0; 0; 0; 0]) 6379.
Proof.
  apply (accepted_address_lost (MkSocketAddr (V4 [10; 0; 2; 2]) 6379)).
  split; [split; [done|]|]; cbn; unfold is_u16, is_u8; [|lia].
  repeat (constructor; [lia|]). constructor.
Defined.

(** ** Properties of the server *)

(** C9: in every state the server reaches, each socket of [SOCKET_VEC] and each
    queued connection has a handle that is live in the socket set, no handle
    has two owners, no socket is left busy, and no SYN queue exceeds 32
    entries.  So no request ever asks smoltcp for a dead socket. *)
Theorem net_server_invariant `{K : Sel4} `{MI : MessageInfoApi} `{MA : MemoryAddr} `{AX : AxErrno}
    `{AL : !AxErrnoLaws} `{SM : Smoltcp} `{SL : !SmoltcpLaws} `{NE : !NEnv} (s0 s : NT)
    (Hvec : nt_vec s0 = []) (Htable : n_table (nt_net s0) = ListenTable_new)
    (Hreach : rtc net_step s0 s) :
  let owned := (nt_vec s ≫= socket_handles) ++ queue_handles (n_table (nt_net s)) in
  NoDup owned /\ (forall h, h ∈ owned -> is_Some (set_get (n_set (nt_net s)) h)) /\
  (forall p t, nt_vec s !! p = Some (Some t) ->
     is_Some (ts_handle t) /\ ts_state t <> STATE_BUSY) /\
  (forall p e, n_table (nt_net s) !! p = Some (Some e) -> (length (syn_queue e) <= 32)%nat).
Proof.
  assert (nt_ok s) as (Hv & Ht & Hd & Hl).
  { assert (nt_ok s0) as H0.
    { unfold nt_ok, nt_inv, net_ok, net_inv. rewrite Hvec, Htable.
      split_and!; [by intros ??|apply ListenTable_new_ok|..]; cbn [fst snd mbind list_bind app];
        rewrite queue_handles_new; [constructor|by intros ? ?%not_elem_of_nil]. }
    clear Hvec Htable. induction Hreach as [s0|s0 s1 s2 Hstep Hrest IH]; [done|].
    apply IH. by eapply net_step_ok. }
  split_and!; [done|done| |].
  - intros p t Hp. exact (Hv p t Hp).
  - intros p e Hp. destruct Ht as [_ Ht]. destruct (Ht _ _ Hp) as (_ & _ & Hq).
    unfold LISTEN_QUEUE_SIZE in Hq. lia.
Qed.

(** C40: a successful [Accept] never returns.  [handle_ipc] holds the lock of
    [SOCKET_VEC] while [alloc_socket_id] takes it again, so the net thread spins
    forever on its own lock as soon as a connection is ready; only failed
    requests are answered. *)
Theorem accept_deadlocks `{K : Sel4} `{MI : MessageInfoApi} `{MA : MemoryAddr} `{AX : AxErrno}
    `{SM : Smoltcp} `{NE : !NEnv} (fuel : nat) (id : Z) (s : NT) (t t' new : TcpSocket) (n' : Net)
    (Hid : 0 <= id) (Hfree : nt_held s = false)
    (Hsock : nt_vec s !! Z.to_nat id = Some (Some t))
    (Haccept : accept fuel (t, nt_net s) = Ret (Ok new, (t', n'))) :
  handle_request fuel (NRL_Accept id) s = Deadlock.
Proof.
  simpl. unfold lock_vec. unfold mbind at 1, M_bind at 1. rewrite Hfree.
  assert (on_socket id (accept fuel) (nput_held true s) =
    Ret (Ok new, nput_vec (<[Z.to_nat id := Some t']> (nt_vec s)) (nput_net n' (nput_held true s))))
    as E.
  { unfold on_socket. rewrite (bind_Ret (gets nt_vec) _ _ (nt_vec s) (nput_held true s)) by done.
    unfold mbind, M_bind, lift, index. rewrite decide_True by done. rewrite Hsock.
    unfold unwrap, run_tcp, mret, M_ret. cbn [nt_net nput_held]. rewrite Haccept.
    unfold index_set. apply lookup_lt_Some in Hsock. by rewrite decide_True by lia. }
  by rewrite (bind_Ret _ _ _ _ _ E).
Qed.

(** *** Witnesses *)

(** A client that asks for a new socket. *)
Definition ref_nenv : @NEnv ref_sel4 packed_message_info := {|
  ne_recv _ _ b k := (@mi_new packed_message_info 0x400 0 0 0, 1, b, k);
  ne_sockaddr_size := 32;
  ne_sockaddr_of _ := ref_peer;
|}.

Definition ref_nt (n : @Net ref_smoltcp) (v : list (option TcpSocket)) :
    @NT ref_sel4 packed_message_info ref_smoltcp :=
  @MkNT ref_sel4 packed_message_info ref_smoltcp n v false blank_ipc (ref_user 0) [].

Lemma net_server_invariant_witness :
  exists s, @rtc _ (@net_step ref_sel4 packed_message_info ref_memory_addr ref_axerrno
      ref_smoltcp ref_nenv) (ref_nt (ref_net ∅ ListenTable_new) []) s /\
    NoDup ((nt_vec s ≫= socket_handles) ++ queue_handles (n_table (nt_net s))).
Proof.
  destruct (run_value_Ret (@handle_ipc ref_sel4 packed_message_info ref_memory_addr ref_axerrno
    ref_smoltcp ref_nenv 1) (ref_nt (ref_net ∅ ListenTable_new) []) tt) as [s E].
  - vm_compute. reflexivity.
  - exists s. assert (@rtc _ (@net_step ref_sel4 packed_message_info ref_memory_addr ref_axerrno
      ref_smoltcp ref_nenv) (ref_nt (ref_net ∅ ListenTable_new) []) s) as R
      by (apply rtc_once; by exists 1%nat).
    split; [exact R|].
    exact (proj1 (@net_server_invariant ref_sel4 packed_message_info ref_memory_addr ref_axerrno
      ref_axerrno_laws ref_smoltcp ref_smoltcp_laws ref_nenv (ref_nt (ref_net ∅ ListenTable_new) []) s eq_refl eq_refl R)).
Defined.

(** A listener on port 80 whose second queued connection is established. *)
Definition ref_listener : TcpSocket :=
  MkTcp STATE_LISTENING (Some 3) (MkEp (Ipv4 [0; 0; 0; 0]) 80) UNSPECIFIED_ENDPOINT true false.

Lemma accept_deadlocks_witness :
  @handle_request ref_sel4 packed_message_info ref_memory_addr ref_axerrno ref_smoltcp ref_nenv 1
    (NRL_Accept 0) (ref_nt ref_queue_net [Some ref_listener]) = Deadlock.
Proof.
  destruct (run_value_Ret (@accept ref_smoltcp ref_axerrno 1) (ref_listener, ref_queue_net)
    (Ok (new_connected 2 r_any r_any))) as [[t' n'] E]; [vm_compute; reflexivity|].
  exact (@accept_deadlocks ref_sel4 packed_message_info ref_memory_addr ref_axerrno ref_smoltcp
    ref_nenv 1 0 (ref_nt ref_queue_net [Some ref_listener]) ref_listener t'
    (new_connected 2 r_any r_any) n' ltac:(lia) eq_refl eq_refl E).
Defined.
