(* ===== verification/TaskHelper.v ===== *)
(** * Task construction for the root task ([crates/task-helper/src/lib.rs])

    [Sel4TaskHelper] is generic in where pages and translation tables come
    from; the trait is a class.  Its [map_page] is the same loop as the kernel
    thread's, so its correctness is proved by a simulation. *)

From S2P Require Import Prelude Words Consts Sel4 Sel4Laws RefKernel ObjAllocator KTask.

Record Sel4TaskHelper := MkHelper {
  h_tcb : CPtr;
  h_cnode : CPtr;
  h_vspace : CPtr;
  h_mapped_pt : list CPtr;
  h_mapped_page : gmap Z CPtr;
  h_stack_bottom : Z;
}.

Definition h_set_pt (l : list CPtr) (t : Sel4TaskHelper) : Sel4TaskHelper :=
  MkHelper (h_tcb t) (h_cnode t) (h_vspace t) l (h_mapped_page t) (h_stack_bottom t).
Definition h_set_page (m : gmap Z CPtr) (t : Sel4TaskHelper) : Sel4TaskHelper :=
  MkHelper (h_tcb t) (h_cnode t) (h_vspace t) (h_mapped_pt t) m (h_stack_bottom t).
Definition h_set_bottom (b : Z) (t : Sel4TaskHelper) : Sel4TaskHelper :=
  MkHelper (h_tcb t) (h_cnode t) (h_vspace t) (h_mapped_pt t) (h_mapped_page t) b.

(** What [with_context] reads of an ELF file: entry point and TLS segment. *)
Record ElfStart := MkElfStart { es_entry : Z; es_tls : option Z }.

Definition HK `{Sel4} : Type := Sel4TaskHelper * AK.

(** [trait TaskHelperTrait] *)
Class TaskHelperTrait `{Sel4} := {
  DEFAULT_STACK_TOP : Z;
  allocate_pt : M HK CPtr;
  allocate_page : M HK CPtr;
}.

Section helper.
Context `{K : Sel4} `{TH : !TaskHelperTrait}.

Definition h_kernel {A} (m : M kstate A) : M HK A :=
  zoom (fun s => s.2.2) (fun k s => (s.1, (s.2.1, k))) m.
Definition h_modify (f : Sel4TaskHelper -> Sel4TaskHelper) : M HK unit :=
  modify (fun s => (f s.1, s.2)).

Definition cnode_relative (path : CPtr) : AbsoluteCPtr := relative SLOT_CNODE path.

Definition abs_cptr (t : Sel4TaskHelper) (cptr_bits : Z) : AbsoluteCPtr :=
  relative (h_cnode t) cptr_bits.

Definition Sel4TaskHelper_new (tcb cnode fault_ep vspace : CPtr) (mapped_page : gmap Z CPtr)
    (badge : Z) (irq_ep : CPtr) : M kstate Sel4TaskHelper :=
  let task := MkHelper tcb cnode vspace [] mapped_page DEFAULT_STACK_TOP in
  kcall_unwrap (cnode_mint (abs_cptr task DEFAULT_THREAD_FAULT_EP) (cnode_relative fault_ep)
    rights_all badge) ;;
  kcall_unwrap (cnode_mint (abs_cptr task DEFAULT_THREAD_IRQ_EP) (cnode_relative irq_ep)
    rights_all badge) ;;
  kcall_unwrap (cnode_copy (abs_cptr task SLOT_ASID_POOL) (cnode_relative SLOT_ASID_POOL)
    rights_all) ;;
  kcall_unwrap (cnode_copy (abs_cptr task SLOT_ASID_CONTROL) (cnode_relative SLOT_ASID_CONTROL)
    rights_all) ;;
  mret task.

(** Unlike the kernel thread's loop this one does not fall through. *)
Fixpoint helper_map_loop (n : nat) (vaddr page : Z) : M HK unit :=
  match n with
  | O => panic_with PExplicit
  | S n =>
      vspace ← gets (fun s => h_vspace s.1);
      res ← h_kernel (kcall (frame_map page vspace vaddr rights_all));
      match res with
      | Ok _ => h_modify (fun t => h_set_page (<[vaddr := page]> (h_mapped_page t)) t)
      | Err FailedLookup =>
          pt_cap ← allocate_pt;
          h_kernel (kcall_unwrap (pt_map pt_cap vspace vaddr)) ;;
          h_modify (fun t => h_set_pt (h_mapped_pt t ++ [pt_cap]) t) ;;
          helper_map_loop n vaddr page
      | Err _ => panic_with PUnwrap
      end
  end.

Definition helper_map_page (vaddr page : Z) : M HK unit :=
  assert (vaddr mod PAGE_SIZE =? 0) ;;
  helper_map_loop (Z.to_nat NUM_LEVELS) vaddr page.

Definition configure (t : Sel4TaskHelper) (radix_bits ipc_buffer_addr : Z) (ipc_buffer_cap : CPtr) :
    M kstate (result unit Error) :=
  kcall_unwrap (cnode_mint (abs_cptr t SLOT_CNODE) (cnode_relative (h_cnode t)) rights_all
    (cnode_skip_high_bits radix_bits)) ;;
  kcall_unwrap (cnode_copy (abs_cptr t SLOT_TCB) (cnode_relative (h_tcb t)) rights_all) ;;
  kcall_unwrap (cnode_copy (abs_cptr t SLOT_VSPACE) (cnode_relative (h_vspace t)) rights_all) ;;
  kcall (tcb_configure (h_tcb t) DEFAULT_THREAD_FAULT_EP (h_cnode t)
    (cnode_skip_high_bits radix_bits) (h_vspace t) ipc_buffer_addr ipc_buffer_cap).

Definition helper_map_stack (page_count : Z) : M HK unit :=
  size ← lift (mul_chk true page_count PAGE_SIZE);
  bottom ← gets (fun s => h_stack_bottom s.1);
  bottom ← lift (sub_chk true bottom size);
  h_modify (h_set_bottom bottom) ;;
  for_each (fun i =>
      page_cap ← allocate_page;
      bottom ← gets (fun s => h_stack_bottom s.1);
      off ← lift (mul_chk true i PAGE_SIZE);
      addr ← lift (add_chk true bottom off);
      helper_map_page addr page_cap)
    (seqZ 0 page_count).

Definition with_context (t : Sel4TaskHelper) (image : ElfStart) : M kstate unit :=
  kcall_unwrap (tcb_write_all_registers (h_tcb t) false
    (MkCtx (es_entry image) (DEFAULT_STACK_TOP - STACK_ALIGN_SIZE) ∅
       (default 0 (es_tls image)))).

Definition run (t : Sel4TaskHelper) : M kstate unit := kcall_unwrap (tcb_resume (h_tcb t)).
End helper.

(** ** The root task's instance ([crates/root-task/src/task.rs]) *)

#[global] Instance TaskImpl `{Sel4} : TaskHelperTrait := {|
  DEFAULT_STACK_TOP := 0x100000000;
  allocate_pt := zoom snd (fun ak s => (s.1, ak)) (allocate_and_retyped_fixed_sized BpPT);
  allocate_page := zoom snd (fun ak s => (s.1, ak)) (allocate_and_retyped_fixed_sized BpGranule);
|}.

(** ** Simulation by the kernel thread's [map_page] *)

(** A task of the kernel thread with the same address space. *)
Definition task_of (t : Sel4TaskHelper) : Sel4Task :=
  MkTask 0 0 (h_tcb t) (h_cnode t) (h_vspace t) (h_mapped_pt t) (h_mapped_page t)
    (h_stack_bottom t) None None.
Definition helper_of (t : Sel4Task) : Sel4TaskHelper :=
  MkHelper (t_tcb t) (t_cnode t) (t_vspace t) (t_mapped_pt t) (t_mapped_page t) (t_heap t).

Lemma helper_of_task_of t : helper_of (task_of t) = t.
Proof. by destruct t. Qed.

Section simulation.
Context `{K : Sel4}.

(** The outcome of the kernel thread's [map_page], as the helper gives it: the
    kernel thread's loop falls through when the attempts are used up, the helper
    panics. *)
Definition helper_outcome (va : Z) (o : outcome (unit * TK)) : outcome (unit * HK) :=
  match o with
  | Ret (_, (t', ak')) =>
      match t_mapped_page t' !! va with
      | Some _ => Ret (tt, (helper_of t', ak'))
      | None => Panic PExplicit
      end
  | Panic p => Panic p
  | Deadlock => Deadlock
  | NoFuel => NoFuel
  end.

Lemma helper_map_loop_eq n va page t ak :
  t_mapped_page t !! va = None ->
  helper_map_loop n va page (helper_of t, ak) =
    helper_outcome va (map_page_loop n va page (t, ak)).
Proof.
  revert t ak. induction n as [|n IH]; intros t [a k] Hnew.
  { simpl. unfold mret, M_ret. simpl. by rewrite Hnew. }
  simpl. unfold mbind, M_bind, gets, t_kernel, h_kernel, zoom, kcall. cbn [fst snd].
  cbn [h_vspace helper_of]. destruct (frame_map page (t_vspace t) va rights_all k) as [[[]|e] k1].
  - simpl. by rewrite lookup_insert_eq.
  - destruct e; try done. unfold map_table, t_alloc, zoom, mbind, M_bind. cbn [fst snd].
    unfold allocate_pt, TaskImpl, zoom. cbn [fst snd].
    destruct (allocate_and_retyped_fixed_sized BpPT (a, k1)) as [[pt [a2 k2]]| | |]; try done.
    unfold t_kernel, zoom. cbn [fst snd].
    destruct (kcall_unwrap (pt_map pt (t_vspace t) va) k2) as [[[] k3]| | |]; try done.
    apply (IH (set_mapped_pt (t_mapped_pt t ++ [pt]) t) (a2, k3)). done.
Qed.

Lemma helper_map_page_eq va page t ak :
  h_mapped_page t !! va = None ->
  helper_map_page va page (t, ak) = helper_outcome va (map_page va page (task_of t, ak)).
Proof.
  intros Hnew. unfold map_page, helper_map_page, assert. destruct (va mod PAGE_SIZE =? 0); [|done].
  unfold mbind, M_bind, mret, M_ret. rewrite <- (helper_of_task_of t) at 1.
  by rewrite helper_map_loop_eq.
Qed.

Lemma helper_map_page_sim va page t ak t' ak' :
  map_page va page (task_of t, ak) = Ret (tt, (t', ak')) -> h_mapped_page t !! va = None ->
  t_mapped_page t' !! va <> None ->
  helper_map_page va page (t, ak) = Ret (tt, (helper_of t', ak')).
Proof.
  intros E Hnew Hm. rewrite helper_map_page_eq, E by done. simpl.
  by destruct (t_mapped_page t' !! va).
Qed.

(** Likewise a new page: [allocate_page] followed by [map_page]. *)
Definition helper_add_page (va : Z) : M HK unit :=
  page_cap ← allocate_page; helper_map_page va page_cap.

Lemma helper_add_page_sim va t ak t' ak' :
  alloc_and_map va (task_of t, ak) = Ret (tt, (t', ak')) -> h_mapped_page t !! va = None ->
  t_mapped_page t' !! va <> None ->
  helper_add_page va (t, ak) = Ret (tt, (helper_of t', ak')).
Proof.
  unfold alloc_and_map, helper_add_page. intros E Hnew Hm.
  ibind E as p s1 E1. unfold t_alloc, zoom in E1.
  unfold allocate_page, TaskImpl, mbind, M_bind, zoom. cbn [fst snd] in *.
  destruct (allocate_and_retyped_fixed_sized BpGranule ak) as [[p' ak1]| | |]; try done.
  injection E1 as <- <-. by apply helper_map_page_sim.
Qed.
End simulation.

(** ** Adding pages to a task *)

Section pages.
Context `{L : Sel4Laws}.

(** The helper's record of its address space is exact. *)
Definition helper_ok (vs : VS) (s : HK) : Prop := task_ok vs (task_of s.1) s.2.1 s.2.2.

(** Zeroed pages were added at the addresses [l]. *)
Definition helper_added (vs : VS) (l : list Z) (s s' : HK) : Prop :=
  pages_added vs l (task_of s.1) s.2.1 s.2.2 (task_of s'.1, s'.2).

Lemma wp_helper_add_page vs m t a k va :
  helper_ok vs (t, (a, k)) -> page_aligned va -> 0 <= va < 2 ^ 48 ->
  h_mapped_page t !! va = None -> alloc_ok (Z.to_nat NUM_LEVELS + m) (a, k) ->
  wp (helper_add_page va)
     (fun _ s' => helper_added vs [va] (t, (a, k)) s' /\ alloc_ok m s'.2) (t, (a, k)).
Proof.
  intros Hok Hal Hva Hnew HA.
  destruct (wp_alloc_and_map vs m (task_of t) a k va) as ([] & [t' ak'] & E & HP & HA'); try done.
  destruct (pa_task _ _ _ _ _ _ HP) as (mp & pts & Ht'). simpl in Ht'.
  assert (task_of (helper_of t') = t') as HT by by subst t'.
  exists tt, (helper_of t', ak'). split.
  - apply helper_add_page_sim; try done.
    destruct (pa_new _ _ _ _ _ _ HP va) as (c & f & Hc & _); [done|left|].
    simpl in Hc. by rewrite Hc.
  - split; [|done]. unfold helper_added. simpl. by rewrite HT.
Qed.

Lemma allocate_page_bottom s p s' :
  allocate_page s = Ret (p, s') -> h_stack_bottom s'.1 = h_stack_bottom s.1.
Proof.
  unfold allocate_page, TaskImpl, zoom. intros E.
  destruct (allocate_and_retyped_fixed_sized BpGranule s.2) as [[]| | |]; by simplify_eq/=.
Qed.

Lemma helper_map_loop_bottom n va p s s' :
  helper_map_loop n va p s = Ret (tt, s') -> h_stack_bottom s'.1 = h_stack_bottom s.1.
Proof.
  revert s. induction n as [|n IH]; intros s E; [done|]. simpl in E.
  ibind E as v s1 E1. injection E1 as <- <-. ibind E as r s1 E1.
  assert (s1.1 = s.1) as Hs1.
  { unfold h_kernel, zoom in E1. by destruct (kcall _ _) as [[]| | |]; simplify_eq/=. }
  destruct r as [u|[]]; try done.
  - injection E as <-. simpl. by rewrite Hs1.
  - ibind E as pt s2 E2. ibind E as u s3 E3. ibind E as u' s4 E4. injection E4 as _ <-.
    rewrite (IH _ E). simpl. rewrite <- Hs1.
    unfold allocate_pt, TaskImpl, zoom in E2. unfold h_kernel, zoom in E3.
    destruct (allocate_and_retyped_fixed_sized BpPT s1.2) as [[]| | |]; simplify_eq/=.
    by destruct (kcall_unwrap _ _) as [[]| | |]; simplify_eq/=.
Qed.

Lemma helper_add_page_bottom va s s' :
  helper_add_page va s = Ret (tt, s') -> h_stack_bottom s'.1 = h_stack_bottom s.1.
Proof.
  unfold helper_add_page, helper_map_page. intros E. ibind E as p s1 E1. ibind E as u s2 E2.
  unfold assert in E2. destruct (_ =? _); [|done]. injection E2 as _ <-.
  by rewrite (helper_map_loop_bottom _ _ _ _ _ E), (allocate_page_bottom _ _ _ E1).
Qed.

Lemma helper_added_ok vs l s s' : helper_added vs l s s' -> helper_ok vs s'.
Proof. intros HP. exact (pa_ok _ _ _ _ _ _ HP). Qed.

Lemma helper_added_bottom vs l s s' :
  helper_added vs l s s' -> h_stack_bottom s'.1 = h_stack_bottom s.1.
Proof.
  intros (mp & pts & Ht)%pa_task. exact (f_equal t_heap Ht).
Qed.

Lemma wp_helper_add_pages vs l m s :
  helper_ok vs s -> NoDup l ->
  (forall va, va ∈ l -> page_aligned va /\ 0 <= va < 2 ^ 48 /\ h_mapped_page s.1 !! va = None) ->
  alloc_ok (Z.to_nat NUM_LEVELS * length l + m) s.2 ->
  wp (for_each helper_add_page l) (fun _ s' => helper_added vs l s s' /\ alloc_ok m s'.2) s.
Proof.
  revert s. induction l as [|x l IH]; intros s Hok Hnd Hl HA; simpl.
  - wp_step. destruct s as [t [a k]]. split; [by apply pages_added_nil|].
    eapply alloc_ok_le, HA. lia.
  - apply NoDup_cons in Hnd as [Hx Hnd]. destruct s as [t [a k]].
    destruct (Hl x) as (Hal & Hr & Hn); [left|].
    wp_step. eapply wp_mono.
    + apply (wp_helper_add_page vs (Z.to_nat NUM_LEVELS * length l + m)); try done.
      eapply alloc_ok_le, HA. simpl. lia.
    + intros [] s1 [P1 A1]. eapply wp_mono.
      * apply IH; [by eapply helper_added_ok|done| |done].
        intros va Hva. destruct (Hl va) as (? & ? & Hnv); [by right|]. split_and!; try done; try lia.
        apply (pa_else _ _ _ _ _ _ P1 va Hnv). set_solver.
      * intros [] s2 [P2 A2]. split; [|done].
        by apply (pages_added_app vs [x] l _ _ _ (task_of s1.1, s1.2) _ P1).
Qed.

(** The pages of a stack of [n] pages below [top]. *)
Definition stack_pages (top n : Z) : list Z :=
  map (fun i => top - n * PAGE_SIZE + i * PAGE_SIZE) (seqZ 0 n).

Lemma stack_pages_NoDup top n : NoDup (stack_pages top n).
Proof. apply NoDup_fmap_2; [|apply NoDup_seqZ]. intros x y E. cbv beta in E. change PAGE_SIZE with 4096 in E. lia. Qed.

Lemma elem_of_stack_pages top n va :
  page_aligned top ->
  va ∈ stack_pages top n <-> page_aligned va /\ top - n * PAGE_SIZE <= va < top.
Proof.
  unfold stack_pages, page_aligned. change PAGE_SIZE with 4096. intros Ht.
  rewrite list_elem_of_fmap. setoid_rewrite elem_of_seqZ. split.
  - intros (i & -> & Hi). split; [|lia]. dlia.
  - intros [Ha Hr]. exists ((va - (top - n * 4096)) / 4096). split; dlia.
Qed.

(** The page count is a [usize], the address of the lowest page does not
    underflow and the area is free. *)
Definition stack_fits (t : Sel4TaskHelper) (n : Z) : Prop :=
  0 <= n /\ page_aligned (h_stack_bottom t) /\ h_stack_bottom t <= 2 ^ 48 /\
  n * PAGE_SIZE <= h_stack_bottom t /\
  forall va, va ∈ stack_pages (h_stack_bottom t) n -> h_mapped_page t !! va = None.

Lemma wp_helper_map_stack vs n m t a k :
  helper_ok vs (t, (a, k)) -> stack_fits t n ->
  alloc_ok (Z.to_nat NUM_LEVELS * Z.to_nat n + m) (a, k) ->
  wp (helper_map_stack n)
     (fun _ s' => helper_added vs (stack_pages (h_stack_bottom t) n)
        (h_set_bottom (h_stack_bottom t - n * PAGE_SIZE) t, (a, k)) s' /\ alloc_ok m s'.2)
     (t, (a, k)).
Proof.
  intros Hok (Hn & Hal & Htop & Hbot & Hfree) HA.
  set (b := h_stack_bottom t - n * PAGE_SIZE).
  assert (forall i, i ∈ seqZ 0 n -> 0 <= b + i * PAGE_SIZE < 2 ^ 48) as Hb.
  { intros i Hi%elem_of_seqZ. subst b. change PAGE_SIZE with 4096 in *. lia. }
  destruct (wp_helper_add_pages vs (stack_pages (h_stack_bottom t) n) m (h_set_bottom b t, (a, k)))
    as ([] & s' & E & HP & HA').
  - by destruct Hok.
  - apply stack_pages_NoDup.
  - intros va Hva. split_and!; [| | |by apply Hfree];
      apply elem_of_stack_pages in Hva as [? ?]; try done; change PAGE_SIZE with 4096 in *; lia.
  - unfold stack_pages. rewrite length_map, length_seqZ. done.
  - unfold helper_map_stack, h_modify. change PAGE_SIZE with 4096 in *.
    wp_step. eapply wp_lift; [apply mul_chk_small; unfold is_u64; lia|].
    wp_step. wp_step. wp_step. eapply wp_lift; [apply sub_chk_small; unfold is_u64; simpl; lia|].
    wp_step. wp_step. simpl.
    exists tt, s'. split; [|done].
    apply (for_each_sim _ helper_add_page (fun i => b + i * PAGE_SIZE) id
             (fun s => h_stack_bottom s.1 = b)); try done.
    intros x s1 s2 Hx Hs1 E1. split; [|by rewrite (helper_add_page_bottom _ _ _ E1)].
    unfold helper_add_page in E1. ibind E1 as p s3 E3. simpl. rewrite (bind_Ret _ _ _ _ _ E3).
    unfold mbind, M_bind, gets. simpl.
    assert (h_stack_bottom s3.1 = b) as -> by (by rewrite (allocate_page_bottom _ _ _ E3)).
    pose proof (Hb x Hx). apply elem_of_seqZ in Hx. unfold lift.
    rewrite mul_chk_small, add_chk_small by (unfold is_u64; lia). done.
Qed.

(** C23: the task helper's [map_page] and the kernel thread's are the same routine:
    on an address that is not in the page map, they make the same kernel calls and
    allocations and reach the same state or the same panic, whatever the kernel
    answers, except where the attempts are used up without success: there the
    helper panics and the kernel thread returns without having mapped the page. *)
Theorem helper_map_page_equivalent (va page : Z) (t : Sel4TaskHelper) (ak : AK)
    (Hnew : h_mapped_page t !! va = None) :
  helper_map_page va page (t, ak) = helper_outcome va (map_page va page (task_of t, ak)).
Proof. by apply helper_map_page_eq. Qed.

(** [map_stack] of the task helper terminates with zeroed frames of their
    own mapped at exactly the [page_count] pages below the old stack bottom,
    which becomes the lowest of them; what was mapped before stays mapped and
    the record of the address space stays exact. *)
Theorem helper_map_stack_maps (vs : VS) (t : Sel4TaskHelper) (a : ObjectAllocator) (k : kstate)
    (n : Z) (Hok : helper_ok vs (t, (a, k))) (Hfits : stack_fits t n)
    (Halloc : alloc_ok (Z.to_nat NUM_LEVELS * Z.to_nat n) (a, k)) :
  wp (helper_map_stack n)
     (fun _ s' => h_stack_bottom s'.1 = h_stack_bottom t - n * PAGE_SIZE /\
        helper_ok vs s' /\
        (forall va c, h_mapped_page t !! va = Some c -> h_mapped_page s'.1 !! va = Some c) /\
        (forall va, h_mapped_page t !! va = None ->
           if bool_decide (va ∈ stack_pages (h_stack_bottom t) n) then
             exists c f, h_mapped_page s'.1 !! va = Some c /\ alloc_range a c /\
               translate s'.2.2 vs va = Some f /\ forall o, fbyte s'.2.2 f o = 0
           else h_mapped_page s'.1 !! va = None))
     (t, (a, k)).
Proof.
  destruct (wp_helper_map_stack vs n 0 t a k) as ([] & s' & E & HP & _); try done.
  { by rewrite Nat.add_0_r. }
  exists tt, s'. split; [exact E|]. split; [|split_and!].
  - exact (helper_added_bottom _ _ _ _ HP).
  - by eapply helper_added_ok.
  - exact (pa_old _ _ _ _ _ _ HP).
  - intros va Hn. case_bool_decide as Hin; [|by apply (pa_else _ _ _ _ _ _ HP)].
    destruct (pa_new _ _ _ _ _ _ HP va Hn Hin) as (c & f & Hc & Hr & Hf & Hz).
    exists c, f. split_and!; try done; [apply Hr..|].
    destruct (to_page _ _ _ _ (pa_ok _ _ _ _ _ _ HP) va c Hc) as (_ & _ & _ & _ & g & Hg & Ht).
    simpl in *. congruence.
Qed.
End pages.

Definition ref_helper : Sel4TaskHelper := h_set_bottom 0x100000000 (helper_of ref_user_task).

Lemma ref_helper_ok n s e u :
  50 <= s -> @helper_ok ref_sel4 ref_view 5 (ref_helper, (MkAllocator s e u, ref_user n)).
Proof. intros Hs. by destruct (ref_user_task_ok n s e u Hs). Qed.

(** A page one gigabyte away. *)
Lemma helper_map_page_equivalent_witness :
  exists s', @helper_map_page ref_sel4 TaskImpl 0x40000000 40
      (ref_helper, (MkAllocator 50 1024 26, ref_user 6)) = Ret (tt, s') /\
    h_mapped_page s'.1 !! 0x40000000 = Some 40.
Proof.
  eexists. rewrite (@helper_map_page_equivalent ref_sel4 0x40000000 40 ref_helper);
    [|reflexivity].
  split; [vm_compute; reflexivity|reflexivity].
Defined.

Lemma helper_map_stack_maps_witness :
  exists s', @helper_map_stack ref_sel4 TaskImpl 2
      (ref_helper, (MkAllocator 50 1024 26, ref_user 16)) = Ret (tt, s') /\
    h_stack_bottom s'.1 = 0xffffe000 /\
    (exists c, h_mapped_page s'.1 !! 0xffffe000 = Some c) /\
    (exists c, h_mapped_page s'.1 !! 0xfffff000 = Some c) /\
    h_mapped_page s'.1 !! 0x5000 = Some 41.
Proof.
  destruct (@helper_map_stack_maps ref_sel4 ref_view ref_laws 5 ref_helper
              (MkAllocator 50 1024 26) (ref_user 16) 2)
    as ([] & s' & E & Hb & _ & Hold & Hnew).
  - by apply ref_helper_ok.
  - split_and!; try reflexivity; try (vm_compute; intuition discriminate).
    intros va Hva. apply (elem_of_stack_pages 0x100000000 2 va) in Hva as [_ Hr]; [|reflexivity].
    apply lookup_singleton_ne. change PAGE_SIZE with 4096 in Hr. lia.
  - apply (ref_user_alloc_ok 8); vm_compute; intuition discriminate.
  - exists s'. split; [exact E|]. split; [exact Hb|].
    split; [|split; [|by apply Hold]].
    + destruct (Hnew 0xffffe000 eq_refl) as (c & f & Hc & _). by exists c.
    + destruct (Hnew 0xfffff000 eq_refl) as (c & f & Hc & _). by exists c.
Defined.
