(* ===== verification/RootTask.v ===== *)
(** * The root task ([crates/root-task/src])

    The root task divides the untyped memory, builds the three server threads
    and then answers requests on one endpoint. *)

From S2P Require Import Prelude Words Consts Sel4 Sel4Laws RefKernel Reference Messages ObjAllocator KTask FrameMem ImageMap ImageTables ImageLoad TaskHelper.

(** ** What the boot loader provides *)

Record UntypedDesc := MkUntyped {
  ud_is_device : bool;
  ud_paddr : Z;
  ud_size_bits : Z;
}.

Record BootInfo := MkBootInfo {
  bi_untyped_start : Z;                 (* untyped().start() *)
  bi_untyped_list : list UntypedDesc;
  bi_kernel_untyped_start : Z;          (* kernel_untyped_range().start *)
  bi_device_untyped : Z * Z;            (* device_untyped_range() *)
  bi_empty : Z * Z;                     (* empty().range() *)
  bi_user_image_frames : Z * Z;         (* user_image_frames() *)
}.

(** A thread of [TASK_FILES], as the two ELF crates read it. *)
Record TaskFile := MkTaskFile {
  tf_image : option (list Segment);
  tf_elf : option ElfStart;
}.

(** ** Choice of the untyped regions *)

(** [partition_point(|x| x.is_device())] on a list with the devices first. *)
Fixpoint partition_point {A} (p : A -> bool) (l : list A) : nat :=
  match l with
  | [] => 0
  | x :: l => if p x then S (partition_point p l) else 0
  end.

(** [iter().enumerate()], and the stable [sort_by] on the size. *)
Definition enumerate {A} (l : list A) : list (Z * A) := zip (seqZ 0 (Z.of_nat (length l))) l.

Fixpoint insert_by_size (x : Z * UntypedDesc) (l : list (Z * UntypedDesc)) :
    list (Z * UntypedDesc) :=
  match l with
  | [] => [x]
  | y :: l' =>
      if ud_size_bits x.2 <=? ud_size_bits y.2 then x :: l
      else y :: insert_by_size x l'
  end.

Definition sort_by_size (l : list (Z * UntypedDesc)) : list (Z * UntypedDesc) :=
  foldr insert_by_size [] l.

(** [Vec::pop] *)
Definition pop {A} (l : list A) : option (A * list A) :=
  match last l with Some x => Some (x, removelast l) | None => None end.

(** The capabilities of the regions for the kernel thread and for the root task. *)
Definition choose_untyped (bi : BootInfo) : outcome (CPtr * CPtr) :=
  mem_untyped_start ← add_chk true (bi_untyped_start bi)
    (Z.of_nat (partition_point ud_is_device (bi_untyped_list bi)));
  if Z.of_nat (length (bi_untyped_list bi)) <? bi_kernel_untyped_start bi then Panic PIndex
  else
    let mem_untypes :=
      sort_by_size (enumerate (drop (Z.to_nat (bi_kernel_untyped_start bi)) (bi_untyped_list bi))) in
    match pop mem_untypes with
    | None => Panic PUnwrap
    | Some (kernel, mem_untypes) =>
        kernel_untyped ← add_chk true mem_untyped_start kernel.1;
        match pop mem_untypes with
        | None => Panic PUnwrap
        | Some (root, _) =>
            root_task_untyped ← add_chk true mem_untyped_start root.1;
            mret (kernel_untyped, root_task_untyped)
        end
    end.

Section root.
Context `{K : Sel4} `{MI : MessageInfoApi}.

(** ** [task.rs] *)

Definition rebuild_cspace : M AK unit :=
  cnode ← allocate_variable_sized_origin (BpCNode CNODE_RADIX_BITS);
  in_kernel (
    kcall_unwrap (cnode_mint (relative_bits_with_depth cnode 0 CNODE_RADIX_BITS)
      (relative SLOT_CNODE SLOT_CNODE) rights_all (cnode_skip 0)) ;;
    kcall_unwrap (cnode_mutate (relative SLOT_CNODE 0) (relative SLOT_CNODE SLOT_CNODE)
      (cnode_skip_high_bits CNODE_RADIX_BITS)) ;;
    kcall_unwrap (cnode_mint (relative 0 SLOT_CNODE) (relative 0 cnode) rights_all
      (cnode_skip_high_bits (CNODE_RADIX_BITS * 2))) ;;
    kcall_unwrap (cnode_delete (relative SLOT_CNODE 0)) ;;
    kcall_unwrap (tcb_set_space SLOT_TCB 0 cnode (cnode_skip_high_bits (2 * CNODE_RADIX_BITS))
      SLOT_VSPACE)).

(** The second half of [make_child_vspace]: tables, image and IPC buffer. *)
Definition load_child_image (child_vspace : CPtr) (mapped_page : gmap Z CPtr) (image : list Segment)
    (caller_vspace : CPtr) (free_page_addr : Z) : M AK (Z * CPtr * gmap Z CPtr) :=
  fp ← lift (footprint true image);
  tables_end ← lift (add_chk true fp.2 GRANULE_SIZE);
  map_intermediate_translation_tables true child_vspace (fp.1, tables_end) ;;
  mapped_page ← map_image true mapped_page child_vspace fp image caller_vspace free_page_addr;
  let ipc_buffer_addr := fp.2 in
  ipc_buffer_cap ← allocate_and_retyped_fixed_sized BpGranule;
  in_kernel (kcall_unwrap (frame_map ipc_buffer_cap child_vspace ipc_buffer_addr rights_all)) ;;
  mret (ipc_buffer_addr, ipc_buffer_cap, <[ipc_buffer_addr := ipc_buffer_cap]> mapped_page).

Definition make_child_vspace (cnode : CPtr) (mapped_page : gmap Z CPtr) (image : list Segment)
    (caller_vspace : CPtr) (free_page_addr : Z) (asid_pool : CPtr) :
    M AK (CPtr * Z * CPtr * gmap Z CPtr) :=
  inner_cnode ← allocate_and_retyped_variable_sized BpCNode CNODE_RADIX_BITS;
  child_vspace ← allocate_and_retyped_fixed_sized BpVSpace;
  in_kernel (
    kcall_unwrap (cnode_mutate (relative_bits_with_depth cnode 0 CNODE_RADIX_BITS)
      (relative SLOT_CNODE inner_cnode) (cnode_skip 0)) ;;
    kcall_unwrap (cnode_mutate (relative SLOT_CNODE 0) (relative SLOT_CNODE cnode)
      (cnode_skip_high_bits (2 * CNODE_RADIX_BITS))) ;;
    kcall_unwrap (cnode_mutate (relative SLOT_CNODE cnode) (relative SLOT_CNODE 0)
      (cnode_skip_high_bits (2 * CNODE_RADIX_BITS))) ;;
    kcall_unwrap (asid_pool_assign asid_pool child_vspace)) ;;
  v ← load_child_image child_vspace mapped_page image caller_vspace free_page_addr;
  let '(ipc_buffer_addr, ipc_buffer_cap, mapped_page) := v in
  mret (child_vspace, ipc_buffer_addr, ipc_buffer_cap, mapped_page).

(** A method of the task that is being built. *)
Definition with_helper (t : Sel4TaskHelper) (m : M HK unit) : M AK Sel4TaskHelper := fun s =>
  match m (t, s) with
  | Ret (_, (t, s)) => Ret (t, s)
  | Panic p => Panic p | Deadlock => Deadlock | NoFuel => NoFuel
  end.

Definition build_kernel_thread (fault_ep : CPtr * Z) (irq_ep : CPtr) (file : TaskFile)
    (free_page_addr : Z) : M AK (result Sel4TaskHelper Error) :=
  cnode ← allocate_and_retyped_variable_sized BpCNode CNODE_RADIX_BITS;
  image ← unwrap (tf_image file);
  v ← make_child_vspace cnode ∅ image SLOT_VSPACE free_page_addr SLOT_ASID_POOL;
  let '(vspace, ipc_buffer_addr, ipc_buffer_cap, mapped_page) := v in
  tcb ← allocate_and_retyped_fixed_sized BpTcb;
  task ← in_kernel (Sel4TaskHelper_new tcb cnode fault_ep.1 vspace mapped_page fault_ep.2 irq_ep);
  _ <-? in_kernel (configure task (2 * CNODE_RADIX_BITS) ipc_buffer_addr ipc_buffer_cap);
  task ← with_helper task (helper_map_stack 10);
  _ <-? in_kernel (kcall (tcb_set_sched_params (h_tcb task) SLOT_TCB 255 255));
  elf ← unwrap (tf_elf file);
  in_kernel (with_context task elf) ;;
  mret (Ok task).

Definition run_tasks (tasks : list Sel4TaskHelper) : M AK unit :=
  in_kernel (for_each run tasks).

(** [get_user_image_frame_slot] of [utils.rs]: the slot of the frame behind an
    address of the image; [image_start] is the address of [__executable_start],
    and [SlotRegion::index] checks its bounds. *)
Definition get_user_image_frame_slot (bi : BootInfo) (image_start addr : Z) : M AK CPtr :=
  i ← lift (sub_chk true (addr / GRANULE_SIZE) (image_start / GRANULE_SIZE));
  assert (i <? (bi_user_image_frames bi).2 - (bi_user_image_frames bi).1) ;;
  mret ((bi_user_image_frames bi).1 + i).

(** [init_free_page_addr]; [placeholder] is the address of
    [FREE_PAGE_PLACEHOLDER]. *)
Definition init_free_page_addr (bi : BootInfo) (placeholder image_start : Z) : M AK Z :=
  slot ← get_user_image_frame_slot bi image_start placeholder;
  in_kernel (kcall_unwrap (frame_unmap slot)) ;;
  mret placeholder.

(** ** [main.rs] *)

(** The tasks, the allocator and the kernel. *)
Definition RK : Type := list Sel4TaskHelper * AK.

Definition r_alloc {A} (m : M AK A) : M RK A := zoom snd (fun ak s => (s.1, ak)) m.
Definition r_kernel {A} (m : M kstate A) : M RK A := r_alloc (in_kernel m).

(** [tasks[i]] *)
Definition task_at (i : Z) : M RK Sel4TaskHelper := fun s =>
  match index s.1 i with
  | Ret t => Ret (t, s) | Panic p => Panic p | Deadlock => Deadlock | NoFuel => NoFuel
  end.

(** [tasks[i].method()] *)
Definition on_task (i : Z) (m : M HK unit) : M RK unit :=
  t ← task_at i;
  t' ← r_alloc (with_helper t m);
  modify (fun s => (<[Z.to_nat i := t']> s.1, s.2)).

(** [tasks[i].abs_cptr(slot).copy(&cap)] *)
Definition give_cap (i slot : Z) (cap : CPtr) : M RK unit :=
  t ← task_at i;
  r_kernel (kcall_unwrap (cnode_copy (abs_cptr t slot) (relative SLOT_CNODE cap) rights_all)).

(** The unbounded loops that map device memory. *)
Fixpoint map_device (fuel : nat) (frame : CPtr) (vaddr : Z) : M HK unit :=
  match fuel with
  | O => out_of_fuel
  | S fuel =>
      vspace ← gets (fun s => h_vspace s.1);
      r ← h_kernel (kcall (frame_map frame vspace vaddr rights_all));
      match r with
      | Ok _ => mret tt
      | Err FailedLookup =>
          pt ← allocate_pt;
          h_kernel (kcall_unwrap (pt_map pt vspace vaddr)) ;;
          h_modify (fun t => h_set_pt (h_mapped_pt t ++ [pt]) t) ;;
          map_device fuel frame vaddr
      | Err _ => panic_with PExplicit
      end
  end.

(** A new page for one address of a task's DMA area. *)
Definition map_dma_page (i vaddr : Z) : M RK unit :=
  page_cap ← r_alloc (allocate_and_retyped_fixed_sized BpGranule);
  on_task i (helper_map_page vaddr page_cap).

(** The loop over the pages of a task's DMA area. *)
Definition map_dma_area (i n : Z) : M RK unit :=
  for_each (fun j => map_dma_page i (DMA_ADDR_START + j * PAGE_SIZE)) (seqZ 0 n).

(** The device region that contains the MMIO registers. *)
Fixpoint find_device (i : Z) (l : list UntypedDesc) : outcome (option (Z * UntypedDesc)) :=
  match l with
  | [] => mret None
  | d :: l =>
      size ← if ud_size_bits d <? 64 then Ret (Z.shiftl 1 (ud_size_bits d)) else Panic POverflow;
      e ← add_chk true (ud_paddr d) size;
      if (ud_paddr d <=? VIRTIO_MMIO_ADDR) && (VIRTIO_MMIO_ADDR <? e)
      then mret (Some (i, d)) else find_device (i + 1) l
  end.

Fixpoint build_tasks (bi : BootInfo) (placeholder image_start : Z) (fault_ep irq_ep : CPtr)
    (files : list TaskFile) : M RK (result unit Error) :=
  match files with
  | [] => mret (Ok tt)
  | file :: files =>
      n ← gets (fun s => Z.of_nat (length s.1));
      addr ← r_alloc (init_free_page_addr bi placeholder image_start);
      t <-? r_alloc (build_kernel_thread (fault_ep, n) irq_ep file addr);
      modify (fun s => (s.1 ++ [t], s.2)) ;;
      build_tasks bi placeholder image_start fault_ep irq_ep files
  end.

(** The bounds check of a slice [l[d0..d1]]. *)
Definition in_range (b : bool) : M RK unit := if b then mret tt else panic_with PIndex.

(** The block and net threads' endpoints, notifications and device memory. *)
Definition prepare_drivers (fuel : nat) (bi : BootInfo) : M RK unit :=
  blk_dev_ep ← r_alloc (allocate_and_retyped_fixed_sized BpEndpoint);
  blk_irq_not ← r_alloc (allocate_and_retyped_fixed_sized BpNotification);
  give_cap 0 (DEFAULT_CUSTOM_SLOT + 1) blk_dev_ep ;;
  give_cap 1 DEFAULT_CUSTOM_SLOT blk_irq_not ;;
  give_cap 1 (DEFAULT_CUSTOM_SLOT + 2) blk_dev_ep ;;
  let '(d0, d1) := bi_device_untyped bi in
  in_range ((d0 <=? d1) && (d1 <=? Z.of_nat (length (bi_untyped_list bi)))) ;;
  found ← lift (find_device 0
    (take (Z.to_nat (d1 - d0)) (drop (Z.to_nat d0) (bi_untyped_list bi))));
  found ← unwrap found;
  assert (ud_is_device found.2) ;;
  slot ← r_alloc allocate_slot;
  let '(slot_index, cnode_index, blk_frame) := slot in
  r_kernel (kcall_unwrap (untyped_retype (bi_untyped_start bi + found.1) BpLargePage
    (relative_bits_with_depth SLOT_CNODE cnode_index 52) slot_index 1)) ;;
  a ← r_kernel (kcall_unwrap (frame_get_address blk_frame));
  assert (a <? VIRTIO_MMIO_ADDR) ;;
  on_task 1 (map_device fuel blk_frame VIRTIO_MMIO_VIRT_ADDR) ;;
  map_dma_page 1 DMA_ADDR_START ;;
  map_dma_page 1 (DMA_ADDR_START + PAGE_SIZE) ;;
  net_dev_ep ← r_alloc (allocate_and_retyped_fixed_sized BpEndpoint);
  net_irq_not ← r_alloc (allocate_and_retyped_fixed_sized BpNotification);
  give_cap 0 (DEFAULT_CUSTOM_SLOT + 2) net_dev_ep ;;
  give_cap 2 DEFAULT_CUSTOM_SLOT net_irq_not ;;
  give_cap 2 (DEFAULT_CUSTOM_SLOT + 2) net_dev_ep ;;
  slot ← r_alloc allocate_slot;
  let net_frame := slot.2 in
  r_kernel (kcall_unwrap (cnode_copy (relative SLOT_CNODE net_frame) (relative SLOT_CNODE blk_frame)
    rights_all)) ;;
  a ← r_kernel (kcall_unwrap (frame_get_address net_frame));
  assert (a <? VIRTIO_MMIO_ADDR) ;;
  on_task 2 (map_device fuel net_frame VIRTIO_MMIO_VIRT_ADDR) ;;
  map_dma_area 2 32.

(** [main] up to the service loop: the fault and IRQ endpoints and the common
    IRQ handler it goes on with. *)
Definition boot (fuel : nat) (bi : BootInfo) (placeholder image_start : Z) (files : list TaskFile) :
    M RK (result (CPtr * CPtr * CPtr) Error) :=
  ut ← lift (choose_untyped bi);
  modify (fun s => (s.1, (ObjectAllocator_init (bi_empty bi).1 (bi_empty bi).2 ut.2 s.2.1, s.2.2))) ;;
  r_alloc rebuild_cspace ;;
  fault_ep ← r_alloc (allocate_and_retyped_fixed_sized BpEndpoint);
  irq_ep ← r_alloc (allocate_and_retyped_fixed_sized BpEndpoint);
  common_irq_handler ← r_alloc allocate_normal_cap;
  _ <-? build_tasks bi placeholder image_start fault_ep irq_ep files;
  give_cap 0 DEFAULT_CUSTOM_SLOT ut.1 ;;
  prepare_drivers fuel bi ;;
  tasks ← gets fst;
  r_alloc (run_tasks tasks) ;;
  mret (Ok (fault_ep, irq_ep, common_irq_handler)).

(** *** The service loop *)

(** The root task with its IPC buffer and the replies it has sent: tag and
    message registers. *)
Definition RS : Type := RK * IpcBuffer * list (MessageInfo * list Z).
Definition s_root {A} (m : M RK A) : M RS A :=
  zoom (fun s => s.1.1) (fun r s => (r, s.1.2, s.2)) m.
Definition s_ipc {A} (m : M IpcBuffer A) : M RS A :=
  zoom (fun s => s.1.2) (fun b s => (s.1.1, b, s.2)) m.

(** [sel4::reply] *)
Definition s_reply (mi : MessageInfo) : M RS unit :=
  modify (fun s => (s.1, s.2 ++ [(mi, msg_regs s.1.2)])).

(** One iteration of the loop.  [ep_call] is [irq_ep.call], with the thread that
    waits on the IRQ endpoint. *)
Definition root_serve
    (ep_call : CPtr -> MessageInfo -> IpcBuffer -> kstate -> IpcBuffer * kstate)
    (irq_ep common_irq_handler : CPtr) (message : MessageInfo) (badge : Z) : M RS unit :=
  b ← gets (fun s => s.1.2);
  info ← lift (RootMessageLabel_try_from message (msg_regs b));
  match info with
  | Some (RML_RegisterIRQ irq_handler irq_num) =>
      t ← s_root (task_at badge);
      s_root (r_kernel (kcall_unwrap (irq_control_get irq_num (relative (h_cnode t) irq_handler)))) ;;
      s_reply (mi_new 0 0 0 0)
  | Some (RML_RegisterIRQWithCap irq_num) =>
      s_reply (mi_new 0 0 0 0) ;;
      s_root (r_kernel (kcall_unwrap
        (irq_control_get irq_num (relative SLOT_CNODE common_irq_handler)))) ;;
      s_ipc (write_cap 0 common_irq_handler) ;;
      modify (fun s =>
        let '(b, k) := ep_call irq_ep (mi_new 0 0 1 0) s.1.2 s.1.1.2.2 in
        ((s.1.1.1, (s.1.1.2.1, k)), b, s.2))
  | Some (RML_TranslateAddr addr) =>
      t ← s_root (task_at badge);
      page ← unwrap (h_mapped_page t !! Z.land addr (Z.lnot 0xfff));
      phys_addr ← s_root (r_kernel (kcall_unwrap (frame_get_address page)));
      paddr ← lift (add_chk true phys_addr (addr mod 0x1000));
      mi ← s_ipc (RootMessageLabel_build (RML_TranslateAddr paddr));
      s_reply mi
  | None => mret tt
  end.
End root.

(** ** The image of a server *)

Section child_image.
Context `{L : Sel4Laws} `{TL : !TableLaws}.

(** An address space nothing is mapped in yet. *)
Definition new_vspace (vs : VS) (k : kstate) : Prop :=
  (forall l x, 1 <= l < NUM_LEVELS -> table_at k vs l x = false) /\ forall va, translate k vs va = None.

(** The image with the IPC buffer's page after it, and nothing else new. *)
Definition child_loaded (vs : VS) (fp : Z * Z) (segs : list Segment) (mp : gmap Z CPtr) (k : kstate)
    (r : Z * CPtr * gmap Z CPtr) (k' : kstate) : Prop :=
  exists cap f mp', r = (fp.2, cap, mp') /\ image_at vs fp segs mp' k' /\
    mp' !! fp.2 = Some cap /\ cap_frame k' cap = Some f /\ translate k' vs fp.2 = Some f /\
    (forall o, fbyte k' f o = 0) /\
    (forall va, ~ (fp.1 <= va <= fp.2) -> mp' !! va = mp !! va) /\
    (forall vs' va, ~ (vs' = vs /\ fp.1 <= va <= fp.2) -> translate k' vs' va = translate k vs' va).

Lemma wp_ipc_page v vs fp segs mp0 mp m a k0 k :
  page_aligned fp.1 -> page_aligned fp.2 -> 0 <= fp.1 <= fp.2 -> fp.2 < 2 ^ 48 ->
  cap_vs k v = Some vs -> missing k vs fp.2 = 0%nat -> translate k vs fp.2 = None ->
  alloc_ok (S m) (a, k) -> image_at vs fp segs mp k ->
  (forall va, ~ (fp.1 <= va < fp.2) -> mp !! va = mp0 !! va) ->
  (forall vs' va, ~ (vs' = vs /\ fp.1 <= va < fp.2) -> translate k vs' va = translate k0 vs' va) ->
  wp (ipc_buffer_cap ← allocate_and_retyped_fixed_sized BpGranule;
      in_kernel (kcall_unwrap (frame_map ipc_buffer_cap v fp.2 rights_all)) ;;
      mret (fp.2, ipc_buffer_cap, <[fp.2 := ipc_buffer_cap]> mp))
     (fun r s' => child_loaded vs fp segs mp0 k0 r s'.2 /\ alloc_ok m s') (a, k).
Proof.
  intros Hal1 Hal2 Hfp Hmax Hv Hmiss Htr HA HI Hmp Ht. wp_step.
  apply (wp_allocate m _ _ _ _ HA). intros k1 HA1 (f & Hf & Hm & Hcap & _ & Hz & D1) He _.
  set (p := slots_start a) in *.
  assert (v <> p) as Hvp by (intros ->; apply vs_not_empty in Hv; congruence).
  destruct (frame_map_ok k1 p v fp.2 rights_all f vs) as (k2 & E2 & T2 & M2 & F2 & _ & A2 & D2); try done; [|lia| | |].
  { by rewrite (kd_vs _ _ _ _ _ D1). }
  { pose proof (kd_missing _ _ _ _ _ D1 vs fp.2). lia. }
  { by rewrite (kd_trans _ _ _ _ _ D1) by by intros []. }
  wp_step. unfold in_kernel. wp_step. eapply wp_kcall_unwrap; [exact E2|]. wp_step. simpl. split.
  - exists p, f, (<[fp.2 := p]> mp). split_and!; try done.
    + eapply (image_at_kdiff vs fp segs mp _ k k2 (only p) (only2 vs fp.2) (fun g _ => g = f)); try done.
      * eapply kdiff_trans; eapply kdiff_weaken; [..|exact D1| | | |exact D2]; try done; by intros ? ? [].
      * by intros c ->.
      * intros vs' va [_ ->]. lia.
      * intros g o c ->. apply Hcap.
      * intros va Hva. by rewrite lookup_insert_ne by lia.
    + by rewrite lookup_insert_eq.
    + intros o. by rewrite (kd_bytes _ _ _ _ _ D2) by by intros [].
    + intros va Hva. rewrite lookup_insert_ne by lia. apply Hmp. lia.
    + intros vs' va Hn. rewrite (kd_trans _ _ _ _ _ D2), (kd_trans _ _ _ _ _ D1); [apply Ht| |].
      * intros [-> ?]. apply Hn. split; [done|lia].
      * by intros [].
      * intros [-> ->]. apply Hn. split; [done|lia].
  - eapply alloc_ok_kdiff; [exact D2|exact A2| |exact HA1]. intros c ->. simpl. lia.
Qed.
End child_image.

(** C6: loading the image of a server into a new address space terminates without
    a panic, and afterwards every byte of the image's footprint is the byte the
    last segment that covers it has there, or zero where none does; the page
    after the footprint is the zeroed IPC buffer, the page map lists exactly these
    pages, and no other translation of any address space has changed. *)
Theorem child_image_loaded `{L : Sel4Laws} `{TL : !TableLaws} (v : CPtr) (vs : VS)
    (segs : list Segment) (fp : Z * Z) (mp : gmap Z CPtr) (seat : Z) (m : nat)
    (a : ObjectAllocator) (k : kstate)
    (Hne : segs <> []) (Hsegs : Forall elf_segment segs) (Hfp : footprint true segs = Ret fp)
    (Hmax : fp.2 + 4096 <= 2 ^ 48) (Hseat : seat_free seat k) (Hv : cap_vs k v = Some vs)
    (Hnew : new_vspace vs k) (Hown : ~ alloc_range a SLOT_VSPACE) (Hvs : ~ alloc_range a v)
    (Halloc : alloc_ok (tables_needed (fp.1, fp.2 + 4096) + (pages_in fp + S m)) (a, k)) :
  wp (load_child_image v mp segs SLOT_VSPACE seat)
     (fun r s' => child_loaded vs fp segs mp k r s'.2 /\ alloc_ok m s') (a, k).
Proof.
  destruct (footprint_segs true segs fp Hne Hsegs Hfp) as (Hal1 & Hal2 & Hle & Hok). destruct Hnew as [Hnt Htr].
  unfold load_child_image, GRANULE_SIZE. wp_step. eapply wp_lift; [exact Hfp|].
  wp_step. eapply wp_lift; [apply add_chk_small; unfold is_u64; lia|]. wp_step.
  eapply wp_mono; [apply (wp_image_tables true (fp.1, fp.2 + 4096) v vs a k (pages_in fp + S m)); simpl; try done; lia|].
  intros [] [a1 k1] (Ea1 & HA1 & D1 & Hmiss). cbn [fst snd] in *. wp_step.
  assert (forall c, ~ alloc_range a c -> ~ alloc_range a1 c) as Hrange.
  { intros c Hc Hr. apply Hc. rewrite Ea1 in Hr. by eapply alloc_range_bump. }
  eapply wp_mono.
  - apply (wp_map_image true v vs seat fp segs mp (S m) a1 k1); auto; [| |lia|].
    + eapply seat_free_kdiff; [exact Hseat|exact D1|done|].
      rewrite (kd_trans _ _ _ _ _ D1) by by intros []. apply Hseat.
    + by rewrite (kd_vs _ _ _ _ _ D1).
    + intros va _ Hin. split; [apply Hmiss; lia|]. rewrite (kd_trans _ _ _ _ _ D1) by by intros []. apply Htr.
  - intros mp' [a2 k2] (HI & Hmp & Ea2 & HA2 & D2). cbn [fst snd] in *.
    apply wp_ipc_page; try done; try lia.
    + by rewrite (kd_vs _ _ _ _ _ D2), (kd_vs _ _ _ _ _ D1) by auto.
    + pose proof (kd_missing _ _ _ _ _ D2 vs fp.2) as Hm2. rewrite Hmiss in Hm2 by lia. lia.
    + rewrite (kd_trans _ _ _ _ _ D2) by lia. rewrite (kd_trans _ _ _ _ _ D1) by by intros []. apply Htr.
    + intros vs' va Hn. by rewrite (kd_trans _ _ _ _ _ D2), (kd_trans _ _ _ _ _ D1) by first [done|by intros []].
Qed.

(** A segment of three bytes and two zeros in an address space of its own. *)
Definition ref_segment : Segment := MkSegment 0x200010 5 (Some [7; 8; 9]) (Some 5).

Lemma child_image_loaded_witness :
  exists r s', @load_child_image ref_sel4 13 ∅ [ref_segment] 3 0x7000
      (MkAllocator 50 1024 26, ref_user 10) = Ret (r, s') /\
    child_loaded (H := ref_sel4) (V := ref_view) 6 (0x200000, 0x201000) [ref_segment] ∅ (ref_user 10) r s'.2.
Proof.
  destruct (@child_image_loaded ref_sel4 ref_view ref_laws ref_table_laws 13 6 [ref_segment]
              (0x200000, 0x201000) ∅ 0x7000 0 (MkAllocator 50 1024 26) (ref_user 10))
    as (r & s' & E & HL & _).
  - done.
  - repeat constructor; try (vm_compute; discriminate); eexists; [split; [reflexivity|]|reflexivity].
    vm_compute. discriminate.
  - reflexivity.
  - vm_compute. discriminate.
  - split; try (vm_compute; reflexivity). lia.
  - reflexivity.
  - split.
    + intros l x Hl. apply bool_decide_eq_false. cbn. set_solver.
    + intros va. cbn. by rewrite lookup_singleton_ne.
  - unfold alloc_range. cbn. lia.
  - unfold alloc_range. cbn. lia.
  - apply (ref_user_alloc_ok 5); vm_compute; intuition discriminate.
  - exists r, s'. split; [exact E|exact HL].
Defined.

(** ** The choice of the untyped regions *)

Lemma insert_by_size_perm x l : insert_by_size x l ≡ₚ x :: l.
Proof.
  induction l as [|y l IH]; simpl; [done|]. case_match; [done|]. by rewrite IH, Permutation_swap.
Qed.

Lemma sort_by_size_perm l : sort_by_size l ≡ₚ l.
Proof.
  induction l as [|x l IH]; simpl; [done|]. by rewrite insert_by_size_perm, IH.
Qed.

Definition size_le (x y : Z * UntypedDesc) : Prop := ud_size_bits x.2 <= ud_size_bits y.2.

Lemma insert_by_size_sorted x l :
  StronglySorted size_le l -> StronglySorted size_le (insert_by_size x l).
Proof.
  induction 1 as [|y l Hl IH Hy]; simpl; [repeat constructor|].
  destruct (Z.leb_spec (ud_size_bits x.2) (ud_size_bits y.2)) as [Hle|Hlt].
  - constructor; [by constructor|]. constructor; [done|].
    eapply Forall_impl; [exact Hy|]. unfold size_le in *. intros. lia.
  - constructor; [done|]. rewrite insert_by_size_perm.
    constructor; [unfold size_le; lia|done].
Qed.

Lemma sort_by_size_sorted l : StronglySorted size_le (sort_by_size l).
Proof. induction l; simpl; [constructor|]. by apply insert_by_size_sorted. Qed.

Lemma pop_snoc {A} (l : list A) x : pop (l ++ [x]) = Some (x, l).
Proof. unfold pop. by rewrite last_snoc, removelast_last. Qed.

Lemma elem_of_enumerate {A} (l : list A) i (d : A) :
  (i, d) ∈ enumerate l <-> 0 <= i /\ l !! Z.to_nat i = Some d.
Proof.
  unfold enumerate. rewrite list_elem_of_lookup. setoid_rewrite lookup_zip_Some. split.
  - intros (j & [-> Hj]%lookup_seqZ & Hl). split; [lia|]. by rewrite Z.add_0_l, Nat2Z.id.
  - intros [Hi Hl]. exists (Z.to_nat i). split; [|done].
    apply lookup_lt_Some in Hl as Hlt. apply lookup_seqZ. lia.
Qed.

Lemma enumerate_fst_NoDup {A} (l : list A) : NoDup (enumerate l).*1.
Proof.
  unfold enumerate. rewrite fst_zip; [apply NoDup_seqZ|]. rewrite length_seqZ. lia.
Qed.

Lemma two_last {A} (l : list A) : (2 <= length l)%nat -> exists l' x y, l = (l' ++ [x]) ++ [y].
Proof.
  induction l as [|y l _] using rev_ind; [simpl; lia|].
  induction l as [|x l _] using rev_ind; [simpl; lia|]. eauto.
Qed.

(** [biggest regs from i di]: region [i] lies at or past [from], and no other
    region there outside [but] is bigger. *)
Definition biggest (regions : list UntypedDesc) (from : Z) (but : list Z) (i : Z) : Prop :=
  exists d, from <= i /\ regions !! Z.to_nat i = Some d /\ i ∉ but /\
    forall j e, from <= j -> j ∉ but -> regions !! Z.to_nat j = Some e ->
      ud_size_bits e <= ud_size_bits d.

(** C31: with the device regions first, as the boot information lists them, and at
    least two regions of memory, the root task gives the kernel thread a largest
    memory region and keeps a largest one of the others for itself. *)
Theorem choose_untyped_largest (bi : BootInfo)
    (Hstart : bi_kernel_untyped_start bi =
      Z.of_nat (partition_point ud_is_device (bi_untyped_list bi)))
    (Htwo : bi_kernel_untyped_start bi + 2 <= Z.of_nat (length (bi_untyped_list bi)))
    (Hslots : 0 <= bi_untyped_start bi /\
      bi_untyped_start bi + Z.of_nat (length (bi_untyped_list bi)) < 2 ^ 64) :
  exists i j,
    choose_untyped bi = Ret (bi_untyped_start bi + i, bi_untyped_start bi + j) /\
    biggest (bi_untyped_list bi) (bi_kernel_untyped_start bi) [] i /\
    biggest (bi_untyped_list bi) (bi_kernel_untyped_start bi) [i] j.
Proof.
  unfold choose_untyped. rewrite <- Hstart, add_chk_small by (unfold is_u64; lia).
  cbn [mbind outcome_bind]. rewrite (proj2 (Z.ltb_ge _ _)) by lia.
  set (regions := bi_untyped_list bi) in *. set (from := bi_kernel_untyped_start bi) in *.
  set (rs := enumerate (drop (Z.to_nat from) regions)).
  assert (0 <= from) as Hfrom by lia.
  assert (forall i d, (i, d) ∈ sort_by_size rs <->
            0 <= i /\ regions !! Z.to_nat (from + i) = Some d) as Hrs.
  { intros i d. rewrite sort_by_size_perm. subst rs. rewrite elem_of_enumerate, lookup_drop.
    split; intros [? E]; (split; [done|]); rewrite <- E; f_equal; lia. }
  assert (NoDup (sort_by_size rs).*1) as Hnd
    by (rewrite sort_by_size_perm; apply enumerate_fst_NoDup).
  pose proof (sort_by_size_sorted rs) as Hs.
  destruct (two_last (sort_by_size rs)) as (l & [j dj] & [i di] & E).
  { rewrite sort_by_size_perm. subst rs. unfold enumerate.
    rewrite length_zip_with, length_seqZ, length_drop. lia. }
  rewrite E in *. rewrite pop_snoc. exists (from + i), (from + j).
  assert (forall z e, from <= z -> regions !! Z.to_nat z = Some e ->
            (z - from, e) ∈ (l ++ [(j, dj)]) ++ [(i, di)]) as Hin.
  { intros z e Hz He. apply Hrs. split; [lia|]. by replace (from + (z - from)) with z by lia. }
  destruct (proj1 (Hrs i di)) as [Hi0 Hi]; [set_solver|].
  destruct (proj1 (Hrs j dj)) as [Hj0 Hj]; [set_solver|].
  pose proof (lookup_lt_Some _ _ _ Hi). pose proof (lookup_lt_Some _ _ _ Hj).
  assert (forall x, 0 <= x -> (Z.to_nat (from + x) < length regions)%nat ->
    add_chk true (bi_untyped_start bi + from) x = Ret (bi_untyped_start bi + (from + x))) as Hadd.
  { intros x Hx0 Hx. rewrite add_chk_small by (unfold is_u64; lia). f_equal. lia. }
  split.
  { cbn [fst snd]. rewrite Hadd by done. cbn [mbind outcome_bind]. rewrite pop_snoc.
    cbn [fst snd]. by rewrite Hadd by done. }
  apply StronglySorted_app in Hs as (H1 & (H2 & _ & _)%StronglySorted_app & _).
  assert (i <> j) as Hij.
  { intros ->. rewrite !fmap_app in Hnd. apply NoDup_app in Hnd as (_ & Hnd & _).
    apply (Hnd j); simpl; set_solver. }
  split; [exists di|exists dj]; (split_and!; [lia|done|set_solver by lia|]); intros z e Hz Hb He.
  - apply Hin in He; [|done]. apply elem_of_app in He as [He|He].
    + apply (H1 _ (i, di) He). set_solver.
    + apply list_elem_of_singleton in He as [= _ ->]. done.
  - apply Hin in He; [|done]. rewrite !elem_of_app, !list_elem_of_singleton in He.
    destruct He as [[He|[= _ ->]]|[= Hz' _]]; [|done|].
    + apply (H2 _ (j, dj) He). set_solver.
    + destruct Hb. apply list_elem_of_singleton. lia.
Qed.

(** Two device regions and three regions of memory, the second the largest. *)
Definition ref_bootinfo : BootInfo :=
  MkBootInfo 100
    [MkUntyped true 0x8000000 24; MkUntyped true 0xa000000 21;
     MkUntyped false 0x40000000 20; MkUntyped false 0x48000000 27; MkUntyped false 0x50000000 25]
    2 (0, 2) (200, 4096) (10, 90).

Lemma choose_untyped_largest_witness :
  choose_untyped ref_bootinfo = Ret (103, 104) /\
  exists i j, choose_untyped ref_bootinfo = Ret (100 + i, 100 + j) /\
    biggest (bi_untyped_list ref_bootinfo) 2 [] i /\
    biggest (bi_untyped_list ref_bootinfo) 2 [i] j.
Proof.
  split; [reflexivity|].
  apply (choose_untyped_largest ref_bootinfo); [reflexivity|vm_compute; discriminate|by vm_compute].
Defined.
