(* ===== verification/ThreadTest.v ===== *)
(** * Starting a second thread ([thread.rs] of [kernel-thread] and [root-task])

    [test_threads] creates a thread in its own address space: a TCB, an IPC
    buffer, and a register context that starts [thread_entrypoint] on a boxed
    closure, with a stack and a TLS area of its own.  The signalling between the
    two threads afterwards is in [Irq]. *)

From S2P Require Import Prelude Words Consts Sel4 Sel4Laws RefKernel ObjAllocator KTask FrameMem UserMem Exec ImageMap Threads Fork TaskHelper RootTask.

(** ** The crates the code calls *)

(** A program header of [sel4_elf_header]. *)
Record Phdr := MkPhdr {
  p_type : Z;
  p_vaddr : Z;
  p_filesz : Z;
  p_memsz : Z;
  p_align : Z;
}.

Definition PT_TLS : Z := 7.

(** [sel4_initialize_tls] and the global allocator: [UncheckedTlsImage::check],
    size and alignment of the reservation, the offset of the thread pointer in
    it, and what initialising a reservation does to memory. *)
Class TlsCrate `{Sel4} := {
  TlsImage : Type;
  tls_check : Z -> Z -> Z -> Z -> option TlsImage;
  tls_footprint : TlsImage -> Z * Z;
  tls_thread_pointer_offset : TlsImage -> Z;
  initialize_tls_reservation : TlsImage -> Z -> M kstate unit;
  Heap : Type;
  heap_alloc : Z * Z -> Heap -> Z * Heap;
  heap_dealloc : Z -> Z * Z -> Heap -> Heap;
  (** closures that never return, and the layout of their captured values *)
  Closure : Type;
  closure_layout : Closure -> Z * Z;
}.

Section model.
Context `{K : Sel4} `{TC : !TlsCrate}.

(** A boxed closure: where the box is, and what it holds. *)
Record ThreadFn := MkThreadFn {
  fn_box : Z;
  fn_closure : Closure;
}.

(** Allocator and kernel, the heap, and the boxed [ThreadFn]s on it. *)
Record TS := MkTS {
  ts_ak : AK;
  ts_heap : Heap;
  ts_boxes : gmap Z ThreadFn;
}.

Definition ts_alloc {A} (m : M AK A) : M TS A :=
  zoom ts_ak (fun ak s => MkTS ak (ts_heap s) (ts_boxes s)) m.
Definition ts_kernel {A} (m : M kstate A) : M TS A := ts_alloc (in_kernel m).
Definition malloc (layout : Z * Z) : M TS Z := fun s =>
  let '(p, h) := heap_alloc layout (ts_heap s) in Ret (p, MkTS (ts_ak s) h (ts_boxes s)).

(** ** [ThreadFn] *)

(** A [ThreadFn] is a wide pointer. *)
Definition THREAD_FN_LAYOUT : Z * Z := (16, 8).

Definition ThreadFn_new (c : Closure) : M TS ThreadFn :=
  p ← malloc (closure_layout c);
  mret (MkThreadFn p c).

Definition ThreadFn_into_arg (f : ThreadFn) : M TS Z :=
  p ← malloc THREAD_FN_LAYOUT;
  modify (fun s => MkTS (ts_ak s) (ts_heap s) (<[p := f]> (ts_boxes s))) ;;
  mret p.

(** The box is moved out and freed; without a box at the address the access is
    undefined. *)
Definition ThreadFn_from_arg (arg : Z) : M TS ThreadFn := fun s =>
  match ts_boxes s !! arg with
  | Some f => Ret (f, MkTS (ts_ak s) (heap_dealloc arg THREAD_FN_LAYOUT (ts_heap s))
                        (delete arg (ts_boxes s)))
  | None => Panic PFault
  end.

(** The closure [thread_entrypoint] runs. *)
Definition thread_entrypoint (arg : Z) : M TS Closure :=
  f ← ThreadFn_from_arg arg;
  mret (fn_closure f).

(** ** The TLS area *)

Definition get_tls_image (magic_ok : bool) (phdrs : list Phdr) : M TS TlsImage :=
  assert magic_ok ;;
  phdr ← unwrap (List.find (fun p => p_type p =? PT_TLS) phdrs);
  unwrap (tls_check (p_vaddr phdr) (p_filesz phdr) (p_memsz phdr) (p_align phdr)).

Record TlsReservation := MkTls {
  tls_start : Z;
  tls_image : TlsImage;
}.

Definition TlsReservation_new (img : TlsImage) : M TS TlsReservation :=
  start ← malloc (tls_footprint img);
  ts_kernel (initialize_tls_reservation img start) ;;
  mret (MkTls start img).

(** [chk] is the overflow check of the build. *)
Definition TlsReservation_thread_pointer (chk : bool) (r : TlsReservation) : outcome Z :=
  add_chk chk (tls_start r) (tls_thread_pointer_offset (tls_image r)).

Definition TlsReservation_drop (r : TlsReservation) : M TS unit :=
  modify (fun s => MkTS (ts_ak s)
    (heap_dealloc (tls_start r) (tls_footprint (tls_image r)) (ts_heap s)) (ts_boxes s)).

(** ** The register context *)

(** The addresses of the stack's end and of [thread_entrypoint], and the ELF
    header the program finds at [__ehdr_start]. *)
Record ThreadEnv := MkThreadEnv {
  te_stack_bottom : Z;
  te_entrypoint : Z;
  te_magic_ok : bool;
  te_phdrs : list Phdr;
}.

(** The reservation is forgotten, not dropped. *)
Definition make_user_context (chk : bool) (env : ThreadEnv) (f : ThreadFn) : M TS UserContext :=
  arg ← ThreadFn_into_arg f;
  img ← get_tls_image (te_magic_ok env) (te_phdrs env);
  r ← TlsReservation_new img;
  tp ← lift (TlsReservation_thread_pointer chk r);
  mret (MkCtx (te_entrypoint env) (te_stack_bottom env) {[0 := arg]} tp).

(** ** [test_threads] of the kernel thread *)

Definition SECONDARY_THREAD_IPC_BUFFER_ADDR : Z := 0x1000000000.

(** The loop that maps the IPC buffer and adds the tables it lacks. *)
Fixpoint map_ipc_buffer_loop (fuel : nat) (cap : CPtr) : M AK unit :=
  match fuel with
  | O => out_of_fuel
  | S fuel =>
      r ← in_kernel (kcall (frame_map cap SLOT_VSPACE SECONDARY_THREAD_IPC_BUFFER_ADDR rights_all));
      match r with
      | Ok _ => mret tt
      | Err FailedLookup =>
          pt ← allocate_and_retyped_fixed_sized BpPT;
          in_kernel (kcall_unwrap (pt_map pt SLOT_VSPACE SECONDARY_THREAD_IPC_BUFFER_ADDR)) ;;
          map_ipc_buffer_loop fuel cap
      | Err _ => panic_with PExplicit
      end
  end.

(** One attempt per level of the address space. *)
Definition map_ipc_fuel : nat := Z.to_nat NUM_LEVELS.

(** Everything up to the start of the thread; [body] is the closure for the
    notification and the TCB. *)
Definition start_secondary (env : ThreadEnv) (body : CPtr -> CPtr -> Closure) : M TS (CPtr * CPtr) :=
  ntfn ← ts_alloc (allocate_and_retyped_fixed_sized BpNotification);
  tcb ← ts_alloc (allocate_and_retyped_fixed_sized BpTcb);
  cap ← ts_alloc (allocate_and_retyped_fixed_sized BpGranule);
  ts_alloc (map_ipc_buffer_loop map_ipc_fuel cap) ;;
  ts_kernel (kcall_unwrap (tcb_configure tcb SLOT_NULL SLOT_CNODE (cnode_cap_data 0 0) SLOT_VSPACE
    SECONDARY_THREAD_IPC_BUFFER_ADDR cap)) ;;
  thread_fn ← ThreadFn_new (body ntfn tcb);
  ctx ← make_user_context false env thread_fn;
  ts_kernel (kcall_unwrap (tcb_write_all_registers tcb true ctx)) ;;
  mret (ntfn, tcb).

(** ** [test_threads] of the root task *)

(** The root task has its own copy of the code above, with the overflow checks of
    its build. *)
Definition root_make_user_context : ThreadEnv -> ThreadFn -> M TS UserContext := make_user_context true.

(** [IpcBufferFrame::cap]: the frame of the image behind the static buffer. *)
Definition IpcBufferFrame_cap (bi : BootInfo) (image_start ptr : Z) : M AK CPtr :=
  get_user_image_frame_slot bi image_start ptr.

(** [ptr] is the address of [SECONDARY_THREAD_IPC_BUFFER_FRAME]. *)
Definition root_start_secondary (bi : BootInfo) (image_start ptr : Z) (env : ThreadEnv)
    (body : CPtr -> CPtr -> Closure) : M TS (CPtr * CPtr) :=
  ntfn ← ts_alloc (allocate_and_retyped_fixed_sized BpNotification);
  tcb ← ts_alloc (allocate_and_retyped_fixed_sized BpTcb);
  cap ← ts_alloc (IpcBufferFrame_cap bi image_start ptr);
  ts_kernel (kcall_unwrap (tcb_configure tcb SLOT_NULL SLOT_CNODE (cnode_cap_data 0 0) SLOT_VSPACE
    ptr cap)) ;;
  thread_fn ← ThreadFn_new (body ntfn tcb);
  ctx ← root_make_user_context env thread_fn;
  ts_kernel (kcall_unwrap (tcb_write_all_registers tcb true ctx)) ;;
  mret (ntfn, tcb).
End model.

(** ** The new thread *)

Section laws.
Context `{L : Sel4Laws} `{TH : !ThreadLaws} `{TC : !TlsCrate}.

(** The bytes of a range of the thread's own memory. *)
Definition own_range (k : kstate) (start size : Z) : Frame -> Z -> Prop :=
  fun f o => exists x, start <= x < start + size /\ translate k own_vs (down 4096 x) = Some f /\ o = x mod 4096.
Definition own_mapped (k : kstate) (start size : Z) : Prop :=
  forall x, start <= x < start + size -> translate k own_vs (down 4096 x) <> None.

(** Initialising a reservation writes the reserved memory and nothing else. *)
Class TlsLaws : Prop := {
  tls_init_ok img start k :
    own_mapped k start (tls_footprint img).1 ->
    exists k', initialize_tls_reservation img start k = Ret (tt, k') /\ same_alloc k k' /\
      kdiff nowhere1 nowhere (own_range k start (tls_footprint img).1) k k' /\
      forall c, tcb_state k' c = tcb_state k c;
}.

Lemma ts_alloc_Ret {A} (op : M AK A) ak h b x ak' :
  op ak = Ret (x, ak') -> ts_alloc op (MkTS ak h b) = Ret (x, MkTS ak' h b).
Proof. intros E. unfold ts_alloc, zoom. simpl. by rewrite E. Qed.

Lemma ts_kernel_Ret {A} (op : kstate -> result A Error * kstate) a k h b x k' :
  op k = (Ok x, k') -> ts_kernel (kcall_unwrap op) (MkTS (a, k) h b) = Ret (x, MkTS (a, k') h b).
Proof.
  intros E. apply ts_alloc_Ret. unfold in_kernel, zoom. simpl. by rewrite (kcall_unwrap_Ret _ _ _ _ E).
Qed.

Lemma keepsA_map_ipc p n cap : fact_cap p <> 0 -> keepsA p (map_ipc_buffer_loop n cap).
Proof.
  intros Hp. induction n as [|n IH]; simpl; [by intros ? ? ? ? ?|].
  apply preserves_bind; [by apply keepsA_kernel, keeps_frame_map|intros [[]|[]]]; try apply preserves_ret;
    try (by intros ? ? ? ? ?).
  apply preserves_bind; [by apply keepsA_allocate|intros pt].
  apply preserves_bind; [by apply keepsA_kernel, keeps_pt_map|intros _; apply IH].
Qed.

(** The IPC buffer is mapped after as many tables as were missing. *)
Lemma wp_map_ipc m cap f n : forall a k,
  cap_vs k SLOT_VSPACE = Some own_vs -> ~ alloc_range a SLOT_VSPACE ->
  translate k own_vs SECONDARY_THREAD_IPC_BUFFER_ADDR = None ->
  cap_frame k cap = Some f -> cap_mapping k cap = None -> ~ alloc_range a cap ->
  (missing k own_vs SECONDARY_THREAD_IPC_BUFFER_ADDR < n)%nat ->
  alloc_ok (missing k own_vs SECONDARY_THREAD_IPC_BUFFER_ADDR + m) (a, k) ->
  wp (map_ipc_buffer_loop n cap) (fun _ s' => exists k1,
    grows own_vs nowhere1 a s'.1 k k1 /\
    kdiff (only cap) (only2 own_vs SECONDARY_THREAD_IPC_BUFFER_ADDR) nowhere k1 s'.2 /\
    translate s'.2 own_vs SECONDARY_THREAD_IPC_BUFFER_ADDR = Some f /\
    cap_frame s'.2 cap = Some f /\ alloc_ok m s') (a, k).
Proof.
  set (va := SECONDARY_THREAD_IPC_BUFFER_ADDR).
  assert (page_aligned va) as Hal by reflexivity. assert (0 <= va < 2 ^ 48) as Hva by (unfold va, SECONDARY_THREAD_IPC_BUFFER_ADDR; lia).
  induction n as [|n IH]; intros a k Hv Hvs Ht Hf Hm Hc Hn HA; [lia|].
  cbn [map_ipc_buffer_loop]. fold va. wp_step. unfold in_kernel at 1. wp_step. simpl. apply wp_kcall.
  destruct (missing k own_vs va) as [|d] eqn:Hd.
  - destruct (frame_map_ok k cap SLOT_VSPACE va rights_all f own_vs)
      as (k' & -> & Ht' & _ & Hf' & _ & HSA & D); try done.
    apply wp_ret. exists k. split; [apply grows_refl|]. split_and!; try done.
    eapply alloc_ok_kdiff; [exact D|done| |done]. by intros c ->.
  - rewrite (frame_map_failed_lookup k cap SLOT_VSPACE va rights_all f own_vs); try done; [|lia].
    pose proof (ao_range _ _ HA) as [_ Hr]. simpl in Hr.
    assert (slots_start a < slots_end a) as Hlt by lia.
    wp_step. apply (wp_allocate (d + m)); [done|]. intros k1 HA1 HR _ _.
    pose proof (retyped_grows own_vs _ _ _ _ Hlt HR) as HG. pose proof HG as [_ D1].
    destruct HR as (Hpt & HS & _).
    destruct (pt_map_ok k1 (slots_start a) SLOT_VSPACE va own_vs d)
      as (k2 & E & Hm2 & HSA & _ & _ & _ & _ & D2); try done.
    { by rewrite (kd_vs _ _ _ _ _ D1). }
    { by rewrite HS. }
    wp_step. unfold in_kernel at 1. wp_step. simpl. eapply wp_kcall_unwrap; [exact E|].
    assert (grows own_vs nowhere1 a (bump a) k k2) as HG2.
    { split; [apply HG|]. eapply kdiff_trans; [exact D1|].
      eapply kdiff_weaken, D2; [|by intros ? ? []|by intros ? ? []].
      intros c ->. unfold alloc_range. lia. }
    pose proof HG2 as [_ D].
    eapply wp_mono; [apply IH; fold va|].
    + by rewrite (kd_vs _ _ _ _ _ D).
    + by intros ?%(alloc_range_bump 1).
    + by rewrite (kd_trans _ _ _ _ _ D) by by intros [_ []].
    + by rewrite (kd_frame _ _ _ _ _ D).
    + by rewrite (kd_mapping _ _ _ _ _ D).
    + by intros ?%(alloc_range_bump 1).
    + rewrite Hm2. lia.
    + rewrite Hm2. eapply alloc_ok_kdiff; [exact D2|done| |exact HA1]. intros c ->. simpl. lia.
    + intros [] s' (k3 & G3 & D3 & T3 & F3 & A3). exists k3. split; [by eapply grows_trans|]. done.
Qed.

(** The address of the boxed closure and the start of the TLS area. *)
Definition box_addr (h : Heap) : Z := (heap_alloc THREAD_FN_LAYOUT h).1.
Definition tls_addr (img : TlsImage) (h : Heap) : Z :=
  (heap_alloc (tls_footprint img) (heap_alloc THREAD_FN_LAYOUT h).2).1.

(** The program has a TLS segment, and the heap is mapped. *)
Record tls_ready (env : ThreadEnv) (img : TlsImage) (h : Heap) (k : kstate) : Prop := {
  tr_magic : te_magic_ok env = true;
  tr_image : exists phdr, List.find (fun p => p_type p =? PT_TLS) (te_phdrs env) = Some phdr /\
    tls_check (p_vaddr phdr) (p_filesz phdr) (p_memsz phdr) (p_align phdr) = Some img;
  tr_mapped : own_mapped k (tls_addr img h) (tls_footprint img).1;
  tr_pointer : is_u64 (tls_addr img h + tls_thread_pointer_offset img);
}.

(** The context of the new thread: entry point, stack, the boxed closure as the
    argument, and the thread pointer into its own TLS area. *)
Definition secondary_ctx (env : ThreadEnv) (img : TlsImage) (h : Heap) : UserContext :=
  MkCtx (te_entrypoint env) (te_stack_bottom env) {[0 := box_addr h]}
    (tls_addr img h + tls_thread_pointer_offset img).

Lemma wp_make_user_context `{TL : !TlsLaws} chk env img f ak h boxes :
  tls_ready env img h ak.2 ->
  wp (make_user_context chk env f) (fun ctx s' => ctx = secondary_ctx env img h /\
      exists k', (ts_ak s') = (ak.1, k') /\ ts_boxes s' = <[box_addr h := f]> boxes /\
        same_alloc ak.2 k' /\
        kdiff nowhere1 nowhere (own_range ak.2 (tls_addr img h) (tls_footprint img).1) ak.2 k' /\
        forall c, tcb_state k' c = tcb_state ak.2 c)
     (MkTS ak h boxes).
Proof.
  intros [T1 (phdr & T2 & T3) T4 T5]. destruct (tls_init_ok img _ _ T4) as (k' & E & HS & D & HT).
  unfold make_user_context, ThreadFn_into_arg, get_tls_image, TlsReservation_new, secondary_ctx, box_addr, tls_addr in *.
  wp_step. wp_step. destruct (heap_alloc THREAD_FN_LAYOUT h) as [arg h1] eqn:E1.
  exists arg, (MkTS ak h1 boxes). unfold malloc at 1. simpl. rewrite E1. split; [done|].
  simpl in *. wp_step. wp_step. wp_step. wp_step. wp_step. apply wp_assert; [done|].
  wp_step. rewrite T2. apply wp_unwrap. rewrite T3. apply wp_unwrap. wp_step. wp_step.
  destruct (heap_alloc (tls_footprint img) h1) as [start h2] eqn:E2.
  exists start, (MkTS ak h2 (<[arg := f]> boxes)). unfold malloc. simpl in *. rewrite E2. split; [done|].
  wp_step. unfold ts_kernel, ts_alloc, in_kernel. wp_step. wp_step. simpl.
  exists tt, k'. split; [exact E|]. wp_step. wp_step.
  apply (wp_lift _ (start + tls_thread_pointer_offset img)).
  { unfold TlsReservation_thread_pointer. by apply add_chk_small. }
  wp_step. split; [done|]. exists k'. by split_and!.
Qed.

(** The three objects of the new thread. *)
Record thread_objects (a : ObjectAllocator) (m : nat) (k k' : kstate) : Prop := {
  to_grows : grows own_vs nowhere1 a (bump_by 3 a) k k';
  to_alloc : alloc_ok m (bump_by 3 a, k');
  to_tcb : exists ctx, tcb_state k' (slots_start a + 1) = Some (ctx, false);
  to_cnode i : cslot_free k SLOT_CNODE i = true -> cslot_free k' SLOT_CNODE i = true;
  to_frame : exists f, cap_frame k' (slots_start a + 2) = Some f /\
    cap_mapping k' (slots_start a + 2) = None /\ forall o, fbyte k' f o = 0;
}.

Lemma keeps_cnode bp s x s' i : SLOT_CNODE <> 0 -> allocate_and_retype bp s = Ret (x, s') ->
  cslot_free s.2 SLOT_CNODE i = true -> cslot_free s'.2 SLOT_CNODE i = true.
Proof. intros Hc E Hs. exact (keepsA_allocate (FSlot SLOT_CNODE i) Hc bp s x s' Hs E). Qed.

(** The notification and the TCB. *)
Lemma two_objects_ok m a k : SLOT_CNODE <> 0 -> alloc_ok (2 + m) (a, k) ->
  exists k1 k2,
    allocate_and_retype BpNotification (a, k) = Ret (slots_start a, (bump a, k1)) /\
    allocate_and_retype BpTcb (bump a, k1) = Ret (slots_start a + 1, (bump_by 2 a, k2)) /\
    alloc_ok m (bump_by 2 a, k2) /\ kdiff (alloc_range a) nowhere nowhere k k2 /\
    (exists ctx, tcb_state k2 (slots_start a + 1) = Some (ctx, false)) /\
    forall i, cslot_free k SLOT_CNODE i = true -> cslot_free k2 SLOT_CNODE i = true.
Proof.
  intros Hcn HA. pose proof (ao_range _ _ HA) as [H0 Hr]. simpl in H0, Hr.
  assert (bump (bump a) = bump_by 2 a) as E2 by (unfold bump, bump_by; simpl; f_equal; lia).
  destruct (allocate_by (1 + m) BpNotification a k HA) as (k1 & R1 & A1 & T1 & _).
  destruct (allocate_by m BpTcb (bump a) k1 A1) as (k2 & R2 & A2 & T2 & B2).
  exists k1, k2. rewrite E2 in *. split_and!; try done.
  - eapply kdiff_trans; [eapply kdiff_weaken, T1; [|done|done]|eapply kdiff_weaken, T2; [|done|done]];
      intros c ->; unfold alloc_range; simpl; lia.
  - destruct B2 as (k2' & E & _ & HT). destruct (new_tcb _ _ _ _ _ E) as [ctx Hctx].
    rewrite slot_parts in Hctx. by exists ctx.
  - intros i Hi. apply (keeps_cnode _ _ _ _ _ Hcn R2), (keeps_cnode _ _ _ _ _ Hcn R1), Hi.
Qed.

Lemma thread_objects_ok m a k : SLOT_CNODE <> 0 -> alloc_ok (3 + m) (a, k) ->
  exists k1 k2 k3,
    allocate_and_retype BpNotification (a, k) = Ret (slots_start a, (bump a, k1)) /\
    allocate_and_retype BpTcb (bump a, k1) = Ret (slots_start a + 1, (bump_by 2 a, k2)) /\
    allocate_and_retype BpGranule (bump_by 2 a, k2) = Ret (slots_start a + 2, (bump_by 3 a, k3)) /\
    thread_objects a m k k3.
Proof.
  intros Hcn HA. pose proof (ao_range _ _ HA) as [H0 Hr]. simpl in H0, Hr.
  assert (bump (bump_by 2 a) = bump_by 3 a) as E3 by (unfold bump, bump_by; simpl; f_equal; lia).
  destruct (two_objects_ok (1 + m) a k Hcn HA) as (k1 & k2 & R1 & R2 & A2 & D2 & [ctx Htcb] & HC).
  destruct (allocate_by m BpGranule (bump_by 2 a) k2 A2) as (k3 & R3 & A3 & T3 & B3).
  pose proof (retyped_grows own_vs BpGranule (bump_by 2 a) k2 k3 ltac:(simpl; lia) T3) as G3.
  exists k1, k2, k3. rewrite E3 in *. split_and!; try done. split.
  - eapply grows_trans; [|exact G3]. split; [by exists 2%nat|].
    eapply kdiff_weaken, D2; [done|by intros ? ? []|by intros ? ? []].
  - done.
  - exists ctx. destruct B3 as (k3' & E' & _ & HT). eapply retype_tcb; [exact E'|by apply HT].
  - intros i Hi. by apply (keeps_cnode _ _ _ _ _ Hcn R3), HC.
  - destruct T3 as (f & Hf & Hm & _ & _ & Hz & _). by exists f.
Qed.

(** The heap when [make_user_context] runs: the closure has been boxed. *)
Definition heap_after (body : CPtr -> CPtr -> Closure) (s : TS) : Heap :=
  let a := (ts_ak s).1 in (heap_alloc (closure_layout (body (slots_start a) (slots_start a + 1))) (ts_heap s)).2.

(** What [test_threads] needs of the state. *)
Record secondary_pre (env : ThreadEnv) (img : TlsImage) (body : CPtr -> CPtr -> Closure)
    (m : nat) (s : TS) : Prop := {
  se_vs : cap_vs (ts_ak s).2 SLOT_VSPACE = Some own_vs;
  se_vs_slot : ~ alloc_range (ts_ak s).1 SLOT_VSPACE;
  se_free : translate (ts_ak s).2 own_vs SECONDARY_THREAD_IPC_BUFFER_ADDR = None;
  se_cnode : exists i, cslot_free (ts_ak s).2 SLOT_CNODE i = true;
  se_cnode_slot : SLOT_CNODE <> 0;
  se_tls : tls_ready env img (heap_after body s) (ts_ak s).2;
  se_alloc : alloc_ok (3 + (Z.to_nat NUM_LEVELS + m)) (ts_ak s);
}.

(** The new thread and what else has changed. *)
Record secondary_started (env : ThreadEnv) (img : TlsImage) (body : CPtr -> CPtr -> Closure)
    (m : nat) (s s' : TS) : Prop := {
  ss_thread : tcb_state (ts_ak s').2 (slots_start (ts_ak s).1 + 1)
                = Some (secondary_ctx env img (heap_after body s), true);
  ss_ipc : exists f, cap_frame (ts_ak s').2 (slots_start (ts_ak s).1 + 2) = Some f /\
    translate (ts_ak s').2 own_vs SECONDARY_THREAD_IPC_BUFFER_ADDR = Some f;
  ss_space vs va : ~ (vs = own_vs /\ va = SECONDARY_THREAD_IPC_BUFFER_ADDR) ->
    translate (ts_ak s').2 vs va = translate (ts_ak s).2 vs va;
  ss_bytes f o : ~ fresh_bytes (ts_ak s).1 (ts_ak s).2 f o ->
    ~ own_range (ts_ak s).2 (tls_addr img (heap_after body s)) (tls_footprint img).1 f o ->
    fbyte (ts_ak s').2 f o = fbyte (ts_ak s).2 f o;
  ss_boxes : exists p, ts_boxes s' = <[box_addr (heap_after body s) :=
    MkThreadFn p (body (slots_start (ts_ak s).1) (slots_start (ts_ak s).1 + 1))]> (ts_boxes s);
  ss_alloc : alloc_ok m (ts_ak s');
}.

(** The TLS area stays where it is while its pages do. *)
Lemma tls_ready_step env img h k k' :
  (forall va, translate k own_vs va <> None -> translate k' own_vs va = translate k own_vs va) ->
  tls_ready env img h k ->
  tls_ready env img h k' /\ forall f o,
    own_range k' (tls_addr img h) (tls_footprint img).1 f o -> own_range k (tls_addr img h) (tls_footprint img).1 f o.
Proof.
  intros HT [T1 T2 T3 T4].
  assert (forall x, tls_addr img h <= x < tls_addr img h + (tls_footprint img).1 ->
    translate k' own_vs (down 4096 x) = translate k own_vs (down 4096 x)) as HX.
  { intros x Hx. apply HT, T3, Hx. }
  split.
  - split; try done. intros x Hx. rewrite HX by done. by apply T3.
  - intros f o (x & Hx & Ht & ->). exists x. by rewrite <- HX.
Qed.

(** The IPC buffer of the new thread, with its TCB and the own CNode kept. *)
Lemma wp_secondary_ipc m a k k3 i : SLOT_CNODE <> 0 -> cslot_free k SLOT_CNODE i = true ->
  cap_vs k SLOT_VSPACE = Some own_vs -> ~ alloc_range a SLOT_VSPACE ->
  translate k own_vs SECONDARY_THREAD_IPC_BUFFER_ADDR = None -> 0 <= slots_start a ->
  thread_objects a (Z.to_nat NUM_LEVELS + m) k k3 ->
  wp (map_ipc_buffer_loop map_ipc_fuel (slots_start a + 2)) (fun _ s' =>
    kdiff (alloc_range a) (only2 own_vs SECONDARY_THREAD_IPC_BUFFER_ADDR) (fresh_bytes a k) k s'.2 /\
    alloc_ok m s' /\ cslot_free s'.2 SLOT_CNODE i = true /\
    (exists ctx, tcb_state s'.2 (slots_start a + 1) = Some (ctx, false)) /\
    exists f, cap_frame s'.2 (slots_start a + 2) = Some f /\
      translate s'.2 own_vs SECONDARY_THREAD_IPC_BUFFER_ADDR = Some f) (bump_by 3 a, k3).
Proof.
  intros Hcn Hc Hv Hvs Ht H0 [G HA [ctx Htcb] Hcn3 (f & Hf & Hm & _)]. pose proof G as [_ D].
  pose proof (levels_range k3 own_vs SECONDARY_THREAD_IPC_BUFFER_ADDR) as Hlev.
  assert (~ alloc_range (bump_by 3 a) (slots_start a + 2)) as Hr by (unfold alloc_range, bump_by; simpl; lia).
  assert (alloc_range a (slots_start a + 2)) as Hr2.
  { pose proof (ao_range _ _ HA) as [_ Hr2]. unfold alloc_range. simpl in Hr2. lia. }
  eapply wp_mono.
  - apply (wp_preserves (fun s => fact_holds (FTcb (slots_start a + 1) (ctx, false)) s.2));
      [apply (keepsA_map_ipc (FTcb (slots_start a + 1) (ctx, false))); simpl; lia|done|].
    apply (wp_preserves (fun s => fact_holds (FSlot SLOT_CNODE i) s.2));
      [by apply (keepsA_map_ipc (FSlot SLOT_CNODE i))|by apply Hcn3|].
    apply (wp_map_ipc m _ f); try done.
    + by rewrite (kd_vs _ _ _ _ _ D).
    + by intros ?%(alloc_range_bump 3).
    + by rewrite (kd_trans _ _ _ _ _ D) by by intros [_ []].
    + unfold map_ipc_fuel. lia.
    + eapply alloc_ok_le, HA. lia.
  - intros [] [a' k'] (((k4 & G4 & D4 & T4 & F4 & A4) & Hc') & Ht'). simpl in *. split_and!; try done; [|eauto|eauto].
    pose proof (grows_trans _ _ _ _ _ _ _ _ G G4) as [_ D'].
    eapply kdiff_trans.
    + eapply kdiff_weaken, D'; [done|by intros ? ? [_ []]|done].
    + eapply kdiff_weaken, D4; [by intros c ->|done|by intros ? ? []].
Qed.

(** From the configured TCB to the running thread. *)
Lemma secondary_launch_ok `{TL : !TlsLaws} chk env img f a k h boxes tcb ctx i va cap fr :
  tcb_state k tcb = Some (ctx, false) -> cslot_free k SLOT_CNODE i = true ->
  cap_vs k SLOT_VSPACE = Some own_vs -> cap_frame k cap = Some fr -> page_aligned va ->
  tls_ready env img h k ->
  exists k5 k6 k7 h3,
    tcb_configure tcb SLOT_NULL SLOT_CNODE (cnode_cap_data 0 0) SLOT_VSPACE va cap k = (Ok tt, k5) /\
    make_user_context chk env f (MkTS (a, k5) h boxes)
      = Ret (secondary_ctx env img h, MkTS (a, k6) h3 (<[box_addr h := f]> boxes)) /\
    tcb_write_all_registers tcb true (secondary_ctx env img h) k6 = (Ok tt, k7) /\
    kdiff nowhere1 nowhere (own_range k (tls_addr img h) (tls_footprint img).1) k k7 /\
    same_alloc k k7 /\ tcb_state k7 tcb = Some (secondary_ctx env img h, true).
Proof.
  intros Ht Hc Hv Hf Hal Htls.
  destruct (tcb_configure_ok k _ _ SLOT_NULL SLOT_CNODE i (cnode_cap_data 0 0) SLOT_VSPACE own_vs va cap fr Ht Hc Hv Hf Hal)
    as (k5 & R5 & (S5 & _ & D5) & T5).
  destruct (tls_ready_step env img h k k5) as [Htls5 Hown]; [|done|].
  { intros va' _. by rewrite (kd_trans _ _ _ _ _ D5) by by intros []. }
  destruct (wp_make_user_context chk env img f (a, k5) h boxes Htls5)
    as (c & [ak h3 b3] & R6 & -> & k6 & Eak & Eb & S6 & D6 & T6). simpl in Eak, Eb, S6, D6, T6. subst ak b3.
  rewrite <- T5, <- T6 in Ht.
  destruct (tcb_write_ok k6 _ _ _ true (secondary_ctx env img h) Ht) as (k7 & R7 & (S7 & _ & D7) & T7).
  exists k5, k6, k7, h3. split_and!; try done.
  - eapply kdiff_trans; [eapply kdiff_weaken, D5; by try intros ? ? []|].
    eapply kdiff_trans; [|eapply kdiff_weaken, D7; by try intros ? ? []].
    by eapply kdiff_weaken, D6.
  - eapply same_alloc_trans; [exact S5|]. by eapply same_alloc_trans.
Qed.

(** A boxed closure is what the entry point runs, once. *)
Lemma wp_thread_entrypoint s p f boxes : ts_boxes s = <[p := f]> boxes -> boxes !! p = None ->
  wp (thread_entrypoint p) (fun c s' => c = fn_closure f /\ ts_boxes s' = boxes) s.
Proof.
  intros E Hn. unfold thread_entrypoint, ThreadFn_from_arg. wp_step. eexists _, _. simpl.
  rewrite E, lookup_insert_eq. split; [done|]. wp_step. simpl. split; [done|]. by rewrite delete_insert_id.
Qed.
End laws.

(** [test_threads] of the root task starts its second thread: the IPC buffer is
    the page of the image behind the static buffer [ptr], whose frame the boot
    information names, and nothing is mapped. *)
Theorem root_thread_starts `{L : Sel4Laws} `{TH : !ThreadLaws} `{TC : !TlsCrate} `{TL : !TlsLaws}
    (bi : BootInfo) (image_start ptr : Z) (env : ThreadEnv) (img : TlsImage)
    (body : CPtr -> CPtr -> Closure) (m : nat) (s : TS) (f : Frame) :
  let a := (ts_ak s).1 in
  let k := (ts_ak s).2 in
  let slot := (bi_user_image_frames bi).1 + (ptr / 4096 - image_start / 4096) in
  let h := heap_after body s in
  0 <= image_start <= ptr -> is_u64 ptr -> page_aligned ptr -> slot < (bi_user_image_frames bi).2 ->
  cap_frame k slot = Some f -> ~ alloc_range a slot ->
  cap_vs k SLOT_VSPACE = Some own_vs -> ~ alloc_range a SLOT_VSPACE ->
  (exists i, cslot_free k SLOT_CNODE i = true) -> SLOT_CNODE <> 0 ->
  tls_ready env img h k -> alloc_ok (2 + m) (a, k) ->
  wp (root_start_secondary bi image_start ptr env body)
     (fun r s' => r = (slots_start a, slots_start a + 1) /\
        tcb_state (ts_ak s').2 (slots_start a + 1) = Some (secondary_ctx env img h, true) /\
        kdiff (alloc_range a) nowhere (own_range k (tls_addr img h) (tls_footprint img).1) k (ts_ak s').2 /\
        alloc_ok m (ts_ak s') /\
        exists p, ts_boxes s' = <[box_addr h := MkThreadFn p (body (slots_start a) (slots_start a + 1))]> (ts_boxes s)) s.
Proof.
  destruct s as [[a k] hp boxes]. cbn [ts_ak ts_heap ts_boxes fst snd].
  set (slot := _ + (ptr / 4096 - image_start / 4096)). set (h := heap_after body _).
  intros Hi Hp Hal Hslot Hf Hfr Hv Hvr [i Hc] Hcn Htls HA.
  destruct (two_objects_ok m a k Hcn HA) as (k1 & k2 & R1 & R2 & A2 & D2 & [ctx T2] & C2).
  destruct (heap_alloc (closure_layout (body (slots_start a) (slots_start a + 1))) hp) as [p h1] eqn:Eh.
  assert (h = h1) as Eh2 by (unfold h, heap_after; simpl; by rewrite Eh).
  destruct (tls_ready_step env img h k k2) as [Htls2 Hown]; [|done|].
  { intros va _. apply (kd_trans _ _ _ _ _ D2). by intros []. }
  destruct (secondary_launch_ok true env img (MkThreadFn p (body (slots_start a) (slots_start a + 1))) (bump_by 2 a) k2 h
    boxes (slots_start a + 1) ctx i ptr slot f T2 (C2 _ Hc)) as (k5 & k6 & k7 & h3 & R5 & R6 & R7 & D7 & S7 & T7); try done.
  { by rewrite (kd_vs _ _ _ _ _ D2). }
  { by rewrite (kd_frame _ _ _ _ _ D2). }
  assert (IpcBufferFrame_cap bi image_start ptr (bump_by 2 a, k2) = Ret (slot, (bump_by 2 a, k2))) as R3.
  { unfold IpcBufferFrame_cap, get_user_image_frame_slot. change GRANULE_SIZE with 4096.
    pose proof (Z.div_le_mono image_start ptr 4096). pose proof (Z.div_pos image_start 4096). pose proof (Z.div_le_upper_bound ptr 4096 ptr).
    rewrite sub_chk_small by (unfold is_u64 in *; lia). unfold mbind, M_bind. simpl.
    rewrite (proj2 (Z.ltb_lt _ _)) by lia. reflexivity. }
  eexists (_, _), _. split.
  { unfold root_start_secondary, allocate_and_retyped_fixed_sized.
    rewrite (bind_Ret _ _ _ _ _ (ts_alloc_Ret _ _ _ _ _ _ R1)), (bind_Ret _ _ _ _ _ (ts_alloc_Ret _ _ _ _ _ _ R2)),
      (bind_Ret _ _ _ _ _ (ts_alloc_Ret _ _ _ _ _ _ R3)), (bind_Ret _ _ _ _ _ (ts_kernel_Ret _ _ _ _ _ _ _ R5)).
    rewrite (bind_Ret _ _ _ (MkThreadFn p (body (slots_start a) (slots_start a + 1))) (MkTS (bump_by 2 a, k5) h boxes)),
      (bind_Ret _ _ _ _ _ R6), (bind_Ret _ _ _ _ _ (ts_kernel_Ret _ _ _ _ _ _ _ R7)); [done|].
    unfold ThreadFn_new, malloc, mbind, M_bind. simpl. by rewrite Eh, Eh2. }
  split_and!; try done; [|eapply alloc_ok_kdiff; [exact D7|done|by intros ? []|exact A2]|by exists p].
  eapply kdiff_trans; [eapply kdiff_weaken, D2; by try intros ? ? []|].
  eapply kdiff_weaken, D7; [by intros ? []|done|auto].
Qed.


(** ** Witness *)

(** A TLS crate that clears the reservation, a bump allocator, and closures
    that are the pair of their captured capabilities. *)
#[local] Instance ref_tls : @TlsCrate ref_sel4 := {|
  TlsImage := Z : Type;
  tls_check _ filesz memsz _ := if filesz <=? memsz then Some memsz else None;
  tls_footprint img := (img + 16, 16);
  tls_thread_pointer_offset _ := 0;
  initialize_tls_reservation img start := @store_bytes ref_sel4 start (replicate (Z.to_nat (img + 16)) 0);
  Heap := Z : Type;
  heap_alloc layout h := (up layout.2 h, up layout.2 h + layout.1);
  heap_dealloc _ _ h := h;
  Closure := Z * Z : Type;
  closure_layout _ := (16, 8);
|}.

Lemma ref_store_range bs : forall start (k : @kstate ref_sel4),
  @own_mapped ref_sel4 ref_view k start (Z.of_nat (length bs)) ->
  exists k', @store_bytes ref_sel4 start bs k = Ret (tt, k') /\ @same_alloc ref_sel4 ref_view k k' /\
    @kdiff ref_sel4 ref_view nowhere1 nowhere (@own_range ref_sel4 ref_view k start (Z.of_nat (length bs))) k k' /\
    forall c, r_tcb k' c = r_tcb k c.
Proof.
  induction bs as [|b bs IH]; intros start k Hm.
  { exists k. split; [done|]. split; [done|]. split; [apply kdiff_refl|done]. }
  cbn [length] in *. rewrite Nat2Z.inj_succ in *.
  pose proof (Hm start ltac:(lia)) as Hs. apply not_eq_None_Some in Hs as [f Hf].
  destruct (@store8_ok ref_sel4 ref_view ref_laws k start b f Hf) as (k1 & E & _ & S1 & D1).
  assert (forall vs va, @translate ref_sel4 ref_view k1 vs va = @translate ref_sel4 ref_view k vs va) as HT.
  { intros vs va. apply (kd_trans _ _ _ _ _ D1). by intros []. }
  destruct (IH (start + 1) k1) as (k2 & E2 & S2 & D2 & T2).
  { intros x Hx. rewrite HT. apply Hm. lia. }
  exists k2. split; [|split; [by eapply same_alloc_trans|split]].
  - cbn [store_bytes]. rewrite (bind_Ret _ _ _ tt k1); [done|]. unfold store. by rewrite E.
  - eapply kdiff_trans; [eapply kdiff_weaken, D1; [done|done|]|eapply kdiff_weaken, D2; [done|done|]].
    + intros g o [-> ->]. exists start. split; [lia|done].
    + intros g o (x & Hx & Ht & Ho). exists x. rewrite HT in Ht. split; [lia|done].
  - intros c. rewrite T2. exact (@store8_tcb ref_sel4 ref_view ref_threads _ _ _ _ c E).
Qed.

#[local] Instance ref_tls_laws : @TlsLaws ref_sel4 ref_view ref_threads ref_tls.
Proof.
  split. intros img start k Hm. cbn [tls_footprint ref_tls fst] in *.
  destruct (ref_store_range (replicate (Z.to_nat (img + 16)) 0) start k) as (k' & E & HS & D & HT);
    rewrite length_replicate in *.
  - intros x Hx. apply Hm. lia.
  - exists k'. split; [exact E|]. split; [done|]. split; [|exact HT].
    eapply kdiff_weaken, D; [done|done|]. intros f o (x & Hx & Hr). exists x. split; [lia|done].
Qed.

(** The page at 0x20000 of the own address space is the heap. *)
Definition ref_heap_kernel : rk :=
  let k := ref_user 40 in set_rtrans (<[(0, 0x20000) := 9]> (rk_trans k)) k.
Definition ref_ts : @TS ref_sel4 ref_tls :=
  @MkTS ref_sel4 ref_tls (MkAllocator 50 1024 26, ref_heap_kernel) 0x20004 ∅.
Definition ref_thread_env : ThreadEnv := MkThreadEnv 0x30000 0x201000 true [MkPhdr 1 0 0 0 0; MkPhdr 7 0x1000 8 24 8].

Lemma ref_heap_alloc_ok : @alloc_ok ref_sel4 ref_view 7 (MkAllocator 50 1024 26, ref_heap_kernel).
Proof.
  pose proof (ref_user_alloc_ok 20 50 1024 26 ltac:(lia) ltac:(lia)) as HA.
  apply (alloc_ok_le 7 20) in HA; [|lia]. destruct HA as [A1 A2 A3 A4 A5]. by split.
Qed.

