(* ===== verification/Runtime.v ===== *)
(** * Entry code and logging of the threads
      ([runtime.rs] and [logging.rs] of [kernel-thread], [runtime.rs] of
      [net-thread] and [blk-thread], the user programs)

    A thread finds its IPC buffer from the linker symbol [_end] alone; whoever
    loads the program computes the address from the ELF file.  The second half is
    the line format of the loggers. *)

From stdpp Require Import strings.
From Stdlib Require Import Ascii.
From S2P Require Import Prelude Words Consts Sel4 Externs Messages ObjAllocator KTask Exec ImageMap Syscalls.

(** ** The IPC buffer *)

(** [chk] is the overflow check of the build, [end_] the address of [_end]. *)
Definition get_ipc_buffer (chk : bool) (end_ : Z) : outcome Z :=
  next_multiple_of chk end_ GRANULE_SIZE.

(** How a thread's [main], which never returns, ends: a panic that unwinds is
    caught and the thread aborts with a message. *)
Inductive ended (A : Type) := Finished (a : A) | Aborted (message : string).
Arguments Finished {A} a.
Arguments Aborted {A} message.

Definition catch_unwind {A} (name : string) (o : outcome A) : outcome (ended A) :=
  match o with
  | Ret a => Ret (Finished a)
  | Panic _ => Ret (Aborted (name +:+ " main() panicked")%string)
  | Deadlock => Deadlock
  | NoFuel => NoFuel
  end.

(** [inner_entry]: [as_mut().unwrap()] refuses a null pointer, then [main] runs
    with the buffer set. *)
Definition inner_entry {A} (name : string) (chk : bool) (end_ : Z) (main : Z -> outcome A) : outcome (ended A) :=
  p ← get_ipc_buffer chk end_;
  if p =? 0 then Panic PUnwrap else catch_unwind name (main p).

Definition kernel_inner_entry {A} : bool -> Z -> (Z -> outcome A) -> outcome (ended A) :=
  inner_entry "[KernelThread]"%string.
Definition net_inner_entry {A} : bool -> Z -> (Z -> outcome A) -> outcome (ended A) :=
  inner_entry "[NetThread]"%string.
Definition blk_inner_entry {A} : bool -> Z -> (Z -> outcome A) -> outcome (ended A) :=
  inner_entry "[BlockThread]"%string.

(** [set_ipc_buffer_with_symbol] of the test program: the buffer it sets. *)
Definition set_ipc_buffer_with_symbol (chk : bool) (end_ : Z) : outcome Z :=
  p ← next_multiple_of chk end_ GRANULE_SIZE;
  if p =? 0 then Panic PUnwrap else Ret p.

(** No range of the file ends after [e], and one ends there. *)
Definition ends_at (ranges : list (Z * Z)) (e : Z) : Prop :=
  (forall r, r ∈ ranges -> 0 <= r.1 /\ 0 <= r.2 /\ r.1 + r.2 <= e) /\ exists r, r ∈ ranges /\ r.1 + r.2 = e.

Lemma fold_max_end rs : forall acc e, 0 <= acc <= e -> e < 2 ^ 64 ->
  (forall r, r ∈ rs -> 0 <= r.1 /\ 0 <= r.2 /\ r.1 + r.2 <= e) ->
  (acc = e \/ exists r, r ∈ rs /\ r.1 + r.2 = e) ->
  foldl (fun acc x => Z.max acc (wrap64 (x.1 + x.2))) acc rs = e.
Proof.
  induction rs as [|r rs IH]; intros acc e Ha He Hin Hex; simpl.
  - destruct Hex as [?|(r & Hr & _)]; [done|by apply not_elem_of_nil in Hr].
  - destruct (Hin r) as (H1 & H2 & H3); [by left|]. rewrite wrap64_small by (unfold is_u64; lia).
    apply IH; [lia|done|by intros r' Hr'; apply Hin; right|].
    destruct Hex as [->|(r' & [->|Hr']%elem_of_cons & E)]; [left; lia|left; lia|right; eauto].
Qed.

Lemma ipc_buffer_addr_of_end elf e :
  ends_at (elf_sections elf) e -> 0 <= e -> e + 4096 <= 2 ^ 64 -> ipc_buffer_addr_of elf = up 4096 e.
Proof.
  intros [Hin Hex] H0 He. unfold ipc_buffer_addr_of. cbv zeta.
  rewrite (fold_max_end _ 0 e) by (done || lia || by right).
  rewrite wrap64_small by (unfold is_u64; lia). unfold up. destruct (Z.eqb_spec (e mod 4096) 0); dlia.
Qed.

Lemma buffer_found chk end_ : 0 < end_ -> end_ + 4096 <= 2 ^ 64 ->
  next_multiple_of chk end_ GRANULE_SIZE = Ret (up 4096 end_) /\ (up 4096 end_ =? 0) = false.
Proof.
  intros H0 H1. pose proof (up_bounds 4096 end_ ltac:(lia)) as Hup.
  split; [apply next_multiple_of_ok; lia|apply Z.eqb_neq; lia].
Qed.

Lemma inner_entry_ok {A} name chk end_ (main : Z -> outcome A) : 0 < end_ -> end_ + 4096 <= 2 ^ 64 ->
  inner_entry name chk end_ main = catch_unwind name (main (up 4096 end_)).
Proof.
  intros H0 H1. destruct (buffer_found chk end_ H0 H1) as [En Hne].
  unfold inner_entry, get_ipc_buffer. rewrite En. cbn. by rewrite Hne.
Qed.

(** C24: a thread looks for its IPC buffer where its loader has put it.  Whenever
    the linker's [_end] is the end of the last segment and of the last section of
    the file, the address the entry code computes ([get_ipc_buffer],
    [set_ipc_buffer_with_symbol]) is the end of the footprint, where the root
    task's [make_child_vspace] maps the buffer of a server, and the address at
    which [test_child] and [sys_exec] map that of a user program, in either
    build. *)
Theorem ipc_buffer_agrees (chk chk' : bool) (segs : list Segment) (elf : ElfInfo) (end_ : Z)
    (Hsegs : Forall seg_wf segs) (Hpos : 0 < end_) (Hmax : end_ + 4096 <= 2 ^ 64)
    (Hload : ends_at ((fun s => (seg_addr s, seg_size s)) <$> segs) end_)
    (Hsect : ends_at (elf_sections elf) end_) :
  exists start stop, footprint chk segs = Ret (start, stop) /\ ipc_buffer_addr_of elf = stop /\
    set_ipc_buffer_with_symbol chk' end_ = Ret stop /\
    forall A (main : Z -> outcome A) name, inner_entry name chk' end_ main = catch_unwind name (main stop).
Proof.
  rewrite Forall_forall in Hsegs. destruct Hload as [Hin (r & (s & -> & Hs)%list_elem_of_fmap & Es)].
  destruct (footprint_eq chk segs) as (mn & mx & E & Hm & Hb & _ & s' & Hs' & Es'); [by intros -> ;apply not_elem_of_nil in Hs|done|].
  assert (mx = end_) as ->.
  { apply Z.le_antisymm.
    - rewrite <- Es'. apply (Hin (seg_addr s', seg_size s')). apply list_elem_of_fmap. by exists s'.
    - rewrite <- Es. by apply Hb. }
  exists (down 4096 mn), (up 4096 end_). split; [done|]. split; [apply ipc_buffer_addr_of_end; [done|lia|lia]|].
  destruct (buffer_found chk' end_ Hpos Hmax) as [En Hne].
  split; [unfold set_ipc_buffer_with_symbol; rewrite En; cbn; by rewrite Hne|].
  intros A main name. by apply inner_entry_ok.
Qed.

Lemma ipc_buffer_agrees_witness :
  exists start stop, footprint true [MkSegment 0x200000 0x1700 (Some []) (Some 5); MkSegment 0x202000 0x858 (Some []) (Some 6)]
      = Ret (start, stop) /\
    ipc_buffer_addr_of (MkElf 0x200000 [(0, 0x300); (0x200000, 0x1700); (0x202800, 0x58)] None) = stop /\
    set_ipc_buffer_with_symbol false 0x202858 = Ret stop.
Proof.
  destruct (ipc_buffer_agrees true false [MkSegment 0x200000 0x1700 (Some []) (Some 5); MkSegment 0x202000 0x858 (Some []) (Some 6)]
    (MkElf 0x200000 [(0, 0x300); (0x200000, 0x1700); (0x202800, 0x58)] None) 0x202858) as (a & b & E1 & E2 & E3 & _).
  - repeat constructor; vm_compute; intuition discriminate.
  - lia.
  - lia.
  - split; [|eexists; split; [right; left|reflexivity]].
    intros r Hr. simpl in Hr. rewrite !elem_of_cons, elem_of_nil in Hr. destruct Hr as [->|[->|[]]]; simpl; lia.
  - split; [|eexists; split; [do 2 right; left|reflexivity]].
    intros r Hr. simpl in Hr. rewrite !elem_of_cons, elem_of_nil in Hr. destruct Hr as [->|[->|[->|[]]]]; simpl; lia.
  - exists a, b. done.
Defined.

(** ** Logging *)

Module Log.
Local Open Scope string_scope.

(** [log::Level] with its order, and how it is shown. *)
Inductive Level := Error | Warn | Info | Debug | Trace.

#[global] Instance Level_eq_dec : EqDecision Level.
Proof. solve_decision. Defined.

Definition Level_name (l : Level) : string :=
  match l with Error => "ERROR" | Warn => "WARN" | Info => "INFO" | Debug => "DEBUG" | Trace => "TRACE" end.
Definition Level_rank (l : Level) : Z :=
  match l with Error => 1 | Warn => 2 | Info => 3 | Debug => 4 | Trace => 5 end.

(** The level filter of the kernel thread from the build's [LOG]; every level
    named here is also a filter. *)
Definition log_filter (env : option string) : Level :=
  match env with
  | Some s =>
      if String.eqb s "error" then Error
      else if String.eqb s "warn" then Warn
      else if String.eqb s "info" then Info
      else if String.eqb s "debug" then Debug
      else if String.eqb s "trace" then Trace
      else Debug
  | None => Debug
  end.

(** A [log::Record]; the message is already formatted. *)
Record LogRecord := MkRecord {
  r_level : Level;
  r_target : string;
  r_module_path : option string;
  r_args : string;
}.

Definition ESC : string := String (Ascii.ascii_of_nat 27) EmptyString.

Definition color_code (l : Level) : string :=
  match l with Error => "31" | Warn => "93" | Info => "34" | Debug => "32" | Trace => "90" end.

Definition shown_target (r : LogRecord) : string :=
  if String.eqb (r_target r) "" then default "" (r_module_path r) else r_target r.

Definition fmt_with_module (r : LogRecord) : string :=
  ESC +:+ "[" +:+ color_code (r_level r) +:+ "m[" +:+ Level_name (r_level r) +:+ "] [" +:+
    shown_target r +:+ "] " +:+ r_args r +:+ ESC +:+ "[0m".

(** What a reader of the console takes from a line. *)
Fixpoint strip (p s : string) : option string :=
  match p, s with
  | EmptyString, _ => Some s
  | String a p, String b s => if Ascii.eqb a b then strip p s else None
  | String _ _, EmptyString => None
  end.

(** The text before the first [stop], and the text after it. *)
Fixpoint cut (stop : Ascii.ascii) (s : string) : option (string * string) :=
  match s with
  | EmptyString => None
  | String c s =>
      if Ascii.eqb c stop then Some (EmptyString, s)
      else '(x, y) ← cut stop s; Some (String c x, y)
  end.

(** The text without the final [p]. *)
Fixpoint strip_end (p s : string) : option string :=
  if String.eqb s p then Some EmptyString
  else match s with EmptyString => None | String c s => String c <$> strip_end p s end.

Definition level_of_color (c : string) : option Level :=
  List.find (fun l => String.eqb (color_code l) c) [Error; Warn; Info; Debug; Trace].

Definition read_line (s : string) : option (Level * string * string) :=
  s ← strip (ESC +:+ "[") s;
  '(c, s) ← cut "m"%char s;
  l ← level_of_color c;
  s ← strip ("[" +:+ Level_name l +:+ "] [") s;
  '(t, s) ← cut "]"%char s;
  s ← strip " " s;
  a ← strip_end (ESC +:+ "[0m") s;
  Some (l, t, a).

Fixpoint occurs (c : Ascii.ascii) (s : string) : bool :=
  match s with EmptyString => false | String a s => Ascii.eqb a c || occurs c s end.

Lemma cut_app c x y : occurs c x = false -> cut c (x +:+ String c y) = Some (x, y).
Proof.
  induction x as [|a x IH]; simpl; [by rewrite Ascii.eqb_refl|].
  intros [Ha Hx]%orb_false_iff. rewrite Ha, IH by done. done.
Qed.

Lemma append_length (x y : string) : String.length (x +:+ y) = (String.length x + String.length y)%nat.
Proof. induction x as [|c x IH]; simpl; [done|by rewrite IH]. Qed.

Lemma eqb_longer c p s : String.eqb (String c (s +:+ p)) p = false.
Proof.
  apply String.eqb_neq. intros E. apply (f_equal String.length) in E. simpl in E.
  rewrite append_length in E. lia.
Qed.

Lemma strip_end_app p s : strip_end p (s +:+ p) = Some s.
Proof.
  induction s as [|c s IH].
  - simpl. destruct p; simpl; [done|]. by rewrite Ascii.eqb_refl, String.eqb_refl.
  - change (String c s +:+ p) with (String c (s +:+ p)). cbn [strip_end]. by rewrite eqb_longer, IH.
Qed.

Lemma strip_app p s : strip p (p +:+ s) = Some s.
Proof. induction p as [|c p IH]; simpl; [done|]. by rewrite Ascii.eqb_refl. Qed.

(** The line in the order in which it is read. *)
Lemma fmt_parts r : fmt_with_module r =
  (ESC +:+ "[") +:+ (color_code (r_level r) +:+ String "m" (("[" +:+ Level_name (r_level r) +:+ "] [") +:+
    (shown_target r +:+ String "]" (" " +:+ (r_args r +:+ (ESC +:+ "[0m")))))).
Proof. unfold fmt_with_module. by destruct (r_level r). Qed.

(** A log line can be read back: from the text [fmt_with_module] prints, the
    level, the shown target and the message are recovered, whatever the message
    contains, as long as the target has no closing bracket. *)
Theorem log_line_roundtrip (r : LogRecord) (Htarget : occurs "]"%char (shown_target r) = false) :
  read_line (fmt_with_module r) = Some (r_level r, shown_target r, r_args r).
Proof.
  unfold read_line. rewrite fmt_parts, strip_app. cbn [mbind option_bind].
  rewrite cut_app by (by destruct (r_level r)). cbn [mbind option_bind].
  replace (level_of_color (color_code (r_level r))) with (Some (r_level r)) by (by destruct (r_level r)).
  cbn [mbind option_bind]. rewrite strip_app. cbn [mbind option_bind].
  rewrite cut_app by done. cbn [mbind option_bind]. rewrite strip_app. cbn [mbind option_bind].
  by rewrite strip_end_app.
Qed.

Lemma log_line_roundtrip_witness :
  read_line (fmt_with_module (MkRecord Warn "" (Some "net::tcp") "half [open] m")) =
    Some (Warn, "net::tcp", "half [open] m").
Proof. apply (log_line_roundtrip (MkRecord Warn "" (Some "net::tcp") "half [open] m")). reflexivity. Defined.
End Log.
