(* ===== verification/NetMain.v ===== *)
(** * The net thread from its entry point ([net-thread/src/main.rs], [runtime.rs])

    [main] sets up the driver of the card, initialises the network stack and runs
    the test client; it must not return, and what comes after the client is
    [unreachable!()]. *)

From stdpp Require Import strings.
From S2P Require Import Prelude Words Externs Reference Uspace NetDev Smoltcp RefSmoltcp ListenTable TcpSocket NetTest NetInit Runtime.

(** [main]; the argument is what the set-up of the driver gives. *)
Definition net_thread_main `{SM : Smoltcp} `{IC : !IfaceConfig} `{AX : AxErrno} (fuel : nat)
    (virtio_net : option NetDevice) (s : Statics) : outcome Empty_set :=
  match virtio_net with
  | None => Panic PUnwrap
  | Some dev =>
      '(_, s1) ← init dev s;
      match net_of s1 with
      | None => Panic PUnwrap
      | Some n => '(_, _) ← test_client fuel n; Panic PExplicit
      end
  end.

Section laws.
Context `{SM : Smoltcp} `{SL : !SmoltcpLaws} `{AX : AxErrno} `{AL : !AxErrnoLaws}.

(** What the client takes for an answer is text. *)
Lemma test_client_text fuel n r n' : test_client fuel n = Ret (r, n') -> is_utf8 r = true.
Proof.
  intros E. unfold test_client in E. ibind E as x n1 E1. injection E as <- _. unfold on_new_socket in E1.
  destruct (TcpSocket_new n) as [[t n0]| | |]; try done.
  destruct (client_body fuel (t, n0)) as [[y s]| | |] eqn:E2; try done. injection E1 as <- _.
  unfold client_body in E2.
  ibind E2 as r1 s1 F1. ibind E2 as x1 s2 F2. ibind E2 as r2 s3 F3. ibind E2 as x2 s4 F4.
  ibind E2 as r3 s5 F5. ibind E2 as x3 s6 F6. ibind E2 as u s7 F7. ibind E2 as u2 s8 F8. injection E2 as <- _.
  cbn. by destruct (is_utf8 x3).
Qed.
End laws.


