(* ===== verification/Irq.v ===== *)
(** * Interrupt registration between the threads
      ([root-task/src/main.rs], [kernel-thread/src/irq_test.rs], [blk-thread/src/main.rs])

    The drivers get their interrupts from the root task over IPC while all
    threads run at the same time.  The file models the threads as programs of
    kernel calls, the kernel's endpoints, reply capabilities, capability transfer,
    notifications and interrupts as a transition system, and proves properties of
    every interleaving. *)

From S2P Require Import Prelude Words Consts Messages.

(** ** Threads *)

(** The endpoints the root task gives to its servers: the one for requests and
    faults ([DEFAULT_THREAD_FAULT_EP]) and the one for interrupt handlers
    ([DEFAULT_THREAD_IRQ_EP]). *)
Inductive endpoint := FaultEp | IrqEp.

(** A message: a request to the root task, an empty one, or one that carries the
    capability in a slot of the sender. *)
Inductive message := MRoot (m : RootMessageLabel) | MEmpty | MCap (slot : Z).

(** The kernel calls of the threads; those that are unwrapped panic on failure.
    [DmaCalls] is a driver's set-up, any number of requests for the address of a
    DMA page; [DevRead] and [DevAck] only concern the device. *)
Inductive act :=
  | Call (ep : endpoint) (m : message)
  | SetRecvSlot (slot : Z)
  | Recv (ep : endpoint)
  | Reply
  | IrqControlGet (irq : Z) (cnode slot : Z)
  | SetNotification (handler ntfn : Z)
  | Ack (handler : Z)
  | Wait (ntfn : Z)
  | Signal (ntfn : Z)
  | Start (i : Z)            (* [tcb_write_all_registers] with [resume] *)
  | DmaCalls
  | DevRead (block : Z)
  | DevAck
  | Suspend.

Inductive status :=
  | Ready | Sending (ep : endpoint) (m : message) | AwaitReply | Receiving (ep : endpoint) | Waiting (ntfn : Z)
  | Suspended | Panicked.

Record thread := MkThread {
  th_prog : list act;
  th_status : status;
  th_recv_slot : option Z;   (* set in the IPC buffer *)
  th_caller : option Z;      (* the thread the reply capability belongs to *)
}.

(** An interrupt with a handler: the notification it is bound to and whether it
    is masked. *)
Record irq_state := MkIrq { irq_bound : option Z; irq_masked : bool }.

(** The threads, the interrupt handlers by CNode and slot, the interrupts that
    have a handler, and the notifications that are signalled. *)
Record sys := MkSys {
  s_threads : gmap Z thread;
  s_handlers : gmap (Z * Z) Z;
  s_irqs : gmap Z irq_state;
  s_signalled : gset Z;
}.

#[global] Instance endpoint_eq_dec : EqDecision endpoint.
Proof. solve_decision. Defined.
#[global] Instance message_eq_dec : EqDecision message.
Proof. solve_decision. Defined.
#[global] Instance act_eq_dec : EqDecision act.
Proof. solve_decision. Defined.
#[global] Instance status_eq_dec : EqDecision status.
Proof. solve_decision. Defined.
#[global] Instance thread_eq_dec : EqDecision thread.
Proof. solve_decision. Defined.
#[global] Instance irq_state_eq_dec : EqDecision irq_state.
Proof. solve_decision. Defined.
#[global] Instance sys_eq_dec : EqDecision sys.
Proof. solve_decision. Defined.

(** ** The programs *)

(** The root task is thread 3; the servers have their index in [TASK_FILES], which
    is also their badge. *)
Definition KERNEL : Z := 0.
Definition BLOCK : Z := 1.
Definition NET : Z := 2.
Definition ROOT : Z := 3.

(** [common_irq_handler], a slot of the root task's own CNode, and the
    notifications of the kernel thread and the block thread. *)
Definition COMMON_IRQ_HANDLER : Z := 40.
Definition KERNEL_NTFN : Z := 0.
Definition BLOCK_NTFN : Z := 1.

(** One round of the root task's loop for a request of [badge]. *)
Definition root_acts (badge : Z) (m : RootMessageLabel) : list act :=
  match m with
  | RML_RegisterIRQ irq_handler irq_num => [IrqControlGet irq_num badge irq_handler; Reply]
  | RML_RegisterIRQWithCap irq_num =>
      [Reply; IrqControlGet irq_num ROOT COMMON_IRQ_HANDLER; Call IrqEp (MCap COMMON_IRQ_HANDLER)]
  | RML_TranslateAddr _ => [Reply]
  end.

Definition root_loop : list act := [Recv FaultEp].

(** What a thread does with a message: the root task dispatches on it and waits
    for the next one, the others just go on. *)
Definition on_message (i badge : Z) (m : message) (rest : list act) : list act :=
  match m with
  | MRoot m => if decide (i = ROOT) then root_acts badge m ++ root_loop else rest
  | _ => rest
  end.

Definition test_irq : list act :=
  [Call FaultEp (MRoot (RML_RegisterIRQ DEFAULT_EMPTY_SLOT_INDEX SERIAL_DEVICE_IRQ));
   SetNotification DEFAULT_EMPTY_SLOT_INDEX KERNEL_NTFN;
   Wait KERNEL_NTFN].

Definition test_irq_with_cap_transfer : list act :=
  [Call FaultEp (MRoot (RML_RegisterIRQWithCap SERIAL_DEVICE_IRQ));
   SetRecvSlot DEFAULT_THREAD_RECV_SLOT;
   Recv IrqEp;
   Reply;
   SetNotification DEFAULT_THREAD_RECV_SLOT KERNEL_NTFN;
   Ack DEFAULT_THREAD_RECV_SLOT;
   Wait KERNEL_NTFN].

(** The block thread after its driver is set up. *)
Definition blk_main : list act :=
  let irq_handler := DEFAULT_CUSTOM_SLOT + 1 in
  [DmaCalls;
   Call FaultEp (MRoot (RML_RegisterIRQ irq_handler VIRTIO_NET_IRQ));
   SetNotification irq_handler BLOCK_NTFN;
   Ack irq_handler] ++
  ([0; 1] ≫= fun block_id => [DevRead block_id; Wait BLOCK_NTFN; Ack irq_handler; DevAck]) ++
  [Suspend].

(** The net thread only sets up its driver. *)
Definition net_main : list act := [DmaCalls].

(** The thread test: a second thread of the same program signals the first one.
    The set-up of the thread ([tcb_configure] and its context) is left out. *)
Definition SECONDARY : Z := 4.
Definition test_threads : list act := [Start SECONDARY; Wait KERNEL_NTFN].
Definition secondary_thread : list act := [Signal KERNEL_NTFN; Suspend].

(** ** The kernel *)

Definition set_thread (i : Z) (t : thread) (s : sys) : sys :=
  MkSys (<[i := t]> (s_threads s)) (s_handlers s) (s_irqs s) (s_signalled s).
Definition with_prog (p : list act) (t : thread) : thread :=
  MkThread p (th_status t) (th_recv_slot t) (th_caller t).
Definition with_status (x : status) (t : thread) : thread :=
  MkThread (th_prog t) x (th_recv_slot t) (th_caller t).
Definition with_caller (x : option Z) (t : thread) : thread :=
  MkThread (th_prog t) (th_status t) (th_recv_slot t) x.
Definition set_irq (irq : Z) (x : irq_state) (s : sys) : sys :=
  MkSys (s_threads s) (s_handlers s) (<[irq := x]> (s_irqs s)) (s_signalled s).
Definition set_handler (cnode slot irq : Z) (s : sys) : sys :=
  MkSys (s_threads s) (<[(cnode, slot) := irq]> (s_handlers s)) (s_irqs s) (s_signalled s).

Definition fail (i : Z) (t : thread) (s : sys) : sys := set_thread i (with_status Panicked t) s.

(** A capability in a message goes to the receiver's slot if one is set and
    empty. *)
Definition transfer (sender receiver : Z) (r : thread) (m : message) (s : sys) : sys :=
  match m, th_recv_slot r with
  | MCap slot, Some dst =>
      match s_handlers s !! (sender, slot), s_handlers s !! (receiver, dst) with
      | Some irq, None => set_handler receiver dst irq s
      | _, _ => s
      end
  | _, _ => s
  end.

(** A call meets a receiver: the caller waits for the reply, the receiver goes on
    with the message. *)
Definition deliver (sender : Z) (st : thread) (receiver : Z) (r : thread) (m : message) (s : sys) : sys :=
  let s := transfer sender receiver r m s in
  let s := set_thread sender (with_status AwaitReply st) s in
  set_thread receiver (with_caller (Some sender)
    (with_status Ready (with_prog (on_message receiver sender m (th_prog r)) r))) s.

(** The threads whose status satisfies a condition. *)
Definition threads_with (f : status -> bool) (s : sys) : list (Z * thread) :=
  filter (fun it => f (th_status it.2) = true) (map_to_list (s_threads s)).

(** A signal wakes a waiting thread, or stays pending. *)
Definition signal (n : Z) (s : sys) : sys :=
  match threads_with (fun x => bool_decide (x = Waiting n)) s with
  | (i, t) :: _ => set_thread i (with_status Ready t) s
  | [] => MkSys (s_threads s) (s_handlers s) (s_irqs s) (s_signalled s ∪ {[n]})
  end.

(** The thread [i] makes the call [a]; [t] has it removed from its program.  There
    is more than one result where the kernel may choose. *)
Definition exec (i : Z) (t : thread) (a : act) (s : sys) : list sys :=
  match a with
  | Call ep m =>
      match threads_with (fun x => bool_decide (x = Receiving ep)) s with
      | [] => [set_thread i (with_status (Sending ep m) t) s]
      | rs => (fun r => deliver i t r.1 r.2 m s) <$> rs
      end
  | Recv ep =>
      let sends x := match x with Sending ep' _ => bool_decide (ep' = ep) | _ => false end in
      match threads_with sends s with
      | [] => [set_thread i (with_status (Receiving ep) t) s]
      | ss => (fun st => match th_status st.2 with
                         | Sending _ m => deliver st.1 st.2 i t m s
                         | _ => s
                         end) <$> ss
      end
  | Reply =>
      let s1 := set_thread i (with_caller None t) s in
      match th_caller t with
      | Some c =>
          match s_threads s !! c with
          | Some ct => if decide (th_status ct = AwaitReply) then [set_thread c (with_status Ready ct) s1] else [s1]
          | None => [s1]
          end
      | None => [s1]
      end
  | SetRecvSlot slot => [set_thread i (MkThread (th_prog t) (th_status t) (Some slot) (th_caller t)) s]
  | IrqControlGet irq cnode slot =>
      match s_irqs s !! irq, s_handlers s !! (cnode, slot) with
      | None, None => [set_irq irq (MkIrq None false) (set_handler cnode slot irq (set_thread i t s))]
      | _, _ => [fail i t s]
      end
  | SetNotification handler ntfn =>
      match s_handlers s !! (i, handler) with
      | Some irq =>
          match s_irqs s !! irq with
          | Some x => [set_irq irq (MkIrq (Some ntfn) (irq_masked x)) (set_thread i t s)]
          | None => [fail i t s]
          end
      | None => [fail i t s]
      end
  | Ack handler =>
      match s_handlers s !! (i, handler) with
      | Some irq =>
          match s_irqs s !! irq with
          | Some x => [set_irq irq (MkIrq (irq_bound x) false) (set_thread i t s)]
          | None => [fail i t s]
          end
      | None => [fail i t s]
      end
  | Wait ntfn =>
      if decide (ntfn ∈ s_signalled s)
      then [set_thread i t (MkSys (s_threads s) (s_handlers s) (s_irqs s) (s_signalled s ∖ {[ntfn]}))]
      else [set_thread i (with_status (Waiting ntfn) t) s]
  | Signal n => [signal n (set_thread i t s)]
  | Start j =>
      match s_threads s !! j with
      | Some t' => [set_thread j (with_status Ready t') (set_thread i t s)]
      | None => [fail i t s]
      end
  | DmaCalls =>
      [set_thread i t s;
       set_thread i (with_prog (Call FaultEp (MRoot (RML_TranslateAddr 0)) :: DmaCalls :: th_prog t) t) s]
  | DevRead _ | DevAck => [set_thread i t s]
  | Suspend => [set_thread i (with_status Suspended t) s]
  end.

Definition thread_steps (i : Z) (s : sys) : list sys :=
  match s_threads s !! i with
  | Some t =>
      match th_status t, th_prog t with
      | Ready, a :: prog => exec i (with_prog prog t) a s
      | _, _ => []
      end
  | None => []
  end.

(** An interrupt that has a handler and is not masked: it is masked, and signals
    its notification, which wakes a waiting thread. *)
Definition fire (irq : Z) (s : sys) : option sys :=
  match s_irqs s !! irq with
  | Some (MkIrq b false) =>
      let s1 := set_irq irq (MkIrq b true) s in
      Some (match b with None => s1 | Some n => signal n s1 end)
  | _ => None
  end.

(** A step of some thread, and a step of the system: a thread or an interrupt. *)
Inductive internal : sys -> sys -> Prop :=
  | internal_thread i s s' : s' ∈ thread_steps i s -> internal s s'.

Inductive step : sys -> sys -> Prop :=
  | step_internal s s' : internal s s' -> step s s'
  | step_irq irq s s' : fire irq s = Some s' -> step s s'.

(** All threads at their start. *)
Definition started (progs : list (Z * list act)) : sys :=
  MkSys (list_to_map ((fun ip => (ip.1, MkThread ip.2 Ready None None)) <$> progs)) ∅ ∅ ∅.

Definition booted : sys :=
  started [(ROOT, root_loop); (KERNEL, test_irq_with_cap_transfer); (BLOCK, blk_main); (NET, net_main)].

(** ** Exploring the states *)

Definition internal_succs (s : sys) : list sys := (map_to_list (s_threads s)).*1 ≫= fun i => thread_steps i s.
Definition succs (s : sys) : list sys :=
  internal_succs s ++ omap (fun irq => fire irq s) (map_to_list (s_irqs s)).*1.

Lemma internal_complete s s' : internal s s' <-> s' ∈ internal_succs s.
Proof.
  unfold internal_succs. rewrite list_elem_of_bind. split.
  - intros [i ? ? Hi]. exists i. split; [done|]. unfold thread_steps in Hi.
    destruct (s_threads _ !! i) as [t|] eqn:E; [|by apply not_elem_of_nil in Hi].
    apply list_elem_of_fmap. exists (i, t). split; [done|]. by apply elem_of_map_to_list.
  - intros (i & Hi & _). by econstructor.
Qed.

Lemma step_complete s s' : step s s' -> s' ∈ succs s.
Proof.
  unfold succs. rewrite elem_of_app. intros [? ? Hi|irq ? ? Hf]; [left; by apply internal_complete|right].
  apply list_elem_of_omap. exists irq. split; [|done]. unfold fire in Hf.
  destruct (s_irqs _ !! irq) as [x|] eqn:E; [|done].
  apply list_elem_of_fmap. exists (irq, x). split; [done|]. by apply elem_of_map_to_list.
Qed.

(** Sets of states, by a key that is different for most states. *)
Definition status_tag (x : status) : Z :=
  match x with
  | Ready => 0 | Sending _ _ => 1 | AwaitReply => 2 | Receiving _ => 3 | Waiting _ => 4 | Suspended => 5
  | Panicked => 6
  end.
Definition key (s : sys) : Z :=
  foldr (fun it acc => acc * 2 + (if irq_masked it.2 then 1 else 0))
    (foldr (fun it acc => (acc * 32 + Z.of_nat (length (th_prog it.2))) * 8 + status_tag (th_status it.2)) 0
       (map_to_list (s_threads s)))
    (map_to_list (s_irqs s)).

Definition stateset : Type := gmap Z (list sys).
Definition mem (s : sys) (R : stateset) : bool :=
  match R !! key s with Some l => bool_decide (s ∈ l) | None => false end.
Definition add (s : sys) (R : stateset) : stateset := <[key s := s :: default [] (R !! key s)]> R.
Definition for_all (f : sys -> bool) (R : stateset) : bool := forallb (fun kl => forallb f kl.2) (map_to_list R).

Fixpoint explore (fuel : nat) (R : stateset) (todo : list sys) : stateset :=
  match fuel, todo with
  | S fuel, s :: todo => if mem s R then explore fuel R todo else explore fuel (add s R) (succs s ++ todo)
  | _, _ => R
  end.

Lemma for_all_mem f R s : for_all f R = true -> mem s R = true -> f s = true.
Proof.
  unfold for_all, mem. rewrite forallb_forall. intros Hf. destruct (R !! key s) as [l|] eqn:E; [|done].
  intros Hl%bool_decide_eq_true. specialize (Hf (key s, l)).
  rewrite forallb_forall in Hf. apply Hf; [by apply list_elem_of_In, elem_of_map_to_list|by apply list_elem_of_In].
Qed.

(** A set that contains the start and is closed contains every reachable state. *)
Definition closed (R : stateset) : bool := for_all (fun s => forallb (fun s' => mem s' R) (succs s)) R.

Lemma reachable_mem R s0 s : mem s0 R = true -> closed R = true -> rtc step s0 s -> mem s R = true.
Proof.
  intros H0 HC HR. induction HR as [s|s1 s2 s3 Hs _ IH]; [done|]. apply IH.
  pose proof (for_all_mem _ _ _ HC H0) as Hf. rewrite forallb_forall in Hf.
  by apply Hf, list_elem_of_In, step_complete.
Qed.

(** A goal that some step of a thread comes nearer to, by a rank, is reached. *)
Definition nearer (goal : sys -> bool) (rank : sys -> nat) (R : stateset) : bool :=
  for_all (fun s => goal s || existsb (fun s' => mem s' R && (rank s' <? rank s)%nat) (internal_succs s)) R.

Lemma goal_reached goal rank R s :
  nearer goal rank R = true -> mem s R = true -> exists s', rtc internal s s' /\ goal s' = true.
Proof.
  intros HN. remember (rank s) as n eqn:En. revert s En. induction (lt_wf n) as [n _ IH]. intros s -> Hs.
  pose proof (for_all_mem _ _ _ HN Hs) as Hf. apply orb_true_iff in Hf as [Hg|Hf]; [by exists s|].
  apply existsb_exists in Hf as (s1 & Hin & [Hm Hlt%Nat.ltb_lt]%andb_true_iff).
  destruct (IH (rank s1) Hlt s1 eq_refl Hm) as (s' & Hr & Hg). exists s'. split; [|done].
  eapply rtc_l; [|exact Hr]. by apply internal_complete, list_elem_of_In.
Qed.

(** ** Properties *)

Definition no_panic (s : sys) : bool := forallb (fun it => bool_decide (th_status it.2 <> Panicked)) (map_to_list (s_threads s)).

(** A thread that waits for a notification is woken by the next interrupt: one
    that is bound to the notification and not masked. *)
Definition wakes (n : Z) (s : sys) : bool :=
  existsb (fun ix => bool_decide (ix.2 = MkIrq (Some n) false)) (map_to_list (s_irqs s)).
Definition waiters_wake (s : sys) : bool :=
  forallb (fun it => match th_status it.2 with Waiting n => wakes n s | _ => true end) (map_to_list (s_threads s)).

Definition bound_to (irq n : Z) (s : sys) : bool :=
  match s_irqs s !! irq with Some x => bool_decide (irq_bound x = Some n) | None => false end.
Definition registered (s : sys) : bool :=
  bound_to SERIAL_DEVICE_IRQ KERNEL_NTFN s && bound_to VIRTIO_NET_IRQ BLOCK_NTFN s.

(** How far the registrations are from their end: the calls of the two threads
    and of the root task that are left. *)
Definition act_rank (a : act) : nat :=
  match a with Call FaultEp _ => 60 | Call IrqEp _ => 20 | DmaCalls => 1 | Recv _ => 4 | _ => 2 end.
Definition status_rank (x : status) : nat :=
  match x with Sending FaultEp _ => 55 | Sending IrqEp _ => 18 | AwaitReply => 10 | Receiving _ => 3 | Waiting _ => 1 | _ => 0 end.
Definition thread_rank (t : thread) : nat :=
  status_rank (th_status t) + foldr (fun a n => act_rank a + n)%nat 0%nat (th_prog t).
Definition rank (s : sys) : nat :=
  foldr (fun it n => (if decide (it.1 = NET) then n else thread_rank it.2 + n)%nat) 0%nat (map_to_list (s_threads s)).

Definition boot_states : stateset := explore (300 * 200) ∅ [booted].

(** All the checks of a set of states. *)
Definition checked (R : stateset) : bool :=
  mem booted R && closed R && for_all no_panic R && for_all waiters_wake R && nearer registered rank R.

Lemma checked_spec R : checked R = true ->
  mem booted R = true /\ closed R = true /\ for_all no_panic R = true /\ for_all waiters_wake R = true /\
  nearer registered rank R = true.
Proof. unfold checked. rewrite !andb_true_iff. tauto. Qed.

Lemma boot_checked : checked boot_states = true.
Proof. vm_compute. reflexivity. Qed.
#[local] Opaque boot_states.

Lemma waiters_wake_spec s i t n :
  waiters_wake s = true -> s_threads s !! i = Some t -> th_status t = Waiting n ->
  exists irq, s_irqs s !! irq = Some (MkIrq (Some n) false).
Proof.
  unfold waiters_wake. rewrite forallb_forall. intros Hw Hi Hs.
  specialize (Hw (i, t) (proj1 (list_elem_of_In _ _) (proj2 (elem_of_map_to_list _ _ _) Hi))). simpl in Hw.
  rewrite Hs in Hw. apply existsb_exists in Hw as ([irq x] & Hin & Hx%bool_decide_eq_true).
  exists irq. simpl in Hx. subst x. by apply elem_of_map_to_list, list_elem_of_In.
Qed.

Lemma no_panic_spec s i t : no_panic s = true -> s_threads s !! i = Some t -> th_status t <> Panicked.
Proof.
  unfold no_panic. rewrite forallb_forall. intros Hn Hi.
  specialize (Hn (i, t) (proj1 (list_elem_of_In _ _) (proj2 (elem_of_map_to_list _ _ _) Hi))).
  by apply bool_decide_eq_true in Hn.
Qed.

Lemma bound_to_spec irq n s : bound_to irq n s = true -> exists x, s_irqs s !! irq = Some x /\ irq_bound x = Some n.
Proof.
  unfold bound_to. destruct (s_irqs s !! irq) as [x|]; [|done]. intros H%bool_decide_eq_true. by exists x.
Qed.


(** A schedule: threads, and interrupts that arrive; the kernel's first choice is
    taken. *)
Inductive event := ThreadRuns (i : Z) | IrqArrives (irq : Z).

Definition play1 (e : event) (s : sys) : option sys :=
  match e with ThreadRuns i => head (thread_steps i s) | IrqArrives irq => fire irq s end.
Fixpoint play (es : list event) (s : sys) : option sys :=
  match es with [] => Some s | e :: es => s' ← play1 e s; play es s' end.

Lemma play_reachable es : forall s s', play es s = Some s' -> rtc step s s'.
Proof.
  induction es as [|e es IH]; simpl; intros s s'; [by intros [= ->]|].
  destruct (play1 e s) as [s1|] eqn:E; [|done]. simpl. intros Hp. eapply rtc_l; [|by apply IH].
  destruct e as [i|irq]; simpl in E; [|by eapply step_irq].
  apply step_internal. exists i. destruct (thread_steps i s); [done|]. injection E as ->. left.
Qed.


(** [test_irq], which the kernel thread has besides, does not acknowledge the
    interrupt before it waits: one that arrives before the notification is set is
    lost and stays masked, and nothing ever happens again. *)
Lemma test_irq_can_hang :
  exists s t, rtc step (started [(ROOT, root_loop); (KERNEL, test_irq)]) s /\
    s_threads s !! KERNEL = Some t /\ th_status t = Waiting KERNEL_NTFN /\ forall s', ~ step s s'.
Proof.
  destruct (play [ThreadRuns ROOT; ThreadRuns KERNEL; ThreadRuns ROOT; IrqArrives SERIAL_DEVICE_IRQ;
    ThreadRuns ROOT; ThreadRuns KERNEL; ThreadRuns KERNEL; ThreadRuns ROOT]
    (started [(ROOT, root_loop); (KERNEL, test_irq)])) as [s|] eqn:E; [|discriminate E].
  pose proof (play_reachable _ _ _ E) as Hr. vm_compute in E. injection E as <-.
  eexists _, _. split; [exact Hr|]. split; [reflexivity|]. split; [reflexivity|].
  intros s' Hs%step_complete. vm_compute in Hs. by apply not_elem_of_nil in Hs.
Qed.

(** ** The thread test *)

Definition thread_test : sys :=
  MkSys {[KERNEL := MkThread test_threads Ready None None;
          SECONDARY := MkThread secondary_thread Suspended None None]} ∅ ∅ ∅.

(** Both threads are through. *)
Definition test_passed (s : sys) : bool :=
  bool_decide (s_threads s !! KERNEL = Some (MkThread [] Ready None None)) &&
  bool_decide (s_threads s !! SECONDARY = Some (MkThread [] Suspended None None)).

(** The first thread gets its notification whichever thread runs first. *)
Lemma thread_test_passes s : rtc step thread_test s -> exists s', rtc internal s s' /\ test_passed s' = true.
Proof.
  set (R := explore 100 ∅ [thread_test]). intros Hr.
  apply (goal_reached test_passed rank R); [vm_compute; reflexivity|].
  apply (reachable_mem R thread_test); [vm_compute; reflexivity..|exact Hr].
Qed.
