(* ===== verification/Dma.v ===== *)
(** * The drivers' DMA allocators and the root task that serves them
      ([crates/blk-thread/src/virtio.rs], [crates/net-thread/src/virtio_impl.rs])

    A driver's HAL hands out the pages of its DMA area in order and asks the
    root task for their physical addresses.  The HAL is written against any
    [call]; [root_call] connects it to the root task's service loop. *)

From S2P Require Import Prelude Words Consts Sel4 Sel4Laws RefKernel Reference Messages ObjAllocator KTask TaskHelper RootTask.

(** The next free address, and the caller's IPC buffer with the rest of the
    system. *)
Definition HalS (W : Type) : Type := Z * (IpcBuffer * W).

(** [static DMA_ADDR] of the two drivers. *)
Definition BLK_DMA_ADDR : Z := DMA_ADDR_START.
Definition NET_DMA_ADDR : Z := DMA_ADDR_START + PAGE_SIZE.

Section hal.
Context `{MI : MessageInfoApi} {W : Type}.
(** [Endpoint::call] *)
Variable call : CPtr -> MessageInfo -> M (IpcBuffer * W) MessageInfo.

Definition hal_ipc {A} (m : M IpcBuffer A) : M (HalS W) A :=
  zoom (fun s => s.2.1) (fun b s => (s.1, (b, s.2.2))) m.

(** [ep.call(RootMessageLabel::TranslateAddr(vaddr).build())], decoded. *)
Definition translate_addr (vaddr : Z) : M (HalS W) Z :=
  message ← hal_ipc (RootMessageLabel_build (RML_TranslateAddr vaddr));
  reply ← zoom snd (fun w s => (s.1, w)) (call DEFAULT_THREAD_FAULT_EP message);
  b ← gets (fun s => s.2.1);
  root_message ← lift (RootMessageLabel_try_from reply (msg_regs b));
  match root_message with
  | Some (RML_TranslateAddr paddr) => mret paddr
  | _ => panic_with PExplicit
  end.

Definition dma_alloc (pages : Z) : M (HalS W) (Z * Z) :=
  vaddr ← gets fst;
  modify (fun s => (wrap64 (vaddr + pages * PAGE_SIZE), s.2)) ;;
  paddr ← translate_addr vaddr;
  ptr ← unwrap (if vaddr =? 0 then None else Some vaddr);
  mret (paddr, ptr).

Definition share (buffer : Z) : M (HalS W) Z := translate_addr buffer.

(** Only the net driver's HAL gives pages back. *)
Definition dma_dealloc (vaddr pages : Z) : M (HalS W) Z :=
  pre_addr ← gets fst;
  assert (wrap64 (vaddr + pages * 0x1000) =? pre_addr) ;;
  modify (fun s => (vaddr, s.2)) ;;
  mret 0.

(** The operations the virtio drivers call. *)
Record Hal := MkHal {
  hal_dma_alloc : Z -> M (HalS W) (Z * Z);
  hal_dma_dealloc : Z -> Z -> M (HalS W) Z;
  hal_mmio_phys_to_virt : Z -> Z -> M (HalS W) Z;
  hal_share : Z -> M (HalS W) Z;
  hal_unshare : Z -> Z -> M (HalS W) unit;
}.

Definition HalImpl : Hal :=
  MkHal dma_alloc (fun _ _ => panic_with PTodo) (fun _ _ => panic_with PTodo) share (fun _ _ => mret tt).
Definition VirtIoHalImpl : Hal :=
  MkHal dma_alloc dma_dealloc (fun _ _ => panic_with PTodo) share (fun _ _ => mret tt).

(** A driver's requests for DMA memory, in order. *)
Fixpoint dma_allocs (ns : list Z) : M (HalS W) (list (Z * Z)) :=
  match ns with
  | [] => mret []
  | n :: ns => r ← dma_alloc n; rs ← dma_allocs ns; mret (r :: rs)
  end.
End hal.

(** ** The connection to the root task *)

Section connection.
Context `{K : Sel4} `{MI : MessageInfoApi}.

Section call.
Variable ep_call : CPtr -> MessageInfo -> IpcBuffer -> kstate -> IpcBuffer * kstate.
Variables irq_ep common_irq_handler : CPtr.

(** [call] by the task with this badge while the root task waits in [recv]: one
    iteration of its loop.  Without a reply the caller stays blocked. *)
Definition root_call (badge : Z) (_ : CPtr) (mi : MessageInfo) : M (IpcBuffer * RS) MessageInfo :=
  fun '(b, s) =>
  match root_serve ep_call irq_ep common_irq_handler mi badge
          (s.1.1, transfer mi (msg_regs b) s.1.2, s.2) with
  | Ret (_, s') =>
      match drop (length s.2) s'.2 with
      | (mi', regs) :: _ => Ret (mi', (transfer mi' regs b, s'))
      | [] => Deadlock
      end
  | Panic p => Panic p | Deadlock => Deadlock | NoFuel => NoFuel
  end.
End call.
End connection.

(** The physical address of a frame, as the kernel reports it. *)
Class FrameAddress `{Sel4View} := {
  frame_paddr : Frame -> Z;
  frame_get_address_ok k c f :
    cap_frame k c = Some f -> frame_get_address c k = (Ok (frame_paddr f), k);
  frame_paddr_range f : 0 <= frame_paddr f /\ frame_paddr f + 4096 <= 2 ^ 64;
}.

(** ** The translation service *)

Section service.
Context `{L : Sel4Laws} `{FA : !FrameAddress} `{MI : MessageInfoApi} `{ML : !MessageInfoLaws}.
Variable ep_call : CPtr -> MessageInfo -> IpcBuffer -> kstate -> IpcBuffer * kstate.
Variables irq_ep common_irq_handler : CPtr.

(** The tag of a translation request and of its reply. *)
Definition translate_tag : MessageInfo := mi_new 0x201 0 0 1.

Lemma translate_tag_fits : mi_fits 0x201 0 0 1.
Proof. unfold mi_fits. lia. Qed.

Lemma build_translate x b :
  ipc_wf b ->
  RootMessageLabel_build (RML_TranslateAddr x) b =
    Ret (translate_tag, set_msg_regs (<[0%nat := wrap64 x]> (msg_regs b)) b).
Proof.
  intros Hb. unfold RootMessageLabel_build.
  destruct (write_reg_Ret 0 (wrap64 x) b Hb) as [E _]; [unfold MSG_MAX_LENGTH; lia|].
  change (Z.of_nat 0) with 0 in E. unfold mbind, M_bind. by rewrite E.
Qed.

Lemma try_from_translate regs x :
  regs !! 0%nat = Some x ->
  RootMessageLabel_try_from translate_tag regs = Ret (Some (RML_TranslateAddr (wrap64 x))).
Proof.
  intros Hx. unfold RootMessageLabel_try_from, translate_tag.
  rewrite mi_label_new by apply translate_tag_fits. decide_label.
  by rewrite (index_lookup regs 0 x).
Qed.

(** The registers a one-word message leaves at the receiver. *)
Lemma transfer_head src b x :
  ipc_wf b -> src !! 0%nat = Some x ->
  transfer translate_tag src b = set_msg_regs (<[0%nat := x]> (msg_regs b)) b.
Proof.
  intros [Hb _] Hx. unfold transfer, translate_tag. rewrite mi_length_new by apply translate_tag_fits.
  destruct src as [|y src], (msg_regs b); try done. by injection Hx as ->.
Qed.

Lemma root_serve_translate ts i t a k b reps addr c f :
  ipc_wf b -> msg_regs b !! 0%nat = Some addr -> is_u64 addr -> ts !! i = Some t ->
  h_mapped_page t !! down 4096 addr = Some c -> cap_frame k c = Some f ->
  let regs := <[0%nat := frame_paddr f + addr mod 4096]> (msg_regs b) in
  root_serve ep_call irq_ep common_irq_handler translate_tag (Z.of_nat i) (ts, (a, k), b, reps) =
    Ret (tt, (ts, (a, k), set_msg_regs regs b, reps ++ [(translate_tag, regs)])).
Proof.
  intros Hb Hr Hu Ht Hc Hf. unfold root_serve, mbind, M_bind, gets, lift. cbn [fst snd].
  rewrite (try_from_translate _ _ Hr), (wrap64_small _ Hu).
  unfold s_root, zoom, task_at. cbn [fst snd]. rewrite (index_Ret ts i t Ht). cbn [fst snd].
  change (Z.lnot 0xfff) with (Z.lnot (Z.ones 12)). rewrite land_lnot_ones by lia. change (2 ^ 12) with 4096. rewrite Hc.
  unfold unwrap, mret, M_ret, r_kernel, r_alloc, in_kernel, zoom. cbn [fst snd].
  rewrite (kcall_unwrap_Ret _ _ _ _ (frame_get_address_ok k c f Hf)).
  pose proof (frame_paddr_range f). assert (is_u64 (frame_paddr f + addr mod 4096)) as Hp by (unfold is_u64; dlia).
  change (addr mod 0x1000) with (addr mod 4096). rewrite add_chk_small by done.
  unfold s_ipc, zoom. cbn [fst snd]. rewrite build_translate by done. by rewrite (wrap64_small _ Hp).
Qed.

(** A request for an address of a mapped page is answered with the physical
    address of that byte; only the buffers change. *)
Lemma translate_addr_ok ts i t a k rb reps b d addr c f :
  ipc_wf b -> ipc_wf rb -> is_u64 addr -> ts !! i = Some t ->
  h_mapped_page t !! down 4096 addr = Some c -> cap_frame k c = Some f ->
  exists b' rb' reps',
    ipc_wf b' /\ ipc_wf rb' /\ length reps' = S (length reps) /\
    translate_addr (root_call ep_call irq_ep common_irq_handler (Z.of_nat i)) addr
      (d, (b, (ts, (a, k), rb, reps))) =
    Ret (frame_paddr f + addr mod 4096, (d, (b', (ts, (a, k), rb', reps')))).
Proof.
  intros Hb Hrb Hu Ht Hc Hf. unfold translate_addr, mbind, M_bind, hal_ipc, zoom, gets, lift.
  cbn [fst snd]. rewrite build_translate, (wrap64_small _ Hu) by done. unfold root_call. cbn [fst snd].
  pose proof Hb as [Hl _]. pose proof Hrb as [Hrl _].
  pose proof (frame_paddr_range f). assert (is_u64 (frame_paddr f + addr mod 4096)) as Hp by (unfold is_u64; dlia).
  set (p := frame_paddr f + addr mod 4096) in *.
  assert (forall x l, length l = MSG_MAX_LENGTH -> <[0%nat := x]> l !! 0%nat = Some x) as Hi
    by (intros x l Hx; apply regs_insert_eq; [done|lia]).
  assert (forall x b0, ipc_wf b0 -> ipc_wf (set_msg_regs (<[0%nat := x]> (msg_regs b0)) b0)) as Hwf
    by (intros x b0 [? ?]; split; simpl; [by rewrite length_insert|done]).
  rewrite (transfer_head _ rb addr) by (cbn [msg_regs set_msg_regs]; auto).
  rewrite (root_serve_translate ts i t a k _ reps addr c f) by (simpl; eauto).
  cbn [fst snd]. rewrite drop_app_length. cbn [msg_regs set_msg_regs].
  rewrite list_insert_insert_eq, (transfer_head _ _ p) by (rewrite ?list_insert_insert_eq; auto).
  rewrite (try_from_translate _ p) by (cbn [msg_regs set_msg_regs]; apply Hi; by rewrite length_insert).
  cbn [msg_regs set_msg_regs]. rewrite (wrap64_small p Hp).
  eexists _, _, _. split; [|split; [|split; [|reflexivity]]].
  - destruct Hb as [_ Hbc]. split; simpl; [by rewrite ?length_insert|done].
  - destruct Hrb as [_ Hrc]. split; simpl; [by rewrite ?length_insert|done].
  - rewrite length_app. simpl. lia.
Qed.

(** The root task panics on an address its record of the caller does not have. *)
Lemma translate_addr_unmapped ts i t a k rb reps b d addr :
  ipc_wf b -> ipc_wf rb -> is_u64 addr -> ts !! i = Some t ->
  h_mapped_page t !! down 4096 addr = None ->
  translate_addr (root_call ep_call irq_ep common_irq_handler (Z.of_nat i)) addr
    (d, (b, (ts, (a, k), rb, reps))) = Panic PUnwrap.
Proof.
  intros Hb Hrb Hu Ht Hc. unfold translate_addr, mbind, M_bind, hal_ipc, zoom, gets, lift.
  cbn [fst snd]. rewrite build_translate, (wrap64_small _ Hu) by done. unfold root_call. cbn [fst snd].
  pose proof Hb as [Hl _]. pose proof Hrb as [Hrl _].
  rewrite (transfer_head _ rb addr) by (cbn [msg_regs set_msg_regs]; auto using regs_insert_eq with lia).
  unfold root_serve, mbind, M_bind, gets, lift. cbn [fst snd].
  rewrite (try_from_translate _ addr), (wrap64_small _ Hu)
    by (cbn [msg_regs set_msg_regs]; apply regs_insert_eq; [done|lia]).
  unfold s_root, zoom, task_at. cbn [fst snd]. rewrite (index_Ret ts i t Ht). cbn [fst snd].
  change (Z.lnot 0xfff) with (Z.lnot (Z.ones 12)). rewrite land_lnot_ones by lia.
  change (2 ^ 12) with 4096. by rewrite Hc.
Qed.

(** *** Sequences of allocations *)

(** The memory handed out for [ns] from [va] on: consecutive mapped regions, each
    with the physical address of its first page. *)
Fixpoint dma_regions (vs : VS) (k : kstate) (va : Z) (ns : list Z) (out : list (Z * Z)) : Prop :=
  match ns, out with
  | [], [] => True
  | n :: ns, (paddr, vaddr) :: out =>
      vaddr = va /\
      (exists f, translate k vs va = Some f /\ paddr = frame_paddr f) /\
      (forall j, 0 <= j < n -> translate k vs (va + j * PAGE_SIZE) <> None) /\
      dma_regions vs k (va + n * PAGE_SIZE) ns out
  | _, _ => False
  end.

Definition sumZ (ns : list Z) : Z := foldr Z.add 0 ns.

(** The next [n] pages from [d] on are mapped in the task. *)
Definition dma_left (t : Sel4TaskHelper) (d n : Z) : Prop :=
  page_aligned d /\ 0 < d /\ is_u64 (d + n * PAGE_SIZE) /\
  forall j, 0 <= j < n -> h_mapped_page t !! (d + j * PAGE_SIZE) <> None.

Lemma dma_left_advance t d n m :
  0 <= n -> 0 <= m -> dma_left t d (n + m) -> dma_left t (d + n * PAGE_SIZE) m.
Proof.
  unfold dma_left, page_aligned, is_u64. change PAGE_SIZE with 4096.
  intros Hn Hm (Ha & Hd & Hu & Hp). split_and!; [dlia|lia..|].
  intros j Hj. replace (d + n * 4096 + j * 4096) with (d + (n + j) * 4096) by lia. apply Hp. lia.
Qed.

Definition driver_call (i : nat) : CPtr -> MessageInfo -> M (IpcBuffer * RS) MessageInfo :=
  root_call ep_call irq_ep common_irq_handler (Z.of_nat i).

Lemma dma_alloc_ok vs ts i t a k rb reps b d n m :
  ipc_wf b -> ipc_wf rb -> ts !! i = Some t -> helper_ok vs (t, (a, k)) ->
  1 <= n -> 0 <= m -> dma_left t d (n + m) ->
  exists f b' rb' reps',
    ipc_wf b' /\ ipc_wf rb' /\ translate k vs d = Some f /\
    dma_alloc (driver_call i) n (d, (b, (ts, (a, k), rb, reps))) =
      Ret ((frame_paddr f, d),
           (d + n * PAGE_SIZE, (b', (ts, (a, k), rb', reps')))).
Proof.
  intros Hb Hrb Ht Hok Hn Hm (Ha & Hd & Hu & Hp).
  change PAGE_SIZE with 4096 in *. unfold is_u64 in Hu.
  assert (down 4096 d = d) as Hdown by (unfold down, page_aligned in *; lia).
  destruct (h_mapped_page t !! d) as [c|] eqn:Hc;
    [|by destruct (Hp 0); [lia|rewrite Z.mul_0_l, Z.add_0_r]].
  destruct (to_page _ _ _ _ Hok d c Hc) as (_ & _ & _ & _ & f & Hf & Htr).
  destruct (translate_addr_ok ts i t a k rb reps b (d + n * 4096) d c f)
    as (b' & rb' & reps' & Hb' & Hrb' & _ & E); try done; [unfold is_u64; lia|by rewrite Hdown|].
  exists f, b', rb', reps'. split_and!; try done.
  unfold dma_alloc, mbind, M_bind, gets, modify. cbn [fst snd]. change PAGE_SIZE with 4096.
  rewrite (wrap64_small (d + n * 4096)) by (unfold is_u64; lia).
  unfold driver_call.
  match goal with |- context [translate_addr ?c ?x ?s] =>
    rewrite (E : translate_addr c x s = _) end.
  rewrite (proj2 (Z.eqb_neq d 0)) by lia.
  unfold page_aligned in Ha. by rewrite Ha, Z.add_0_r.
Qed.

Lemma dma_allocs_ok vs ts i t a k ns : forall rb reps b d,
  ipc_wf b -> ipc_wf rb -> ts !! i = Some t -> helper_ok vs (t, (a, k)) ->
  Forall (fun n => 1 <= n) ns -> dma_left t d (sumZ ns) ->
  exists out b' rb' reps',
    dma_allocs (driver_call i) ns (d, (b, (ts, (a, k), rb, reps))) =
      Ret (out, (d + sumZ ns * PAGE_SIZE, (b', (ts, (a, k), rb', reps')))) /\
    dma_regions vs k d ns out.
Proof.
  induction ns as [|n ns IH]; intros rb reps b d Hb Hrb Ht Hok Hns Hl; simpl.
  - exists [], b, rb, reps. split; [|done]. unfold mret, M_ret. by rewrite Z.mul_0_l, Z.add_0_r.
  - apply Forall_cons in Hns as [Hn Hns].
    assert (0 <= sumZ ns) as Hs by (clear -Hns; induction Hns; simpl; lia).
    destruct (dma_alloc_ok vs ts i t a k rb reps b d n (sumZ ns))
      as (f & b1 & rb1 & reps1 & Hb1 & Hrb1 & Htr & E); try done.
    destruct (IH rb1 reps1 b1 (d + n * PAGE_SIZE)) as (out & b2 & rb2 & reps2 & E2 & HR); try done.
    { apply dma_left_advance; [lia..|exact Hl]. }
    exists ((frame_paddr f, d) :: out), b2, rb2, reps2. split.
    + rewrite (bind_Ret _ _ _ _ _ E), (bind_Ret _ _ _ _ _ E2).
      unfold mret, M_ret. do 3 f_equal. lia.
    + simpl. split_and!; eauto. intros j Hj Hnone.
      destruct Hl as (_ & _ & _ & Hp). simpl in Hp.
      destruct (h_mapped_page t !! (d + j * PAGE_SIZE)) as [c|] eqn:Hc; [|apply (Hp j); [lia|done]].
      destruct (to_page _ _ _ _ Hok _ c Hc) as (_ & _ & _ & _ & g & _ & Hg). simpl in Hg. congruence.
Qed.

End service.

(** ** The area the root task maps *)

Section area.
Context `{L : Sel4Laws}.

Lemma map_dma_page_sim ts i t ak va t' ak' :
  ts !! i = Some t -> helper_add_page va (t, ak) = Ret (tt, (t', ak')) ->
  map_dma_page (Z.of_nat i) va (ts, ak) = Ret (tt, (<[i := t']> ts, ak')).
Proof.
  unfold helper_add_page, map_dma_page, r_alloc.
  intros Ht E. ibind E as p s1 E1. unfold allocate_page, TaskImpl, zoom in E1. cbn [fst snd] in E1.
  unfold mbind at 1, M_bind, zoom. cbn [fst snd].
  destruct (allocate_and_retyped_fixed_sized BpGranule ak) as [[p' ak1]| | |]; try done.
  injection E1 as <- <-. unfold on_task, task_at, mbind, M_bind. cbn [fst snd].
  rewrite (index_Ret ts i t Ht). unfold r_alloc, zoom, with_helper. cbn [fst snd].
  rewrite E. unfold modify. cbn [fst snd]. by rewrite Nat2Z.id.
Qed.

Definition dma_pages (n : Z) : list Z := map (fun j => DMA_ADDR_START + j * PAGE_SIZE) (seqZ 0 n).

Lemma elem_of_dma_pages n va :
  va ∈ dma_pages n <-> exists j, va = DMA_ADDR_START + j * PAGE_SIZE /\ 0 <= j < n.
Proof.
  unfold dma_pages. rewrite list_elem_of_fmap. setoid_rewrite elem_of_seqZ. naive_solver lia.
Qed.

Lemma wp_map_dma_area vs ts i t a k n m :
  ts !! i = Some t -> helper_ok vs (t, (a, k)) -> 0 <= n <= 2 ^ 32 ->
  (forall va, va ∈ dma_pages n -> h_mapped_page t !! va = None) ->
  alloc_ok (Z.to_nat NUM_LEVELS * Z.to_nat n + m) (a, k) ->
  wp (map_dma_area (Z.of_nat i) n)
     (fun _ s' => exists t', s'.1 = <[i := t']> ts /\
        helper_added vs (dma_pages n) (t, (a, k)) (t', s'.2) /\ alloc_ok m s'.2)
     (ts, (a, k)).
Proof.
  intros Ht Hok Hn Hfree HA.
  destruct (wp_helper_add_pages vs (dma_pages n) m (t, (a, k))) as ([] & [t' ak'] & E & HP & HA').
  - done.
  - apply NoDup_fmap_2; [|apply NoDup_seqZ]. intros x y Exy. cbv beta in Exy.
    change PAGE_SIZE with 4096 in Exy. lia.
  - intros va Hva. split_and!; [| | |by apply Hfree];
      apply elem_of_dma_pages in Hva as (j & -> & Hj); unfold page_aligned, DMA_ADDR_START;
      change PAGE_SIZE with 4096; [dlia|lia..].
  - unfold dma_pages. rewrite length_map, length_seqZ. exact HA.
  - exists tt, (<[i := t']> ts, ak'). split; [|by exists t'].
    rewrite <- (list_insert_id ts i t Ht) at 1.
    apply (for_each_sim (fun j => map_dma_page (Z.of_nat i) (DMA_ADDR_START + j * PAGE_SIZE))
             helper_add_page (fun j => DMA_ADDR_START + j * PAGE_SIZE)
             (fun s => (<[i := s.1]> ts, s.2)) (fun _ => True) (seqZ 0 n) (t, (a, k)) (t', ak'));
      try done.
    intros x [t1 ak1] [t2 ak2] _ _ E1. split; [|done].
    rewrite (map_dma_page_sim _ i t1 ak1 _ t2 ak2); [|by rewrite list_lookup_insert_eq; [|eapply lookup_lt_Some]|done].
    simpl. by rewrite list_insert_insert_eq.
Qed.
End area.

(** ** Theorems *)

(** C19: the root task and a driver's HAL together implement DMA memory.  After the
    root task has mapped [n] pages at [DMA_ADDR_START] in a task, any sequence of
    [dma_alloc] requests of that task that starts at page [first] of the area and
    fits into it succeeds: the regions are consecutive and disjoint, every page of
    them is mapped in the task, and each request returns the physical address of
    the frame behind its first page, obtained over IPC. *)
Theorem dma_service `{L : Sel4Laws} `{FA : !FrameAddress} `{MI : MessageInfoApi}
    `{ML : !MessageInfoLaws}
    (ep_call : CPtr -> MessageInfo -> IpcBuffer -> kstate -> IpcBuffer * kstate)
    (irq_ep handler : CPtr) (vs : VS) (ts : list Sel4TaskHelper) (i : nat) (t : Sel4TaskHelper)
    (a : ObjectAllocator) (k : kstate) (b rb : IpcBuffer) (reps : list (MessageInfo * list Z))
    (n first : Z) (ns : list Z)
    (Ht : ts !! i = Some t) (Hok : helper_ok vs (t, (a, k)))
    (Hn : n <= 2 ^ 32) (Hfree : forall va, va ∈ dma_pages n -> h_mapped_page t !! va = None)
    (Halloc : alloc_ok (Z.to_nat NUM_LEVELS * Z.to_nat n) (a, k))
    (Hb : ipc_wf b) (Hrb : ipc_wf rb)
    (Hpos : Forall (fun m => 1 <= m) ns) (Hfirst : 0 <= first) (Hfits : first + sumZ ns <= n) :
  exists r' out d' w',
    map_dma_area (Z.of_nat i) n (ts, (a, k)) = Ret (tt, r') /\
    dma_allocs (driver_call ep_call irq_ep handler i) ns
      (DMA_ADDR_START + first * PAGE_SIZE, (b, (r', rb, reps))) = Ret (out, (d', w')) /\
    d' = DMA_ADDR_START + (first + sumZ ns) * PAGE_SIZE /\
    dma_regions vs r'.2.2 (DMA_ADDR_START + first * PAGE_SIZE) ns out.
Proof.
  assert (0 <= sumZ ns) as Hs by (clear -Hpos; induction Hpos; simpl; lia).
  destruct (wp_map_dma_area vs ts i t a k n 0) as ([] & [ts' [a' k']] & E & t' & Hts & HP & _);
    try done; [lia|by rewrite Nat.add_0_r|]. simpl in Hts. subst ts'.
  destruct (dma_allocs_ok ep_call irq_ep handler vs (<[i := t']> ts) i t' a' k' ns rb reps b
              (DMA_ADDR_START + first * PAGE_SIZE)) as (out & b' & rb' & reps' & E' & HR); try done.
  - rewrite list_lookup_insert_eq; [done|by eapply lookup_lt_Some].
  - exact (helper_added_ok _ _ _ _ HP).
  - unfold dma_left, page_aligned, is_u64, DMA_ADDR_START. change PAGE_SIZE with 4096.
    split_and!; [dlia|lia..|]. intros j Hj.
    destruct (pa_new _ _ _ _ _ _ HP (DMA_ADDR_START + (first + j) * PAGE_SIZE))
      as (c & f & Hc & _).
    + apply Hfree, elem_of_dma_pages. exists (first + j). split; [done|lia].
    + apply elem_of_dma_pages. exists (first + j). split; [done|lia].
    + simpl in Hc. unfold DMA_ADDR_START in Hc. change PAGE_SIZE with 4096 in Hc.
      replace (4294979584 + first * 4096 + j * 4096) with (4294979584 + (first + j) * 4096) by lia.
      by rewrite Hc.
  - eexists _, out, _, _. split; [exact E|]. split; [exact E'|]. split; [lia|done].
Qed.

#[export] Instance ref_frame_address : @FrameAddress ref_sel4 ref_view.
Proof.
  refine {| frame_paddr := (fun f => 0x40000000 + f mod 2 ^ 20 * 4096) : @Frame ref_sel4 ref_view -> Z |}.
  - intros k c f Hf. cbn in Hf |- *.
    destruct (rk_caps k !! c) as [[]|]; try done. by injection Hf as ->.
  - intros f. pose proof (Z.mod_pos_bound f (2 ^ 20) ltac:(lia)). simpl. lia.
Defined.

(** The net thread's first page of a four-page area is skipped, then a region of
    one page and one of two. *)
Lemma dma_service_witness :
  exists r' out d' w',
    @map_dma_area ref_sel4 0 4 ([ref_helper], (MkAllocator 50 1024 26, ref_user 32)) = Ret (tt, r') /\
    dma_allocs (driver_call (MI := packed_message_info) (fun _ _ b k => (b, k)) 20 21 0) [1; 2]
      (NET_DMA_ADDR, (blank_ipc, (r', blank_ipc, []))) = Ret (out, (d', w')) /\
    map snd out = [NET_DMA_ADDR; NET_DMA_ADDR + 0x1000].
Proof.
  destruct (@dma_service ref_sel4 ref_view ref_laws ref_frame_address packed_message_info
    packed_message_info_laws (fun _ _ b k => (b, k)) 20 21 5 [ref_helper] 0 ref_helper
    (MkAllocator 50 1024 26) (ref_user 32) blank_ipc blank_ipc [] 4 1 [1; 2])
    as (r' & out & d' & w' & E & E' & _ & HR); try reflexivity.
  - by apply ref_helper_ok.
  - vm_compute. discriminate.
  - intros va (j & -> & Hj)%elem_of_dma_pages. apply lookup_singleton_ne.
    unfold DMA_ADDR_START. change PAGE_SIZE with 4096. lia.
  - apply (ref_user_alloc_ok 16); vm_compute; intuition discriminate.
  - apply blank_ipc_wf.
  - apply blank_ipc_wf.
  - repeat constructor; lia.
  - lia.
  - exists r', out, d', w'. split; [exact E|]. split; [exact E'|].
    destruct out as [|[p1 v1] [|[p2 v2] [|]]]; simpl in HR; try tauto.
    destruct HR as (-> & _ & _ & -> & _). reflexivity.
Defined.

(** Neither the HAL nor the root task checks the bounds of the DMA area: a
    request that reaches an address the root task has not mapped makes the root
    task, the server of all threads, panic. *)
Theorem dma_past_area_panics `{K : Sel4} `{MI : MessageInfoApi} `{ML : !MessageInfoLaws}
    (ep_call : CPtr -> MessageInfo -> IpcBuffer -> kstate -> IpcBuffer * kstate)
    (irq_ep handler : CPtr) (ts : list Sel4TaskHelper) (i : nat) (t : Sel4TaskHelper)
    (ak : AK) (b rb : IpcBuffer) (reps : list (MessageInfo * list Z)) (d n : Z)
    (Ht : ts !! i = Some t) (Hb : ipc_wf b) (Hrb : ipc_wf rb)
    (Hd : page_aligned d) (Hu : is_u64 d) (Hnew : h_mapped_page t !! d = None) :
  dma_alloc (driver_call ep_call irq_ep handler i) n (d, (b, (ts, ak, rb, reps))) = Panic PUnwrap.
Proof.
  destruct ak as [a k]. unfold dma_alloc, mbind, M_bind, gets, modify. cbn [fst snd].
  pose proof (translate_addr_unmapped ep_call irq_ep handler ts i t a k rb reps b
                (wrap64 (d + n * PAGE_SIZE)) d Hb Hrb Hu Ht) as E.
  match goal with |- context [translate_addr ?c ?x ?s] =>
    rewrite (E : _ -> translate_addr c x s = _) end; [done|].
  unfold down, page_aligned in *. by rewrite Hd, Z.sub_0_r.
Qed.

(** The block thread has two DMA pages; its third one-page request. *)
Lemma dma_past_area_panics_witness :
  exists r', @map_dma_area ref_sel4 0 2 ([ref_helper], (MkAllocator 50 1024 26, ref_user 16)) =
      Ret (tt, r') /\
    dma_alloc (driver_call (MI := packed_message_info) (fun _ _ b k => (b, k)) 20 21 0) 1
      (BLK_DMA_ADDR + 2 * PAGE_SIZE, (blank_ipc, (r', blank_ipc, []))) = Panic PUnwrap.
Proof.
  eexists (_, _). split; [vm_compute; reflexivity|].
  eapply (@dma_past_area_panics ref_sel4 packed_message_info packed_message_info_laws);
    [reflexivity|apply blank_ipc_wf..|reflexivity|vm_compute; intuition discriminate|reflexivity].
Defined.
