(* ===== verification/Shim.v ===== *)
(** * User programs ([crates/shim/src/main.rs], [crates/test-thread/src/main.rs])

    The system calls of a user program go through [vsyscall_handler], which the
    two programs share line by line: it puts the number and the arguments into
    the IPC buffer and calls the kernel thread.  It is written against any
    [call]; [kernel_call] connects it to the kernel thread's service loop. *)

From S2P Require Import Prelude Words Consts Sel4 Sel4Laws RefKernel Externs Reference Messages Uspace ObjAllocator KTask FrameMem UserMem Exec ImageMap KThread NetClient Syscalls KInv Clone Dispatch.

(** The thread's [tpidr_el0], the two statics, the IPC buffer and the rest of
    the system. *)
Record ShimS (W : Type) := MkShim {
  sh_tp : Z;
  TP_REG : Z;
  EP_CPTR : Z;
  sh_ipc : IpcBuffer;
  sh_world : W;
}.
Arguments MkShim {W}.
Arguments sh_tp {W}.
Arguments TP_REG {W}.
Arguments EP_CPTR {W}.
Arguments sh_ipc {W}.
Arguments sh_world {W}.

Definition SHIM_WORD_SIZE : Z := 8.

Section shim.
Context `{MI : MessageInfoApi} `{SC : SyscallsCrate} {W : Type}.
(** [Endpoint::call] *)
Variable call : CPtr -> MessageInfo -> M (IpcBuffer * W) MessageInfo.
(** A store of the program to its own memory, and the address of the clone
    arguments on its stack. *)
Variable user_store : Z -> list Z -> M W unit.
Variable place_clone_args : CloneArgs -> M W Z.

Definition sh_set_tp (tp : Z) (s : ShimS W) : ShimS W :=
  MkShim tp (TP_REG s) (EP_CPTR s) (sh_ipc s) (sh_world s).
Definition sh_set_ipc (b : IpcBuffer) (s : ShimS W) : ShimS W :=
  MkShim (sh_tp s) (TP_REG s) (EP_CPTR s) b (sh_world s).
Definition sh_set_world (w : W) (s : ShimS W) : ShimS W :=
  MkShim (sh_tp s) (TP_REG s) (EP_CPTR s) (sh_ipc s) w.

Definition load_tp_reg : M (ShimS W) Z := gets sh_tp.
Definition set_tp_reg (tp : Z) : M (ShimS W) unit := modify (sh_set_tp tp).

Definition sh_on_ipc {A} (m : M IpcBuffer A) : M (ShimS W) A := zoom sh_ipc sh_set_ipc m.

Definition sh_call (mi : MessageInfo) : M (ShimS W) MessageInfo := fun s =>
  zoom (fun s => (sh_ipc s, sh_world s)) (fun bw s => sh_set_world bw.2 (sh_set_ipc bw.1 s))
    (call (EP_CPTR s) mi) s.

(** [buffer.msg_regs()[0]] *)
Definition sh_reg0 : M (ShimS W) Z :=
  b ← gets sh_ipc; lift (index (msg_regs b) 0).

Definition syscall_tag : MessageInfo :=
  mi_new (CustomMessageLabel_to_label CML_SysCall) 0 0 (7 * SHIM_WORD_SIZE).

Definition get_tid : M (ShimS W) Z :=
  sh_on_ipc (write_reg 0 (Sysno_id sys_no_gettid)) ;;
  sh_call syscall_tag ;;
  sh_reg0.

Definition vsyscall_handler (id a b c d e f : Z) : M (ShimS W) Z :=
  prev_id ← (if id =? Sysno_id sys_no_clone then get_tid else mret 0);
  tp ← load_tp_reg;
  tp_reg ← gets TP_REG;
  set_tp_reg tp_reg ;;
  sh_on_ipc (write_reg 0 id ;; write_reg 1 a ;; write_reg 2 b ;; write_reg 3 c ;;
             write_reg 4 d ;; write_reg 5 e ;; write_reg 6 f) ;;
  message ← sh_call syscall_tag;
  is_child ← (if negb (prev_id =? 0) then
                set_tp_reg tp ;; tid ← get_tid; mret (negb (tid =? prev_id))
              else mret false);
  if is_child : bool then mret 0
  else
    assert (mi_length message =? SHIM_WORD_SIZE) ;;
    ret ← sh_reg0;
    set_tp_reg tp ;;
    mret ret.

(** "Hello, World!" *)
Definition HELLO : list Z := [72; 101; 108; 108; 111; 44; 32; 87; 111; 114; 108; 100; 33].

(** The start of [main]: the statics, then a test message. *)
Definition shim_init : M (ShimS W) unit :=
  tp ← load_tp_reg;
  modify (fun s => MkShim (sh_tp s) tp DEFAULT_THREAD_FAULT_EP (sh_ipc s) (sh_world s)) ;;
  sh_call (mi_new (CustomMessageLabel_to_label CML_TestCustomMessage) 0 0 0) ;;
  mret tt.

(** The body of the shim's [thread_fn]; the test program's [main] goes on with the
    same calls at another address. *)
Definition hello (addr : Z) : M (ShimS W) unit :=
  mmap_ptr ← vsyscall_handler (Sysno_id sys_no_mmap) addr 0x1000 3 16 0 0;
  zoom sh_world sh_set_world (user_store mmap_ptr HELLO) ;;
  vsyscall_handler (Sysno_id sys_no_write) 1 mmap_ptr (Z.of_nat (length HELLO)) 0 0 0 ;;
  mret tt.

Definition thread_fn : M (ShimS W) unit :=
  hello 0x2000 ;;
  vsyscall_handler (Sysno_id sys_no_exit) 0 0 0 0 0 0 ;;
  mret tt.

Definition sh_exit : M (ShimS W) Z := vsyscall_handler (Sysno_id sys_no_exit) 0 0 0 0 0 0.

(** [main] of the shim; [fn] is the address of [thread_fn]. *)
Definition shim_main (fn : Z) : M (ShimS W) Z :=
  shim_init ;;
  stack_ptr ← vsyscall_handler (Sysno_id sys_no_mmap) 0x4000 0x1000 3 16 0 0;
  args ← zoom sh_world sh_set_world
    (place_clone_args (MkCloneArgs (wrap64 (stack_ptr + 0x1000)) 0x100 0 0 0 fn 0));
  ret ← vsyscall_handler (Sysno_id sys_no_clone) args 0 0 0 0 0;
  (if negb (ret =? 0) then sh_exit else panic_with PExplicit) ;;
  panic_with PExplicit.

(** [main] of the test program. *)
Definition test_main : M (ShimS W) Z :=
  shim_init ;;
  hello 0x1000 ;;
  args ← zoom sh_world sh_set_world (place_clone_args CloneArgs_default);
  ret ← vsyscall_handler (Sysno_id sys_no_clone) args 0 0 0 0 0;
  (if negb (ret =? 0) then sh_exit
   else vsyscall_handler (Sysno_id sys_no_execve) 0 0 0 0 0 0) ;;
  panic_with PExplicit.

(** [_start]: [main], then a jump to the address it returns, with a cleared TLS
    register; after that the thread spins. *)
Definition shim_start {A} (main : M (ShimS W) Z) (jump : Z -> M (ShimS W) unit) : M (ShimS W) A :=
  entry ← main;
  set_tp_reg 0 ;;
  jump entry ;;
  out_of_fuel.

(** Neither [main] returns: the rest of [_start] is never run. *)
Lemma start_is_main fn jump st :
  shim_start (shim_main fn) jump st = shim_main fn st /\ shim_start test_main jump st = test_main st.
Proof.
  assert (forall (m : M (ShimS W) Z), (forall s x s', m s <> Ret (x, s')) -> shim_start m jump st = m st) as HN.
  { intros m Hm. unfold shim_start, mbind, M_bind. destruct (m st) as [[x s']| | |] eqn:E; try done.
    by destruct (Hm st x s'). }
  assert (forall B (m : M (ShimS W) B) s x s', (m ;; panic_with (A := Z) PExplicit) s <> Ret (x, s')) as HP.
  { intros B m s x s' E. ibind E as y s1 E1. done. }
  split; apply HN; intros s x s' E; unfold shim_main, test_main in E;
    repeat lazymatch type of E with
    | (_ ≫= (fun _ => panic_with _)) _ = _ => by apply HP in E
    | _ => let x := fresh in let s1 := fresh in let E1 := fresh in apply bind_inv in E as (x & s1 & E1 & E)
    end.
Qed.
End shim.

(** ** The connection to the kernel thread *)

Section connection.
Context `{K : Sel4} `{MI : MessageInfoApi} `{MA : MemoryAddr} `{AX : AxErrno}
  `{BF : Bitflags} `{SC : SyscallsCrate} `{KE : !KEnv}.

(** [call] by the task with this badge while the kernel thread waits in [recv]:
    one iteration of its loop.  Without a reply the caller stays blocked. *)
Definition kernel_call (fuel : nat) (ep : CPtr) (badge : Z) (_ : CPtr) (mi : MessageInfo) :
    M (IpcBuffer * KT) MessageInfo := fun '(b, s) =>
  match serve fuel ep (MkIncoming mi (msg_regs (transfer mi (msg_regs b) (kt_ipc s)))
                         OtherFault badge) s with
  | Ret (Replied mi' _, s') => Ret (mi', (transfer mi' (msg_regs (kt_ipc s')) b, s'))
  | Ret (_, _) => Deadlock
  | Panic p => Panic p | Deadlock => Deadlock | NoFuel => NoFuel
  end.
End connection.

Section vsyscall.
Context `{K : Sel4} `{MI : MessageInfoApi} `{ML : !MessageInfoLaws} `{MA : MemoryAddr}
  `{AX : AxErrno} `{BF : Bitflags} `{SC : SyscallsCrate} `{KE : !KEnv}.
Variables (fuel : nat) (ep : CPtr) (badge : Z).

Lemma syscall_tag_fits : mi_fits (CustomMessageLabel_to_label CML_SysCall) 0 0 (7 * SHIM_WORD_SIZE).
Proof. unfold mi_fits. vm_compute. intuition discriminate. Qed.

(** The kernel thread's buffer when it gets the message. *)
Lemma transfer_syscall b kb id a1 a2 a3 a4 a5 a6 rest :
  ipc_wf b -> ipc_wf kb -> msg_regs b = id :: a1 :: a2 :: a3 :: a4 :: a5 :: a6 :: rest ->
  ipc_wf (transfer syscall_tag (msg_regs b) kb) /\
  exists rest', msg_regs (transfer syscall_tag (msg_regs b) kb) =
    id :: a1 :: a2 :: a3 :: a4 :: a5 :: a6 :: rest'.
Proof.
  intros [Hb _] [Hkb Hkc] E. unfold transfer, syscall_tag.
  rewrite mi_length_new by apply syscall_tag_fits.
  change (Z.to_nat (7 * SHIM_WORD_SIZE)) with 56%nat. split.
  - split; [|done]. simpl. rewrite length_app, length_take, length_drop, Hb, Hkb. done.
  - rewrite E. simpl. eauto.
Qed.

(** A system call message, whatever the handler does. *)
Lemma kernel_call_syscall b s id a1 a2 a3 a4 a5 a6 rest (Q : result Z Errno -> KT -> Prop) :
  ipc_wf b -> ipc_wf (kt_ipc s) -> msg_regs b = id :: a1 :: a2 :: a3 :: a4 :: a5 :: a6 :: rest ->
  (forall b1, ipc_wf b1 -> wp (handle_ipc_call fuel badge id [a1; a2; a3; a4; a5; a6] ep)
     (fun res s' => ipc_wf (kt_ipc s') /\ Q res s') (set_ipc b1 s)) ->
  wp (kernel_call fuel ep badge 0 syscall_tag)
     (fun mi bs => mi = mi_new 0 0 0 8 /\ ipc_wf bs.1 /\ exists res s' b',
        Q res s' /\ ipc_wf b' /\ bs.2 = set_ipc b' s' /\
        msg_regs bs.1 !! 0%nat = Some (encode_result res)) (b, s).
Proof.
  intros Hb Hkb E Hcall.
  destruct (transfer_syscall b (kt_ipc s) id a1 a2 a3 a4 a5 a6 rest) as [Hwf [rest' E']]; try done.
  set (b1 := transfer syscall_tag (msg_regs b) (kt_ipc s)) in *.
  destruct (Hcall b1 Hwf) as (res & s' & Ec & Hs' & HQ).
  assert (set_msg_regs (msg_regs b1) (kt_ipc s) = b1) as Hb1
    by (unfold b1, transfer; by destruct (kt_ipc s)).
  pose proof Hs' as [Hl' Hc'].
  set (b2 := set_msg_regs (<[0%nat := encode_result res]> (msg_regs (kt_ipc s'))) (kt_ipc s')).
  exists (mi_new 0 0 0 8), (transfer (mi_new 0 0 0 8) (msg_regs b2) b, set_ipc b2 s'). split.
  - unfold kernel_call. fold b1. erewrite (serve_syscall fuel ep _ s id a1 a2 a3 a4 a5 a6 rest' res s');
      [done|..]; cbn [in_message in_regs in_badge]; try done; try (by rewrite Hb1).
    + unfold CustomMessageLabel_try_from, syscall_tag. by rewrite mi_label_new by apply syscall_tag_fits.
    + unfold syscall_tag. by rewrite mi_label_new by apply syscall_tag_fits.
  - pose proof Hb as [Hl Hc]. unfold transfer. rewrite mi_length_new by (unfold mi_fits; lia).
    simpl. split; [done|]. split.
    + split; [|done]. simpl. rewrite length_app, length_take, length_drop, length_insert, Hl', Hl. done.
    + exists res, s', b2. split; [done|]. split; [|split; [done|]].
      * split; [|done]. simpl. by rewrite length_insert.
      * rewrite lookup_app_l by (rewrite length_take, length_insert, Hl'; unfold MSG_MAX_LENGTH; lia).
        rewrite lookup_take_lt by lia. apply regs_insert_eq; [done|lia].
Qed.

Lemma seven_regs (l : list Z) :
  length l = MSG_MAX_LENGTH ->
  exists x0 x1 x2 x3 x4 x5 x6 rest, l = x0 :: x1 :: x2 :: x3 :: x4 :: x5 :: x6 :: rest.
Proof. intros Hl. do 7 (destruct l as [|? l]; [done|]). eauto 10. Qed.

Lemma wp_write_syscall id a1 a2 a3 a4 a5 a6 (b : IpcBuffer) :
  ipc_wf b ->
  wp (write_reg 0 id ;; write_reg 1 a1 ;; write_reg 2 a2 ;; write_reg 3 a3 ;;
      write_reg 4 a4 ;; write_reg 5 a5 ;; write_reg 6 a6)
     (fun _ b' => ipc_wf b' /\ exists rest,
        msg_regs b' = id :: a1 :: a2 :: a3 :: a4 :: a5 :: a6 :: rest) b.
Proof.
  intros Hb. destruct (seven_regs (msg_regs b) (proj1 Hb))
    as (x0 & x1 & x2 & x3 & x4 & x5 & x6 & rest & E).
  repeat first [apply wp_bind | apply wp_write_reg; [assumption|lia|cbv zeta; intros ?]].
  split; [done|]. exists rest. cbn [msg_regs set_msg_regs]. by rewrite E.
Qed.

Notation call := (kernel_call fuel ep badge).
Implicit Types st : ShimS KT.

Lemma wp_sh_on_ipc {A} (m : M IpcBuffer A) (Q : A -> ShimS KT -> Prop) st :
  wp m (fun x b => Q x (sh_set_ipc b st)) (sh_ipc st) -> wp (sh_on_ipc m) Q st.
Proof. apply wp_zoom. Qed.

Lemma wp_sh_call mi (Q : MessageInfo -> ShimS KT -> Prop) st :
  wp (call 0 mi) (fun r bs => Q r (sh_set_world bs.2 (sh_set_ipc bs.1 st))) (sh_ipc st, sh_world st) ->
  wp (sh_call call mi) Q st.
Proof. intros H. apply wp_zoom. exact H. Qed.

Lemma wp_sh_reg0 x (Q : Z -> ShimS KT -> Prop) st :
  msg_regs (sh_ipc st) !! 0%nat = Some x -> Q x st -> wp sh_reg0 Q st.
Proof.
  intros Hx HQ. unfold sh_reg0. wp_step. wp_step.
  apply (wp_lift _ x); [by apply (index_lookup _ 0 x)|done].
Qed.

(** What stays the same while a user program waits for an answer. *)
Definition same_thread (st st' : ShimS KT) : Prop :=
  sh_tp st' = sh_tp st /\ TP_REG st' = TP_REG st /\ EP_CPTR st' = EP_CPTR st.

Definition both_wf (st : ShimS KT) : Prop := ipc_wf (sh_ipc st) /\ ipc_wf (kt_ipc (sh_world st)).

(** A system call sent from a filled buffer. *)
Lemma wp_send_syscall st id a1 a2 a3 a4 a5 a6 rest (Q : result Z Errno -> KT -> Prop) :
  both_wf st -> msg_regs (sh_ipc st) = id :: a1 :: a2 :: a3 :: a4 :: a5 :: a6 :: rest ->
  (forall b1, ipc_wf b1 -> wp (handle_ipc_call fuel badge id [a1; a2; a3; a4; a5; a6] ep)
     (fun res s' => ipc_wf (kt_ipc s') /\ Q res s') (set_ipc b1 (sh_world st))) ->
  wp (sh_call call syscall_tag)
     (fun mi st' => mi = mi_new 0 0 0 8 /\ same_thread st st' /\ both_wf st' /\ exists res s' b',
        Q res s' /\ sh_world st' = set_ipc b' s' /\
        msg_regs (sh_ipc st') !! 0%nat = Some (encode_result res)) st.
Proof.
  intros [Hb Hk] E Hc. apply wp_sh_call.
  eapply wp_mono; [by eapply (kernel_call_syscall _ _ id a1 a2 a3 a4 a5 a6 rest Q)|].
  intros mi [b' s'] (-> & Hwf & res & s2 & b2 & HQ & Hb2 & -> & Hr). split; [done|].
  split; [done|]. split; [done|]. exists res, s2, b2. done.
Qed.

Lemma wp_get_tid `{SL : !SyscallsLaws} st :
  both_wf st ->
  wp (get_tid call) (fun tid st' => tid = badge /\ same_thread st st' /\ both_wf st' /\
     msg_regs (sh_ipc st') !! 0%nat = Some badge /\
     exists b', sh_world st' = set_ipc b' (sh_world st)) st.
Proof.
  intros [Hb Hk]. unfold get_tid. wp_step. apply wp_sh_on_ipc.
  apply wp_write_reg; [done|lia|]. cbv zeta. intros Hb'. wp_step.
  destruct (seven_regs _ (proj1 Hb)) as (x0 & x1 & x2 & x3 & x4 & x5 & x6 & rest & E).
  eapply wp_mono.
  - apply (wp_send_syscall _ (Sysno_id sys_no_gettid) x1 x2 x3 x4 x5 x6 rest
      (fun res s' => res = Ok badge /\ exists b1, s' = set_ipc b1 (sh_world st))).
    + split; [done|exact Hk].
    + cbn [sh_ipc sh_set_ipc msg_regs set_msg_regs]. by rewrite E.
    + intros b1 Hb1. unfold wp.
      rewrite (dispatch_args _ _ _ _ _ _ _ _ _ _ sys_no_gettid) by (by apply Sysno_new_id).
      eexists _, _. split; [reflexivity|]. split; [done|]. split; [done|]. by exists b1.
  - intros mi st' (_ & HS & Hwf & res & s' & b' & [-> [b1 ->]] & Hw & Hr).
    apply (wp_sh_reg0 badge); [exact Hr|]. split; [done|]. split; [exact HS|]. split; [done|]. split; [exact Hr|].
    by exists b'.
Qed.

(** The user's view of a system call other than [clone]. *)
Lemma wp_vsyscall st id a1 a2 a3 a4 a5 a6 (Q : result Z Errno -> KT -> Prop) :
  both_wf st -> id <> Sysno_id sys_no_clone ->
  (forall b1, ipc_wf b1 -> wp (handle_ipc_call fuel badge id [a1; a2; a3; a4; a5; a6] ep)
     (fun res s' => ipc_wf (kt_ipc s') /\ Q res s') (set_ipc b1 (sh_world st))) ->
  wp (vsyscall_handler call id a1 a2 a3 a4 a5 a6)
     (fun r st' => same_thread st st' /\ both_wf st' /\ exists res s' b',
        r = encode_result res /\ Q res s' /\ sh_world st' = set_ipc b' s') st.
Proof.
  intros [Hb Hk] Hid Hc. unfold vsyscall_handler. rewrite (proj2 (Z.eqb_neq _ _) Hid).
  wp_step. wp_step. wp_step. unfold load_tp_reg. wp_step. wp_step. wp_step. wp_step.
  unfold set_tp_reg at 1. wp_step. wp_step. apply wp_sh_on_ipc.
  eapply wp_mono; [by apply wp_write_syscall|]. intros _ b' [Hb' [rest E]].
  wp_step. eapply wp_mono.
  { apply (wp_send_syscall _ id a1 a2 a3 a4 a5 a6 rest Q); [split; [done|exact Hk]|exact E|exact Hc]. }
  intros mi st' (-> & (HS1 & HS2 & HS3) & Hwf & res & s' & b2 & HQ & Hw & Hr). simpl in *.
  wp_step. wp_step. wp_step. apply wp_assert.
  { by rewrite mi_length_new by (unfold mi_fits; lia). }
  wp_step. apply (wp_sh_reg0 (encode_result res)); [exact Hr|]. wp_step. unfold set_tp_reg. wp_step. wp_step.
  split; [by split_and!|]. split; [exact Hwf|]. exists res, s', b2. done.
Qed.
End vsyscall.

Lemma kt_ok_set_ipc `{L : Sel4Laws} seat asp b s : kt_ok seat asp s -> kt_ok seat asp (set_ipc b s).
Proof. by intros [H1 H2 H3]. Qed.

Lemma Sysno_id_inj `{SyscallsLaws} n n' :
  (forall id, n <> sys_other id) -> (forall id, n' <> sys_other id) ->
  Sysno_id n = Sysno_id n' -> n = n'.
Proof. intros H1 H2 E. apply Sysno_new_id in H1, H2. rewrite E in H1. congruence. Qed.

(** The user's view of [write]. *)
Lemma wp_user_write `{L : Sel4Laws} `{MI : MessageInfoApi} `{MIL : !MessageInfoLaws}
    `{ML : MemoryAddrLaws} `{AX : AxErrno} `{BF : Bitflags} `{SL : SyscallsLaws} `{KE : !KEnv}
    asp fuel ep badge (st : ShimS KT) t fd buf count :
  both_wf st -> kt_ok page_seat asp (sh_world st) -> kt_tasks (sh_world st) !! badge = Some t ->
  fd = STDOUT_FD \/ fd = STDERR_FD -> 0 <= count < 2 ^ 64 -> 0 <= buf -> buf + count < 2 ^ 64 ->
  range_mapped t buf count -> (process_fuel count <= fuel)%nat ->
  wp (vsyscall_handler (kernel_call fuel ep badge) (Sysno_id sys_no_write) fd buf count 0 0 0)
     (fun r st' => r = count /\ same_thread st st' /\ both_wf st' /\ kt_ok page_seat asp (sh_world st') /\
        (exists bs,
           user_bytes (kt_kernel (sh_world st)) (asp badge) buf (Z.to_nat count) = Some bs /\
           kt_console (sh_world st') = kt_console (sh_world st) ++ bs) /\
        forall x, user_byte (kt_kernel (sh_world st')) (asp badge) x =
                  user_byte (kt_kernel (sh_world st)) (asp badge) x) st.
Proof.
  intros Hwf Hinv Htask Hfd Hcount Hbuf Hend Hmap Hfuel.
  set (s0 := sh_world st) in *.
  eapply wp_mono; [apply (wp_vsyscall fuel ep badge st (Sysno_id sys_no_write) fd buf count 0 0 0
    (fun res s' => res = Ok count /\ kt_ok page_seat asp s' /\
       (exists bs, user_bytes (kt_kernel s0) (asp badge) buf (Z.to_nat count) = Some bs /\
          kt_console s' = kt_console s0 ++ bs) /\
       forall x, user_byte (kt_kernel s') (asp badge) x = user_byte (kt_kernel s0) (asp badge) x));
    [done| |]|].
  - intros E. apply Sysno_id_inj in E; done.
  - intros b1 Hb1. unfold wp.
    rewrite (dispatch_args _ _ _ _ _ _ _ _ _ _ sys_no_write) by (by apply Sysno_new_id).
    assert (as_i32 fd = fd) as -> by (by destruct Hfd as [->| ->]).
    destruct (wp_sys_write asp 0 (set_ipc b1 s0) badge t fuel fd buf count)
      as (r & s' & E & -> & HM & HU & HC & _); try done; [by apply kt_ok_set_ipc|].
    exists (Ok count), s'. split; [exact E|]. split; [by rewrite (ms_ipc _ _ _ _ _ HM)|].
    split; [done|]. split; [apply HM|]. split; [exact HC|exact HU].
  - intros r st' (HS & HW & res & s' & b' & -> & (-> & HK & HC & HU) & Hw). rewrite Hw.
    split_and!; try done. by apply kt_ok_set_ipc.
Qed.

(** ** Theorems *)

(** C14: [write] works from end to end: when a user program calls
    [vsyscall_handler] with the number of [write], standard output or error and a
    buffer it has mapped, the call goes through its IPC buffer, the kernel
    thread's dispatcher and the page window, and returns the number of bytes;
    exactly the program's bytes are on the console, its memory and its TLS register
    are as before, and the kernel thread's invariant holds. *)
Theorem user_write_prints `{L : Sel4Laws} `{MI : MessageInfoApi} `{MIL : !MessageInfoLaws}
    `{ML : MemoryAddrLaws} `{AX : AxErrno} `{BF : Bitflags} `{SL : SyscallsLaws} `{KE : !KEnv}
    (asp : Z -> VS) (fuel : nat) (ep : CPtr) (badge : Z) (st : ShimS KT) (t : Sel4Task)
    (fd buf count : Z)
    (Hwf : both_wf st) (Hinv : kt_ok page_seat asp (sh_world st))
    (Htask : kt_tasks (sh_world st) !! badge = Some t) (Hfd : fd = STDOUT_FD \/ fd = STDERR_FD)
    (Hcount : 0 <= count < 2 ^ 64) (Hbuf : 0 <= buf) (Hend : buf + count < 2 ^ 64)
    (Hmap : range_mapped t buf count) (Hfuel : (process_fuel count <= fuel)%nat) :
  wp (vsyscall_handler (kernel_call fuel ep badge) (Sysno_id sys_no_write) fd buf count 0 0 0)
     (fun r st' => r = count /\ same_thread st st' /\ kt_ok page_seat asp (sh_world st') /\
        (exists bs,
           user_bytes (kt_kernel (sh_world st)) (asp badge) buf (Z.to_nat count) = Some bs /\
           kt_console (sh_world st') = kt_console (sh_world st) ++ bs) /\
        forall x, user_byte (kt_kernel (sh_world st')) (asp badge) x =
                  user_byte (kt_kernel (sh_world st)) (asp badge) x) st.
Proof.
  eapply wp_mono; [by apply (wp_user_write asp fuel ep badge st t)|].
  intros r st' (-> & HS & _ & HK & HC & HU). by split_and!.
Qed.

(** A user program on the reference system whose buffer holds "hi". *)
Definition ref_shim : ShimS (@KT ref_sel4) := MkShim 0x1234 0x5678 18 blank_ipc (ref_kt 0).

Lemma user_write_prints_witness :
  exists st', @vsyscall_handler packed_message_info ref_syscalls _
      (@kernel_call ref_sel4 packed_message_info ref_memory_addr ref_axerrno ref_bitflags
         ref_syscalls ref_kenv 3 20 1)
      (@Sysno_id ref_syscalls sys_no_write) 1 0x5000 2 0 0 0 ref_shim = Ret (2, st') /\
    sh_tp st' = 0x1234 /\ @kt_console ref_sel4 (sh_world st') = [104; 105].
Proof.
  destruct (@user_write_prints ref_sel4 ref_view ref_laws packed_message_info
    packed_message_info_laws ref_memory_addr ref_memory_addr_laws ref_axerrno ref_bitflags
    ref_syscalls ref_syscalls_laws ref_kenv (fun _ => 5) 3 20 1 ref_shim ref_user_task 1 0x5000 2)
    as (r & st' & E & -> & (Htp & _) & _ & (bs & Hbs & Hcon) & _).
  - split; apply blank_ipc_wf.
  - apply ref_kt_ok.
  - reflexivity.
  - left. reflexivity.
  - lia.
  - lia.
  - lia.
  - intros i Hi. assert (down 4096 (0x5000 + i) = 0x5000) as -> by (unfold down; dlia).
    by exists 41.
  - vm_compute. lia.
  - exists st'. split; [exact E|]. split; [exact Htp|]. rewrite Hcon.
    vm_compute in Hbs. injection Hbs as <-. reflexivity.
Defined.

(** The result of [clone] never reaches the caller: the second [get_tid] of
    [vsyscall_handler], with which a thread finds out whether it is the child,
    overwrites the reply, so that the caller gets its own thread id, whether
    [sys_clone] returned the id of a new task or an error. *)
Theorem clone_result_lost `{K : Sel4} `{MI : MessageInfoApi} `{MIL : !MessageInfoLaws}
    `{MA : MemoryAddr} `{AX : AxErrno} `{BF : Bitflags} `{SL : SyscallsLaws} `{KE : !KEnv}
    (fuel : nat) (ep : CPtr) (badge : Z) (st : ShimS KT) (args size : Z)
    (Q : result Z Errno -> KT -> Prop)
    (Hwf : both_wf st) (Hbadge : badge <> 0)
    (Hclone : forall b, ipc_wf b -> wp (sys_clone badge ep args size)
       (fun res s' => ipc_wf (kt_ipc s') /\ Q res s') (set_ipc b (sh_world st))) :
  wp (vsyscall_handler (kernel_call fuel ep badge) (Sysno_id sys_no_clone) args size 0 0 0 0)
     (fun r st' => r = badge /\ same_thread st st' /\
        exists res s' b, Q res s' /\ sh_world st' = set_ipc b s') st.
Proof.
  unfold vsyscall_handler. rewrite Z.eqb_refl. wp_step.
  eapply wp_mono; [by apply wp_get_tid|].
  intros tid st1 (-> & HS1 & Hwf1 & _ & b1 & Hw1). wp_step. unfold load_tp_reg. wp_step. wp_step. wp_step.
  unfold set_tp_reg. wp_step. wp_step. wp_step. apply wp_sh_on_ipc.
  eapply wp_mono; [apply wp_write_syscall, Hwf1|]. intros _ b2 [Hb2 [rest E]].
  wp_step. eapply wp_mono.
  { apply (wp_send_syscall _ _ _ _ (Sysno_id sys_no_clone) args size 0 0 0 0 rest Q);
      [split; [done|apply Hwf1]|exact E|].
    intros b3 Hb3. cbn [sh_world sh_set_ipc sh_set_tp]. rewrite Hw1. unfold wp.
    rewrite (dispatch_args _ _ _ _ _ _ _ _ _ _ sys_no_clone) by (by apply Sysno_new_id).
    by apply Hclone. }
  intros mi st2 (-> & HS2 & Hwf2 & res & s' & b3 & HQ & Hw2 & _).
  wp_step. rewrite (proj2 (Z.eqb_neq _ _) Hbadge). cbn [negb]. wp_step. unfold set_tp_reg. wp_step.
  wp_step. eapply wp_mono; [by apply wp_get_tid|].
  intros tid st3 (-> & HS3 & Hwf3 & Hr & b4 & Hw3). wp_step. rewrite Z.eqb_refl. cbn [negb].
  wp_step. apply wp_assert. { by rewrite mi_length_new by (unfold mi_fits; lia). }
  wp_step. apply (wp_sh_reg0 badge); [exact Hr|]. wp_step. wp_step. wp_step.
  destruct HS1 as (T1 & R1 & P1), HS2 as (T2 & R2 & P2), HS3 as (T3 & R3 & P3). simpl in *.
  split; [done|]. split; [split_and!; simpl; congruence|].
  exists res, s', b4. split; [done|]. rewrite Hw3. simpl. by rewrite Hw2.
Qed.

(** A [clone] without arguments, which the kernel thread refuses. *)
Lemma clone_result_lost_witness :
  @sys_clone ref_sel4 packed_message_info ref_memory_addr ref_bitflags ref_kenv 1 20 0 0 (ref_kt 0) =
    Ret (Err EINVAL, ref_kt 0) /\
  exists st', @vsyscall_handler packed_message_info ref_syscalls _
      (@kernel_call ref_sel4 packed_message_info ref_memory_addr ref_axerrno ref_bitflags
         ref_syscalls ref_kenv 3 20 1)
      (@Sysno_id ref_syscalls sys_no_clone) 0 0 0 0 0 0 ref_shim = Ret (1, st').
Proof.
  split; [reflexivity|].
  destruct (@clone_result_lost ref_sel4 packed_message_info packed_message_info_laws
    ref_memory_addr ref_axerrno ref_bitflags ref_syscalls ref_syscalls_laws ref_kenv 3 20 1 ref_shim
    0 0 (fun res _ => res = Err EINVAL)) as (r & st' & E & -> & _).
  - split; apply blank_ipc_wf.
  - discriminate.
  - intros b Hb. exists (Err EINVAL), (set_ipc b (ref_kt 0)). split; [reflexivity|]. by split.
  - exists st'. exact E.
Defined.
