(* ===== verification/UserStep.v ===== *)
(** * System calls of one task

    What the calls of a user program leave alone: the other tasks, the slots in
    use, the windows of the kernel thread, threads and CNodes.  [Hello] and
    [Program] use it to go from one call to the next. *)

From S2P Require Import Prelude Words Consts Sel4 Sel4Laws RefKernel Externs Reference Messages Uspace ObjAllocator KTask FrameMem UserMem Exec ImageMap KThread NetClient Syscalls KInv Clone Threads Fork Child Dispatch Shim.

(** ** System calls keep threads *)

Section keep.
Context `{L : Sel4Laws} `{TH : !ThreadLaws} `{MA : MemoryAddr} `{BF : Bitflags} (p : thread_fact) (Hp : fact_cap p <> 0).

Lemma keepsT_task_mmap addr len prot flags : keepsT p (task_mmap addr len prot flags).
Proof.
  unfold task_mmap. do 2 (case_match; [|apply preserves_ret]).
  apply preserves_bind; [|intros r].
  { case_match; [apply preserves_ret|]. apply preserves_bind; [apply preserves_gets|intros t].
    intros s x s' HI [_ ->]%unwrap_inv. done. }
  apply preserves_bind; [|intros l; apply preserves_bind; [|intros _; apply preserves_ret]].
  { unfold pages_of. apply preserves_bind; [apply keeps_lift|intros e].
    intros s x s' HI [_ ->]%unwrap_inv. done. }
  apply preserves_for_each. intros va. unfold mmap_page.
  apply preserves_bind; [apply preserves_gets|intros m]. case_match; [apply preserves_ret|].
  unfold alloc_and_map. apply preserves_bind; [by apply keepsT_alloc, keepsA_allocate|intros c].
  by apply keepsT_map_page.
Qed.

Lemma keepsU_task_write seat fuel t fd buf count : keepsU p (task_write seat fuel t fd buf count).
Proof.
  assert (forall fuel ad cnt pl, keepsU p (sys_write_loop seat fuel t ad cnt pl)) as HL.
  { clear fuel. induction fuel as [|fuel IH]; intros ad cnt pl; cbn [sys_write_loop]; [by intros ? ? ? ? ?|].
    case_match; [|apply preserves_ret]. case_match; [|apply IH].
    apply preserves_bind; [|intros; apply IH]. apply keeps_seat_copy; [done|].
    apply preserves_bind; [apply keepsU_kernel, keeps_load_bytes|intros bs].
    apply preserves_bind; [by apply (keeps_modify_fst p (fun s => s.1 ++ bs))|intros _; apply keeps_lift]. }
  unfold task_write. case_match; [apply preserves_ret|].
  apply preserves_bind; [apply HL|intros n; apply preserves_ret].
Qed.
End keep.

(** ** What a call of the task leaves alone *)

Lemma mapped_kdiff `{Sel4View} B k k' vs x :
  kdiff nowhere1 nowhere B k k' -> user_byte k vs x <> None -> user_byte k' vs x <> None.
Proof.
  intros D Hx. unfold user_byte in *. rewrite (kd_trans _ _ _ _ _ D) by by intros [].
  by destruct (translate k vs (down 4096 x)).
Qed.

(** The step from [s] to [s'] on behalf of [badge]: only its address space, new
    slots and the scratch slot change; threads and CNodes do not; the task has the
    same thread and at most [d] more pages, none of them that of a new IPC
    buffer. *)
Record user_step `{Sel4View} `{TH : !ThreadLaws} (asp : Z -> VS) (badge : Z) (d : nat) (s s' : KT) : Prop := {
  us_own : own_step (asp badge) (kt_ak s).1 (kt_ak s').1 (kt_ak s).2 (kt_ak s').2;
  us_facts p : fact_cap p <> 0 -> fact_holds p (kt_kernel s) -> fact_holds p (kt_kernel s');
  us_task t : kt_tasks s !! badge = Some t -> exists t', kt_tasks s' = <[badge := t']> (kt_tasks s) /\
    t_tcb t' = t_tcb t /\ (size (t_mapped_page t') <= size (t_mapped_page t) + d)%nat /\
    (t_mapped_page t !! IPC_BUFFER_ADDR = None -> t_mapped_page t' !! IPC_BUFFER_ADDR = None);
  us_mapped x : user_byte (kt_kernel s) (asp badge) x <> None -> user_byte (kt_kernel s') (asp badge) x <> None;
  us_next : kt_next_id s' = kt_next_id s;
}.

Section steps.
Context `{L : Sel4Laws} `{TH : !ThreadLaws} `{MI : MessageInfoApi} `{ML : MemoryAddrLaws} `{BL : BitflagsLaws}
  `{KE : !KEnv}.
Variables (asp : Z -> VS) (badge : Z).

Lemma user_step_trans d1 d2 s1 s2 s3 :
  user_step asp badge d1 s1 s2 -> user_step asp badge d2 s2 s3 -> user_step asp badge (d1 + d2) s1 s3.
Proof.
  intros [O1 F1 T1 P1 N1] [O2 F2 T2 P2 N2]. split; [by eapply own_step_trans|auto| |auto|congruence].
  intros t Ht. destruct (T1 t Ht) as (t1 & E1 & C1 & Z1 & I1).
  destruct (T2 t1) as (t2 & E2 & C2 & Z2 & I2); [by rewrite E1, lookup_insert_eq|].
  exists t2. split; [by rewrite E2, E1, insert_insert_eq|]. split; [congruence|]. split; [lia|auto].
Qed.

Lemma user_step_ipc d b b' s s' :
  user_step asp badge d (set_ipc b s) s' -> user_step asp badge d s (set_ipc b' s').
Proof. by intros [O F T P N]. Qed.

(** A change of memory contents. *)
Lemma user_step_store B s k' :
  slot_empty (kt_kernel s) 0 = true -> kdiff nowhere1 nowhere B (kt_kernel s) k' ->
  (forall p, fact_holds p (kt_kernel s) -> fact_holds p k') -> user_step asp badge 0 s (set_kernel k' s).
Proof.
  intros Hz D HF. split; cbn; [|auto| |by intros x; apply (mapped_kdiff B)|done].
  - split; [exists 0%nat; by rewrite bump_by_0|].
    split; [by rewrite (kd_empty _ _ _ _ _ D) by by intros []|]. by eapply kdiff_weaken, D.
  - intros t Ht. exists t. rewrite insert_id by done. repeat split; [lia|done].
Qed.

Lemma size_union_list (X : gset Z) (l : list Z) : (size (X ∪ list_to_set l) <= size X + length l)%nat.
Proof.
  revert X. induction l as [|x l IH]; intros X; cbn [list_to_set length].
  - rewrite (right_id_L ∅ (∪)). lia.
  - rewrite (assoc_L (∪)). specialize (IH (X ∪ {[x]})).
    assert (size ({[x]} ∖ X : gset Z) <= 1)%nat.
    { etrans; [apply (subseteq_size _ {[x]}); set_solver|]. by rewrite size_singleton. }
    rewrite (size_union_alt X {[x]}) in IH. lia.
Qed.

Lemma pages_added_size vs l t a k s' :
  pages_added vs l t a k s' -> (size (t_mapped_page s'.1) <= size (t_mapped_page t) + length l)%nat.
Proof.
  intros P. assert (dom (t_mapped_page s'.1) ⊆ dom (t_mapped_page t) ∪ list_to_set l) as Hsub.
  { intros va Hva. rewrite elem_of_union, elem_of_list_to_set, elem_of_dom.
    destruct (t_mapped_page t !! va) as [c|] eqn:E; [left; eauto|right].
    destruct (decide (va ∈ l)); [done|]. apply elem_of_dom in Hva as [c Hc].
    rewrite (pa_else _ _ _ _ _ _ P va E) in Hc by done. done. }
  apply subseteq_size in Hsub. rewrite size_dom in Hsub. etrans; [exact Hsub|].
  rewrite <- (size_dom (D := gset Z) (t_mapped_page t)). apply size_union_list.
Qed.

Lemma one_page addr : page_aligned addr ->
  step_range 4096 (down 4096 addr) (up 4096 (addr + 0x1000)) = [addr].
Proof.
  intros Hal. unfold page_aligned in Hal. rewrite down_aligned by done. rewrite up_aligned by dlia.
  unfold step_range. replace (addr + 0x1000 - addr) with 4096 by lia. change (up 4096 (Z.max 0 4096) / 4096) with 1.
  change (seqZ 0 1) with [0]. cbn [fmap list_fmap]. by rewrite Z.add_0_r.
Qed.

(** [mmap] of one page at a fixed address. *)
Lemma wp_mmap_step m s t addr :
  kt_ok page_seat asp s -> kt_tasks s !! badge = Some t -> page_aligned addr -> 0 <= addr ->
  addr + 4096 <= 2 ^ 48 -> addr <> IPC_BUFFER_ADDR -> alloc_ok (mmap_cost 4096 + m) (kt_ak s) ->
  wp (sys_mmap badge addr 0x1000 3 16 0 0) (fun _ s' => user_step asp badge 1 s s') s.
Proof.
  intros HK Ht Hal Hge Hend Hipc HA. destruct (ko_task _ _ _ HK badge t Ht) as [Hok _].
  pose proof (ko_seat _ _ _ HK) as [_ _ Hz Hz']. destruct s as [tasks [a k] id ipc con sent]. cbn in *.
  destruct (wp_task_mmap_pages (asp badge) m t a k addr 0x1000 3 16 16 3 addr) as (x & [t' [a' k']] & E & -> & P & _);
    try done; [by rewrite bf_from_bits_ok|by rewrite bf_from_bits_ok|unfold mmap_start; by rewrite bf_contains_ok| |].
  { unfold page_aligned in Hal. rewrite up_aligned by dlia. lia. }
  rewrite one_page in P by done. apply (wp_with_task badge _ t); [done|].
  exists (Ok addr), (t', (a', k')). split; [exact E|].
  split; cbn; [|by intros p Hp Hf; apply (keepsT_task_mmap p Hp _ _ _ _ (t, (a, k)) _ _ Hf E)| | |done].
  - eapply copies_own, grows_copies; [exact (pa_grows _ _ _ _ _ _ P)|done|done].
  - rewrite Ht. intros t0 [= <-]. exists t'. split; [done|]. split; [exact (pages_added_tcb _ _ _ _ _ _ P)|].
    split; [exact (pages_added_size _ _ _ _ _ _ P)|]. intros Hn.
    apply (pa_else _ _ _ _ _ _ P); [done|]. intros Ei%list_elem_of_singleton. by destruct Hipc.
  - intros x Hx. change (user_byte k (asp badge) x <> None) in Hx. change (user_byte k' (asp badge) x <> None).
    pose proof (pages_added_user (asp badge) [addr] t a k _ x Hok P) as Hu. cbn [snd] in Hu.
    rewrite Hu by (by intros y ->%list_elem_of_singleton). by destruct (user_byte k (asp badge) x).
Qed.

(** [write] of mapped memory. *)
Lemma wp_write_step s t fuel fd buf count :
  kt_ok page_seat asp s -> kt_tasks s !! badge = Some t -> fd = STDOUT_FD \/ fd = STDERR_FD ->
  0 <= count < 2 ^ 64 -> 0 <= buf -> buf + count < 2 ^ 64 -> range_mapped t buf count ->
  (process_fuel count <= fuel)%nat ->
  wp (sys_write fuel badge fd buf count) (fun _ s' => user_step asp badge 0 s s') s.
Proof.
  intros HK Ht Hfd Hc Hb He Hm Hf. destruct (ko_task _ _ _ HK badge t Ht) as [Hok Hv].
  destruct (wp_task_write page_seat (asp badge) t (kt_ak s).1 (kt_kernel s) fuel fd buf count (kt_console s))
    as (r & [con k'] & E & -> & HW & _); try done.
  { split; [done|apply (ko_seat _ _ _ HK)|done]. }
  eexists _, (set_console con (set_kernel k' s)). split.
  { unfold sys_write, get_task, on_console, mbind, M_bind, zoom. rewrite Ht. simpl. by rewrite E. }
  split; cbn; [|by intros p Hp HF; apply (keepsU_task_write p Hp _ _ _ _ _ _ (_, kt_kernel s) _ _ HF E)| | |done].
  - by apply copies_own, window_copies.
  - intros t0 Ht0. exists t0. rewrite insert_id by done. repeat split; [lia|done].
  - pose proof (window_same_user _ _ HW) as [HT _]. intros x. unfold user_byte. cbn in *. rewrite HT.
    by destruct (translate (kt_kernel s) _ _).
Qed.
End steps.
