(* ===== verification/Hello.v ===== *)
(** * A user program from end to end

    Both user programs print a greeting ([hello] of [Shim]): they map a page,
    store the text there and write it to standard output.  This file runs that
    code against the kernel thread: each call goes through the program's IPC
    buffer, the dispatcher and the task's address space. *)

From S2P Require Import Prelude Words Consts Sel4 Sel4Laws RefKernel Externs Reference Messages Uspace ObjAllocator KTask FrameMem UserMem Exec ImageMap KThread NetClient Syscalls KInv Clone Threads Fork Child Dispatch Shim UserStep.

(** The bytes of a range of an address space. *)
Definition vs_range `{Sel4View} (k : kstate) (vs : VS) (addr len : Z) : Frame -> Z -> Prop :=
  fun f o => exists x, addr <= x < addr + len /\ translate k vs (down 4096 x) = Some f /\ o = x mod 4096.

(** What the processor does with a store of the program to mapped memory: the
    bytes of the range change, and nothing else. *)
Definition stores_through `{V : Sel4View} `{TH : !ThreadLaws} (vs : VS) (user_store : Z -> list Z -> M KT unit) : Prop :=
  forall addr bs s, addr mod 4096 + Z.of_nat (length bs) <= 4096 ->
    (forall x, addr <= x < addr + Z.of_nat (length bs) -> user_byte (kt_kernel s) vs x <> None) ->
    exists k', user_store addr bs s = Ret (tt, set_kernel k' s) /\ same_alloc (kt_kernel s) k' /\
      kdiff nowhere1 nowhere (vs_range (kt_kernel s) vs addr (Z.of_nat (length bs))) (kt_kernel s) k' /\
      user_bytes k' vs addr (length bs) = Some bs /\ forall p, fact_holds p (kt_kernel s) -> fact_holds p k'.

Lemma user_bytes_ext `{Sel4View} k k' vs addr n :
  (forall x, user_byte k' vs x = user_byte k vs x) -> user_bytes k' vs addr n = user_bytes k vs addr n.
Proof. intros HE. unfold user_bytes. apply mapM_ext, HE. Qed.

Section hello.
Context `{L : Sel4Laws} `{TH : !ThreadLaws} `{MI : MessageInfoApi} `{MIL : !MessageInfoLaws} `{ML : MemoryAddrLaws}
  `{AX : AxErrno} `{BL : BitflagsLaws} `{SL : SyscallsLaws} `{KE : !KEnv}.
Variables (asp : Z -> VS) (fuel : nat) (ep : CPtr) (badge : Z).
Implicit Types st : ShimS KT.

(** A change of memory contents keeps the invariant. *)
Lemma kt_ok_bytes B s k' :
  kt_ok page_seat asp s -> kdiff nowhere1 nowhere B (kt_kernel s) k' -> kt_ok page_seat asp (set_kernel k' s).
Proof.
  intros [HT HD [S1 S2 S3 S4]] D. split; cbn.
  - intros b t Ht. destruct (HT b t Ht) as [Hok Hv]. split; [|done].
    destruct Hok as [T1 T2 T3 T4]. split; try done.
    + by rewrite (kd_vs _ _ _ _ _ D) by by intros [].
    + intros va c Hc. rewrite (kd_mapping _ _ _ _ _ D), (kd_frame _ _ _ _ _ D) by by intros [].
      rewrite (kd_trans _ _ _ _ _ D) by by intros []. by apply T3.
    + intros va Hn. rewrite (kd_trans _ _ _ _ _ D) by by intros []. by apply T4.
  - done.
  - split; try done; [|by rewrite (kd_empty _ _ _ _ _ D) by by intros []].
    eapply seat_free_kdiff; [exact S1|exact D|by intros []|]. rewrite (kd_trans _ _ _ _ _ D) by by intros []. apply S1.
Qed.

(** A task whose memory is mapped has recorded the pages. *)
Lemma mapped_recorded s t lo len :
  kt_ok page_seat asp s -> kt_tasks s !! badge = Some t ->
  (forall x, lo <= x < lo + len -> user_byte (kt_kernel s) (asp badge) x <> None) -> range_mapped t lo len.
Proof.
  intros HK Ht HM i Hi. destruct (t_mapped_page t !! down 4096 (lo + i)) as [c|] eqn:E; [by exists c|].
  destruct (ko_task _ _ _ HK badge t Ht) as [Hok _]. destruct (HM (lo + i)); [lia|].
  unfold user_byte. by rewrite (to_unmapped _ _ _ _ Hok).
Qed.

(** The message with which a program announces itself. *)
Lemma wp_shim_init st :
  both_wf st ->
  wp (shim_init (kernel_call fuel ep badge)) (fun _ st' => sh_tp st' = sh_tp st /\ TP_REG st' = sh_tp st /\
    EP_CPTR st' = DEFAULT_THREAD_FAULT_EP /\ both_wf st' /\
    exists b, sh_world st' = set_ipc b (sh_world st)) st.
Proof.
  intros [[Hb Hbc] [Hk Hkc]]. unfold shim_init, load_tp_reg. wp_step. wp_step. wp_step. wp_step. wp_step.
  apply wp_sh_call. cbn [sh_ipc sh_world].
  assert (mi_fits (CustomMessageLabel_to_label CML_TestCustomMessage) 0 0 0) as Hfit.
  { unfold mi_fits. vm_compute. intuition discriminate. }
  eexists _, _. split.
  - unfold kernel_call, serve. rewrite (bind_Ret _ _ _ tt _) by reflexivity. cbn [in_message].
    unfold CustomMessageLabel_try_from. rewrite mi_label_new by done. reflexivity.
  - cbn. wp_step. cbn. split_and!; try done.
    + rewrite mi_length_new by done. split; [|done].
      unfold transfer. rewrite mi_length_new by (unfold mi_fits; cbn; lia). done.
    + eexists. reflexivity.
Qed.

(** The user's view of [mmap] at a fixed page. *)
Lemma wp_user_mmap m st t addr :
  both_wf st -> kt_ok page_seat asp (sh_world st) -> kt_tasks (sh_world st) !! badge = Some t ->
  page_aligned addr -> 0 <= addr -> addr + 4096 <= 2 ^ 48 -> addr <> IPC_BUFFER_ADDR ->
  alloc_ok (mmap_cost 4096 + m) (kt_ak (sh_world st)) ->
  wp (vsyscall_handler (kernel_call fuel ep badge) (Sysno_id sys_no_mmap) addr 0x1000 3 16 0 0)
     (fun r st' => r = addr /\ same_thread st st' /\ both_wf st' /\ kt_ok page_seat asp (sh_world st') /\
        is_Some (kt_tasks (sh_world st') !! badge) /\ alloc_ok m (kt_ak (sh_world st')) /\
        kt_console (sh_world st') = kt_console (sh_world st) /\
        zero_fill (asp badge) addr (addr + 4096) (kt_kernel (sh_world st)) (kt_kernel (sh_world st')) /\
        user_step asp badge 1 (sh_world st) (sh_world st')) st.
Proof.
  intros Hwf HK Ht Hal Hge Hend Hne HA.
  assert (up 4096 (addr + 4096) = addr + 4096) as Eup by (apply up_aligned; unfold page_aligned in Hal; dlia).
  eapply wp_mono; [apply (wp_vsyscall fuel ep badge st _ _ _ _ _ _ _
    (fun res s' => res = Ok addr /\ kt_ok page_seat asp s' /\ is_Some (kt_tasks s' !! badge) /\
       alloc_ok m (kt_ak s') /\ kt_console s' = kt_console (sh_world st) /\
       zero_fill (asp badge) addr (addr + 4096) (kt_kernel (sh_world st)) (kt_kernel s') /\
       exists b, user_step asp badge 1 (set_ipc b (sh_world st)) s')); [done| |]|].
  - intros E. apply Sysno_id_inj in E; done.
  - intros b1 Hb1. unfold wp.
    rewrite (dispatch_args _ _ _ _ _ _ _ _ _ _ sys_no_mmap) by (by apply Sysno_new_id).
    destruct (wp_both (sys_mmap badge addr 0x1000 3 16 0 0) _ _ (set_ipc b1 (sh_world st))
      (wp_sys_mmap page_seat asp m (set_ipc b1 (sh_world st)) badge t addr 0x1000 3 16 0 0 16 3 addr
         (kt_ok_set_ipc _ _ _ _ HK) Ht ltac:(by rewrite bf_from_bits_ok) ltac:(by rewrite bf_from_bits_ok)
         ltac:(unfold mmap_start; by rewrite bf_contains_ok) Hge ltac:(lia) ltac:(by rewrite Eup) HA)
      (wp_mmap_step asp badge m (set_ipc b1 (sh_world st)) t addr (kt_ok_set_ipc _ _ _ _ HK) Ht Hal Hge Hend Hne HA))
      as (r & s' & E & (-> & HM & HC & HZ & HA') & HU).
    exists (Ok addr), s'. split; [exact E|]. split; [by rewrite (ms_ipc _ _ _ _ _ HM)|].
    split_and!; try done; [apply HM|by apply (ms_tasks _ _ _ _ _ HM); exists t| |by exists b1].
    rewrite Eup in HZ. by rewrite down_aligned in HZ.
  - intros r st' (HS & HW & res & s' & b' & -> & (-> & HK' & HT' & HA' & HC & HZ & b & HU) & Hw). rewrite Hw.
    split_and!; try done; [by apply kt_ok_set_ipc|by eapply user_step_ipc].
Qed.

(** [write] as a step of the task. *)
Lemma wp_user_write_step m st t fd buf count :
  both_wf st -> kt_ok page_seat asp (sh_world st) -> kt_tasks (sh_world st) !! badge = Some t ->
  fd = STDOUT_FD \/ fd = STDERR_FD -> 0 <= count < 2 ^ 64 -> 0 <= buf -> buf + count < 2 ^ 64 ->
  range_mapped t buf count -> (process_fuel count <= fuel)%nat -> alloc_ok m (kt_ak (sh_world st)) ->
  wp (vsyscall_handler (kernel_call fuel ep badge) (Sysno_id sys_no_write) fd buf count 0 0 0)
     (fun _ st' => user_step asp badge 0 (sh_world st) (sh_world st') /\ alloc_ok m (kt_ak (sh_world st'))) st.
Proof.
  intros Hwf HK Ht Hfd Hc Hb He Hm Hf HA.
  eapply wp_mono; [apply (wp_vsyscall fuel ep badge st _ _ _ _ _ _ _ (fun _ s' =>
    (exists b, user_step asp badge 0 (set_ipc b (sh_world st)) s') /\ alloc_ok m (kt_ak s'))); [done| |]|].
  - intros E. apply Sysno_id_inj in E; done.
  - intros b1 Hb1. unfold wp.
    rewrite (dispatch_args _ _ _ _ _ _ _ _ _ _ sys_no_write) by (by apply Sysno_new_id).
    assert (as_i32 fd = fd) as -> by (by destruct Hfd as [->| ->]).
    destruct (wp_both (sys_write fuel badge fd buf count) _ _ (set_ipc b1 (sh_world st))
      (wp_sys_write asp m (set_ipc b1 (sh_world st)) badge t fuel fd buf count
        (kt_ok_set_ipc _ _ _ _ HK) Ht Hfd Hc Hb He Hm Hf)
      (wp_write_step asp badge (set_ipc b1 (sh_world st)) t fuel fd buf count
        (kt_ok_set_ipc _ _ _ _ HK) Ht Hfd Hc Hb He Hm Hf)) as (r & s' & E & (_ & HM & _ & _ & HA') & HU).
    exists r, s'. split; [exact E|]. split; [by rewrite (ms_ipc _ _ _ _ _ HM)|]. split; [by exists b1|by apply HA'].
  - intros r st' (_ & _ & res & s' & b' & _ & ((b & HU) & HA') & ->). split; [by eapply user_step_ipc|done].
Qed.

(** The greeting: it is printed, and the call is a step of the task. *)
Lemma wp_hello user_store m st t addr :
  stores_through (asp badge) user_store -> both_wf st -> kt_ok page_seat asp (sh_world st) ->
  kt_tasks (sh_world st) !! badge = Some t -> page_aligned addr -> 0 <= addr -> addr + 4096 <= 2 ^ 48 ->
  addr <> IPC_BUFFER_ADDR -> alloc_ok (mmap_cost 4096 + m) (kt_ak (sh_world st)) ->
  (process_fuel (Z.of_nat (length HELLO)) <= fuel)%nat ->
  wp (hello (kernel_call fuel ep badge) user_store addr)
     (fun _ st' => sh_tp st' = sh_tp st /\ TP_REG st' = TP_REG st /\ both_wf st' /\
        kt_ok page_seat asp (sh_world st') /\
        kt_console (sh_world st') = kt_console (sh_world st) ++ HELLO /\
        user_bytes (kt_kernel (sh_world st')) (asp badge) addr (length HELLO) = Some HELLO /\
        user_step asp badge 1 (sh_world st) (sh_world st') /\ alloc_ok m (kt_ak (sh_world st'))) st.
Proof.
  intros Hstore Hwf Hinv Htask Halign Haddr Hend Hne Halloc Hfuel. unfold hello. wp_step.
  eapply wp_mono; [by apply (wp_user_mmap m st t addr)|].
  intros r st2 (-> & (T2 & R2 & _) & W2 & K2 & [t2 Ht2] & A2 & C2 & Z2 & U2). wp_step. wp_step.
  assert (forall x, addr <= x < addr + Z.of_nat (length HELLO) ->
    user_byte (kt_kernel (sh_world st2)) (asp badge) x <> None) as HM.
  { change (Z.of_nat (length HELLO)) with 13. intros x Hx. rewrite Z2.
    destruct (user_byte _ _ x); [done|]. rewrite decide_True; [done|lia]. }
  destruct (Hstore addr HELLO (sh_world st2) ltac:(rewrite Halign; vm_compute; discriminate) HM)
    as (k3 & E3 & S3 & D3 & B3 & F3).
  exists tt, (set_kernel k3 (sh_world st2)). split; [exact E3|]. wp_step.
  assert (kt_ok page_seat asp (set_kernel k3 (sh_world st2))) as K3 by (by eapply kt_ok_bytes).
  assert (range_mapped t2 addr (Z.of_nat (length HELLO))) as HR.
  { eapply mapped_recorded; [exact K3|done|]. intros x Hx. eapply mapped_kdiff; [exact D3|by apply HM]. }
  assert (alloc_ok m (kt_ak (set_kernel k3 (sh_world st2)))) as A3.
  { eapply alloc_ok_kdiff; [exact D3|exact S3|by intros ? []|]. unfold kt_kernel. by rewrite <- surjective_pairing. }
  change (Z.of_nat (length HELLO)) with 13 in *.
  eapply wp_mono.
  - apply wp_both; [apply (wp_user_write asp fuel ep badge _ t2)|apply (wp_user_write_step m _ t2)];
      cbn [sh_world sh_set_world]; try done; try (by left); lia.
  - intros r st4 [(_ & (T4 & R4 & _) & W4 & K4 & (bs & Hbs & C4) & U4) [U5 A5]]. wp_step.
    cbn [sh_tp TP_REG sh_world sh_set_world] in *. change (Z.to_nat 13) with (length HELLO) in Hbs.
    change (kt_kernel (set_kernel k3 (sh_world st2))) with k3 in Hbs, U4.
    assert (bs = HELLO) as -> by congruence.
    split_and!; try congruence; try done.
    + rewrite C4. cbn. by rewrite C2.
    + by rewrite (user_bytes_ext k3).
    + apply (user_step_trans asp badge 1 0 _ (sh_world st2)); [done|].
      apply (user_step_trans asp badge 0 0 _ (set_kernel k3 (sh_world st2))); [|done].
      eapply user_step_store; [apply (so_zero _ _ _ (ko_seat _ _ _ K2))|exact D3|done].
Qed.

(** The announcement and the greeting. *)
Lemma wp_greet user_store m st t addr :
  stores_through (asp badge) user_store -> both_wf st -> kt_ok page_seat asp (sh_world st) ->
  kt_tasks (sh_world st) !! badge = Some t -> page_aligned addr -> 0 <= addr -> addr + 4096 <= 2 ^ 48 ->
  addr <> IPC_BUFFER_ADDR -> alloc_ok (mmap_cost 4096 + m) (kt_ak (sh_world st)) ->
  (process_fuel (Z.of_nat (length HELLO)) <= fuel)%nat ->
  wp (shim_init (kernel_call fuel ep badge) ;; hello (kernel_call fuel ep badge) user_store addr)
     (fun _ st' => sh_tp st' = sh_tp st /\ TP_REG st' = sh_tp st /\ both_wf st' /\
        kt_ok page_seat asp (sh_world st') /\
        kt_console (sh_world st') = kt_console (sh_world st) ++ HELLO /\
        user_bytes (kt_kernel (sh_world st')) (asp badge) addr (length HELLO) = Some HELLO /\
        user_step asp badge 1 (sh_world st) (sh_world st') /\ alloc_ok m (kt_ak (sh_world st'))) st.
Proof.
  intros Hstore Hwf Hinv Htask Halign Haddr Hend Hne Halloc Hfuel.
  wp_step. eapply wp_mono; [apply (wp_shim_init st Hwf)|].
  intros _ st1 (T1 & R1 & _ & W1 & b1 & E1).
  eapply wp_mono; [apply (wp_hello user_store m st1 t addr); try done; rewrite E1; try done; by apply kt_ok_set_ipc|].
  intros _ st2 (T2 & R2 & W2 & K2 & C2 & B2 & U2 & A2). rewrite E1 in C2, U2.
  split_and!; try congruence; try done. destruct U2 as [O F T P N]. by split.
Qed.
End hello.

(** A user program greets the console.  Both programs announce themselves,
    map a page at a fixed address, store the text there and write it to standard
    output.  Run against the kernel thread as the task [badge], with slots and
    memory for one page, this returns; exactly the text is appended to the
    console, it stands at the start of the page in the program's memory, the TLS
    register of the program is what it was, the saved one is that of the program,
    and the kernel thread's invariant holds. *)
Theorem hello_prints `{L : Sel4Laws} `{TH : !ThreadLaws} `{MI : MessageInfoApi} `{MIL : !MessageInfoLaws} `{ML : MemoryAddrLaws}
    `{AX : AxErrno} `{BL : BitflagsLaws} `{SL : SyscallsLaws} `{KE : !KEnv}
    (asp : Z -> VS) (fuel : nat) (ep : CPtr) (badge : Z) (user_store : Z -> list Z -> M KT unit)
    (m : nat) (st : ShimS KT) (t : Sel4Task) (addr : Z)
    (Hstore : stores_through (asp badge) user_store)
    (Hwf : both_wf st) (Hinv : kt_ok page_seat asp (sh_world st))
    (Htask : kt_tasks (sh_world st) !! badge = Some t)
    (Halign : page_aligned addr) (Haddr : 0 <= addr) (Hend : addr + 4096 <= 2 ^ 48)
    (Hne : addr <> IPC_BUFFER_ADDR) (Halloc : alloc_ok (mmap_cost 4096 + m) (kt_ak (sh_world st)))
    (Hfuel : (process_fuel (Z.of_nat (length HELLO)) <= fuel)%nat) :
  wp (shim_init (kernel_call fuel ep badge) ;; hello (kernel_call fuel ep badge) user_store addr)
     (fun _ st' => sh_tp st' = sh_tp st /\ TP_REG st' = sh_tp st /\ both_wf st' /\
        kt_ok page_seat asp (sh_world st') /\
        kt_console (sh_world st') = kt_console (sh_world st) ++ HELLO /\
        user_bytes (kt_kernel (sh_world st')) (asp badge) addr (length HELLO) = Some HELLO) st.
Proof.
  eapply wp_mono; [by apply (wp_greet asp fuel ep badge user_store m st t addr)|]. naive_solver.
Qed.

(** The kernel thread's child greets the console.  Take a state in which
    [test_child] can start the embedded program ([Child]), with slots and memory
    left for one page.  The set-up returns [Ok]; when the program then runs as the
    new task, its announcement and its greeting return, exactly the text is
    appended to the console and stands at 0x1000 in the program's memory, its TLS
    register is what it was, and the kernel thread's invariant holds. *)
Theorem child_greets `{L : Sel4Laws} `{TH : !ThreadLaws} `{MI : MessageInfoApi} `{MIL : !MessageInfoLaws}
    `{ML : MemoryAddrLaws} `{AX : AxErrno} `{BL : BitflagsLaws} `{SL : SyscallsLaws} `{KE : !KEnv}
    (m : nat) (asp : Z -> VS) (ep : CPtr) (phs : list ProgramHeader) (file : ElfInfo) (s : KT)
    (fuel : nat) (user_store : VS -> Z -> list Z -> M KT unit)
    (Hstore : forall vs, stores_through vs (user_store vs)) (Hwf : ipc_wf (kt_ipc s))
    (Hinv : kt_ok page_seat asp s) (Hwin : windows_ok (kt_ak s).1 (kt_ak s).2)
    (Hfits : child_fits phs file) (Hnew : kt_tasks s !! kt_next_id s = None)
    (Hep : slot_used (kt_ak s).1 (kt_kernel s) ep)
    (Hcnode : slot_empty (kt_kernel s) SLOT_CNODE = false)
    (Hprio : 255 <= own_mcp) (Hasid : asid_room (kt_kernel s) <> 0%nat)
    (Halloc : alloc_ok (3 + (child_pages phs * Z.to_nat NUM_LEVELS +
                         (Z.to_nat NUM_LEVELS + (mmap_cost 4096 + m)))) (kt_ak s))
    (Hfuel : (process_fuel (Z.of_nat (length HELLO)) <= fuel)%nat) :
  wp (start_child ep)
     (fun r s' => r = Ok tt /\ exists vs, forall tp tp_reg cptr b, ipc_wf b ->
        let call := kernel_call fuel ep (kt_next_id s) in
        wp (shim_init call ;; hello call (user_store vs) 0x1000)
           (fun _ st' => sh_tp st' = tp /\ kt_console (sh_world st') = kt_console s ++ HELLO /\
              user_bytes (kt_kernel (sh_world st')) vs 0x1000 (length HELLO) = Some HELLO /\
              kt_ok page_seat (asp_add (kt_next_id s) vs asp) (sh_world st'))
           (MkShim tp tp_reg cptr b s')) s.
Proof.
  eapply wp_mono; [by apply (wp_start_child (mmap_cost 4096 + m) asp ep phs file s)|].
  intros r s' (-> & HA & vs & t' & [S1 S2 _ _ _ _ S7 S8]). split; [done|]. exists vs. intros tp tp_reg cptr b Hb call.
  assert (asp_add (kt_next_id s) vs asp (kt_next_id s) = vs) as Evs by (unfold asp_add; by rewrite decide_True).
  eapply wp_mono.
  - apply (wp_greet (asp_add (kt_next_id s) vs asp) fuel ep (kt_next_id s) (user_store vs) m _ t' 0x1000);
      cbn [sh_world]; rewrite ?Evs; try done; [split; cbn; by rewrite ?S7|by rewrite S1, lookup_insert_eq].
  - intros _ st' (T & _ & _ & K & C & U & _). rewrite Evs in U. cbn [sh_world sh_tp] in *. rewrite S8 in C. done.
Qed.

(** ** Witness *)

(** Stores through the translation of the reference kernel. *)
Definition ref_user_store (vs addr : Z) (bs : list Z) : M (@KT ref_sel4) unit := fun s =>
  let k : rk := @kt_kernel ref_sel4 s in
  match bs, rk_trans k !! (vs, down 4096 addr) with
  | [], _ => Ret (tt, @set_kernel ref_sel4 k s)
  | _, Some f =>
      Ret (tt, @set_kernel ref_sel4
        (set_rbytes (<[f := map_seqZ (addr mod 4096) bs ∪ default ∅ (rk_bytes k !! f)]> (rk_bytes k)) k) s)
  | _, None => Panic PFault
  end.

Lemma ref_put_bytes k f o0 bs g o :
  r_byte (set_rbytes (<[f := map_seqZ o0 bs ∪ default ∅ (rk_bytes k !! f)]> (rk_bytes k)) k) g o =
  if decide (g = f /\ o0 <= o < o0 + Z.of_nat (length bs)) then bs !!! Z.to_nat (o - o0) else r_byte k g o.
Proof.
  unfold r_byte. cbn. destruct (decide (g = f)) as [->|].
  - rewrite lookup_insert_eq. cbn [mbind option_bind]. case_decide as Ho.
    + destruct (lookup_lt_is_Some_2 bs (Z.to_nat (o - o0)) ltac:(lia)) as [b Hb].
      rewrite (lookup_union_Some_l _ _ _ b).
      * cbn. symmetry. by apply list_lookup_total_correct.
      * apply lookup_map_seqZ_Some. split; [lia|done].
    + rewrite lookup_union_r; [by destruct (rk_bytes k !! f)|].
      apply lookup_map_seqZ_None. lia.
  - rewrite lookup_insert_ne by done. by rewrite decide_False by naive_solver.
Qed.

Lemma ref_stores_through vs : @stores_through ref_sel4 ref_view ref_threads vs (ref_user_store vs).
Proof.
  intros addr bs s Hlen Hm. set (k := @kt_kernel ref_sel4 s) in *.
  destruct (decide (bs = [])) as [->|Hne].
  { exists k. split; [done|]. split; [done|]. split; [apply kdiff_refl|]. by split. }
  assert (0 < Z.of_nat (length bs)) as Hpos by (destruct bs; [done|simpl; lia]).
  assert (forall x, addr <= x < addr + Z.of_nat (length bs) -> down 4096 x = down 4096 addr) as Hd
    by (intros x Hx; unfold down; dlia).
  specialize (Hm addr ltac:(lia)). unfold user_byte in Hm.
  destruct (@translate ref_sel4 ref_view k vs (down 4096 addr)) as [f|] eqn:Ef; [|done]. clear Hm.
  set (k' := set_rbytes (<[f := map_seqZ (addr mod 4096) bs ∪ default ∅ (rk_bytes k !! f)]> (rk_bytes k)) k).
  exists k'. split; [|split; [done|split]].
  - unfold ref_user_store. cbn in Ef. fold k. rewrite Ef. by destruct bs.
  - split; try done. intros g o Hg. change (r_byte k' g o = r_byte k g o). unfold k'. rewrite ref_put_bytes.
    rewrite decide_False; [done|]. intros [-> Ho]. apply Hg. exists (addr + (o - addr mod 4096)).
    split; [lia|]. rewrite Hd by lia. split; [exact Ef|]. dlia.
  - split; [|by intros []].
    rewrite (@user_bytes_page ref_sel4 ref_view k' vs addr _ f); [|exact Ef|lia].
    f_equal. unfold frame_bytes. apply list_eq_same_length with (length bs);
      rewrite ?length_fmap, ?length_seqZ; try lia.
    intros i x y Hi. rewrite list_lookup_fmap, lookup_seqZ_lt by lia. cbn [fmap option_fmap option_map].
    intros [= <-] Hy.
    change (@fbyte ref_sel4 ref_view k' f (addr mod 4096 + Z.of_nat i)) with (r_byte k' f (addr mod 4096 + Z.of_nat i)).
    unfold k'. rewrite ref_put_bytes, decide_True by lia.
    replace (addr mod 4096 + Z.of_nat i - addr mod 4096) with (Z.of_nat i) by lia. rewrite Nat2Z.id.
    by apply list_lookup_total_correct.
Qed.

Lemma hello_prints_witness :
  exists st', (shim_init (@kernel_call ref_sel4 packed_message_info ref_memory_addr ref_axerrno ref_bitflags
         ref_syscalls ref_kenv 3 20 1) ;;
      @hello packed_message_info ref_syscalls _ (@kernel_call ref_sel4 packed_message_info ref_memory_addr
         ref_axerrno ref_bitflags ref_syscalls ref_kenv 3 20 1) (ref_user_store 5) 0x1000)
      (MkShim 0x1234 0x5678 18 blank_ipc (ref_kt 200)) = Ret (tt, st') /\
    sh_tp st' = 0x1234 /\ @kt_console ref_sel4 (sh_world st') = HELLO.
Proof.
  destruct (@hello_prints ref_sel4 ref_view ref_laws ref_threads packed_message_info
    packed_message_info_laws ref_memory_addr ref_memory_addr_laws ref_axerrno ref_bitflags ref_bitflags_laws
    ref_syscalls ref_syscalls_laws ref_kenv (fun _ => 5) 3 20 1 (ref_user_store 5) 0
    (MkShim 0x1234 0x5678 18 blank_ipc (ref_kt 200)) ref_user_task 0x1000)
    as ([] & st' & E & Htp & _ & _ & _ & Hcon & _).
  - apply ref_stores_through.
  - split; apply blank_ipc_wf.
  - apply ref_kt_ok.
  - reflexivity.
  - reflexivity.
  - lia.
  - lia.
  - discriminate.
  - apply (ref_kt_alloc 100); vm_compute; lia.
  - vm_compute. lia.
  - exists st'. split; [exact E|]. split; [exact Htp|]. rewrite Hcon. reflexivity.
Defined.

#[local] Existing Instances ref_sel4 packed_message_info ref_kenv.

Lemma child_greets_witness :
  wp (@start_child ref_sel4 packed_message_info ref_kenv 40)
     (fun r s' => r = Ok tt /\ exists vs,
        wp (shim_init (@kernel_call ref_sel4 packed_message_info ref_memory_addr ref_axerrno ref_bitflags
              ref_syscalls ref_kenv 3 40 2) ;;
            @hello packed_message_info ref_syscalls _ (@kernel_call ref_sel4 packed_message_info
              ref_memory_addr ref_axerrno ref_bitflags ref_syscalls ref_kenv 3 40 2) (ref_user_store vs) 0x1000)
           (fun _ st' => @kt_console ref_sel4 (sh_world st') = HELLO)
           (MkShim 0 0 0 blank_ipc s'))
     (ref_kt 200).
Proof.
  pose proof (ref_umem_ok 200 50 1024 26 ltac:(lia)) as [T S V].
  eapply wp_mono.
  - apply (@child_greets ref_sel4 ref_view ref_laws ref_threads packed_message_info packed_message_info_laws
      ref_memory_addr ref_memory_addr_laws ref_axerrno ref_bitflags ref_bitflags_laws ref_syscalls
      ref_syscalls_laws ref_kenv 0 (fun _ => 5) 40 ref_child_phs ref_child_elf (ref_kt 200) 3 ref_user_store);
      [intros vs; apply ref_stores_through|apply blank_ipc_wf|apply ref_kt_ok| |apply ref_child_fits|reflexivity
      |split; [reflexivity|unfold alloc_range; cbn; lia]|reflexivity|cbn; lia|discriminate|apply (ref_kt_alloc 100); vm_compute; lia|vm_compute; lia].
    split; [exact S| |vm_compute; discriminate]. split; try (vm_compute; reflexivity). cbn. lia.
  - intros r s' (-> & vs & H). split; [reflexivity|]. exists vs.
    eapply wp_mono; [apply (H 0 0 0 blank_ipc blank_ipc_wf)|]. intros _ st' (_ & C & _). exact C.
Defined.
