(* ===== verification/Program.v ===== *)
(** * The test program up to its fork ([crates/test-thread/src/main.rs])

    [main] of the test program greets the console, puts the arguments of [clone]
    on its stack and clones itself. *)

From S2P Require Import Prelude Words Consts Sel4 Sel4Laws RefKernel Externs Reference Messages Uspace ObjAllocator KTask FrameMem UserMem Exec ImageMap KThread NetClient Syscalls KInv Clone Threads Fork Child Dispatch Shim UserStep Hello.

(** The program's variable for the arguments of [clone]: its address and the bytes
    of a value. *)
Definition place_at {W} (user_store : Z -> list Z -> M W unit) (sp : Z) (bytes : CloneArgs -> list Z)
    (args : CloneArgs) : M W Z :=
  user_store sp (bytes args) ;; mret sp.

(** The task may greet and fork: it runs, its variable is in one mapped page, the
    page of a new IPC buffer and the next id are free, and there are slots, memory
    and an ASID for the greeting's page, for a copy of the task and for [m] more
    objects. *)
Record may_fork `{Sel4View} `{TH : !ThreadLaws} `{MI : MessageInfoApi} `{KE : !KEnv} (asp : Z -> VS) (badge : Z)
    (ep : CPtr) (t : Sel4Task) (ctx : UserContext) (sp : Z) (bytes : list Z) (m : nat) (s : KT) : Prop := {
  mf_inv : kt_ok page_seat asp s;
  mf_task : kt_tasks s !! badge = Some t;
  mf_badge : badge <> 0;
  mf_clone : cloneable (asp badge) t ctx ep (kt_ak s).1 (kt_ak s).2;
  mf_next : kt_tasks s !! kt_next_id s = None;
  mf_prio : 255 <= own_mcp;
  mf_asid : asid_room (kt_kernel s) <> 0%nat;
  mf_alloc : alloc_ok (mmap_cost 4096 + (3 + (S (size (t_mapped_page t)) * Z.to_nat NUM_LEVELS +
    (Z.to_nat NUM_LEVELS + m)))) (kt_ak s);
  mf_sp : 0 < sp /\ sp mod 4096 + ke_clone_size <= 4096 /\ sp + ke_clone_size < 2 ^ 64;
  mf_mapped x : sp <= x < sp + ke_clone_size -> user_byte (kt_kernel s) (asp badge) x <> None;
  mf_bytes : Z.of_nat (length bytes) = ke_clone_size /\ ke_parse_clone_args bytes = CloneArgs_default;
}.

Section program.
Context `{L : Sel4Laws} `{TH : !ThreadLaws} `{MI : MessageInfoApi} `{MIL : !MessageInfoLaws} `{ML : MemoryAddrLaws}
  `{AX : AxErrno} `{BL : BitflagsLaws} `{SL : SyscallsLaws} `{KE : !KEnv}.
Variables (asp : Z -> VS) (badge : Z).

(** A step of the task keeps what a clone needs. *)
Lemma cloneable_step d t ctx ep s s' :
  user_step asp badge d s s' -> kt_ok page_seat asp s -> kt_ok page_seat asp s' -> kt_tasks s !! badge = Some t ->
  cloneable (asp badge) t ctx ep (kt_ak s).1 (kt_ak s).2 ->
  exists t', kt_tasks s' = <[badge := t']> (kt_tasks s) /\
    (size (t_mapped_page t') <= size (t_mapped_page t) + d)%nat /\
    cloneable (asp badge) t' ctx ep (kt_ak s').1 (kt_ak s').2.
Proof.
  intros [O F T _ N] HK HK' Ht [C1 C2 [run C3] C4 C5 C6].
  destruct (T t Ht) as (t' & Et & Ec & Ez & Ei). exists t'. split; [done|]. split; [done|].
  destruct (ko_task _ _ _ HK badge t Ht) as [_ Hown].
  destruct (ko_task _ _ _ HK' badge t') as [Hok _]; [by rewrite Et, lookup_insert_eq|].
  pose proof (so_zero _ _ _ (ko_seat _ _ _ HK)) as Hz. split; try done; [by apply Ei| | | |].
  - exists run. rewrite Ec. apply (F (FTcb (t_tcb t) (ctx, run))); [|done]. cbn. intros E.
    rewrite E in C3. apply tcb_not_empty in C3. unfold kt_kernel in *. congruence.
  - by apply (own_step_used _ _ _ _ _ _ O).
  - by apply (own_step_used _ _ _ _ _ _ O).
  - by apply (own_step_windows _ _ _ _ _ Hown O).
Qed.

(** The fork through the program's own system call path. *)
Lemma wp_user_clone fuel ep m t ctx args bytes (st : ShimS KT) :
  both_wf st -> kt_ok page_seat asp (sh_world st) -> kt_tasks (sh_world st) !! badge = Some t -> badge <> 0 ->
  cloneable (asp badge) t ctx ep (kt_ak (sh_world st)).1 (kt_ak (sh_world st)).2 ->
  kt_tasks (sh_world st) !! kt_next_id (sh_world st) = None -> 255 <= own_mcp ->
  asid_room (kt_kernel (sh_world st)) <> 0%nat ->
  alloc_ok (3 + (size (t_mapped_page t) * Z.to_nat NUM_LEVELS + (Z.to_nat NUM_LEVELS + m))) (kt_ak (sh_world st)) ->
  0 < args -> args + ke_clone_size < 2 ^ 64 -> 0 <= ke_clone_size ->
  read_item_spec (kt_kernel (sh_world st)) (asp badge) args ke_clone_size = Ok bytes ->
  ke_parse_clone_args bytes = CloneArgs_default ->
  wp (vsyscall_handler (kernel_call fuel ep badge) (Sysno_id sys_no_clone) args 0 0 0 0 0)
     (fun r st' => r = badge /\ same_thread st st' /\ exists b b' s' vs t', sh_world st' = set_ipc b' s' /\
        forked asp badge ctx CloneArgs_default (set_ipc b (sh_world st)) s' vs t' /\ alloc_ok m (kt_ak s')) st.
Proof.
  intros Hwf HK Ht Hb HC Hn Hp Ha HA Hargs Hend Hsz Hread Hparse.
  eapply wp_mono; [apply (clone_result_lost fuel ep badge st args 0 (fun _ s' => alloc_ok m (kt_ak s') /\
    exists b vs t', forked asp badge ctx CloneArgs_default (set_ipc b (sh_world st)) s' vs t')); [done|done|]|].
  - intros b Hwfb. eapply wp_mono.
    + apply (wp_sys_clone m asp badge t ctx ep args 0 bytes 0); try done;
        [by apply kt_ok_set_ipc|rewrite Hparse; by rewrite bf_from_bits_ok|by rewrite bf_contains_ok].
    + intros r s' (_ & HA' & vs & t' & HF). rewrite Hparse in HF.
      split; [by rewrite (fk_ipc _ _ _ _ _ _ _ _ HF)|]. split; [done|]. by exists b, vs, t'.
  - intros r st' (-> & HS & _ & s' & b' & (HA' & b & vs & t' & HF) & Hw). split; [done|]. split; [done|].
    by exists b, b', s', vs, t'.
Qed.

(** The state in which the program calls [clone]. *)
Lemma wp_before_clone ep t ctx sp bytes m fuel user_store st :
  may_fork asp badge ep t ctx sp (bytes CloneArgs_default) m (sh_world st) ->
  stores_through (asp badge) user_store -> both_wf st ->
  (process_fuel (Z.of_nat (length HELLO)) <= fuel)%nat ->
  wp (shim_init (kernel_call fuel ep badge) ;; hello (kernel_call fuel ep badge) user_store 0x1000 ;;
      zoom sh_world sh_set_world (place_at user_store sp bytes CloneArgs_default))
     (fun args st' => args = sp /\ sh_tp st' = sh_tp st /\ both_wf st' /\ kt_ok page_seat asp (sh_world st') /\
        kt_console (sh_world st') = kt_console (sh_world st) ++ HELLO /\
        user_step asp badge 1 (sh_world st) (sh_world st') /\
        alloc_ok (3 + (S (size (t_mapped_page t)) * Z.to_nat NUM_LEVELS + (Z.to_nat NUM_LEVELS + m)))
          (kt_ak (sh_world st')) /\
        read_item_spec (kt_kernel (sh_world st')) (asp badge) sp ke_clone_size = Ok (bytes CloneArgs_default)) st.
Proof.
  intros [M1 M2 M3 M4 M5 M6 M7 M8 (M9 & M9a & M9b) M10 [M11 M12]] Hstore Hwf Hfuel.
  destruct (wp_greet asp fuel ep badge user_store _ st t 0x1000 Hstore Hwf M1 M2 eq_refl ltac:(lia) ltac:(lia)
    ltac:(done) M8 Hfuel) as ([] & st1 & E1 & T1 & _ & W1 & K1 & C1 & _ & U1 & A1).
  ibind E1 as u st0 E0. apply wp_bind. exists u, st0. split; [exact E0|]. apply wp_bind. exists tt, st1. split; [exact E1|].
  destruct (Hstore sp (bytes CloneArgs_default) (sh_world st1)) as (k2 & E2 & S2 & D2 & B2 & F2); [lia| |].
  { intros x Hx. apply (us_mapped _ _ _ _ _ U1), M10. lia. }
  wp_step. unfold place_at. wp_step. exists tt, (set_kernel k2 (sh_world st1)). split; [exact E2|]. wp_step.
  cbn [sh_world sh_set_world]. split_and!; try done.
  - by eapply kt_ok_bytes.
  - apply (user_step_trans asp badge 1 0 _ (sh_world st1)); [done|].
    eapply user_step_store; [apply (so_zero _ _ _ (ko_seat _ _ _ K1))|exact D2|done].
  - eapply alloc_ok_kdiff; [exact D2|exact S2|by intros ? []|]. unfold kt_kernel. by rewrite <- surjective_pairing.
  - unfold read_item_spec. rewrite (proj2 (Z.ltb_ge _ _)) by lia.
    change (kt_kernel (set_kernel k2 (sh_world st1))) with k2. rewrite <- M11, Nat2Z.id. by rewrite B2.
Qed.
End program.


(** ** Witness *)

#[local] Existing Instances ref_sel4 ref_view packed_message_info ref_kenv.

Lemma ref_may_fork :
  may_fork (TH := ref_threads) (fun _ => 5) 1 40 ref_user_task (MkCtx 0x200100 0x1fffff000 {[0 := 7]} 0) 0x5100
    (replicate 56 0) 0 (ref_kt 200).
Proof.
  pose proof (ref_umem_ok 200 50 1024 26 ltac:(lia)) as [T S V].
  split; [apply ref_kt_ok|reflexivity|discriminate| |reflexivity|cbn; lia|discriminate
    |apply (ref_kt_alloc 100); vm_compute; lia|vm_compute; intuition discriminate| |split; reflexivity].
  - split; [exact T|reflexivity|by exists false| | |]; [split; [reflexivity|unfold alloc_range; cbn; lia]..|].
    split; [exact S| |vm_compute; discriminate]. split; try (vm_compute; reflexivity). cbn. lia.
  - intros x Hx. unfold user_byte. assert (down 4096 x = 0x5000) as -> by (cbn in Hx; unfold down; dlia). done.
Qed.

