(* ===== verification/Boot.v ===== *)
(** * The kernel thread from its entry point
      ([kernel-thread/src/main.rs], [kernel-thread/src/irq_test.rs])

    [main] initialises the object allocator, registers for an interrupt whose
    handler capability the root task sends it, and starts its child.  [Irq] has
    the same registration as a program among the other threads; here it is the
    step of the kernel thread's own state. *)

From S2P Require Import Prelude Words Consts Sel4 Sel4Laws RefKernel Externs Reference Messages Uspace ObjAllocator KTask FrameMem UserMem Exec ImageMap KThread NetClient Syscalls KInv Clone Threads Fork Child Dispatch Shim UserStep Hello.

(** Receiving with a receive slot, replying, interrupt handlers and waiting. *)
Class IrqOps `{Sel4} `{MessageInfoApi} := {
  irq_recv : CPtr -> CPtr -> IpcBuffer -> kstate -> IpcBuffer * kstate;
  irq_reply : MessageInfo -> IpcBuffer -> kstate -> kstate;
  irq_handler_set_notification : CPtr -> CPtr -> kstate -> result unit Error * kstate;
  irq_handler_ack : CPtr -> kstate -> result unit Error * kstate;
  ntfn_wait : CPtr -> kstate -> kstate;
}.

Section model.
Context `{K : Sel4} `{MI : MessageInfoApi} `{MA : MemoryAddr} `{AX : AxErrno}
  `{BF : Bitflags} `{SC : SyscallsCrate} `{KE : !KEnv} `{IO : !IrqOps}.

Definition boot_call (ep : CPtr) (mi : MessageInfo) : M KT unit :=
  modify (fun s => let '(b, k) := ke_call ep mi (kt_ipc s) (kt_kernel s) in set_ipc b (set_kernel k s)).

(** [test_irq_with_cap_transfer] *)
Definition register_irq : M KT unit :=
  notification ← on_alloc (allocate_and_retyped_fixed_sized BpNotification);
  mi ← on_ipc (RootMessageLabel_build (RML_RegisterIRQWithCap SERIAL_DEVICE_IRQ));
  boot_call DEFAULT_THREAD_FAULT_EP mi ;;
  modify (fun s =>
    let '(b, k) := irq_recv DEFAULT_THREAD_IRQ_EP DEFAULT_THREAD_RECV_SLOT (kt_ipc s) (kt_kernel s) in
    set_ipc b (set_kernel k s)) ;;
  modify (fun s => set_kernel (irq_reply (mi_new 0 0 0 0) (kt_ipc s) (kt_kernel s)) s) ;;
  on_kernel (kcall_unwrap (irq_handler_set_notification DEFAULT_THREAD_RECV_SLOT notification)) ;;
  on_kernel (kcall_unwrap (irq_handler_ack DEFAULT_THREAD_RECV_SLOT)) ;;
  modify (fun s => set_kernel (ntfn_wait notification (kt_kernel s)) s).

(** [OBJ_ALLOCATOR.lock().init(..)] *)
Definition init_allocator : M KT unit :=
  modify (fun s => set_ak (ObjectAllocator_init DEFAULT_EMPTY_SLOT_INDEX KERNEL_THREAD_SLOT_NUMS
    DEFAULT_CUSTOM_SLOT (kt_ak s).1, kt_kernel s) s).

(** The end of [main]: the thread suspends itself. *)
Definition goodbye (rs : list served) : M KT (list served) :=
  (match last rs with
   | Some ExitLoop => on_kernel (kcall_unwrap (tcb_suspend 1))
   | _ => mret tt
   end) ;;
  mret rs.

(** [main]; [test_child] against the messages it receives, which it stops taking
    after an exit message. *)
Definition kernel_main (fuel : nat) (msgs : list Incoming) : M KT (list served) :=
  init_allocator ;;
  register_irq ;;
  ep ← on_alloc (allocate_and_retyped_fixed_sized BpEndpoint);
  r ← test_child fuel ep msgs;
  rs ← unwrap_r r;
  goodbye rs.
End model.

(** ** What the kernel and the root task do *)

(** Slots that hold a notification, and an interrupt handler. *)
Class IrqView `{Sel4View} := {
  is_ntfn : kstate -> CPtr -> bool;
  is_handler : kstate -> CPtr -> bool;
}.

(** A step that changes the slots [C] at most. *)
Record irq_step `{V : Sel4View} `{TH : !ThreadLaws} `{IV : !IrqView} (C : CPtr -> Prop) (k k' : kstate) : Prop := {
  is_diff : kdiff C nowhere nowhere k k';
  is_alloc : same_alloc k k';
  is_asid : asid_room k' = asid_room k;
  is_ntfn_kept c : ~ C c -> is_ntfn k c = true -> is_ntfn k' c = true;
  is_handler_kept c : ~ C c -> is_handler k c = true -> is_handler k' c = true;
}.

(** Message passing leaves memory and capabilities alone, up to the slot a
    capability is received in.  A registration is answered by the root task, which
    then sends the handler. *)
Class IrqLaws `{V : Sel4View} `{TH : !ThreadLaws} `{MI : MessageInfoApi} `{KE : !KEnv} `{IO : !IrqOps}
    `{IV : !IrqView} : Prop := {
  new_ntfn k u c s k' :
    untyped_retype u BpNotification (relative_bits_with_depth SLOT_CNODE c 52) s 1 k = (Ok tt, k') ->
    is_ntfn k' (c * 4096 + s) = true;
  register_call_ok mi b k irq :
    ipc_wf b -> RootMessageLabel_try_from mi (msg_regs b) = Ret (Some (RML_RegisterIRQWithCap irq)) ->
    exists b' k', ke_call DEFAULT_THREAD_FAULT_EP mi b k = (b', k') /\ ipc_wf b' /\ irq_step nowhere1 k k';
  irq_recv_ok slot b k :
    ipc_wf b -> slot_empty k slot = true ->
    exists b' k', irq_recv DEFAULT_THREAD_IRQ_EP slot b k = (b', k') /\ ipc_wf b' /\
      irq_step (only slot) k k' /\ is_handler k' slot = true;
  irq_reply_ok mi b k : irq_step nowhere1 k (irq_reply mi b k);
  set_notification_ok k h n :
    is_handler k h = true -> is_ntfn k n = true ->
    exists k', irq_handler_set_notification h n k = (Ok tt, k') /\ irq_step nowhere1 k k';
  ack_ok k h :
    is_handler k h = true -> exists k', irq_handler_ack h k = (Ok tt, k') /\ irq_step nowhere1 k k';
  ntfn_wait_ok k n : is_ntfn k n = true -> irq_step nowhere1 k (ntfn_wait n k);
}.

(** ** From the entry point to the child *)

Section boot.
Context `{L : Sel4Laws} `{TH : !ThreadLaws} `{MI : MessageInfoApi} `{MIL : !MessageInfoLaws} `{KE : !KEnv}
  `{IO : !IrqOps} `{IV : !IrqView} `{IL : !IrqLaws}.

Lemma irq_step_trans (C : CPtr -> Prop) k1 k2 k3 : irq_step C k1 k2 -> irq_step C k2 k3 -> irq_step C k1 k3.
Proof.
  intros [D1 A1 S1 N1 I1] [D2 A2 S2 N2 I2]. split; [by eapply kdiff_trans|by eapply same_alloc_trans|congruence|auto..].
Qed.

Lemma irq_step_weaken (C C' : CPtr -> Prop) k k' : (forall c, C c -> C' c) -> irq_step C k k' -> irq_step C' k k'.
Proof.
  intros HC [D A S N I]. split; try done; [|intros c Hc; apply N; naive_solver|intros c Hc; apply I; naive_solver].
  eapply kdiff_weaken, D; by auto.
Qed.

(** The state after some allocations of objects that are not frames, and after
    the receipt of a capability into the last slot of the range. *)
Record boot_step (a a' : ObjectAllocator) (k k' : kstate) : Prop := {
  bs_bump : exists j, a' = bump_by j a;
  bs_diff : kdiff (alloc_range a) nowhere nowhere k k';
  bs_asid : asid_room k' = asid_room k;
}.

Lemma boot_step_trans a1 a2 a3 k1 k2 k3 :
  boot_step a1 a2 k1 k2 -> boot_step a2 a3 k2 k3 -> boot_step a1 a3 k1 k3.
Proof.
  intros [[i ->] D1 S1] [[j ->] D2 S2]. split; [|eapply kdiff_trans; [exact D1|]|congruence].
  - exists (i + j)%nat. unfold bump_by. cbn. f_equal. lia.
  - eapply kdiff_weaken, D2; try done. unfold alloc_range, bump_by. cbn. lia.
Qed.

Lemma irq_boot_step C a k k' : (forall c, C c -> alloc_range a c) -> irq_step C k k' -> boot_step a a k k'.
Proof.
  intros HC [D _ S _ _]. split; [exists 0%nat; by destruct a; unfold bump_by; cbn; rewrite Z.add_0_r| |done].
  eapply kdiff_weaken, D; by auto.
Qed.

Lemma boot_windows a a' k k' : boot_step a a' k k' -> windows_ok a k -> windows_ok a' k'.
Proof.
  intros [[j ->] D _] [[S1 S2 S3 S4] E N]. split; [split|..]; try done.
  - eapply seat_free_kdiff; [exact S1|exact D|done|]. rewrite (kd_trans _ _ _ _ _ D) by by intros []. apply S1.
  - intros Hr. apply S2. unfold alloc_range, bump_by in *. cbn in *. lia.
  - by rewrite (kd_empty _ _ _ _ _ D).
  - intros Hr. apply S4. unfold alloc_range, bump_by in *. cbn in *. lia.
  - eapply seat_free_kdiff; [exact E|exact D|done|]. rewrite (kd_trans _ _ _ _ _ D) by by intros []. apply E.
Qed.

(** One allocation of such an object. *)
Lemma boot_allocate n bp a k :
  (bp = BpNotification \/ bp = BpEndpoint) -> alloc_ok (S n) (a, k) ->
  exists k', allocate_and_retype bp (a, k) = Ret (slots_start a, (bump a, k')) /\ alloc_ok n (bump a, k') /\
    boot_step a (bump a) k k' /\ kdiff (only (slots_start a)) nowhere nowhere k k' /\
    slot_empty k' (slots_start a) = false /\ (bp = BpNotification -> is_ntfn k' (slots_start a) = true).
Proof.
  intros Hbp HA. pose proof (ao_range _ _ HA) as [H0 Hr]. cbn in H0, Hr.
  destruct (wp_allocate n bp a k (fun p s => p = slots_start a /\ s.1 = bump a /\ alloc_ok n s /\
    retyped bp (slots_start a) k s.2 /\ slot_empty s.2 (slots_start a) = false)
    HA) as (p & [a' k'] & E & -> & Ea & HA' & HR & He); [by intros|]. cbn in *. subst a'.
  assert (kdiff (only (slots_start a)) nowhere nowhere k k') as D by (by destruct Hbp as [-> | ->]).
  exists k'. split_and!; try done.
  - split; [by exists 1%nat| |].
    + eapply kdiff_weaken, D; try done. intros c ->. unfold alloc_range. lia.
    + apply (keepsA_allocate (FAsid (asid_room k)) ltac:(done) bp (a, k) _ _ eq_refl E).
  - intros ->. destruct (allocate_retyped _ _ _ _ _ H0 E) as (k1 & Ek & _).
    rewrite <- (slot_parts a). by eapply new_ntfn.
Qed.

(** The registration returns, and leaves the rest of the state as it was. *)
Lemma wp_register_irq m a k s :
  kt_ak s = (a, k) -> ipc_wf (kt_ipc s) -> alloc_ok (S m) (a, k) -> slots_end a = KERNEL_THREAD_SLOT_NUMS ->
  slots_start a + Z.of_nat (S m) <= DEFAULT_THREAD_RECV_SLOT -> slot_empty k DEFAULT_THREAD_RECV_SLOT = true ->
  wp register_irq (fun _ s' => exists b k', s' = set_ipc b (set_ak (bump a, k') s) /\ ipc_wf b /\
    alloc_ok m (bump a, k') /\ boot_step a (bump a) k k' /\ is_handler k' DEFAULT_THREAD_RECV_SLOT = true) s.
Proof.
  intros Es Hb HA Hend Hm Hrecv.
  destruct (boot_allocate m BpNotification a k (or_introl eq_refl) HA) as (k1 & E1 & A1 & B1 & D1 & _ & N1).
  specialize (N1 eq_refl). assert (slots_start a <> DEFAULT_THREAD_RECV_SLOT) as Hne by lia.
  unfold register_irq, on_alloc, allocate_and_retyped_fixed_sized. wp_step. wp_step. rewrite Es.
  eexists _, _. split; [exact E1|]. wp_step. unfold on_ipc. wp_step.
  change (kt_ipc (set_ak _ s)) with (kt_ipc s).
  destruct (p_build_ok (L := RootMessageLabel) (RML_RegisterIRQWithCap SERIAL_DEVICE_IRQ) (kt_ipc s))
    as (mi & b2 & E2 & _ & Hdec & Hb2 & _ & _); [vm_compute; intuition discriminate|done|].
  exists mi, b2. split; [exact E2|].
  destruct (register_call_ok mi b2 k1 _ Hb2 Hdec) as (b3 & k3 & E3 & Hb3 & S3).
  wp_step. unfold boot_call. wp_step. cbn. rewrite E3. wp_step. wp_step. cbn.
  destruct (irq_recv_ok DEFAULT_THREAD_RECV_SLOT b3 k3 Hb3) as (b4 & k4 & E4 & Hb4 & S4 & H4).
  { rewrite (kd_empty _ _ _ _ _ (is_diff _ _ _ S3)) by (by intros []).
    rewrite (kd_empty _ _ _ _ _ D1); [done|]. unfold only. congruence. }
  rewrite E4. wp_step. wp_step. cbn.
  pose proof (irq_reply_ok (mi_new 0 0 0 0) b4 k4) as S5. set (k5 := irq_reply _ _ k4) in *.
  assert (is_ntfn k5 (slots_start a) = true) as N5.
  { apply (is_ntfn_kept _ _ _ S5); [by intros []|]. apply (is_ntfn_kept _ _ _ S4); [done|].
    apply (is_ntfn_kept _ _ _ S3); [by intros []|done]. }
  assert (is_handler k5 DEFAULT_THREAD_RECV_SLOT = true) as H5
    by (apply (is_handler_kept _ _ _ S5); [by intros []|done]).
  destruct (set_notification_ok k5 _ _ H5 N5) as (k6 & E6 & S6).
  wp_step. unfold on_kernel. wp_step. cbn. eapply wp_kcall_unwrap; [exact E6|].
  destruct (ack_ok k6 DEFAULT_THREAD_RECV_SLOT) as (k7 & E7 & S7);
    [by apply (is_handler_kept _ _ _ S6); [by intros []|]|].
  wp_step. wp_step. cbn. eapply wp_kcall_unwrap; [exact E7|].
  pose proof (ntfn_wait_ok k7 (slots_start a)) as S8. set (k8 := ntfn_wait _ k7) in *.
  assert (is_ntfn k7 (slots_start a) = true) as N7 by
    (apply (is_ntfn_kept _ _ _ S7); [by intros []|]; by apply (is_ntfn_kept _ _ _ S6); [by intros []|]).
  specialize (S8 N7). wp_step. cbn.
  assert (irq_step nowhere1 k4 k8) as S48 by (by repeat (eapply irq_step_trans; [eassumption|])).
  assert (irq_step (only DEFAULT_THREAD_RECV_SLOT) k1 k8) as S18.
  { eapply irq_step_trans; [by eapply irq_step_weaken, S3; intros ? []|].
    eapply irq_step_trans; [exact S4|]. by eapply irq_step_weaken, S48; intros ? []. }
  exists b4, k8. split; [reflexivity|]. split; [done|]. split; [|split].
  - eapply alloc_ok_next; [apply S18|apply S18| |exact A1]. unfold only. cbn. intros c ->. lia.
  - eapply boot_step_trans; [exact B1|]. eapply irq_boot_step, S18. intros c ->. unfold alloc_range. cbn.
    rewrite Hend. unfold DEFAULT_THREAD_RECV_SLOT in *. lia.
  - apply (is_handler_kept _ _ _ S48); [by intros []|done].
Qed.

(** The allocator as [main] initialises it. *)
Definition boot_allocator : ObjectAllocator :=
  ObjectAllocator_init DEFAULT_EMPTY_SLOT_INDEX KERNEL_THREAD_SLOT_NUMS DEFAULT_CUSTOM_SLOT ObjectAllocator_empty.

(** The endpoint of the child: the second object after the notification. *)
Definition CHILD_EP : CPtr := DEFAULT_EMPTY_SLOT_INDEX + 1.

(** The state before [test_child]. *)
Lemma boot_reaches m s :
  windows_ok boot_allocator (kt_kernel s) -> ipc_wf (kt_ipc s) ->
  alloc_ok (2 + m) (boot_allocator, kt_kernel s) ->
  DEFAULT_EMPTY_SLOT_INDEX + Z.of_nat (2 + m) <= DEFAULT_THREAD_RECV_SLOT ->
  slot_empty (kt_kernel s) DEFAULT_THREAD_RECV_SLOT = true ->
  exists b k, let sb := set_ipc b (set_ak (bump_by 2 boot_allocator, k) s) in
    (forall A (f : CPtr -> M KT A), (init_allocator ;; register_irq ;;
       ep ← on_alloc (allocate_and_retyped_fixed_sized BpEndpoint); f ep) s = f CHILD_EP sb) /\
    ipc_wf b /\ alloc_ok m (kt_ak sb) /\ boot_step boot_allocator (bump_by 2 boot_allocator) (kt_kernel s) k /\
    slot_used (bump_by 2 boot_allocator) k CHILD_EP.
Proof.
  intros Hwin Hb HA Hm Hrecv. set (s1 := set_ak (boot_allocator, kt_kernel s) s).
  destruct (wp_register_irq (S m) boot_allocator (kt_kernel s) s1) as ([] & s2 & E2 & b & k2 & -> & Hb2 & A2 & B2 & H2);
    try done.
  destruct (boot_allocate m BpEndpoint (bump boot_allocator) k2 (or_intror eq_refl) A2)
    as (k3 & E3 & A3 & B3 & D3 & He & _).
  exists b, k3. split_and!; try done.
  - intros A f. rewrite (bind_Ret _ _ _ tt s1) by done. rewrite (bind_Ret _ _ _ _ _ E2).
    unfold mbind, M_bind, on_alloc, zoom, allocate_and_retyped_fixed_sized. cbn [kt_ak set_ipc set_ak].
    by rewrite E3.
  - by eapply boot_step_trans.
  - split; [done|]. unfold alloc_range, bump_by, CHILD_EP. cbn. lia.
Qed.

(** [main] once the set-up of the child has returned. *)
Lemma test_child_serves `{MA : MemoryAddr} `{AX : AxErrno} `{BF : Bitflags} `{SC : SyscallsCrate} fuel ep msgs s s1 :
  start_child ep s = Ret (Ok tt, s1) ->
  (r ← test_child fuel ep msgs; rs ← unwrap_r r; goodbye rs) s = (rs ← service_loop fuel ep msgs; goodbye rs) s1.
Proof.
  intros E. unfold test_child, mbind, M_bind. rewrite E. by destruct (service_loop fuel ep msgs s1) as [[rs s2]| | |].
Qed.
End boot.

(** What the thread needs when it is started: no task yet, the two windows, the
    slots, memory and ASID for the child and for [m] more objects, all before the
    slot it receives the interrupt handler in. *)
Record bootable `{Sel4View} `{TH : !ThreadLaws} `{MI : MessageInfoApi} `{KE : !KEnv} (phs : list ProgramHeader)
    (file : ElfInfo) (m : nat) (s : KT) : Prop := {
  bo_tasks : kt_tasks s = ∅;
  bo_ipc : ipc_wf (kt_ipc s);
  bo_windows : windows_ok boot_allocator (kt_kernel s);
  bo_recv : slot_empty (kt_kernel s) DEFAULT_THREAD_RECV_SLOT = true;
  bo_cnode : slot_used boot_allocator (kt_kernel s) SLOT_CNODE;
  bo_prio : 255 <= own_mcp;
  bo_asid : asid_room (kt_kernel s) <> 0%nat;
  bo_fits : child_fits phs file;
  bo_slots : DEFAULT_EMPTY_SLOT_INDEX +
    Z.of_nat (5 + (child_pages phs * Z.to_nat NUM_LEVELS + (Z.to_nat NUM_LEVELS + m))) <= DEFAULT_THREAD_RECV_SLOT;
  bo_alloc : alloc_ok (5 + (child_pages phs * Z.to_nat NUM_LEVELS + (Z.to_nat NUM_LEVELS + m)))
    (boot_allocator, kt_kernel s);
}.


(** ** Witness *)

(** The reference kernel with a root task that sends the handler. *)
#[local] Existing Instances ref_sel4 ref_view packed_message_info ref_kenv.

Definition ref_irq_ops : @IrqOps ref_sel4 packed_message_info := {|
  irq_recv _ slot b (k : @kstate ref_sel4) := (b, set_rcaps (<[slot := ROther]> (rk_caps k)) k);
  irq_reply _ _ k := k;
  irq_handler_set_notification _ _ k := (Ok tt, k);
  irq_handler_ack _ k := (Ok tt, k);
  ntfn_wait _ k := k;
|}.

Definition ref_other (k : rk) (c : Z) : bool := bool_decide (rk_caps k !! c = Some ROther).
Definition ref_irq_view : @IrqView ref_sel4 ref_view := {| is_ntfn := ref_other; is_handler := ref_other |}.
#[local] Existing Instances ref_irq_ops ref_irq_view.

Lemma ref_irq_laws : IrqLaws (TH := ref_threads).
Proof.
  assert (forall k : rk, irq_step (TH := ref_threads) nowhere1 k k) as Hrefl
    by (split; try done; apply kdiff_refl).
  split; try done.
  - intros k u c s k'. cbn. unfold r_retype, r_err. cbn. repeat case_match; try done. intros [= <-].
    apply bool_decide_eq_true. cbn. by rewrite lookup_insert_eq.
  - intros mi b k irq [_ Hb] _. eexists _, _. split; [reflexivity|]. split; [|apply Hrefl]. split; [reflexivity|exact Hb].
  - intros slot b k Hb He. eexists _, _. split; [reflexivity|]. split; [exact Hb|]. split.
    + assert (forall c, ~ only slot c -> slot <> c) as Hne by (intros c Hc <-; by apply Hc).
      split; [r_kdiff|done|done|..]; intros c Hc; cbn; unfold ref_other; cbn;
        by rewrite lookup_insert_ne by (by apply Hne).
    + cbn. unfold ref_other. cbn. by rewrite lookup_insert_eq, bool_decide_true.
  - intros k h n _ _. exists k. done.
  - intros k h _. exists k. done.
Qed.

Definition ref_boot_kt : KT := MkKT ∅ (ObjectAllocator_empty,
  MkRk {[1 := ROther; 2 := ROther; 3 := RVs 0]} ∅ ∅ {[(0, 39, 0); (0, 30, 0); (0, 21, 0)]} 400 {[0]} ∅) 1 blank_ipc [] [].

Lemma ref_bootable : bootable (TH := ref_threads) ref_child_phs ref_child_elf (mmap_cost 4096 + 0) ref_boot_kt.
Proof.
  assert (forall seat, page_aligned seat -> seat = 0x7000 \/ seat = 0x8000 -> seat_free seat (kt_kernel ref_boot_kt)) as HS.
  { intros seat Hal Hs. split; [reflexivity|done|lia|destruct Hs; subst; vm_compute; reflexivity|reflexivity]. }
  split; try reflexivity.
  - apply blank_ipc_wf.
  - split; [split|apply HS; [reflexivity|by right]|vm_compute; discriminate]; try reflexivity;
      [apply HS; [reflexivity|by left]|intros [Hr _]; vm_compute in Hr; by apply Hr..].
  - split; [reflexivity|intros [Hr _]; vm_compute in Hr; by apply Hr].
  - discriminate.
  - apply ref_child_fits.
  - vm_compute. discriminate.
  - split; cbn.
    + vm_compute. intuition discriminate.
    + intros c [Hc _]. unfold DEFAULT_EMPTY_SLOT_INDEX in Hc. by rewrite !lookup_insert_ne, lookup_singleton_ne by lia.
    + vm_compute. lia.
    + reflexivity.
    + intros c Hc. apply bool_decide_eq_false. rewrite elem_of_singleton. unfold DEFAULT_EMPTY_SLOT_INDEX in Hc. lia.
Qed.

