(* ===== verification/MemSpec.v ===== *)
(** * The memory service and its specification

    What the kernel thread promises a user program about its memory, stated
    without tasks, capabilities, frames, translation tables or messages: every
    task has a partial function from addresses to bytes, and there is a console.
    The service loop refines it. *)

From S2P Require Import Prelude Words Consts Sel4 Sel4Laws RefKernel Externs Reference Messages Uspace ObjAllocator KTask FrameMem UserMem Exec ImageMap KThread NetClient Syscalls KInv Clone Dispatch.

(** ** The specification *)

Record MemSpec := MkMem {
  am_tasks : gset Z;
  am_mem : Z -> Z -> option Z;
  am_console : list Z;
}.

Inductive mreq :=
  | QMmap (badge addr len prot flags fd off : Z)
  | QMunmap (badge addr len : Z)
  | QWrite (badge fd buf count : Z)
  | QFault (badge addr : Z).

Definition set_mem (b : Z) (f : Z -> option Z) (A : MemSpec) : MemSpec :=
  MkMem (am_tasks A) (fun b' => if decide (b' = b) then f else am_mem A b') (am_console A).

(** Zeroed memory where there was none, and no memory. *)
Definition fill (lo hi : Z) (mem : Z -> option Z) : Z -> option Z := fun x =>
  match mem x with
  | Some v => Some v
  | None => if decide (lo <= x < hi) then Some 0 else None
  end.
Definition erase (lo hi : Z) (mem : Z -> option Z) : Z -> option Z := fun x =>
  if decide (lo <= x < hi) then None else mem x.

(** One request with its answer; a page fault has none.  The place of a mapping
    that is not fixed is the service's choice among the free areas. *)
Inductive spec_step `{Bitflags} (A : MemSpec) :
    mreq -> option (result Z Errno) -> MemSpec -> Prop :=
  | spec_mmap b addr len prot flags fd off mf r :
      bf_from_bits MmapFlags_all (as_i32 flags) = Some mf ->
      (if bf_contains mf MAP_FIXED then r = addr
       else USPACE_BASE <= r /\ forall x, r <= x < r + len -> am_mem A b x = None) ->
      spec_step A (QMmap b addr len prot flags fd off) (Some (Ok r))
        (set_mem b (fill (down 4096 r) (up 4096 (r + len)) (am_mem A b)) A)
  | spec_munmap b addr len :
      spec_step A (QMunmap b addr len) (Some (Ok 0))
        (set_mem b (erase (down 4096 addr) (up 4096 (addr + len)) (am_mem A b)) A)
  | spec_write b fd buf count bs :
      mapM (am_mem A b) (seqZ buf count) = Some bs ->
      spec_step A (QWrite b fd buf count) (Some (Ok count))
        (MkMem (am_tasks A) (am_mem A) (am_console A ++ bs))
  | spec_fault b addr :
      spec_step A (QFault b addr) None
        (set_mem b (fill (down 4096 addr) (down 4096 addr + 4096) (am_mem A b)) A).

(** The requests the service accepts in a state of the specification: known
    tasks and flags, addresses of the user half, a mapped buffer to print, a
    fault where nothing is mapped. *)
Definition admissible `{Bitflags} (fuel : nat) (A : MemSpec) (q : mreq) : Prop :=
  match q with
  | QMmap b addr len prot flags _ _ =>
      b ∈ am_tasks A /\ 0 <= addr /\ 0 <= len <= 2 ^ 40 /\ addr + len <= 2 ^ 40 /\
      (forall x, am_mem A b x <> None -> x < 2 ^ 40) /\
      bf_from_bits MmapFlags_all (as_i32 flags) <> None /\
      bf_from_bits MmapProt_all (as_i32 prot) <> None
  | QMunmap b addr len => b ∈ am_tasks A /\ 0 <= addr /\ 0 <= len /\ addr + len <= 2 ^ 40
  | QWrite b fd buf count =>
      b ∈ am_tasks A /\ (fd = STDOUT_FD \/ fd = STDERR_FD) /\ 0 <= count < 2 ^ 64 /\ 0 <= buf /\
      buf + count < 2 ^ 64 /\ (process_fuel count <= fuel)%nat /\
      (forall i, 0 <= i < count -> am_mem A b (buf + i) <> None)
  | QFault b addr => b ∈ am_tasks A /\ 0 <= addr < 2 ^ 48 /\ am_mem A b addr = None
  end.

(** A sequence of requests, each admissible whatever the service chose before. *)
Fixpoint all_admissible `{Bitflags} (fuel : nat) (A : MemSpec) (qs : list mreq) : Prop :=
  match qs with
  | [] => True
  | q :: qs => admissible fuel A q /\ forall ans A', spec_step A q ans A' -> all_admissible fuel A' qs
  end.

Inductive spec_run `{Bitflags} (A : MemSpec) :
    list mreq -> list (option (result Z Errno)) -> MemSpec -> Prop :=
  | spec_done : spec_run A [] [] A
  | spec_more q qs ans anss A1 A2 :
      spec_step A q ans A1 -> spec_run A1 qs anss A2 -> spec_run A (q :: qs) (ans :: anss) A2.

(** ** The correspondence with the kernel thread *)

Section refinement.
Context `{L : Sel4Laws} `{MI : MessageInfoApi} `{ML : MemoryAddrLaws} `{AX : AxErrno}
  `{BF : Bitflags} `{SL : SyscallsLaws} `{KE : !KEnv}.
Variables (asp : Z -> VS) (fuel : nat) (ep : CPtr).

Record repr (s : KT) (A : MemSpec) : Prop := {
  re_ok : kt_ok page_seat asp s;
  re_tasks b : b ∈ am_tasks A <-> is_Some (kt_tasks s !! b);
  re_mem b x : b ∈ am_tasks A -> user_byte (kt_kernel s) (asp b) x = am_mem A b x;
  re_console : kt_console s = am_console A;
  re_resume b t : kt_tasks s !! b = Some t -> resumable (t_tcb t);
}.

(** The message a request travels in. *)
Definition syscall_msg (m : Incoming) (badge : Z) (n : Sysno) (args : list Z) : Prop :=
  CustomMessageLabel_try_from (in_message m) = Some CML_SysCall /\ 8 <= mi_label (in_message m) /\
  in_badge m = badge /\ length (in_regs m) = MSG_MAX_LENGTH /\ length args = 6%nat /\
  exists rest, in_regs m = Sysno_id n :: args ++ rest.

Definition msg_of (q : mreq) (m : Incoming) : Prop :=
  match q with
  | QMmap b addr len prot flags fd off => syscall_msg m b sys_no_mmap [addr; len; prot; flags; fd; off]
  | QMunmap b addr len => exists c d e f, syscall_msg m b sys_no_munmap [addr; len; c; d; e; f]
  | QWrite b fd buf count => exists d e f, syscall_msg m b sys_no_write [fd; buf; count; d; e; f]
  | QFault b addr =>
      mi_label (in_message m) < 8 /\ in_fault m = VmFault addr /\ in_badge m = b /\
      length (in_regs m) = MSG_MAX_LENGTH
  end.

(** The reply an answer travels in. *)
Definition answered (ans : option (result Z Errno)) (r : served) : Prop :=
  match ans with
  | Some res => r = Replied (mi_new 0 0 0 8) [encode_result res]
  | None => r = NoReply
  end.

Definition cost (q : mreq) : nat :=
  match q with
  | QMmap _ _ len _ _ _ _ => mmap_cost len
  | QMunmap _ _ _ | QWrite _ _ _ _ => 0
  | QFault _ _ => Z.to_nat NUM_LEVELS
  end.

Lemma repr_set_ipc b s A : repr s A -> repr (set_ipc b s) A.
Proof. intros [[? ? ?] ? ? ? ?]. by split. Qed.

(** A step of one task that turns its memory into [f]. *)
Lemma repr_step b f con mem s s' A :
  repr s A -> b ∈ am_tasks A -> mem_step page_seat asp b s s' ->
  (forall x, user_byte (kt_kernel s') (asp b) x = f x) -> kt_console s' = con ->
  (forall b' x, mem b' x = if decide (b' = b) then f x else am_mem A b' x) ->
  repr s' (MkMem (am_tasks A) mem con).
Proof.
  intros [R1 R2 R3 R4 R5] Hb HM Hf Hcon Hmem. split; simpl.
  - apply HM.
  - intros b'. rewrite R2. symmetry. apply HM.
  - intros b' x Hb'. rewrite Hmem. case_decide as Hd; [by subst b'|].
    rewrite (ms_other _ _ _ _ _ HM); [by apply R3|by apply R2|done].
  - done.
  - intros b' t' Ht'. destruct (proj1 (ms_tasks _ _ _ _ _ HM b')) as [t Ht]; [eauto|].
    rewrite (ms_tcb _ _ _ _ _ HM b' t t' Ht Ht'). eauto.
Qed.

Lemma repr_set_mem b f s s' A :
  repr s A -> b ∈ am_tasks A -> mem_step page_seat asp b s s' ->
  (forall x, user_byte (kt_kernel s') (asp b) x = f x) -> kt_console s' = kt_console s ->
  repr s' (set_mem b f A).
Proof.
  intros R Hb HM Hf Hc. eapply (repr_step b f _ _ s); try done.
  - rewrite Hc. apply R.
  - intros b' x. by case_decide.
Qed.

(** The abstract memory decides which pages the task has. *)
Lemma repr_page s A b t x :
  repr s A -> kt_tasks s !! b = Some t ->
  is_Some (t_mapped_page t !! down 4096 x) <-> am_mem A b x <> None.
Proof.
  intros R Ht. destruct (ko_task _ _ _ (re_ok _ _ R) b t Ht) as [Hok _].
  rewrite <- (re_mem _ _ R b x) by (apply R; eauto). unfold user_byte, kt_kernel.
  destruct (t_mapped_page t !! down 4096 x) as [c|] eqn:E.
  - destruct (to_page _ _ _ _ Hok _ _ E) as (_ & _ & _ & _ & f & _ & ->). simpl. naive_solver.
  - rewrite (to_unmapped _ _ _ _ Hok _ E). simpl. split; [by intros []|done].
Qed.

(** What a handler owes the specification. *)
Definition implements (q : mreq) (n : nat) (A : MemSpec) (res : result Z Errno) (s' : KT) : Prop :=
  exists A', spec_step A q (Some res) A' /\ repr s' A' /\ alloc_ok n (kt_ak s').

Lemma mmap_implements s A n b addr len prot flags fd off :
  let q := QMmap b addr len prot flags fd off in
  repr s A -> admissible fuel A q -> alloc_ok (cost q + n) (kt_ak s) ->
  wp (sys_mmap b addr len prot flags fd off)
     (fun res s' => kt_ipc s' = kt_ipc s /\ implements q n A res s') s.
Proof.
  simpl. intros R (Hb & Ha & Hl & He & Hhi & Hf & Hp) HA.
  destruct (proj1 (re_tasks _ _ R b) Hb) as [t Ht].
  destruct (bf_from_bits MmapFlags_all (as_i32 flags)) as [mf|] eqn:Ef; [|done].
  destruct (bf_from_bits MmapProt_all (as_i32 prot)) as [mp|] eqn:Ep; [|done].
  destruct (ko_task _ _ _ (re_ok _ _ R) b t Ht) as [Hok _].
  assert (exists r, mmap_start t mf addr len = Some r /\ 0 <= r <= 2 ^ 40 + 4096 /\
    if bf_contains mf MAP_FIXED then r = addr
    else USPACE_BASE <= r /\ forall x, r <= x < r + len -> am_mem A b x = None)
    as (r & Hst & Hr & Hspec).
  { unfold mmap_start. destruct (bf_contains mf MAP_FIXED); [exists addr; split_and!; try done; lia|].
    destruct (free_area_unmapped (asp b) t _ _ addr len Hok) as (r & Hr & Hbase & Hfree); try done.
    { intros va c Hc. destruct (to_page _ _ _ _ Hok va c Hc) as (Hal & _). apply Hhi.
      apply (repr_page s A b t va R Ht). unfold down, page_aligned in *.
      rewrite Hal, Z.sub_0_r. eauto. }
    exists r. split; [done|]. unfold USPACE_BASE in *. split; [lia|]. split; [lia|].
    intros x Hx. rewrite <- (re_mem _ _ R b x Hb). by apply Hfree. }
  pose proof (up_bounds 4096 (r + len) ltac:(lia)).
  eapply wp_mono; [eapply (wp_sys_mmap page_seat asp n s b t _ _ _ _ _ _ mf mp r); try done; [apply R|lia..]|].
  intros res s' (-> & HM & Hc & HZ & HA'). split; [apply HM|].
  eexists. split; [by econstructor|]. split; [|done].
  eapply repr_set_mem; [done|done|exact HM| |done].
  intros x. rewrite HZ. unfold fill. by rewrite (re_mem _ _ R b x Hb).
Qed.

Lemma munmap_implements s A n b addr len :
  let q := QMunmap b addr len in
  repr s A -> admissible fuel A q -> alloc_ok (cost q + n) (kt_ak s) ->
  wp (sys_unmap b addr len) (fun res s' => kt_ipc s' = kt_ipc s /\ implements q n A res s') s.
Proof.
  simpl. intros R (Hb & Ha & Hl & He) HA. destruct (proj1 (re_tasks _ _ R b) Hb) as [t Ht].
  pose proof (up_bounds 4096 (addr + len) ltac:(lia)).
  eapply wp_mono; [apply (wp_sys_unmap page_seat asp n s b t); try done; [apply R|lia]|].
  intros res s' (-> & HM & Hc & HU & HA'). split; [apply HM|].
  eexists. split; [constructor|]. split; [|by apply HA'].
  eapply repr_set_mem; [done|done|exact HM| |done].
  intros x. rewrite HU. unfold erase. by rewrite (re_mem _ _ R b x Hb).
Qed.

Lemma write_implements s A n b fd buf count :
  let q := QWrite b fd buf count in
  repr s A -> admissible fuel A q -> alloc_ok (cost q + n) (kt_ak s) ->
  wp (sys_write fuel b fd buf count) (fun res s' => kt_ipc s' = kt_ipc s /\ implements q n A res s') s.
Proof.
  simpl. intros R (Hb & Hfd & Hc & Hbuf & He & Hf & Hm) HA.
  destruct (proj1 (re_tasks _ _ R b) Hb) as [t Ht].
  eapply wp_mono; [apply (wp_sys_write asp n s b t); try done; [apply R|]|].
  { intros i Hi. by apply (repr_page s A b t _ R Ht), Hm. }
  intros res s' (-> & HM & HU & (bs & Hbs & Hcon) & HA'). split; [apply HM|].
  assert (mapM (am_mem A b) (seqZ buf count) = Some bs) as Hbs'.
  { rewrite <- Hbs. unfold user_bytes. rewrite Z2Nat.id by lia.
    apply mapM_ext. intros x. symmetry. by apply R. }
  eexists. split; [by constructor|]. split; [|by apply HA'].
  apply (repr_step b (am_mem A b) _ _ s s' A R Hb HM).
  - intros x. rewrite HU. by apply R.
  - rewrite Hcon. f_equal. apply R.
  - intros b' x. by case_decide; subst.
Qed.

(** A handler that implements a request, behind the dispatcher. *)
Lemma serve_implements s A n m b no a1 a2 a3 a4 a5 a6 q :
  repr s A -> syscall_msg m b no [a1; a2; a3; a4; a5; a6] -> (forall id, no <> sys_other id) ->
  ipc_wf (kt_ipc s) ->
  (forall s1, repr s1 A -> kt_ak s1 = kt_ak s ->
     wp (handle_ipc_call fuel b (Sysno_id no) [a1; a2; a3; a4; a5; a6] ep)
        (fun res s' => kt_ipc s' = kt_ipc s1 /\ implements q n A res s') s1) ->
  wp (serve fuel ep m)
     (fun r s' => ipc_wf (kt_ipc s') /\ exists ans A', spec_step A q ans A' /\ answered ans r /\
        repr s' A' /\ alloc_ok n (kt_ak s')) s.
Proof.
  intros R (Hl & H8 & Hb & Hlen & _ & rest & Hr) Hno Hwf Hh. subst b. simpl in Hr.
  destruct (Hh (set_ipc (set_msg_regs (in_regs m) (kt_ipc s)) s)) as (res & s' & E & Hipc & A' & HS & HR & HA);
    [by apply repr_set_ipc|done|].
  assert (ipc_wf (kt_ipc s')) as Hwf'.
  { rewrite Hipc. destruct Hwf as [_ Hc]. by split. }
  eexists _, _. split; [by eapply (serve_syscall fuel ep m s)|]. split.
  { destruct Hwf' as [H1' H2']. split; simpl; [by rewrite length_insert|done]. }
  exists (Some res), A'. split; [done|]. split; [done|]. split; [by apply repr_set_ipc|done].
Qed.

(** One request. *)
Lemma serve_refines s A n q m :
  repr s A -> ipc_wf (kt_ipc s) -> admissible fuel A q -> msg_of q m ->
  alloc_ok (cost q + n) (kt_ak s) ->
  wp (serve fuel ep m)
     (fun r s' => ipc_wf (kt_ipc s') /\ exists ans A', spec_step A q ans A' /\ answered ans r /\
        repr s' A' /\ alloc_ok n (kt_ak s')) s.
Proof.
  intros R Hwf Had Hm HA.
  assert (forall no, (forall id, no <> sys_other id) -> Sysno_new (Sysno_id no) = Some no) as Hno
    by (intros; by apply Sysno_new_id).
  destruct q as [b addr len prot flags fd off|b addr len|b fd buf count|b addr]; cbn [msg_of] in Hm.
  - eapply (serve_implements s A n m b sys_no_mmap); try done. intros s1 R1 Eak. unfold wp.
    rewrite (dispatch_args _ _ _ _ _ _ _ _ _ _ sys_no_mmap) by (by apply Hno).
    apply mmap_implements; [done..|by rewrite Eak].
  - destruct Hm as (c & d & e & f & Hm).
    eapply (serve_implements s A n m b sys_no_munmap); try done. intros s1 R1 Eak. unfold wp.
    rewrite (dispatch_args _ _ _ _ _ _ _ _ _ _ sys_no_munmap) by (by apply Hno).
    apply munmap_implements; [done..|by rewrite Eak].
  - destruct Hm as (d & e & f & Hm).
    eapply (serve_implements s A n m b sys_no_write); try done. intros s1 R1 Eak. unfold wp.
    rewrite (dispatch_args _ _ _ _ _ _ _ _ _ _ sys_no_write) by (by apply Hno).
    assert (as_i32 fd = fd) as ->.
    { destruct Had as (_ & [->| ->] & _); reflexivity. }
    apply write_implements; [done..|by rewrite Eak].
  - destruct Hm as (H8 & Hf & Hb & Hlen). destruct Had as (Htb & Ha & Hn).
    destruct (proj1 (re_tasks _ _ R b) Htb) as [t Ht].
    unfold serve. wp_step. wp_step. rewrite (proj2 (Z.ltb_lt _ _) H8), Hf, Hb. wp_step.
    set (s1 := set_ipc _ s). assert (repr s1 A) as R1 by by apply repr_set_ipc.
    eapply wp_mono; [apply (wp_handle_fault page_seat asp n s1 b addr t); try done;
      [apply R1| |by apply (re_resume _ _ R b)]|].
    { destruct (t_mapped_page t !! down 4096 addr) eqn:E; [|done].
      destruct (proj1 (repr_page s A b t addr R Ht)); [eauto|done]. }
    intros [] s' (HM & Hc & HZ & HA'). wp_step. split.
    { rewrite (ms_ipc _ _ _ _ _ HM). destruct Hwf as [_ Hwc]. by split. }
    eexists None, _. split; [constructor|]. split; [done|]. split; [|done].
    eapply repr_set_mem; [exact R1|done|exact HM| |done].
    intros x. rewrite HZ. unfold fill. by rewrite (re_mem _ _ R1 b x Htb).
Qed.

Definition total_cost (qs : list mreq) : nat := sum_list_with cost qs.

Lemma service_loop_implements qs : forall msgs s A,
  repr s A -> ipc_wf (kt_ipc s) -> all_admissible fuel A qs -> Forall2 msg_of qs msgs ->
  alloc_ok (total_cost qs) (kt_ak s) ->
  wp (service_loop fuel ep msgs)
     (fun rs s' => exists anss A', spec_run A qs anss A' /\ Forall2 answered anss rs /\ repr s' A') s.
Proof.
  induction qs as [|q qs IH]; intros msgs s A R Hwf Had Hms HA.
  - apply Forall2_nil_inv_l in Hms as ->. simpl. wp_step. exists [], A. split; [constructor|]. by split.
  - apply Forall2_cons_inv_l in Hms as (m & ms & Hm & Hms & ->). destruct Had as [Ha Hrest]. simpl.
    wp_step. eapply wp_mono; [apply (serve_refines s A (total_cost qs) q m); done|].
    intros r s1 (Hwf1 & ans & A1 & HS & Hr & R1 & HA1).
    assert (wp (rs ← service_loop fuel ep ms; mret (r :: rs))
      (fun rs s' => exists anss A', spec_run A (q :: qs) anss A' /\ Forall2 answered anss rs /\ repr s' A') s1)
      as Hnext.
    { wp_step. eapply wp_mono; [apply (IH ms s1 A1); eauto|].
      intros rs s2 (anss & A2 & HRun & HF & R2). wp_step.
      exists (ans :: anss), A2. split; [by econstructor|]. by split; [constructor|]. }
    destruct ans as [res|]; simpl in Hr; subst r; exact Hnext.
Qed.
End refinement.

(** ** Theorem *)


(** The reference task of [ref_kt], with "hi" at [0x5000]. *)
Definition ref_mem : MemSpec :=
  MkMem {[1]} (fun _ => @user_byte ref_sel4 ref_view (@kt_kernel ref_sel4 (ref_kt 8)) 5) [].

Definition ref_msg (label : Z) (f : Fault) (regs : list Z) : @Incoming packed_message_info :=
  @MkIncoming packed_message_info (@mi_new packed_message_info label 0 0 56)
    (regs ++ replicate (MSG_MAX_LENGTH - length regs) 0) f 1.

Lemma ref_mem_repr :
  @repr ref_sel4 ref_view packed_message_info ref_kenv (fun _ => 5) (ref_kt 8) ref_mem.
Proof.
  split.
  - apply ref_kt_ok.
  - intros b. cbn. rewrite elem_of_singleton. split; [intros ->; by eexists|].
    intros [t [<- _]%lookup_singleton_Some]. done.
  - intros b x Hb. reflexivity.
  - reflexivity.
  - intros b t _. apply ref_resumable.
Qed.

